(** * WID / HLC-WID: the codec and the generators of [wid.h]

    A shallow embedding of the single-header C library [c/src/wid.h]:
    the grammar validators, the parsers, the monotonic WID generator and the
    hybrid-logical-clock generator, with the properties the specification
    states about them.

    Modelling conventions.
    - A C string is the list of the characters that precede its terminator
      ([cstring]).  Reading index [strlen s] yields the terminator NUL; the
      code never reads further.  A pointer [s + k] into a string is the list
      [skipn k s]; [p[0] == 0] holds exactly when that list is empty.
      Pointer arguments are taken to be non-null.
    - [int] and [int64_t] values are integers of [Z].  Conversions of a
      [size_t] to [int] wrap modulo 2^32 ([cast_int]).  Signed 64-bit
      arithmetic that leaves the type, and a write beyond a local array, have
      no defined behaviour in C: the generator functions return [None] there
      ([add_i64], [wid_random_hex]).
    - The wall clock and the random device are inputs: the tick read by
      [wid_now_tick] is the argument [now], the bytes left in [raw] by the
      random source are the argument [rnd].
    - [gmtime_r], [strftime] and [snprintf] belong to the C library; their
      models are in section "C library". *)

From Stdlib Require Import ZArith Ascii String Bool Lia List.
Import ListNotations.
Local Open Scope Z_scope.

(** ** Machine integers *)

Definition INT_MAX : Z := 2147483647.
Definition INT_MIN : Z := -2147483648.
Definition INT64_MAX : Z := 9223372036854775807.
Definition INT64_MIN : Z := -9223372036854775808.

(** [(int) x] for an integer [x] of a wider type. *)
Definition cast_int (x : Z) : Z := (x + 2147483648) mod 4294967296 - 2147483648.

Definition fits_i64 (x : Z) : bool := (INT64_MIN <=? x) && (x <=? INT64_MAX).
Definition fits_int (x : Z) : bool := (INT_MIN <=? x) && (x <=? INT_MAX).

(** Signed 64-bit addition; overflow is undefined behaviour. *)
Definition add_i64 (a b : Z) : option Z :=
  if fits_i64 (a + b) then Some (a + b) else None.

(** Sequencing of computations that may be undefined. *)
Definition bind {A B : Type} (m : option A) (k : A -> option B) : option B :=
  match m with
  | Some a => k a
  | None => None
  end.

Notation "x <- m ;; k" := (bind m (fun x => k))
  (at level 61, m at next level, right associativity).

(** ** Characters and strings *)

Definition cstring : Type := list ascii.

Definition NUL : ascii := Ascii.zero.

Definition code (c : ascii) : Z := Z.of_N (N_of_ascii c).

Definition strlen (s : cstring) : Z := Z.of_nat (length s).

(** [s[i]]; the terminator sits at index [strlen s]. *)
Definition char_at (s : cstring) (i : Z) : ascii :=
  if i <? 0 then NUL else nth (Z.to_nat i) s NUL.

(** The pointer [s + k]. *)
Definition advance (s : cstring) (k : Z) : cstring := skipn (Z.to_nat k) s.

(** [p[0] == 0]. *)
Definition at_end (p : cstring) : bool :=
  match p with
  | [] => true
  | _ :: _ => false
  end.

(** [for (int i = lo; i < lo + cnt; i++) if (!p (i)) return false;] *)
Fixpoint all_from (lo : Z) (cnt : nat) (p : Z -> bool) : bool :=
  match cnt with
  | O => true
  | S cnt' => if p lo then all_from (lo + 1) cnt' p else false
  end.

Definition all_between (lo hi : Z) (p : Z -> bool) : bool :=
  all_from lo (Z.to_nat (hi - lo)) p.

(** ** wid.h: constants and types *)

Definition WID_MAX_LEN : Z := 256.
Definition WID_DEFAULT_W : Z := 4.
Definition WID_DEFAULT_Z : Z := 6.
Definition WID_MAX_W : Z := 18.
Definition WID_MAX_Z : Z := 64.
(** [sizeof(out->node)], [sizeof(gen->node)]. *)
Definition NODE_SIZE : Z := 64.

Inductive wid_time_unit_t : Type :=
| WID_TIME_SEC
| WID_TIME_MS.

Definition is_ms (u : wid_time_unit_t) : bool :=
  match u with
  | WID_TIME_MS => true
  | WID_TIME_SEC => false
  end.

Record wid_gen_t : Type := mk_wid_gen {
  W : Z;
  Z_ : Z;
  time_unit : wid_time_unit_t;
  last_tick : Z;
  last_seq : Z;
  max_seq : Z
}.

Record hlc_wid_gen_t : Type := mk_hlc_gen {
  hW : Z;
  hZ : Z;
  htime_unit : wid_time_unit_t;
  node : cstring;
  pt : Z;
  lc : Z;
  max_lc : Z
}.

(** The calendar fields written through the out-pointers of
    [wid_parse_timestamp]. *)
Record timestamp_t : Type := mk_timestamp {
  year : Z;
  month : Z;
  day : Z;
  hour : Z;
  minute : Z;
  second : Z;
  millisecond : Z
}.

Record parsed_wid_t : Type := mk_parsed_wid {
  raw : cstring;
  stamp : timestamp_t;
  sequence : Z;
  has_padding : bool;
  padding : cstring
}.

Record parsed_hlc_wid_t : Type := mk_parsed_hlc {
  hraw : cstring;
  hstamp : timestamp_t;
  logical_counter : Z;
  pnode : cstring;
  hhas_padding : bool;
  hpadding : cstring
}.

(** ** wid.h: character classes and calendar *)

Definition wid_is_digit (c : ascii) : bool :=
  (("0" <=? c) && (c <=? "9"))%char.

Definition wid_is_alpha (c : ascii) : bool :=
  ((("a" <=? c) && (c <=? "z")) || (("A" <=? c) && (c <=? "Z")))%char.

Definition wid_is_alnum (c : ascii) : bool :=
  wid_is_digit c || wid_is_alpha c.

Definition wid_is_lower_hex (c : ascii) : bool :=
  ((("0" <=? c) && (c <=? "9")) || (("a" <=? c) && (c <=? "f")))%char.

Definition wid_is_leap_year (y : Z) : bool :=
  if Z.rem y 400 =? 0 then true
  else if Z.rem y 100 =? 0 then false
  else Z.rem y 4 =? 0.

Definition days_in_month : list Z := [31; 28; 31; 30; 31; 30; 31; 31; 30; 31; 30; 31].

Definition wid_valid_ymdhms (y mo d h mi se : Z) : bool :=
  if (mo <? 1) || (12 <? mo) then false
  else if (h <? 0) || (23 <? h) then false
  else if (mi <? 0) || (59 <? mi) then false
  else if (se <? 0) || (59 <? se) then false
  else
    let dim := nth (Z.to_nat (mo - 1)) days_in_month 0 in
    let dim := if (mo =? 2) && wid_is_leap_year y then 29 else dim in
    (1 <=? d) && (d <=? dim).

Definition wid_is_node_char (c : ascii) : bool :=
  wid_is_alnum c || (c =? "_")%char.

Definition wid_valid_node (n : cstring) : bool :=
  if at_end n then false else forallb wid_is_node_char n.

Definition wid_valid_suffix (suffix : cstring) (z : Z) : bool :=
  match suffix with
  | [] => true
  | c :: pad =>
      if negb (c =? "-")%char then false
      else if z <=? 0 then false
      else
        let n := cast_int (strlen pad) in
        if negb (n =? z) then false
        else all_between 0 n (fun i => wid_is_lower_hex (char_at pad i))
  end.

Definition wid_timestamp_len (u : wid_time_unit_t) : Z :=
  if is_ms u then 18 else 15.

(** The loop of [wid_parse_digits_i64]: [i] is the index, [cnt] the number of
    iterations left, [v] the accumulator. *)
Fixpoint parse_digits_loop (s : cstring) (i : Z) (cnt : nat) (v : Z) : Z :=
  match cnt with
  | O => v
  | S cnt' =>
      if negb (wid_is_digit (char_at s i)) then -1
      else parse_digits_loop s (i + 1) cnt' (v * 10 + (code (char_at s i) - code "0"))
  end.

(** Every call site passes [n <= 18], so that the accumulator stays below
    10^18 and the 64-bit arithmetic is exact
    (lemma [wid_parse_digits_i64_range]). *)
Definition wid_parse_digits_i64 (s : cstring) (n : Z) : Z :=
  parse_digits_loop s 0 (Z.to_nat n) 0.

Definition wid_parse_timestamp (s : cstring) (u : wid_time_unit_t)
  : option timestamp_t :=
  let ts_len := wid_timestamp_len u in
  if negb (char_at s 8 =? "T")%char then None
  else if negb (all_between 0 8 (fun i => wid_is_digit (char_at s i))) then None
  else if negb (all_between 9 15 (fun i => wid_is_digit (char_at s i))) then None
  else
    let y := cast_int (wid_parse_digits_i64 (advance s 0) 4) in
    let mo := cast_int (wid_parse_digits_i64 (advance s 4) 2) in
    let d := cast_int (wid_parse_digits_i64 (advance s 6) 2) in
    let h := cast_int (wid_parse_digits_i64 (advance s 9) 2) in
    let mi := cast_int (wid_parse_digits_i64 (advance s 11) 2) in
    let se := cast_int (wid_parse_digits_i64 (advance s 13) 2) in
    if negb (wid_valid_ymdhms y mo d h mi se) then None
    else
      ms <- (if is_ms u then
               if negb (all_between 15 18 (fun i => wid_is_digit (char_at s i)))
               then None
               else
                 let ms := cast_int (wid_parse_digits_i64 (advance s 15) 3) in
                 if (ms <? 0) || (999 <? ms) then None else Some ms
             else Some 0) ;;
      if negb (char_at s ts_len =? ".")%char then None
      else Some (mk_timestamp y mo d h mi se ms).

Definition is_some {A : Type} (o : option A) : bool :=
  match o with
  | Some _ => true
  | None => false
  end.

(** ** wid.h: validators *)

Definition wid_validate_ex (wid : cstring) (w z : Z) (u : wid_time_unit_t) : bool :=
  if (w <=? 0) || (z <? 0) then false
  else if (WID_MAX_W <? w) || (WID_MAX_Z <? z) then false
  else
    let ts_len := wid_timestamp_len u in
    let n := cast_int (strlen wid) in
    let base_len := ts_len + 1 + w + 1 in
    if n <? base_len then false
    else if negb (is_some (wid_parse_timestamp wid u)) then false
    else if negb (char_at wid (ts_len + 1 + w) =? "Z")%char then false
    else if negb (all_between (ts_len + 1) (ts_len + 1 + w)
                    (fun i => wid_is_digit (char_at wid i))) then false
    else wid_valid_suffix (advance wid base_len) z.

(** The scan of the node segment in [hlc_wid_validate_ex]: [None] when a
    character outside the node alphabet is met, otherwise the value of
    [suffix_dash] ([None] for the null pointer). *)
Fixpoint hlc_scan_node (p : cstring) : option (option cstring) :=
  match p with
  | [] => Some None
  | c :: p' =>
      if (c =? "-")%char then Some (Some p)
      else if negb (wid_is_node_char c) then None
      else hlc_scan_node p'
  end.

Definition hlc_wid_validate_ex (wid : cstring) (w z : Z) (u : wid_time_unit_t) : bool :=
  if (w <=? 0) || (z <? 0) then false
  else if (WID_MAX_W <? w) || (WID_MAX_Z <? z) then false
  else
    let ts_len := wid_timestamp_len u in
    let n := cast_int (strlen wid) in
    let prefix_len := ts_len + 1 + w + 1 in
    if n <? prefix_len + 2 then false
    else if negb (is_some (wid_parse_timestamp wid u)) then false
    else if negb (char_at wid (ts_len + 1 + w) =? "Z")%char then false
    else if negb (char_at wid (ts_len + 1 + w + 1) =? "-")%char then false
    else if negb (all_between (ts_len + 1) (ts_len + 1 + w)
                    (fun i => wid_is_digit (char_at wid i))) then false
    else
      let node_start := advance wid (prefix_len + 1) in
      match hlc_scan_node node_start with
      | None => false
      | Some suffix_dash =>
          let node_len :=
            match suffix_dash with
            | Some q => cast_int (strlen node_start - strlen q)
            | None => cast_int (strlen node_start)
            end in
          if node_len <=? 0 then false
          else
            match suffix_dash with
            | None => true
            | Some q => wid_valid_suffix q z
            end
      end.

Definition wid_validate (wid : cstring) (w z : Z) : bool :=
  wid_validate_ex wid w z WID_TIME_SEC.

Definition hlc_wid_validate (wid : cstring) (w z : Z) : bool :=
  hlc_wid_validate_ex wid w z WID_TIME_SEC.

(** ** wid.h: parsers *)

(** [strchr (p, c)] for a character [c] other than NUL. *)
Fixpoint strchr (p : cstring) (c : ascii) : option cstring :=
  match p with
  | [] => None
  | x :: p' => if (x =? c)%char then Some p else strchr p' c
  end.

(** [memcpy (dst, src, n); dst[n] = 0]. *)
Definition copy_str (src : cstring) (n : Z) : cstring := firstn (Z.to_nat n) src.

Definition wid_parse_ex (wid : cstring) (w z : Z) (u : wid_time_unit_t)
  : option parsed_wid_t :=
  if negb (wid_validate_ex wid w z u) then None
  else
    let ts_len := wid_timestamp_len u in
    let base_len := ts_len + 1 + w + 1 in
    ts <- wid_parse_timestamp wid u ;;
    let seq := wid_parse_digits_i64 (advance wid (ts_len + 1)) w in
    if seq <? 0 then None
    else
      let suffix := advance wid base_len in
      if negb (at_end suffix) then
        let pad_len := strlen (advance suffix 1) in
        if WID_MAX_Z <? pad_len then None
        else Some (mk_parsed_wid wid ts seq true (copy_str (advance suffix 1) pad_len))
      else Some (mk_parsed_wid wid ts seq false []).

Definition hlc_wid_parse_ex (wid : cstring) (w z : Z) (u : wid_time_unit_t)
  : option parsed_hlc_wid_t :=
  if negb (hlc_wid_validate_ex wid w z u) then None
  else
    let ts_len := wid_timestamp_len u in
    let prefix_len := ts_len + 1 + w + 1 in
    ts <- wid_parse_timestamp wid u ;;
    let lc := wid_parse_digits_i64 (advance wid (ts_len + 1)) w in
    if lc <? 0 then None
    else
      let node_start := advance wid (prefix_len + 1) in
      let suffix_dash := strchr node_start "-" in
      let node_len :=
        match suffix_dash with
        | Some q => strlen node_start - strlen q
        | None => strlen node_start
        end in
      if (node_len =? 0) || (NODE_SIZE <=? node_len) then None
      else
        let nd := copy_str node_start node_len in
        match suffix_dash with
        | Some q =>
            let pad_len := strlen (advance q 1) in
            if WID_MAX_Z <? pad_len then None
            else Some (mk_parsed_hlc wid ts lc nd true (copy_str (advance q 1) pad_len))
        | None => Some (mk_parsed_hlc wid ts lc nd false [])
        end.

Definition wid_parse (wid : cstring) (w z : Z) : option parsed_wid_t :=
  wid_parse_ex wid w z WID_TIME_SEC.

Definition hlc_wid_parse (wid : cstring) (w z : Z) : option parsed_hlc_wid_t :=
  hlc_wid_parse_ex wid w z WID_TIME_SEC.

Definition str (s : string) : cstring := list_ascii_of_string s.

(** ** C library

    The part of [<stdio.h>] and [<time.h>] the generators call.  [printf_0d]
    is the conversion [%0*lld] (and [%03d]); [gmtime_r] follows the POSIX
    definition of seconds since the Epoch (every day has 86400 seconds, the
    Gregorian leap rule); [strftime_stamp] is [strftime] with the format
    [%Y%m%dT%H%M%S]. *)

Definition digit_char (d : Z) : ascii := ascii_of_N (Z.to_N (code "0" + d)).

(** Decimal digits of [v >= 0], most significant first, prepended to [acc]. *)
Fixpoint dec_loop (fuel : nat) (v : Z) (acc : cstring) : cstring :=
  match fuel with
  | O => acc
  | S fuel' =>
      let acc' := digit_char (v mod 10) :: acc in
      if v <? 10 then acc' else dec_loop fuel' (v / 10) acc'
  end.

(** A [long long] has at most 19 decimal digits. *)
Definition dec (v : Z) : cstring := dec_loop 20 v [].

Definition zeros (n : Z) : cstring := repeat "0"%char (Z.to_nat n).

(** [%0*lld] with field width [w]. *)
Definition printf_0d (w v : Z) : cstring :=
  if v <? 0 then "-"%char :: zeros (w - 1 - strlen (dec (- v))) ++ dec (- v)
  else zeros (w - strlen (dec v)) ++ dec v.

(** [snprintf (out, size, "%s", s)]: at most [size - 1] characters are
    stored (nothing is stored when [size] is 0). *)
Definition snprintf (size : Z) (s : cstring) : cstring :=
  firstn (Z.to_nat (size - 1)) s.

Record tm : Type := mk_tm {
  tm_sec : Z;
  tm_min : Z;
  tm_hour : Z;
  tm_mday : Z;
  tm_mon : Z;
  tm_year : Z
}.

Definition gregorian_leap (y : Z) : bool :=
  ((y mod 4 =? 0) && negb (y mod 100 =? 0)) || (y mod 400 =? 0).

Definition year_days (y : Z) : Z := if gregorian_leap y then 366 else 365.

Definition month_days (y : Z) : list Z :=
  [31; if gregorian_leap y then 29 else 28; 31; 30; 31; 30; 31; 31; 30; 31; 30; 31].

(** The year that contains day [d], counted from the first day of year [y]. *)
Fixpoint split_year (fuel : nat) (y d : Z) : Z * Z :=
  match fuel with
  | O => (y, d)
  | S fuel' =>
      if d <? year_days y then (y, d)
      else split_year fuel' (y + 1) (d - year_days y)
  end.

(** The month that contains day [d] of a year with the month lengths [lens]. *)
Fixpoint split_month (lens : list Z) (m d : Z) : Z * Z :=
  match lens with
  | [] => (m, d)
  | len :: lens' =>
      if d <? len then (m, d) else split_month lens' (m + 1) (d - len)
  end.

(** [gmtime_r]: [None] is the null result (the year does not fit [int]).
    The Gregorian calendar repeats every 400 years, that is 146097 days. *)
Definition gmtime_r (t : Z) : option tm :=
  let days := t / 86400 in
  let secs := t mod 86400 in
  let era := days / 146097 in
  let doe := days mod 146097 in
  let '(y, doy) := split_year 400 (1970 + 400 * era) doe in
  let '(m, d) := split_month (month_days y) 0 doy in
  if fits_int (y - 1900)
  then Some (mk_tm (secs mod 60) (secs / 60 mod 60) (secs / 3600) (d + 1) m (y - 1900))
  else None.

(** The text of a time stamp: the format [%Y%m%dT%H%M%S] of [strftime],
    followed in millisecond mode by [%03d] of the milliseconds. *)
Definition fmt_stamp (u : wid_time_unit_t) (ts : timestamp_t) : cstring :=
  printf_0d 4 (year ts) ++ printf_0d 2 (month ts) ++ printf_0d 2 (day ts)
  ++ "T"%char :: printf_0d 2 (hour ts) ++ printf_0d 2 (minute ts)
  ++ printf_0d 2 (second ts)
  ++ (if is_ms u then printf_0d 3 (millisecond ts) else []).

Definition tm_stamp (t : tm) (ms : Z) : timestamp_t :=
  mk_timestamp (tm_year t + 1900) (tm_mon t + 1) (tm_mday t)
               (tm_hour t) (tm_min t) (tm_sec t) ms.

(** [strftime (base, max, "%Y%m%dT%H%M%S", tm)]; when the text and its
    terminator do not fit [max] bytes the contents of [base] are
    indeterminate ([None]).  Years from 1000 to 9999 are printed with their
    four digits by every C library. *)
Definition strftime_stamp (max : Z) (t : tm) : option cstring :=
  let s := fmt_stamp WID_TIME_SEC (tm_stamp t 0) in
  if strlen s <? max then Some s else None.

(** ** wid.h: generators *)

(** The size of the local array [raw] of [wid_random_hex]. *)
Definition RAW_SIZE : Z := WID_MAX_Z / 2 + 1.

Definition hex : cstring := str "0123456789abcdef".

(** [rnd i] is the byte [raw[i]] after the random source was read.  The
    function stores [len] bytes into [raw]: beyond [RAW_SIZE] that is a write
    outside the array, which has no defined behaviour. *)
Definition wid_random_hex (rnd : Z -> Z) (len : Z) : option cstring :=
  if RAW_SIZE <? len then None
  else Some (map (fun i => char_at hex (Z.land (rnd (Z.of_nat i)) 15))
                 (seq 0 (Z.to_nat len))).

Definition wid_fmt_tick (u : wid_time_unit_t) (tick : Z) : option cstring :=
  let sec := if is_ms u then Z.quot tick 1000 else tick in
  let ms := if is_ms u then
              let ms := cast_int (Z.rem tick 1000) in
              if ms <? 0 then ms + 1000 else ms
            else 0 in
  match gmtime_r sec with
  | None => Some []
  | Some t =>
      base <- strftime_stamp 20 t ;;
      if is_ms u then Some (snprintf 24 (base ++ printf_0d 3 ms))
      else Some (snprintf 24 base)
  end.

Fixpoint pow10_loop (cnt : nat) (v : Z) : Z :=
  match cnt with
  | O => v
  | S cnt' => if INT64_MAX / 10 <? v then INT64_MAX else pow10_loop cnt' (v * 10)
  end.

Definition wid_pow10_i64 (n : Z) : Z := pow10_loop (Z.to_nat n) 1.

Definition wid_gen_init_ex (w z : Z) (u : wid_time_unit_t) : wid_gen_t :=
  let w1 := if 0 <? w then w else WID_DEFAULT_W in
  let z1 := if 0 <=? z then z else WID_DEFAULT_Z in
  let w2 := if WID_MAX_W <? w1 then WID_MAX_W else w1 in
  let z2 := if WID_MAX_Z <? z1 then WID_MAX_Z else z1 in
  mk_wid_gen w2 z2 u 0 (-1) (wid_pow10_i64 w2 - 1).

Definition wid_gen_init (w z : Z) : wid_gen_t := wid_gen_init_ex w z WID_TIME_SEC.

(** The first half of [wid_gen_next]: the new [(last_tick, last_seq)]. *)
Definition wid_gen_next_state (gen : wid_gen_t) (now_tick : Z) : option wid_gen_t :=
  let tick := if last_tick gen <? now_tick then now_tick else last_tick gen in
  seq <- (if tick =? last_tick gen then add_i64 (last_seq gen) 1 else Some 0) ;;
  ts <- (if max_seq gen <? seq
         then (t <- add_i64 tick 1 ;; Some (t, 0))
         else Some (tick, seq)) ;;
  Some (mk_wid_gen (W gen) (Z_ gen) (time_unit gen) (fst ts) (snd ts) (max_seq gen)).

(** [wid_gen_next]: the new state and the text stored in [out]. *)
Definition wid_gen_next (gen : wid_gen_t) (now_tick : Z) (rnd : Z -> Z) (out_len : Z)
  : option (wid_gen_t * cstring) :=
  gen' <- wid_gen_next_state gen now_tick ;;
  ts <- wid_fmt_tick (time_unit gen') (last_tick gen') ;;
  let seq_str := snprintf 64 (printf_0d (W gen') (last_seq gen')) in
  if 0 <? Z_ gen' then
    pad <- wid_random_hex rnd (Z_ gen') ;;
    Some (gen', snprintf out_len (ts ++ str "." ++ seq_str ++ str "Z-" ++ pad))
  else
    Some (gen', snprintf out_len (ts ++ str "." ++ seq_str ++ str "Z")).

(** [strncpy (dst, src, n); dst[n] = 0]. *)
Definition strncpy (src : cstring) (n : Z) : cstring := firstn (Z.to_nat n) src.

Definition hlc_wid_gen_init_ex (nd : cstring) (w z : Z) (u : wid_time_unit_t)
  : option hlc_wid_gen_t :=
  if negb (wid_valid_node nd) then None
  else
    let w1 := if 0 <? w then w else WID_DEFAULT_W in
    let z1 := if 0 <=? z then z else 0 in
    let w2 := if WID_MAX_W <? w1 then WID_MAX_W else w1 in
    let z2 := if WID_MAX_Z <? z1 then WID_MAX_Z else z1 in
    Some (mk_hlc_gen w2 z2 u (strncpy nd (NODE_SIZE - 1)) 0 0 (wid_pow10_i64 w2 - 1)).

Definition hlc_wid_gen_init (nd : cstring) (w z : Z) : option hlc_wid_gen_t :=
  hlc_wid_gen_init_ex nd w z WID_TIME_SEC.

Definition set_clock (gen : hlc_wid_gen_t) (p l : Z) : hlc_wid_gen_t :=
  mk_hlc_gen (hW gen) (hZ gen) (htime_unit gen) (node gen) p l (max_lc gen).

Definition hlc_wid_rollover_if_needed (gen : hlc_wid_gen_t) : option hlc_wid_gen_t :=
  if max_lc gen <? lc gen then
    p <- add_i64 (pt gen) 1 ;; Some (set_clock gen p 0)
  else Some gen.

(** [hlc_wid_observe]: the returned flag and the state left in [gen]. *)
Definition hlc_wid_observe (gen : hlc_wid_gen_t) (remote_pt remote_lc now : Z)
  : option (bool * hlc_wid_gen_t) :=
  if (remote_pt <? 0) || (remote_lc <? 0) then Some (false, gen)
  else
    let new_pt := now in
    let new_pt := if new_pt <? pt gen then pt gen else new_pt in
    let new_pt := if new_pt <? remote_pt then remote_pt else new_pt in
    l <- (if (new_pt =? pt gen) && (new_pt =? remote_pt) then
            add_i64 (if remote_lc <? lc gen then lc gen else remote_lc) 1
          else if new_pt =? pt gen then add_i64 (lc gen) 1
          else if new_pt =? remote_pt then add_i64 remote_lc 1
          else Some 0) ;;
    gen' <- hlc_wid_rollover_if_needed (set_clock gen new_pt l) ;;
    Some (true, gen').

(** The first half of [hlc_wid_gen_next]: the new [(pt, lc)]. *)
Definition hlc_wid_gen_next_state (gen : hlc_wid_gen_t) (now : Z) : option hlc_wid_gen_t :=
  gen1 <- (if pt gen <? now then Some (set_clock gen now 0)
           else (l <- add_i64 (lc gen) 1 ;; Some (set_clock gen (pt gen) l))) ;;
  hlc_wid_rollover_if_needed gen1.

Definition hlc_wid_gen_next (gen : hlc_wid_gen_t) (now : Z) (rnd : Z -> Z) (out_len : Z)
  : option (hlc_wid_gen_t * cstring) :=
  gen' <- hlc_wid_gen_next_state gen now ;;
  ts <- wid_fmt_tick (htime_unit gen') (pt gen') ;;
  let lc_str := snprintf 64 (printf_0d (hW gen') (lc gen')) in
  if 0 <? hZ gen' then
    pad <- wid_random_hex rnd (hZ gen') ;;
    Some (gen', snprintf out_len
                  (ts ++ str "." ++ lc_str ++ str "Z-" ++ node gen' ++ str "-" ++ pad))
  else
    Some (gen', snprintf out_len (ts ++ str "." ++ lc_str ++ str "Z-" ++ node gen')).


(** ** Rendering of parsed fields

    The library has no function from parsed fields back to text.  The two
    renderers below put the parsed fields into the formats [wid_gen_next] and
    [hlc_wid_gen_next] print with: the time stamp of [wid_fmt_tick], the
    counter as [%0*lld] of width [W], the node, and the padding when the
    parsed value says there is one. *)

Definition render_wid (w : Z) (u : wid_time_unit_t) (p : parsed_wid_t) : cstring :=
  fmt_stamp u (stamp p) ++ str "." ++ printf_0d w (sequence p) ++ str "Z"
  ++ (if has_padding p then str "-" ++ padding p else []).

Definition render_hlc (w : Z) (u : wid_time_unit_t) (p : parsed_hlc_wid_t) : cstring :=
  fmt_stamp u (hstamp p) ++ str "." ++ printf_0d w (logical_counter p)
  ++ str "Z-" ++ pnode p
  ++ (if hhas_padding p then str "-" ++ hpadding p else []).

(** ** The grammar as a relation *)

(** One step of the loop of [wid_parse_digits_i64]. *)
Definition digit_step (v : Z) (c : ascii) : Z := v * 10 + (code c - code "0").

(** The value [wid_parse_digits_i64] reads off the digits [l]. *)
Definition digits_val (l : cstring) : Z := fold_left digit_step l 0.

(** [l] is a field of exactly [n] decimal digits. *)
Definition digits (n : Z) (l : cstring) : Prop :=
  strlen l = n /\ forallb wid_is_digit l = true.

(** [t] is the text [YYYYMMDDTHHMMSS[mmm]] of the calendar fields [ts]. *)
Inductive stamp_text (u : wid_time_unit_t) : cstring -> timestamp_t -> Prop :=
| stamp_text_intro (Y Mo D H Mi Se Ms : cstring) :
    digits 4 Y -> digits 2 Mo -> digits 2 D ->
    digits 2 H -> digits 2 Mi -> digits 2 Se ->
    digits (if is_ms u then 3 else 0) Ms ->
    wid_valid_ymdhms (digits_val Y) (digits_val Mo) (digits_val D)
                     (digits_val H) (digits_val Mi) (digits_val Se) = true ->
    stamp_text u (Y ++ Mo ++ D ++ str "T" ++ H ++ Mi ++ Se ++ Ms)
      (mk_timestamp (digits_val Y) (digits_val Mo) (digits_val D)
                    (digits_val H) (digits_val Mi) (digits_val Se) (digits_val Ms)).

(** [pad] is a padding of exactly [z] lowercase hexadecimal digits. *)
Definition pad_text (z : Z) (pad : cstring) : Prop :=
  strlen pad = z /\ forallb wid_is_lower_hex pad = true.

(** What [wid_valid_suffix] accepts: nothing, or a dash and a padding. *)
Definition suffix_text (z : Z) (sfx : cstring) : Prop :=
  sfx = [] \/ (0 < z /\ exists pad, sfx = str "-" ++ pad /\ pad_text z pad).

Definition node_text (nd : cstring) : Prop :=
  nd <> [] /\ forallb wid_is_node_char nd = true.

Definition params_ok (w z : Z) : Prop := 1 <= w <= WID_MAX_W /\ 0 <= z <= WID_MAX_Z.

(** The strings [wid_validate_ex] accepts. *)
Inductive wid_text (w z : Z) (u : wid_time_unit_t) : cstring -> Prop :=
| wid_text_intro t ts sq sfx :
    stamp_text u t ts -> digits w sq -> suffix_text z sfx ->
    wid_text w z u (t ++ str "." ++ sq ++ str "Z" ++ sfx).

(** The strings [hlc_wid_validate_ex] accepts. *)
Inductive hlc_text (w z : Z) (u : wid_time_unit_t) : cstring -> Prop :=
| hlc_text_intro t ts sq nd sfx :
    stamp_text u t ts -> digits w sq -> node_text nd -> suffix_text z sfx ->
    hlc_text w z u (t ++ str "." ++ sq ++ str "Z-" ++ nd ++ sfx).

(** The node segment of an HLC-WID: the characters after the dash that
    follows the counter, up to the next dash or the end of the string. *)
Fixpoint upto_dash (p : cstring) : cstring :=
  match p with
  | [] => []
  | c :: p' => if (c =? "-")%char then [] else c :: upto_dash p'
  end.

Definition node_segment (s : cstring) (w : Z) (u : wid_time_unit_t) : cstring :=
  upto_dash (advance s (wid_timestamp_len u + 1 + w + 1 + 1)).

(** ** Runs of the generators *)

Definition lex_lt (a b : Z * Z) : Prop :=
  fst a < fst b \/ (fst a = fst b /\ snd a < snd b).

Definition wid_clock (g : wid_gen_t) : Z * Z := (last_tick g, last_seq g).
Definition hlc_clock (g : hlc_wid_gen_t) : Z * Z := (pt g, lc g).

(** The states a [wid_gen_t] goes through: initialised by
    [wid_gen_init_ex], then changed by [wid_gen_next] only. *)
Inductive wid_reachable : wid_gen_t -> Prop :=
| wid_reach_init w z u : wid_reachable (wid_gen_init_ex w z u)
| wid_reach_next g now g' :
    wid_reachable g -> wid_gen_next_state g now = Some g' -> wid_reachable g'.

(** One call of [hlc_wid_gen_next] or one successful [hlc_wid_observe]. *)
Inductive hlc_step (g : hlc_wid_gen_t) : hlc_wid_gen_t -> Prop :=
| hlc_step_next now g' :
    hlc_wid_gen_next_state g now = Some g' -> hlc_step g g'
| hlc_step_observe remote_pt remote_lc now g' :
    hlc_wid_observe g remote_pt remote_lc now = Some (true, g') -> hlc_step g g'.

Inductive hlc_reachable : hlc_wid_gen_t -> Prop :=
| hlc_reach_init nd w z u g :
    hlc_wid_gen_init_ex nd w z u = Some g -> hlc_reachable g
| hlc_reach_step g g' : hlc_reachable g -> hlc_step g g' -> hlc_reachable g'.

(** The states after each call of a burst of [wid_gen_next], the clock
    reading [now] of every call given in order. *)
Fixpoint wid_gen_states (gen : wid_gen_t) (nows : list Z) : option (list wid_gen_t) :=
  match nows with
  | [] => Some []
  | now :: nows' =>
      g <- wid_gen_next_state gen now ;;
      gs <- wid_gen_states g nows' ;;
      Some (g :: gs)
  end.

(** ** Fixed-width decimal fields *)

(** The [n] low-order decimal digits of [v], most significant first: what
    [printf_0d] prints when [v] has at most [n] digits
    (lemma [printf_0d_fixed]). *)
Fixpoint fixed (n : nat) (v : Z) : cstring :=
  match n with
  | O => []
  | S n' => fixed n' (v / 10) ++ [digit_char (v mod 10)]
  end.

(** ** Initialisation

    The width and the padding either initialiser leaves in a generator:
    the default for a value below the range, the maximum for a value above
    it. *)

Definition clamp_w (w : Z) : Z :=
  if 0 <? w then (if WID_MAX_W <? w then WID_MAX_W else w) else WID_DEFAULT_W.

Definition clamp_z (dflt z : Z) : Z :=
  if 0 <=? z then (if WID_MAX_Z <? z then WID_MAX_Z else z) else dflt.

(** What holds of every state of a generator. *)
Definition wid_gen_ok (g : wid_gen_t) : Prop :=
  1 <= W g <= WID_MAX_W /\ 0 <= Z_ g <= WID_MAX_Z /\
  max_seq g = 10 ^ W g - 1 /\
  -1 <= last_seq g <= max_seq g /\ 0 <= last_tick g.

Definition hlc_gen_ok (g : hlc_wid_gen_t) : Prop :=
  1 <= hW g <= WID_MAX_W /\ 0 <= hZ g <= WID_MAX_Z /\
  max_lc g = 10 ^ hW g - 1 /\
  0 <= lc g <= max_lc g /\ 0 <= pt g /\
  node_text (node g) /\ strlen (node g) < NODE_SIZE.

(** ** Calendar arithmetic *)

(** The number of days of the [n] years that start with year [y]. *)
Fixpoint days_in_years (n : nat) (y : Z) : Z :=
  match n with
  | O => 0
  | S n' => year_days y + days_in_years n' (y + 1)
  end.

Definition sum_days (lens : list Z) : Z := fold_right Z.add 0 lens.

(** The seconds [wid_fmt_tick] hands to [gmtime_r]. *)
Definition tick_seconds (u : wid_time_unit_t) (tick : Z) : Z :=
  if is_ms u then Z.quot tick 1000 else tick.

(** The tick formats to a year of four digits. *)
Definition four_digit_year (u : wid_time_unit_t) (tick : Z) : Prop :=
  exists t, gmtime_r (tick_seconds u tick) = Some t /\
            1000 <= tm_year t + 1900 <= 9999.

(** ** Sample identifiers *)

(** An HLC-WID whose node has 64 characters. *)
Definition sample_long_node : cstring :=
  str "20260212T091530.0042Z-" ++ repeat "a"%char 64.

(** An HLC-WID in milliseconds, 18 counter digits, a node of 70 characters
    and a padding of two. *)
Definition sample_long_node_ms : cstring :=
  str "20240229T235959999.000000000000000007Z-" ++ repeat "_"%char 70 ++ str "-0f".

(** ** Checks shared by the validators *)

(** The checks both validators make on the part before the suffix. *)
Definition prefix_checks (s : cstring) (w : Z) (u : wid_time_unit_t) : Prop :=
  1 <= w /\
  is_some (wid_parse_timestamp s u) = true /\
  char_at s (wid_timestamp_len u + 1 + w) = "Z"%char /\
  all_between (wid_timestamp_len u + 1) (wid_timestamp_len u + 1 + w)
    (fun i => wid_is_digit (char_at s i)) = true.

(** ** String order *)

(** [strcmp] of the C library: the characters are compared as
    [unsigned char], the terminator included; the result is the difference of
    the first two that differ (the C standard fixes its sign only). *)
Fixpoint strcmp (a b : cstring) : Z :=
  match a, b with
  | [], [] => 0
  | [], y :: _ => code NUL - code y
  | x :: _, [] => code x - code NUL
  | x :: a', y :: b' => if (x =? y)%char then strcmp a' b' else code x - code y
  end.

(** The milliseconds [wid_fmt_tick] prints (0 in second mode). *)
Definition tick_ms (u : wid_time_unit_t) (tick : Z) : Z :=
  if is_ms u then
    let ms := cast_int (Z.rem tick 1000) in
    if ms <? 0 then ms + 1000 else ms
  else 0.

(** Calendar fields read as one number each for the date and for the time
    of day. *)
Definition date_num (ts : timestamp_t) : Z :=
  (year ts * 100 + month ts) * 100 + day ts.

Definition time_num (ts : timestamp_t) : Z :=
  ((hour ts * 100 + minute ts) * 100 + second ts) * 1000 + millisecond ts.

Definition stamp_lt (a b : timestamp_t) : Prop :=
  date_num a < date_num b \/ (date_num a = date_num b /\ time_num a < time_num b).

(** ** Later states of a generator *)

(** [wid_later g g']: [g'] is [g] after any number of calls of
    [wid_gen_next]. *)
Inductive wid_later (g : wid_gen_t) : wid_gen_t -> Prop :=
| wid_later_refl : wid_later g g
| wid_later_next g1 now g2 :
    wid_later g g1 -> wid_gen_next_state g1 now = Some g2 -> wid_later g g2.

(** [hlc_later g g']: [g'] is [g] after any number of calls of
    [hlc_wid_gen_next] and successful calls of [hlc_wid_observe]. *)
Inductive hlc_later (g : hlc_wid_gen_t) : hlc_wid_gen_t -> Prop :=
| hlc_later_refl : hlc_later g g
| hlc_later_step g1 g2 : hlc_later g g1 -> hlc_step g1 g2 -> hlc_later g g2.

(** ** wid.h: time units as text *)

Definition wid_time_unit_from_str (s : cstring) : option wid_time_unit_t :=
  if strcmp s (str "sec") =? 0 then Some WID_TIME_SEC
  else if strcmp s (str "ms") =? 0 then Some WID_TIME_MS
  else None.

Definition wid_time_unit_to_str (u : wid_time_unit_t) : cstring :=
  if is_ms u then str "ms" else str "sec".

(** ** wid.h: bulk helpers *)

(** What one call of a generator reads from outside: the wall clock and the
    random bytes. *)
Definition reading : Type := Z * (Z -> Z).

(** The loop of [wid_gen_next_n]: [cnt] iterations are left, iteration [i]
    reads [env i] and fills the row [out[i]]. *)
Fixpoint wid_gen_next_loop (gen : wid_gen_t) (cnt : nat) (env : nat -> reading) (i : nat)
  : option (wid_gen_t * list cstring) :=
  match cnt with
  | O => Some (gen, [])
  | S cnt' =>
      r <- wid_gen_next gen (fst (env i)) (snd (env i)) WID_MAX_LEN ;;
      rs <- wid_gen_next_loop (fst r) cnt' env (S i) ;;
      Some (fst rs, snd r :: snd rs)
  end.





(** ** wid.h: poll-based streams *)

Record wid_async_wid_stream_t : Type := mk_wid_stream {
  gen : wid_gen_t;
  remaining : Z;
  interval_ms : Z;
  next_due_ns : Z;
  initialized : bool
}.

Record wid_async_hlc_stream_t : Type := mk_hlc_stream {
  hgen : hlc_wid_gen_t;
  hremaining : Z;
  hinterval_ms : Z;
  hnext_due_ns : Z;
  hinitialized : bool
}.

(** [wid_async_wid_stream_init]: the returned flag and the contents of [*s]
    afterwards; [s] is what the caller's object held before. *)
Definition wid_async_wid_stream_init (s : wid_async_wid_stream_t) (w z : Z)
           (u : wid_time_unit_t) (count interval : Z) : bool * wid_async_wid_stream_t :=
  if (count <? 0) || (interval <? 0) then (false, s)
  else (true, mk_wid_stream (wid_gen_init_ex w z u)
                            (if count =? 0 then -1 else count) interval 0 true).

Definition wid_async_wid_stream_done (s : wid_async_wid_stream_t) : bool :=
  negb (initialized s) || (remaining s =? 0).

(** [wid_async_wid_stream_poll]: [now_ns] is the reading of the monotonic
    clock, [now_tick] and [rnd] what [wid_gen_next] reads.  The result is
    the stream afterwards and the identifier stored in [out] when the call
    returns [true] ([None] when it returns [false]).  The product
    [interval_ms * 1000000] of an [int] always fits 64 bits. *)
Definition wid_async_wid_stream_poll (s : wid_async_wid_stream_t) (now_ns now_tick : Z)
           (rnd : Z -> Z) (out_len : Z)
  : option (wid_async_wid_stream_t * option cstring) :=
  if negb (initialized s) then Some (s, None)
  else if remaining s =? 0 then Some (s, None)
  else if (0 <? next_due_ns s) && (now_ns <? next_due_ns s) then Some (s, None)
  else
    r <- wid_gen_next (gen s) now_tick rnd out_len ;;
    due <- add_i64 now_ns (interval_ms s * 1000000) ;;
    Some (mk_wid_stream (fst r)
                        (if 0 <? remaining s then remaining s - 1 else remaining s)
                        (interval_ms s) due (initialized s),
          Some (snd r)).

(** The object after [memset] has zeroed it. *)
Definition hlc_stream_zero : wid_async_hlc_stream_t :=
  mk_hlc_stream (mk_hlc_gen 0 0 WID_TIME_SEC [] 0 0 0) 0 0 0 false.

Definition wid_async_hlc_stream_init (s : wid_async_hlc_stream_t) (nd : cstring) (w z : Z)
           (u : wid_time_unit_t) (count interval : Z) : bool * wid_async_hlc_stream_t :=
  if (count <? 0) || (interval <? 0) then (false, s)
  else
    match hlc_wid_gen_init_ex nd w z u with
    | None => (false, hlc_stream_zero)
    | Some g =>
        (true, mk_hlc_stream g (if count =? 0 then -1 else count) interval 0 true)
    end.

Definition wid_async_hlc_stream_done (s : wid_async_hlc_stream_t) : bool :=
  negb (hinitialized s) || (hremaining s =? 0).

Definition wid_async_hlc_stream_poll (s : wid_async_hlc_stream_t) (now_ns now_tick : Z)
           (rnd : Z -> Z) (out_len : Z)
  : option (wid_async_hlc_stream_t * option cstring) :=
  if negb (hinitialized s) then Some (s, None)
  else if hremaining s =? 0 then Some (s, None)
  else if (0 <? hnext_due_ns s) && (now_ns <? hnext_due_ns s) then Some (s, None)
  else
    r <- hlc_wid_gen_next (hgen s) now_tick rnd out_len ;;
    due <- add_i64 now_ns (hinterval_ms s * 1000000) ;;
    Some (mk_hlc_stream (fst r)
                        (if 0 <? hremaining s then hremaining s - 1 else hremaining s)
                        (hinterval_ms s) due (hinitialized s),
          Some (snd r)).

(** What one poll reads from outside: the monotonic clock, the wall clock
    and the random bytes. *)
Definition poll_reading : Type := Z * Z * (Z -> Z).

(** A caller that polls once per reading, in order, and collects the
    identifiers emitted. *)
Fixpoint wid_stream_polls (s : wid_async_wid_stream_t) (rs : list poll_reading)
         (out_len : Z) : option (wid_async_wid_stream_t * list cstring) :=
  match rs with
  | [] => Some (s, [])
  | (now_ns, now_tick, rnd) :: rs' =>
      r <- wid_async_wid_stream_poll s now_ns now_tick rnd out_len ;;
      k <- wid_stream_polls (fst r) rs' out_len ;;
      Some (fst k, match snd r with
                   | Some out => out :: snd k
                   | None => snd k
                   end)
  end.

Fixpoint hlc_stream_polls (s : wid_async_hlc_stream_t) (rs : list poll_reading)
         (out_len : Z) : option (wid_async_hlc_stream_t * list cstring) :=
  match rs with
  | [] => Some (s, [])
  | (now_ns, now_tick, rnd) :: rs' =>
      r <- wid_async_hlc_stream_poll s now_ns now_tick rnd out_len ;;
      k <- hlc_stream_polls (fst r) rs' out_len ;;
      Some (fst k, match snd r with
                   | Some out => out :: snd k
                   | None => snd k
                   end)
  end.

(** ** main.c: the command line *)

(** The fields of [cli_opts_t] ([kind], [node], [W], [Z], [time_unit],
    [count], [json]). *)
Record cli_opts_t : Type := mk_cli_opts {
  o_kind : cstring;
  o_node : cstring;
  o_W : Z;
  o_Z : Z;
  o_time_unit : wid_time_unit_t;
  o_count : Z;
  o_json : bool
}.

(** The checks [parse_opts] makes on the options once it has read the
    arguments. *)
Definition parse_opts_checks (o : cli_opts_t) : bool :=
  if negb (strcmp (o_kind o) (str "wid") =? 0) && negb (strcmp (o_kind o) (str "hlc") =? 0)
  then false
  else if (o_W o <=? 0) || (o_Z o <? 0) then false
  else if (WID_MAX_W <? o_W o) || (WID_MAX_Z <? o_Z o) then false
  else if o_count o <? 0 then false
  else if (strcmp (o_kind o) (str "hlc") =? 0) && negb (wid_valid_node (o_node o)) then false
  else true.

(** [cmd_healthcheck]: the exit status ([now] and [rnd] are what the one call
    of the generator reads; the line printed is left out). *)
Definition cmd_healthcheck (o : cli_opts_t) (now : Z) (rnd : Z -> Z) : option Z :=
  if strcmp (o_kind o) (str "wid") =? 0 then
    r <- wid_gen_next (wid_gen_init_ex (o_W o) (o_Z o) (o_time_unit o)) now rnd WID_MAX_LEN ;;
    let ok := wid_validate_ex (snd r) (o_W o) (o_Z o) (o_time_unit o) in
    Some (if ok then 0 else 1)
  else
    match hlc_wid_gen_init_ex (o_node o) (o_W o) (o_Z o) (o_time_unit o) with
    | None => Some 1
    | Some g =>
        r <- hlc_wid_gen_next g now rnd WID_MAX_LEN ;;
        let ok := hlc_wid_validate_ex (snd r) (o_W o) (o_Z o) (o_time_unit o) in
        Some (if ok then 0 else 1)
    end.

(** [run_selftest]: the exit status; [now1], [now2] and [now3] are the wall
    clock at the three calls of the generators. *)
Definition run_selftest (now1 now2 now3 : Z) (rnd : Z -> Z) : option Z :=
  r1 <- wid_gen_next (wid_gen_init 4 0) now1 rnd WID_MAX_LEN ;;
  r2 <- wid_gen_next (fst r1) now2 rnd WID_MAX_LEN ;;
  if negb (strcmp (snd r1) (snd r2) <? 0) then Some 1
  else if negb (wid_validate (snd r1) 4 0) then Some 1
  else
    match hlc_wid_gen_init (str "node01") 4 0 with
    | None => Some 1
    | Some hg =>
        r3 <- hlc_wid_gen_next hg now3 rnd WID_MAX_LEN ;;
        if negb (hlc_wid_validate (snd r3) 4 0) then Some 1
        else if wid_validate (str "20260212T091530.0000Z-node01") 4 0 then Some 1
        else if hlc_wid_validate (str "20260212T091530.0000Z") 4 0 then Some 1
        else if negb (wid_validate_ex (str "20260212T091530123.0000Z") 4 0 WID_TIME_MS)
        then Some 1
        else if negb (hlc_wid_validate_ex (str "20260212T091530123.0000Z-node01") 4 0
                        WID_TIME_MS)
        then Some 1
        else Some 0
    end.

(** A C string holds no NUL before its terminator. *)
Definition no_nul (s : cstring) : Prop := ~ In NUL s.

(** ** Bursts *)

(** The state after call number [i] (counted from 0) of a burst of
    [wid_gen_next] that starts at tick [t] with sequence 0 and during which
    the clock does not pass the tick: [10^w] identifiers per tick. *)
Definition burst_state (w z : Z) (u : wid_time_unit_t) (t i : Z) : wid_gen_t :=
  mk_wid_gen w z u (t + i / 10 ^ w) (i mod 10 ^ w) (10 ^ w - 1).

(** * Properties *)

(** ** Integers and characters *)

Lemma cast_int_small (x : Z) : INT_MIN <= x <= INT_MAX -> cast_int x = x.
Proof.
  unfold cast_int, INT_MIN, INT_MAX. intros H.
  rewrite Z.mod_small; lia.
Qed.

Lemma add_i64_some (a b r : Z) :
  add_i64 a b = Some r -> r = a + b /\ INT64_MIN <= r <= INT64_MAX.
Proof.
  unfold add_i64, fits_i64. intros H.
  destruct (INT64_MIN <=? a + b) eqn:E1; destruct (a + b <=? INT64_MAX) eqn:E2;
    simpl in H; try discriminate.
  inversion H; subst. apply Z.leb_le in E1, E2. lia.
Qed.

Lemma add_i64_defined (a b : Z) :
  INT64_MIN <= a + b <= INT64_MAX -> add_i64 a b = Some (a + b).
Proof.
  unfold add_i64, fits_i64. intros [H1 H2].
  apply Z.leb_le in H1, H2. rewrite H1, H2. reflexivity.
Qed.

Lemma leb_code (a b : ascii) : (a <=? b)%char = (code a <=? code b).
Proof.
  unfold Ascii.leb, Ascii.compare, code, Z.leb.
  rewrite N2Z.inj_compare. reflexivity.
Qed.

Lemma code_inj (a b : ascii) : code a = code b -> a = b.
Proof.
  unfold code. intros H. apply N2Z.inj in H.
  rewrite <- (ascii_N_embedding a), <- (ascii_N_embedding b), H. reflexivity.
Qed.

Lemma wid_is_digit_code (c : ascii) :
  wid_is_digit c = true <-> 48 <= code c <= 57.
Proof.
  unfold wid_is_digit. rewrite !leb_code, andb_true_iff, !Z.leb_le.
  change (code "0") with 48. change (code "9") with 57. tauto.
Qed.

Lemma code_digit_char (d : Z) : 0 <= d <= 9 -> code (digit_char d) = 48 + d.
Proof.
  intros H. unfold digit_char, code. change (Z.of_N (N_of_ascii "0")) with 48.
  rewrite N_ascii_embedding by lia. lia.
Qed.

Lemma wid_is_digit_digit_char (d : Z) :
  0 <= d <= 9 -> wid_is_digit (digit_char d) = true.
Proof.
  intros H. apply wid_is_digit_code. rewrite code_digit_char; lia.
Qed.

Lemma digit_char_code (c : ascii) :
  wid_is_digit c = true -> digit_char (code c - code "0") = c.
Proof.
  intros H. apply wid_is_digit_code in H. apply code_inj.
  change (code "0") with 48. rewrite code_digit_char; lia.
Qed.

(** ** Strings *)

Lemma strlen_nonneg (s : cstring) : 0 <= strlen s.
Proof. unfold strlen. lia. Qed.

Lemma strlen_app (a b : cstring) : strlen (a ++ b) = strlen a + strlen b.
Proof. unfold strlen. rewrite length_app. lia. Qed.

Lemma strlen_cons (c : ascii) (s : cstring) : strlen (c :: s) = 1 + strlen s.
Proof. unfold strlen. simpl length. lia. Qed.

Lemma strlen_nil : strlen [] = 0.
Proof. reflexivity. Qed.

Lemma strlen_zero (s : cstring) : strlen s = 0 -> s = [].
Proof. destruct s; [reflexivity | rewrite strlen_cons; pose proof (strlen_nonneg s); lia]. Qed.

Lemma char_at_cons (c : ascii) (s : cstring) (i : Z) :
  0 <= i -> char_at (c :: s) (i + 1) = char_at s i.
Proof.
  intros H. unfold char_at.
  destruct (i + 1 <? 0) eqn:E1; [apply Z.ltb_lt in E1; lia |].
  destruct (i <? 0) eqn:E2; [apply Z.ltb_lt in E2; lia |].
  replace (Z.to_nat (i + 1)) with (S (Z.to_nat i)) by lia. reflexivity.
Qed.

Lemma char_at_0 (s : cstring) : char_at s 0 = hd NUL s.
Proof. destruct s; reflexivity. Qed.

Lemma char_at_app_l (a b : cstring) (i : Z) :
  0 <= i < strlen a -> char_at (a ++ b) i = char_at a i.
Proof.
  unfold char_at, strlen. intros H.
  destruct (i <? 0); [reflexivity |]. apply app_nth1. lia.
Qed.

Lemma advance_app (a b : cstring) (k : Z) :
  k = strlen a -> advance (a ++ b) k = b.
Proof.
  intros ->. unfold advance, strlen. rewrite Nat2Z.id.
  rewrite skipn_app, skipn_all, Nat.sub_diag. reflexivity.
Qed.

Lemma advance_0 (s : cstring) : advance s 0 = s.
Proof. reflexivity. Qed.

Lemma all_from_spec (p : Z -> bool) (cnt : nat) (lo : Z) :
  all_from lo cnt p = true <-> (forall i, lo <= i < lo + Z.of_nat cnt -> p i = true).
Proof.
  revert lo. induction cnt as [|cnt IH]; intros lo; simpl all_from.
  - split; [intros _ i Hi; lia | reflexivity].
  - destruct (p lo) eqn:E.
    + rewrite IH. split; intros H i Hi.
      * destruct (Z.eq_dec i lo) as [->|Hne]; [exact E | apply H; lia].
      * apply H. lia.
    + split; [discriminate |]. intros H. rewrite <- E. apply H. lia.
Qed.

Lemma all_between_spec (p : Z -> bool) (lo hi : Z) :
  all_between lo hi p = true <-> (forall i, lo <= i < hi -> p i = true).
Proof.
  unfold all_between. rewrite all_from_spec. split; intros H i Hi; apply H; lia.
Qed.

(** A loop over the characters [s[0 .. n-1]] checks a prefix of [s]. *)
Lemma all_between_prefix (p : ascii -> bool) (s : cstring) (n : Z) :
  p NUL = false -> 0 <= n ->
  all_between 0 n (fun i => p (char_at s i)) = true ->
  exists l rest, s = l ++ rest /\ strlen l = n /\ forallb p l = true.
Proof.
  intros Hnul Hn. rewrite all_between_spec.
  rewrite <- (Z2Nat.id n) by lia. generalize (Z.to_nat n) as k. clear n Hn.
  intros k. revert s. induction k as [|k IH]; intros s H.
  - exists [], s. repeat split; reflexivity.
  - destruct s as [|c s].
    + specialize (H 0). unfold char_at in H. simpl in H. rewrite Hnul in H.
      discriminate H. lia.
    + destruct (IH s) as (l & rest & -> & Hl & Hp).
      * intros i Hi. rewrite <- (char_at_cons c) by lia. apply H. lia.
      * exists (c :: l), rest. repeat split.
        -- rewrite strlen_cons. lia.
        -- simpl. rewrite Hp, andb_true_r. apply (H 0). lia.
Qed.

Lemma all_between_forallb (p : ascii -> bool) (l rest : cstring) :
  forallb p l = true ->
  all_between 0 (strlen l) (fun i => p (char_at (l ++ rest) i)) = true.
Proof.
  intros Hp. apply all_between_spec. intros i Hi.
  rewrite char_at_app_l by lia.
  rewrite forallb_forall in Hp. apply Hp.
  unfold char_at. destruct (i <? 0) eqn:E; [apply Z.ltb_lt in E; lia |].
  apply nth_In. unfold strlen in Hi. lia.
Qed.

Lemma char_at_advance (s : cstring) (lo i : Z) :
  0 <= lo -> 0 <= i -> char_at (advance s lo) i = char_at s (lo + i).
Proof.
  intros Hlo Hi. unfold char_at, advance.
  destruct (i <? 0) eqn:E1; [apply Z.ltb_lt in E1; lia |].
  destruct (lo + i <? 0) eqn:E2; [apply Z.ltb_lt in E2; lia |].
  rewrite nth_skipn. f_equal. lia.
Qed.

(** ** Decimal fields *)

Lemma digit_value_range (c : ascii) :
  wid_is_digit c = true -> 0 <= code c - code "0" <= 9.
Proof.
  intros H. apply wid_is_digit_code in H. change (code "0") with 48. lia.
Qed.

Lemma fold_digits_acc (l : cstring) (v : Z) :
  fold_left digit_step l v = v * 10 ^ strlen l + fold_left digit_step l 0.
Proof.
  revert v. induction l as [|c l IH]; intros v.
  - cbn [fold_left]. rewrite strlen_nil. change (10 ^ 0) with 1. lia.
  - cbn [fold_left]. rewrite IH, (IH (digit_step 0 c)).
    rewrite strlen_cons, Z.pow_add_r by (pose proof (strlen_nonneg l); lia).
    unfold digit_step. change (10 ^ 1) with 10. ring.
Qed.

Lemma digits_val_fold (l : cstring) : digits_val l = fold_left digit_step l 0.
Proof. reflexivity. Qed.

Lemma digits_val_nil : digits_val [] = 0.
Proof. reflexivity. Qed.

Lemma digits_val_snoc (l : cstring) (c : ascii) :
  digits_val (l ++ [c]) = digits_val l * 10 + (code c - code "0").
Proof.
  rewrite !digits_val_fold, fold_left_app. reflexivity.
Qed.

Lemma digits_val_range (l : cstring) :
  forallb wid_is_digit l = true -> 0 <= digits_val l < 10 ^ strlen l.
Proof.
  induction l as [|c l IH] using rev_ind; intros H.
  - rewrite digits_val_nil, strlen_nil. change (10 ^ 0) with 1. lia.
  - rewrite forallb_app in H. apply andb_true_iff in H as [Hl Hc].
    simpl in Hc. rewrite andb_true_r in Hc.
    apply digit_value_range in Hc. specialize (IH Hl).
    rewrite digits_val_snoc, strlen_app, Z.pow_add_r
      by (try apply strlen_nonneg; rewrite strlen_cons, strlen_nil; lia).
    rewrite strlen_cons, strlen_nil. change (10 ^ (1 + 0)) with 10. lia.
Qed.

Lemma parse_digits_loop_cons (c : ascii) (s : cstring) (cnt : nat) (i v : Z) :
  0 <= i ->
  parse_digits_loop (c :: s) (i + 1) cnt v = parse_digits_loop s i cnt v.
Proof.
  revert i v. induction cnt as [|cnt IH]; intros i v Hi; simpl.
  - reflexivity.
  - rewrite char_at_cons by lia. destruct (wid_is_digit (char_at s i)); simpl.
    + apply IH. lia.
    + reflexivity.
Qed.

Lemma parse_digits_loop_digits (l rest : cstring) (v : Z) :
  forallb wid_is_digit l = true ->
  parse_digits_loop (l ++ rest) 0 (length l) v = fold_left digit_step l v.
Proof.
  revert v. induction l as [|c l IH]; intros v H.
  - reflexivity.
  - simpl in H. apply andb_true_iff in H as [Hc Hl].
    simpl length. simpl app. cbn [parse_digits_loop].
    change (char_at (c :: l ++ rest) 0) with c. rewrite Hc. simpl negb. cbv iota.
    rewrite (parse_digits_loop_cons c (l ++ rest) (length l) 0) by lia.
    rewrite IH by exact Hl. reflexivity.
Qed.

Lemma wid_parse_digits_i64_digits (l rest : cstring) (n : Z) :
  digits n l -> wid_parse_digits_i64 (l ++ rest) n = digits_val l.
Proof.
  intros [Hn Hd]. unfold wid_parse_digits_i64. subst n.
  unfold strlen. rewrite Nat2Z.id. apply parse_digits_loop_digits. exact Hd.
Qed.

(** The value returned by [wid_parse_digits_i64] for at most 18 digits is -1
    or lies below 10^18: the 64-bit accumulator never overflows. *)
Lemma parse_digits_loop_range (s : cstring) (cnt : nat) (i v : Z) :
  0 <= v ->
  -1 <= parse_digits_loop s i cnt v < (v + 1) * 10 ^ Z.of_nat cnt.
Proof.
  revert i v. induction cnt as [|cnt IH]; intros i v Hv.
  - simpl. lia.
  - cbn [parse_digits_loop]. rewrite Nat2Z.inj_succ, Z.pow_succ_r by lia.
    assert (Hp : 0 < 10 ^ Z.of_nat cnt) by (apply Z.pow_pos_nonneg; lia).
    destruct (wid_is_digit (char_at s i)) eqn:E; simpl negb; cbv iota.
    + apply digit_value_range in E.
      specialize (IH (i + 1) (v * 10 + (code (char_at s i) - code "0"))).
      nia.
    + nia.
Qed.

Lemma wid_parse_digits_i64_range (s : cstring) (n : Z) :
  n <= 18 -> -1 <= wid_parse_digits_i64 s n < 10 ^ 18.
Proof.
  intros Hn. unfold wid_parse_digits_i64.
  pose proof (parse_digits_loop_range s (Z.to_nat n) 0 0 ltac:(lia)) as H.
  assert (10 ^ Z.of_nat (Z.to_nat n) <= 10 ^ 18)
    by (apply Z.pow_le_mono_r; lia).
  lia.
Qed.

Lemma fixed_length (n : nat) (v : Z) : strlen (fixed n v) = Z.of_nat n.
Proof.
  revert v. induction n as [|n IH]; intros v.
  - reflexivity.
  - cbn [fixed]. rewrite strlen_app, IH, strlen_cons, strlen_nil. lia.
Qed.

Lemma fixed_is_digits (n : nat) (v : Z) : forallb wid_is_digit (fixed n v) = true.
Proof.
  revert v. induction n as [|n IH]; intros v.
  - reflexivity.
  - cbn [fixed]. rewrite forallb_app, IH. simpl.
    rewrite wid_is_digit_digit_char; [reflexivity |].
    pose proof (Z.mod_pos_bound v 10). lia.
Qed.

Lemma fixed_digits (n : nat) (v : Z) : digits (Z.of_nat n) (fixed n v).
Proof. split; [apply fixed_length | apply fixed_is_digits]. Qed.

Lemma digits_val_fixed (n : nat) (v : Z) :
  0 <= v < 10 ^ Z.of_nat n -> digits_val (fixed n v) = v.
Proof.
  revert v. induction n as [|n IH]; intros v Hv.
  - change (10 ^ Z.of_nat 0) with 1 in Hv. simpl. rewrite digits_val_nil. lia.
  - cbn [fixed]. rewrite digits_val_snoc.
    rewrite Nat2Z.inj_succ, Z.pow_succ_r in Hv by lia.
    rewrite IH.
    + change (code "0") with 48. rewrite code_digit_char.
      * pose proof (Z.div_mod v 10). lia.
      * pose proof (Z.mod_pos_bound v 10). lia.
    + split; [apply Z.div_pos; lia | apply Z.div_lt_upper_bound; lia].
Qed.

Lemma fixed_digits_val (l : cstring) :
  forallb wid_is_digit l = true -> fixed (length l) (digits_val l) = l.
Proof.
  induction l as [|c l IH] using rev_ind; intros H.
  - reflexivity.
  - rewrite forallb_app in H. apply andb_true_iff in H as [Hl Hc].
    simpl in Hc. rewrite andb_true_r in Hc.
    rewrite length_app. simpl length. rewrite Nat.add_1_r. cbn [fixed].
    rewrite digits_val_snoc.
    pose proof (digit_value_range c Hc) as Hr.
    replace ((digits_val l * 10 + (code c - code "0")) / 10) with (digits_val l)
      by (apply Z.div_unique with (r := code c - code "0"); lia).
    replace ((digits_val l * 10 + (code c - code "0")) mod 10) with (code c - code "0")
      by (apply Z.mod_unique with (q := digits_val l); lia).
    rewrite IH by exact Hl. rewrite digit_char_code by exact Hc. reflexivity.
Qed.

Lemma fixed_zero (n : nat) : fixed n 0 = repeat "0"%char n.
Proof.
  induction n as [|n IH].
  - reflexivity.
  - cbn [fixed]. change (0 / 10) with 0. change (0 mod 10) with 0.
    rewrite IH. change [digit_char 0] with (repeat "0"%char 1).
    rewrite <- repeat_app. f_equal. lia.
Qed.

Lemma dec_loop_acc (fuel : nat) (v : Z) (acc : cstring) :
  dec_loop fuel v acc = dec_loop fuel v [] ++ acc.
Proof.
  revert v acc. induction fuel as [|fuel IH]; intros v acc.
  - reflexivity.
  - cbn [dec_loop]. destruct (v <? 10).
    + reflexivity.
    + rewrite IH, (IH _ [_]), <- app_assoc. reflexivity.
Qed.

Lemma dec_loop_fixed (fuel : nat) :
  forall (v : Z) (n : nat),
    0 <= v < 10 ^ Z.of_nat fuel -> v < 10 ^ Z.of_nat n -> (1 <= n)%nat ->
    (length (dec_loop fuel v []) <= n)%nat /\
    fixed n v = repeat "0"%char (n - length (dec_loop fuel v [])) ++ dec_loop fuel v [].
Proof.
  induction fuel as [|fuel IH]; intros v n Hv Hn Hn1.
  - change (10 ^ Z.of_nat 0) with 1 in Hv. assert (v = 0) by lia. subst v.
    simpl. rewrite Nat.sub_0_r, app_nil_r. split; [lia | apply fixed_zero].
  - destruct n as [|n]; [lia |].
    rewrite Nat2Z.inj_succ, Z.pow_succ_r in Hv, Hn by lia.
    cbn [dec_loop fixed]. destruct (v <? 10) eqn:E.
    + apply Z.ltb_lt in E. rewrite Z.div_small by lia. rewrite fixed_zero.
      simpl length. rewrite Nat.sub_succ, Nat.sub_0_r. split; [lia | reflexivity].
    + apply Z.ltb_ge in E. rewrite dec_loop_acc.
      assert (Hn' : (1 <= n)%nat).
      { destruct n; [change (10 * 10 ^ Z.of_nat 0) with 10 in Hn; lia | lia]. }
      destruct (IH (v / 10) n) as [Hlen Hfix].
      * split; [apply Z.div_pos; lia | apply Z.div_lt_upper_bound; lia].
      * apply Z.div_lt_upper_bound; lia.
      * exact Hn'.
      * rewrite length_app. simpl length. split; [lia |].
        rewrite Hfix, <- app_assoc. f_equal. f_equal. lia.
Qed.

(** [%0*lld] of a value that fits the field prints exactly the field. *)
Lemma printf_0d_fixed (n : nat) (v : Z) :
  (1 <= n <= 20)%nat -> 0 <= v < 10 ^ Z.of_nat n ->
  printf_0d (Z.of_nat n) v = fixed n v.
Proof.
  intros Hn Hv. unfold printf_0d, dec, zeros.
  destruct (v <? 0) eqn:E; [apply Z.ltb_lt in E; lia |].
  destruct (dec_loop_fixed 20 v n) as [Hlen Hfix].
  - split; [lia |]. apply Z.lt_le_trans with (10 ^ Z.of_nat n); [lia |].
    apply Z.pow_le_mono_r; lia.
  - lia.
  - lia.
  - rewrite Hfix. f_equal. f_equal. unfold strlen. lia.
Qed.

Lemma printf_0d_digits_val (n : Z) (l : cstring) :
  1 <= n <= 20 -> digits n l -> printf_0d n (digits_val l) = l.
Proof.
  intros Hn [Hlen Hd]. unfold strlen in Hlen. subst n.
  rewrite printf_0d_fixed.
  - apply fixed_digits_val. exact Hd.
  - lia.
  - apply digits_val_range. exact Hd.
Qed.

Lemma printf_0d_digits (n v : Z) :
  1 <= n <= 20 -> 0 <= v < 10 ^ n ->
  digits n (printf_0d n v) /\ digits_val (printf_0d n v) = v.
Proof.
  intros Hn Hv. rewrite <- (Z2Nat.id n) in * by lia.
  rewrite printf_0d_fixed by lia. split.
  - apply fixed_digits.
  - apply digits_val_fixed. exact Hv.
Qed.

(** ** Reading fields off a string *)

Lemma advance_advance (s : cstring) (a b : Z) :
  0 <= a -> 0 <= b -> advance (advance s a) b = advance s (a + b).
Proof.
  intros Ha Hb. unfold advance. rewrite skipn_skipn. f_equal. lia.
Qed.

Lemma take_char (s : cstring) (i : Z) (c : ascii) :
  c <> NUL -> 0 <= i -> char_at s i = c ->
  advance s i = c :: advance s (i + 1).
Proof.
  intros Hc Hi H.
  rewrite <- (advance_advance s i 1) by lia.
  replace i with (i + 0) in H by lia.
  rewrite <- char_at_advance, char_at_0 in H by lia.
  destruct (advance s i) as [|x r]; simpl in H.
  - congruence.
  - subst x. reflexivity.
Qed.

Lemma take_chars (p : ascii -> bool) (s : cstring) (lo n : Z) :
  p NUL = false -> 0 <= lo -> 0 <= n ->
  (forall i, lo <= i < lo + n -> p (char_at s i) = true) ->
  exists l, strlen l = n /\ forallb p l = true /\
            advance s lo = l ++ advance s (lo + n).
Proof.
  intros Hnul Hlo Hn H.
  destruct (all_between_prefix p (advance s lo) n Hnul Hn) as (l & rest & E & Hl & Hp).
  - apply all_between_spec. intros i Hi. rewrite char_at_advance by lia.
    apply H. lia.
  - exists l. repeat split; try assumption.
    rewrite <- advance_advance, E by lia. f_equal.
    symmetry. apply advance_app. symmetry. exact Hl.
Qed.

Lemma take_digits (s : cstring) (lo n : Z) :
  0 <= lo -> 0 <= n ->
  (forall i, lo <= i < lo + n -> wid_is_digit (char_at s i) = true) ->
  exists l, digits n l /\ advance s lo = l ++ advance s (lo + n).
Proof.
  intros Hlo Hn H.
  destruct (take_chars wid_is_digit s lo n) as (l & Hl & Hd & E);
    try assumption; try reflexivity.
  exists l. repeat split; assumption.
Qed.

Lemma if_negb_some {A : Type} (c : bool) (k : option A) (x : A) :
  (if negb c then None else k) = Some x -> c = true /\ k = Some x.
Proof. destruct c; simpl; [tauto | discriminate]. Qed.

Lemma valid_ymdhms_ranges (y mo d h mi se : Z) :
  wid_valid_ymdhms y mo d h mi se = true ->
  1 <= mo <= 12 /\ 1 <= d <= 31 /\ 0 <= h <= 23 /\ 0 <= mi <= 59 /\ 0 <= se <= 59.
Proof.
  unfold wid_valid_ymdhms. intros H.
  destruct (mo <? 1) eqn:E1; [discriminate |].
  destruct (12 <? mo) eqn:E2; [discriminate |].
  destruct (h <? 0) eqn:E3; [discriminate |].
  destruct (23 <? h) eqn:E4; [discriminate |].
  destruct (mi <? 0) eqn:E5; [discriminate |].
  destruct (59 <? mi) eqn:E6; [discriminate |].
  destruct (se <? 0) eqn:E7; [discriminate |].
  destruct (59 <? se) eqn:E8; [discriminate |].
  cbv zeta in H. cbn [orb] in H. apply andb_true_iff in H as [H1 H2].
  apply Z.leb_le in H1, H2.
  apply Z.ltb_ge in E1, E2, E3, E4, E5, E6, E7, E8.
  assert (Hdim : (if (mo =? 2) && wid_is_leap_year y then 29
                  else nth (Z.to_nat (mo - 1)) days_in_month 0) <= 31).
  { destruct ((mo =? 2) && wid_is_leap_year y); [lia |].
    assert (Hm : mo = 1 \/ mo = 2 \/ mo = 3 \/ mo = 4 \/ mo = 5 \/ mo = 6 \/
                 mo = 7 \/ mo = 8 \/ mo = 9 \/ mo = 10 \/ mo = 11 \/ mo = 12) by lia.
    repeat (destruct Hm as [-> | Hm]; [simpl; lia |]). subst mo. simpl. lia. }
  lia.
Qed.

Lemma digits_small (n : Z) (l : cstring) :
  n <= 9 -> digits n l -> cast_int (digits_val l) = digits_val l.
Proof.
  intros Hn [Hlen Hd]. apply cast_int_small.
  pose proof (digits_val_range l Hd) as Hr. rewrite Hlen in Hr.
  assert (10 ^ n <= 10 ^ 9) by (apply Z.pow_le_mono_r; pose proof (strlen_nonneg l); lia).
  unfold INT_MIN, INT_MAX. change (10 ^ 9) with 1000000000 in *. lia.
Qed.

Lemma parse_field_here (s l r : cstring) (lo n : Z) :
  n <= 9 -> digits n l -> advance s lo = l ++ r ->
  cast_int (wid_parse_digits_i64 (advance s lo) n) = digits_val l.
Proof.
  intros Hn Hd E. rewrite E, (wid_parse_digits_i64_digits l _ n Hd).
  apply (digits_small n); assumption.
Qed.

(** [wid_parse_timestamp] accepts [s] exactly when [s] starts with the text
    of a valid time stamp followed by a dot, and returns its fields. *)
Lemma wid_parse_timestamp_sound (s : cstring) (u : wid_time_unit_t) (ts : timestamp_t) :
  wid_parse_timestamp s u = Some ts ->
  exists t, stamp_text u t ts /\ strlen t = wid_timestamp_len u /\
            s = t ++ str "." ++ advance s (wid_timestamp_len u + 1).
Proof.
  unfold wid_parse_timestamp. intros H.
  apply if_negb_some in H as [HT H]. apply Ascii.eqb_eq in HT.
  apply if_negb_some in H as [Hd1 H]. rewrite all_between_spec in Hd1.
  apply if_negb_some in H as [Hd2 H]. rewrite all_between_spec in Hd2.
  destruct (take_digits s 0 4) as (Y & HY & EY); try lia.
  { intros i Hi. apply Hd1. lia. }
  destruct (take_digits s 4 2) as (Mo & HMo & EMo); try lia.
  { intros i Hi. apply Hd1. lia. }
  destruct (take_digits s 6 2) as (D & HD & ED); try lia.
  { intros i Hi. apply Hd1. lia. }
  pose proof (take_char s 8 "T" ltac:(discriminate) ltac:(lia) HT) as ET.
  destruct (take_digits s 9 2) as (Hh & HH & EH); try lia.
  { intros i Hi. apply Hd2. lia. }
  destruct (take_digits s 11 2) as (Mi & HMi & EMi); try lia.
  { intros i Hi. apply Hd2. lia. }
  destruct (take_digits s 13 2) as (Se & HSe & ESe); try lia.
  { intros i Hi. apply Hd2. lia. }
  simpl Z.add in *.
  rewrite (parse_field_here s Y _ 0 4 ltac:(lia) HY EY),
    (parse_field_here s Mo _ 4 2 ltac:(lia) HMo EMo),
    (parse_field_here s D _ 6 2 ltac:(lia) HD ED),
    (parse_field_here s Hh _ 9 2 ltac:(lia) HH EH),
    (parse_field_here s Mi _ 11 2 ltac:(lia) HMi EMi),
    (parse_field_here s Se _ 13 2 ltac:(lia) HSe ESe) in H.
  apply if_negb_some in H as [Hv H].
  assert (Ems : exists Ms, digits (if is_ms u then 3 else 0) Ms /\
                  advance s 15 = Ms ++ advance s (wid_timestamp_len u) /\
                  (if negb (char_at s (wid_timestamp_len u) =? ".")%char then None
                   else Some (mk_timestamp (digits_val Y) (digits_val Mo) (digits_val D)
                                (digits_val Hh) (digits_val Mi) (digits_val Se)
                                (digits_val Ms))) = Some ts).
  { unfold wid_timestamp_len in *. destruct (is_ms u).
    - destruct (all_between 15 18 (fun i => wid_is_digit (char_at s i))) eqn:Hd3;
        [| discriminate H].
      rewrite all_between_spec in Hd3.
      destruct (take_digits s 15 3) as (Ms & HMs & EMs); try lia.
      { intros i Hi. apply Hd3. lia. }
      simpl Z.add in *. simpl negb in H. cbv iota in H.
      rewrite (parse_field_here s Ms _ 15 3 ltac:(lia) HMs EMs) in H.
      destruct ((digits_val Ms <? 0) || (999 <? digits_val Ms)); [discriminate H |].
      exists Ms. split; [exact HMs | split; [exact EMs | exact H]].
    - exists []. split; [split; reflexivity | split; [reflexivity | exact H]]. }
  destruct Ems as (Ms & HMs & EMs & H').
  apply if_negb_some in H' as [Hdot H']. apply Ascii.eqb_eq in Hdot.
  assert (Hlen : 0 <= wid_timestamp_len u)
    by (unfold wid_timestamp_len; destruct (is_ms u); lia).
  pose proof (take_char s _ "." ltac:(discriminate) Hlen Hdot) as Edot.
  inversion H'; subst ts. clear H'.
  exists (Y ++ Mo ++ D ++ str "T" ++ Hh ++ Mi ++ Se ++ Ms). split; [| split].
  - constructor; assumption.
  - destruct HY, HMo, HD, HH, HMi, HSe, HMs.
    rewrite !strlen_app. change (strlen (str "T")) with 1.
    unfold wid_timestamp_len. destruct (is_ms u); lia.
  - rewrite <- (advance_0 s) at 1.
    rewrite EY, EMo, ED, ET, EH, EMi, ESe, EMs, Edot.
    rewrite <- !app_assoc. reflexivity.
Qed.
(** ** Writing fields into a string *)

Lemma advance_at (s pre x : cstring) (k : Z) :
  s = pre ++ x -> strlen pre = k -> advance s k = x.
Proof. intros -> <-. apply advance_app. reflexivity. Qed.

Lemma char_at_here (s : cstring) (lo : Z) (c : ascii) (r : cstring) :
  0 <= lo -> advance s lo = c :: r -> char_at s lo = c.
Proof.
  intros Hlo E. replace lo with (lo + 0) at 1 by lia.
  rewrite <- char_at_advance, E by lia. reflexivity.
Qed.

Lemma chars_here (p : ascii -> bool) (s l r : cstring) (lo : Z) :
  0 <= lo -> advance s lo = l ++ r -> forallb p l = true ->
  forall i, lo <= i < lo + strlen l -> p (char_at s i) = true.
Proof.
  intros Hlo E Hp i Hi. replace i with (lo + (i - lo)) by lia.
  rewrite <- char_at_advance, E by lia.
  pose proof (all_between_forallb p l r Hp) as H.
  rewrite all_between_spec in H. apply H. lia.
Qed.

Lemma digits_here (s l r : cstring) (lo n hi : Z) :
  0 <= lo -> advance s lo = l ++ r -> digits n l -> hi = lo + n ->
  all_between lo hi (fun i => wid_is_digit (char_at s i)) = true.
Proof.
  intros Hlo E [Hl Hd] ->. apply all_between_spec. subst n.
  apply (chars_here wid_is_digit s l r lo); assumption.
Qed.

Lemma digits_app (a b : Z) (x y : cstring) :
  digits a x -> digits b y -> digits (a + b) (x ++ y).
Proof.
  intros [Hx Hdx] [Hy Hdy]. split.
  - rewrite strlen_app. lia.
  - rewrite forallb_app, Hdx, Hdy. reflexivity.
Qed.

Lemma digits_0 (l : cstring) : digits 0 l -> l = [].
Proof. intros [H _]. apply strlen_zero. exact H. Qed.

(** Two spellings of one concatenation. *)
Ltac reassoc := rewrite <- ?app_assoc; reflexivity.

Create Rewrite HintDb lengths.
#[local] Hint Rewrite strlen_app strlen_cons strlen_nil : lengths.

(** Goals about the lengths of concatenated fields. *)
Ltac lens :=
  autorewrite with lengths;
  repeat match goal with
         | H : digits _ _ |- _ => destruct H as [H _]
         end;
  change (strlen (str "T")) with 1; change (strlen (str ".")) with 1;
  lia.

Lemma wid_parse_timestamp_complete (u : wid_time_unit_t) (t rest : cstring)
      (ts : timestamp_t) :
  stamp_text u t ts -> wid_parse_timestamp (t ++ str "." ++ rest) u = Some ts.
Proof.
  intros H. destruct H as [Y Mo D H Mi Se Ms HY HMo HD HH HMi HSe HMs Hv].
  set (s := (Y ++ Mo ++ D ++ str "T" ++ H ++ Mi ++ Se ++ Ms) ++ str "." ++ rest).
  assert (E0 : advance s 0 = Y ++ Mo ++ D ++ str "T" ++ H ++ Mi ++ Se ++ Ms ++ str "." ++ rest)
    by (apply (advance_at s []); [subst s; reassoc | lens]).
  assert (E4 : advance s 4 = Mo ++ D ++ str "T" ++ H ++ Mi ++ Se ++ Ms ++ str "." ++ rest)
    by (apply (advance_at s Y); [subst s; reassoc | lens]).
  assert (E6 : advance s 6 = D ++ str "T" ++ H ++ Mi ++ Se ++ Ms ++ str "." ++ rest)
    by (apply (advance_at s (Y ++ Mo)); [subst s; reassoc | lens]).
  assert (E8 : advance s 8 = str "T" ++ H ++ Mi ++ Se ++ Ms ++ str "." ++ rest)
    by (apply (advance_at s (Y ++ Mo ++ D)); [subst s; reassoc | lens]).
  assert (E9 : advance s 9 = H ++ Mi ++ Se ++ Ms ++ str "." ++ rest)
    by (apply (advance_at s (Y ++ Mo ++ D ++ str "T")); [subst s; reassoc | lens]).
  assert (E11 : advance s 11 = Mi ++ Se ++ Ms ++ str "." ++ rest)
    by (apply (advance_at s (Y ++ Mo ++ D ++ str "T" ++ H)); [subst s; reassoc | lens]).
  assert (E13 : advance s 13 = Se ++ Ms ++ str "." ++ rest)
    by (apply (advance_at s (Y ++ Mo ++ D ++ str "T" ++ H ++ Mi)); [subst s; reassoc | lens]).
  assert (E15 : advance s 15 = Ms ++ str "." ++ rest)
    by (apply (advance_at s (Y ++ Mo ++ D ++ str "T" ++ H ++ Mi ++ Se));
        [subst s; reassoc | lens]).
  assert (Edot : advance s (wid_timestamp_len u) = str "." ++ rest).
  { apply (advance_at s (Y ++ Mo ++ D ++ str "T" ++ H ++ Mi ++ Se ++ Ms));
      [subst s; reassoc |].
    unfold wid_timestamp_len. destruct (is_ms u); lens. }
  clearbody s. unfold wid_parse_timestamp.
  rewrite (char_at_here s 8 "T" _ ltac:(lia) E8). simpl negb. cbv iota.
  rewrite (digits_here s (Y ++ Mo ++ D)
             (str "T" ++ H ++ Mi ++ Se ++ Ms ++ str "." ++ rest) 0 8 8 ltac:(lia));
    [| rewrite E0; reassoc | apply (digits_app 4 4); [| apply (digits_app 2 2)];
                              assumption | lia].
  rewrite (digits_here s (H ++ Mi ++ Se) (Ms ++ str "." ++ rest) 9 6 15 ltac:(lia));
    [| rewrite E9; reassoc | apply (digits_app 2 4); [| apply (digits_app 2 2)];
                              assumption | lia].
  simpl negb. cbv iota.
  rewrite (parse_field_here s Y _ 0 4 ltac:(lia) HY E0).
  rewrite (parse_field_here s Mo _ 4 2 ltac:(lia) HMo E4).
  rewrite (parse_field_here s D _ 6 2 ltac:(lia) HD E6).
  rewrite (parse_field_here s H _ 9 2 ltac:(lia) HH E9).
  rewrite (parse_field_here s Mi _ 11 2 ltac:(lia) HMi E11).
  rewrite (parse_field_here s Se _ 13 2 ltac:(lia) HSe E13).
  rewrite Hv. simpl negb. cbv iota.
  assert (Hlen : 0 <= wid_timestamp_len u)
    by (unfold wid_timestamp_len; destruct (is_ms u); lia).
  rewrite (char_at_here s _ "." _ Hlen Edot).
  destruct (is_ms u).
  - rewrite (digits_here s Ms _ 15 3 18 ltac:(lia) E15 HMs eq_refl).
    rewrite (parse_field_here s Ms _ 15 3 ltac:(lia) HMs E15).
    destruct HMs as [HlMs HdMs]. pose proof (digits_val_range Ms HdMs) as Hr.
    rewrite HlMs in Hr. change (10 ^ 3) with 1000 in Hr.
    destruct (digits_val Ms <? 0) eqn:E1; [apply Z.ltb_lt in E1; lia |].
    destruct (999 <? digits_val Ms) eqn:E2; [apply Z.ltb_lt in E2; lia |].
    reflexivity.
  - apply digits_0 in HMs. subst Ms. reflexivity.
Qed.
(** ** The validators decide the grammar *)

Lemma stamp_text_length (u : wid_time_unit_t) (t : cstring) (ts : timestamp_t) :
  stamp_text u t ts -> strlen t = wid_timestamp_len u.
Proof.
  intros H. destruct H. unfold wid_timestamp_len. destruct (is_ms u); lens.
Qed.

Lemma wid_timestamp_len_pos (u : wid_time_unit_t) : 15 <= wid_timestamp_len u <= 18.
Proof. unfold wid_timestamp_len. destruct (is_ms u); lia. Qed.

Lemma if_negb_some_bool (c k : bool) :
  (if negb c then false else k) = true -> c = true /\ k = true.
Proof. destruct c; simpl; [tauto | discriminate]. Qed.

Lemma wid_valid_suffix_sound (sfx : cstring) (z : Z) :
  strlen sfx <= INT_MAX ->
  wid_valid_suffix sfx z = true -> suffix_text z sfx.
Proof.
  intros Hlen H. destruct sfx as [|c pad]; [left; reflexivity |].
  right. unfold wid_valid_suffix in H.
  apply if_negb_some_bool in H as [Hc H]. apply Ascii.eqb_eq in Hc. subst c.
  destruct (z <=? 0) eqn:Ez; [discriminate |]. apply Z.leb_gt in Ez.
  rewrite strlen_cons in Hlen. pose proof (strlen_nonneg pad) as Hp.
  rewrite cast_int_small in H by (unfold INT_MIN, INT_MAX in *; lia).
  apply if_negb_some_bool in H as [Hn H]. apply Z.eqb_eq in Hn.
  destruct (all_between_prefix wid_is_lower_hex pad (strlen pad) eq_refl Hp H)
    as (l & r & E & Hl & Hh).
  assert (r = []).
  { apply strlen_zero. rewrite E, strlen_app in Hl. lia. }
  subst r. rewrite app_nil_r in E. subst l.
  split; [lia |]. exists pad. split; [reflexivity |]. split; [lia | exact Hh].
Qed.

Lemma wid_valid_suffix_complete (sfx : cstring) (z : Z) :
  z <= WID_MAX_Z -> suffix_text z sfx -> wid_valid_suffix sfx z = true.
Proof.
  intros Hz [-> | (Hpos & pad & -> & Hl & Hh)]; [reflexivity |].
  change (str "-" ++ pad) with ("-"%char :: pad). unfold wid_valid_suffix.
  change (negb ("-" =? "-")%char) with false. cbv iota.
  destruct (z <=? 0) eqn:Ez; [apply Z.leb_le in Ez; lia |].
  rewrite cast_int_small by (unfold INT_MIN, INT_MAX, WID_MAX_Z in *; lia).
  rewrite Hl, Z.eqb_refl. simpl negb. cbv iota.
  pose proof (all_between_forallb wid_is_lower_hex pad [] Hh) as Hall.
  rewrite app_nil_r, Hl in Hall. exact Hall.
Qed.

Lemma is_some_true {A : Type} (o : option A) :
  is_some o = true -> exists x, o = Some x.
Proof. destruct o; [eauto | discriminate]. Qed.

(** The two parameter guards at the head of both validators. *)
Lemma guards_params (w z : Z) :
  (w <=? 0) || (z <? 0) = false -> (WID_MAX_W <? w) || (WID_MAX_Z <? z) = false ->
  params_ok w z.
Proof.
  intros H1 H2. apply orb_false_iff in H1 as [A B], H2 as [C D].
  apply Z.leb_gt in A. apply Z.ltb_ge in B, C, D. unfold params_ok. lia.
Qed.

Lemma params_guards (w z : Z) :
  params_ok w z ->
  (w <=? 0) || (z <? 0) = false /\ (WID_MAX_W <? w) || (WID_MAX_Z <? z) = false.
Proof.
  intros [[A B] [C D]]. split; apply orb_false_iff; split;
    try (apply Z.leb_gt; lia); apply Z.ltb_ge; lia.
Qed.

(** The part both validators share: time stamp, dot, counter, letter Z. *)
Lemma prefix_sound (s : cstring) (w : Z) (u : wid_time_unit_t) (ts : timestamp_t) :
  1 <= w ->
  wid_parse_timestamp s u = Some ts ->
  (char_at s (wid_timestamp_len u + 1 + w) =? "Z")%char = true ->
  all_between (wid_timestamp_len u + 1) (wid_timestamp_len u + 1 + w)
    (fun i => wid_is_digit (char_at s i)) = true ->
  exists t sq,
    stamp_text u t ts /\ digits w sq /\
    s = t ++ str "." ++ sq ++ str "Z" ++ advance s (wid_timestamp_len u + 1 + w + 1) /\
    advance s (wid_timestamp_len u + 1) = sq ++ advance s (wid_timestamp_len u + 1 + w).
Proof.
  intros Hw Hts HZ Hd. pose proof (wid_timestamp_len_pos u) as Hlen.
  destruct (wid_parse_timestamp_sound s u ts Hts) as (t & Ht & Hl & Es).
  apply Ascii.eqb_eq in HZ. rewrite all_between_spec in Hd.
  destruct (take_digits s (wid_timestamp_len u + 1) w) as (sq & Hsq & Esq); try lia.
  { intros i Hi. apply Hd. lia. }
  pose proof (take_char s (wid_timestamp_len u + 1 + w) "Z"
                ltac:(discriminate) ltac:(lia) HZ) as EZ.
  exists t, sq. repeat split; try assumption; try apply Ht; try apply Hsq.
  rewrite Es at 1. rewrite Esq, EZ. reflexivity.
Qed.

Lemma wid_validate_ex_sound (s : cstring) (w z : Z) (u : wid_time_unit_t) :
  strlen s <= INT_MAX ->
  wid_validate_ex s w z u = true -> params_ok w z /\ wid_text w z u s.
Proof.
  intros Hlen H. unfold wid_validate_ex in H.
  destruct ((w <=? 0) || (z <? 0)) eqn:G1; [discriminate |].
  destruct ((WID_MAX_W <? w) || (WID_MAX_Z <? z)) eqn:G2; [discriminate |].
  pose proof (guards_params w z G1 G2) as Hp. split; [exact Hp |].
  destruct (cast_int (strlen s) <? wid_timestamp_len u + 1 + w + 1) eqn:G3;
    [discriminate |].
  apply if_negb_some_bool in H as [Hts H]. apply is_some_true in Hts as [ts Hts].
  apply if_negb_some_bool in H as [HZ H].
  apply if_negb_some_bool in H as [Hd H].
  destruct (prefix_sound s w u ts ltac:(unfold params_ok in Hp; lia) Hts HZ Hd)
    as (t & sq & Ht & Hsq & Es & _).
  rewrite Es. econstructor; try eassumption.
  apply wid_valid_suffix_sound; [| exact H].
  unfold advance, strlen in *. rewrite length_skipn. lia.
Qed.

Lemma prefix_complete (s t sq rest : cstring) (w : Z) (u : wid_time_unit_t)
      (ts : timestamp_t) :
  stamp_text u t ts -> digits w sq ->
  s = t ++ str "." ++ sq ++ str "Z" ++ rest ->
  wid_parse_timestamp s u = Some ts /\
  (char_at s (wid_timestamp_len u + 1 + w) =? "Z")%char = true /\
  all_between (wid_timestamp_len u + 1) (wid_timestamp_len u + 1 + w)
    (fun i => wid_is_digit (char_at s i)) = true /\
  advance s (wid_timestamp_len u + 1) = sq ++ str "Z" ++ rest /\
  advance s (wid_timestamp_len u + 1 + w + 1) = rest /\
  strlen s = wid_timestamp_len u + 1 + w + 1 + strlen rest.
Proof.
  intros Ht Hsq Es. pose proof (wid_timestamp_len_pos u) as Hlen.
  pose proof (stamp_text_length u t ts Ht) as Hl.
  pose proof Hsq as [Hlsq _]. pose proof (strlen_nonneg sq) as Hw.
  assert (E1 : advance s (wid_timestamp_len u + 1) = sq ++ str "Z" ++ rest).
  { apply (advance_at s (t ++ str ".")); [subst s; reassoc |].
    rewrite strlen_app. change (strlen (str ".")) with 1. lia. }
  assert (E2 : advance s (wid_timestamp_len u + 1 + w) = str "Z" ++ rest).
  { apply (advance_at s (t ++ str "." ++ sq)); [subst s; reassoc |].
    rewrite !strlen_app. change (strlen (str ".")) with 1. lia. }
  assert (E3 : advance s (wid_timestamp_len u + 1 + w + 1) = rest).
  { apply (advance_at s (t ++ str "." ++ sq ++ str "Z")); [subst s; reassoc |].
    rewrite !strlen_app. change (strlen (str ".")) with 1.
    change (strlen (str "Z")) with 1. lia. }
  repeat split.
  - subst s. apply wid_parse_timestamp_complete. exact Ht.
  - apply Ascii.eqb_eq.
    apply (char_at_here s (wid_timestamp_len u + 1 + w) "Z" rest); [lia | exact E2].
  - apply (digits_here s sq (str "Z" ++ rest) (wid_timestamp_len u + 1) w);
      [lia | exact E1 | exact Hsq | reflexivity].
  - exact E1.
  - exact E3.
  - subst s. rewrite !strlen_app. change (strlen (str ".")) with 1.
    change (strlen (str "Z")) with 1. lia.
Qed.

Lemma wid_validate_ex_complete (s : cstring) (w z : Z) (u : wid_time_unit_t) :
  strlen s <= INT_MAX ->
  params_ok w z -> wid_text w z u s -> wid_validate_ex s w z u = true.
Proof.
  intros Hlen Hp H. destruct H as [t ts sq sfx Ht Hsq Hsfx].
  destruct (prefix_complete _ t sq sfx w u ts Ht Hsq eq_refl)
    as (Hts & HZ & Hd & _ & Esfx & Hl).
  remember (t ++ str "." ++ sq ++ str "Z" ++ sfx) as s eqn:Es.
  unfold wid_validate_ex.
  destruct (params_guards w z Hp) as [-> ->].
  pose proof (strlen_nonneg sfx) as Hs. pose proof (strlen_nonneg s) as Hs'.
  rewrite cast_int_small by (unfold INT_MIN, INT_MAX in *; lia).
  destruct (strlen s <? wid_timestamp_len u + 1 + w + 1) eqn:G;
    [apply Z.ltb_lt in G; lia |].
  rewrite Hts, HZ, Hd, Esfx. simpl.
  apply wid_valid_suffix_complete; [apply Hp | exact Hsfx].
Qed.

(** [wid_validate_ex] accepts exactly the strings of the WID grammar. *)
Lemma wid_validate_ex_spec (s : cstring) (w z : Z) (u : wid_time_unit_t) :
  strlen s <= INT_MAX ->
  wid_validate_ex s w z u = true <-> params_ok w z /\ wid_text w z u s.
Proof.
  intros Hlen. split.
  - apply wid_validate_ex_sound. exact Hlen.
  - intros [Hp H]. apply wid_validate_ex_complete; assumption.
Qed.

(** *** The node segment *)

Lemma upto_dash_node (nd rest : cstring) :
  forallb wid_is_node_char nd = true ->
  upto_dash (nd ++ str "-" ++ rest) = nd /\ upto_dash nd = nd.
Proof.
  induction nd as [|c nd IH]; intros H.
  - split; reflexivity.
  - simpl in H. apply andb_true_iff in H as [Hc Hnd].
    destruct (IH Hnd) as [IH1 IH2].
    assert (Hne : (c =? "-")%char = false).
    { destruct (Ascii.eqb_spec c "-"); [subst c; discriminate Hc | reflexivity]. }
    simpl. rewrite Hne. simpl in IH1. rewrite IH1, IH2. split; reflexivity.
Qed.

Lemma strchr_upto_dash (p : cstring) :
  match strchr p "-" with
  | Some q => p = upto_dash p ++ q /\ exists r, q = str "-" ++ r
  | None => upto_dash p = p
  end.
Proof.
  induction p as [|c p IH]; [reflexivity |].
  simpl. destruct (Ascii.eqb_spec c "-") as [-> | Hne].
  - split; [reflexivity | exists p; reflexivity].
  - destruct (strchr p "-") as [q|].
    + destruct IH as [E Hq]. split; [simpl; f_equal; exact E | exact Hq].
    + f_equal. exact IH.
Qed.

(** The length [node_len] computed by [hlc_wid_parse_ex] is the length of
    the node segment. *)
Lemma strchr_node_len (p : cstring) :
  match strchr p "-" with
  | Some q => strlen p - strlen q
  | None => strlen p
  end = strlen (upto_dash p).
Proof.
  pose proof (strchr_upto_dash p) as H. destruct (strchr p "-") as [q|].
  - destruct H as [E _]. rewrite E at 1. rewrite strlen_app. lia.
  - rewrite H. reflexivity.
Qed.

Lemma hlc_scan_node_sound (p : cstring) (r : option cstring) :
  hlc_scan_node p = Some r ->
  forallb wid_is_node_char (upto_dash p) = true /\
  match r with
  | Some q => p = upto_dash p ++ q /\ exists r', q = str "-" ++ r'
  | None => upto_dash p = p
  end.
Proof.
  revert r. induction p as [|c p IH]; intros r H.
  - inversion H. split; reflexivity.
  - simpl in H. simpl upto_dash. destruct (Ascii.eqb_spec c "-") as [-> | Hne].
    + inversion H. split; [reflexivity |]. split; [reflexivity |].
      exists p. reflexivity.
    + destruct (wid_is_node_char c) eqn:Hc; [| discriminate H].
      simpl in H. destruct (IH r H) as [Hn Hr]. split.
      * simpl. rewrite Hc, Hn. reflexivity.
      * destruct r as [q|].
        -- destruct Hr as [E Hq]. split; [simpl; f_equal; exact E | exact Hq].
        -- f_equal. exact Hr.
Qed.

Lemma hlc_scan_node_complete (nd sfx : cstring) :
  forallb wid_is_node_char nd = true ->
  sfx = [] \/ (exists r, sfx = str "-" ++ r) ->
  hlc_scan_node (nd ++ sfx) = Some (if at_end sfx then None else Some sfx).
Proof.
  intros Hn Hs. induction nd as [|c nd IH].
  - destruct Hs as [-> | [r ->]]; reflexivity.
  - simpl in Hn. apply andb_true_iff in Hn as [Hc Hnd].
    assert (Hne : (c =? "-")%char = false).
    { destruct (Ascii.eqb_spec c "-"); [subst c; discriminate Hc | reflexivity]. }
    simpl. rewrite Hne, Hc. simpl. apply IH. exact Hnd.
Qed.
Lemma hlc_wid_validate_ex_sound (s : cstring) (w z : Z) (u : wid_time_unit_t) :
  strlen s <= INT_MAX ->
  hlc_wid_validate_ex s w z u = true -> params_ok w z /\ hlc_text w z u s.
Proof.
  intros Hlen H. unfold hlc_wid_validate_ex in H.
  destruct ((w <=? 0) || (z <? 0)) eqn:G1; [discriminate |].
  destruct ((WID_MAX_W <? w) || (WID_MAX_Z <? z)) eqn:G2; [discriminate |].
  pose proof (guards_params w z G1 G2) as Hp. split; [exact Hp |].
  destruct (cast_int (strlen s) <? wid_timestamp_len u + 1 + w + 1 + 2) eqn:G3;
    [discriminate |].
  apply if_negb_some_bool in H as [Hts H]. apply is_some_true in Hts as [ts Hts].
  apply if_negb_some_bool in H as [HZ H].
  apply if_negb_some_bool in H as [Hdash H]. apply Ascii.eqb_eq in Hdash.
  apply if_negb_some_bool in H as [Hd H].
  pose proof (wid_timestamp_len_pos u) as HL.
  assert (Hw : 1 <= w) by (unfold params_ok in Hp; lia).
  destruct (prefix_sound s w u ts Hw Hts HZ Hd) as (t & sq & Ht & Hsq & Es & _).
  pose proof (take_char s (wid_timestamp_len u + 1 + w + 1) "-"
                ltac:(discriminate) ltac:(lia) Hdash) as Edash.
  rewrite Edash in Es.
  set (p := advance s (wid_timestamp_len u + 1 + w + 1 + 1)) in *.
  assert (Hplen : strlen p <= INT_MAX).
  { unfold p, advance, strlen in *. rewrite length_skipn. lia. }
  pose proof (strlen_nonneg p) as Hp0.
  destruct (hlc_scan_node p) as [r|] eqn:Escan; [| discriminate H].
  destruct (hlc_scan_node_sound p r Escan) as [Hnode Hr].
  assert (Hshape : exists sfx, p = upto_dash p ++ sfx /\ upto_dash p <> [] /\
                               suffix_text z sfx).
  { destruct r as [q|].
    - destruct Hr as [Ep [r' Eq]]. exists q.
      assert (Hq : strlen p - strlen q = strlen (upto_dash p))
        by (rewrite Ep at 1; rewrite strlen_app; lia).
      pose proof (strlen_nonneg q) as Hq0.
      pose proof (strlen_nonneg (upto_dash p)) as Hu0.
      rewrite Hq, cast_int_small in H by (unfold INT_MIN, INT_MAX in *; lia).
      destruct (strlen (upto_dash p) <=? 0) eqn:G; [discriminate H |].
      apply Z.leb_gt in G. repeat split.
      + exact Ep.
      + intros E. rewrite E, strlen_nil in G. lia.
      + apply wid_valid_suffix_sound; [lia | exact H].
    - exists []. rewrite cast_int_small in H by (unfold INT_MIN, INT_MAX in *; lia).
      destruct (strlen p <=? 0) eqn:G; [discriminate H |]. apply Z.leb_gt in G.
      repeat split.
      + rewrite app_nil_r. symmetry. exact Hr.
      + rewrite Hr. intros E. rewrite E, strlen_nil in G. lia.
      + left. reflexivity. }
  destruct Hshape as (sfx & Ep & Hne & Hsfx).
  rewrite Es, Ep.
  change (t ++ str "." ++ sq ++ str "Z" ++ "-"%char :: upto_dash p ++ sfx)
    with (t ++ str "." ++ sq ++ str "Z-" ++ upto_dash p ++ sfx).
  econstructor; try eassumption. split; assumption.
Qed.

Lemma hlc_wid_validate_ex_complete (s : cstring) (w z : Z) (u : wid_time_unit_t) :
  strlen s <= INT_MAX ->
  params_ok w z -> hlc_text w z u s -> hlc_wid_validate_ex s w z u = true.
Proof.
  intros Hlen Hp H. destruct H as [t ts sq nd sfx Ht Hsq [Hne Hnd] Hsfx].
  change (t ++ str "." ++ sq ++ str "Z-" ++ nd ++ sfx)
    with (t ++ str "." ++ sq ++ str "Z" ++ str "-" ++ nd ++ sfx) in *.
  destruct (prefix_complete _ t sq (str "-" ++ nd ++ sfx) w u ts Ht Hsq eq_refl)
    as (Hts & HZ & Hd & _ & Erest & Hl).
  remember (t ++ str "." ++ sq ++ str "Z" ++ str "-" ++ nd ++ sfx) as s eqn:Es.
  pose proof (wid_timestamp_len_pos u) as HL.
  assert (Hw : 1 <= w) by (unfold params_ok in Hp; lia).
  assert (Enode : advance s (wid_timestamp_len u + 1 + w + 1 + 1) = nd ++ sfx).
  { rewrite <- advance_advance, Erest by lia. reflexivity. }
  assert (Hdash : char_at s (wid_timestamp_len u + 1 + w + 1) = "-"%char).
  { apply (char_at_here s _ "-" (nd ++ sfx)); [lia | exact Erest]. }
  assert (Hndlen : 0 < strlen nd).
  { destruct nd; [congruence |]. rewrite strlen_cons.
    pose proof (strlen_nonneg nd). lia. }
  pose proof (strlen_nonneg sfx) as Hs. pose proof (strlen_nonneg s) as Hs'.
  rewrite !strlen_app in Hl. change (strlen (str "-")) with 1 in Hl.
  unfold hlc_wid_validate_ex.
  destruct (params_guards w z Hp) as [-> ->].
  rewrite cast_int_small by (unfold INT_MIN, INT_MAX in *; lia).
  destruct (strlen s <? wid_timestamp_len u + 1 + w + 1 + 2) eqn:G;
    [apply Z.ltb_lt in G; lia |].
  rewrite Hts, HZ, Hd, Hdash, Enode. simpl negb. cbv iota.
  rewrite hlc_scan_node_complete.
  - destruct sfx as [|c sfx']; simpl at_end; cbv iota.
    + rewrite cast_int_small
        by (rewrite strlen_app in *; unfold INT_MIN, INT_MAX in *; lia).
      rewrite app_nil_r.
      destruct (strlen nd <=? 0) eqn:G'; [apply Z.leb_le in G'; lia | reflexivity].
    + replace (strlen (nd ++ c :: sfx') - strlen (c :: sfx')) with (strlen nd)
        by (rewrite strlen_app; lia).
      rewrite cast_int_small by (unfold INT_MIN, INT_MAX in *; lia).
      destruct (strlen nd <=? 0) eqn:G'; [apply Z.leb_le in G'; lia |].
      apply wid_valid_suffix_complete; [apply Hp | exact Hsfx].
  - exact Hnd.
  - destruct Hsfx as [-> | (_ & pad & -> & _)]; [left; reflexivity |].
    right. exists pad. reflexivity.
Qed.

(** [hlc_wid_validate_ex] accepts exactly the strings of the HLC-WID
    grammar. *)
Lemma hlc_wid_validate_ex_spec (s : cstring) (w z : Z) (u : wid_time_unit_t) :
  strlen s <= INT_MAX ->
  hlc_wid_validate_ex s w z u = true <-> params_ok w z /\ hlc_text w z u s.
Proof.
  intros Hlen. split.
  - apply hlc_wid_validate_ex_sound. exact Hlen.
  - intros [Hp H]. apply hlc_wid_validate_ex_complete; assumption.
Qed.
(** ** Parsing and rendering *)

Lemma fmt_stamp_text (u : wid_time_unit_t) (t : cstring) (ts : timestamp_t) :
  stamp_text u t ts -> fmt_stamp u ts = t.
Proof.
  intros H. destruct H as [Y Mo D H Mi Se Ms HY HMo HD HH HMi HSe HMs Hv].
  unfold fmt_stamp. cbn [year month day hour minute second millisecond].
  rewrite (printf_0d_digits_val 4 Y), (printf_0d_digits_val 2 Mo),
    (printf_0d_digits_val 2 D), (printf_0d_digits_val 2 H),
    (printf_0d_digits_val 2 Mi), (printf_0d_digits_val 2 Se)
    by (try assumption; lia).
  destruct (is_ms u).
  - rewrite (printf_0d_digits_val 3 Ms) by (try assumption; lia). reflexivity.
  - apply digits_0 in HMs. subst Ms. reflexivity.
Qed.

Lemma copy_str_all (p : cstring) : copy_str p (strlen p) = p.
Proof. unfold copy_str, strlen. rewrite Nat2Z.id. apply firstn_all. Qed.

Lemma copy_str_app (a b : cstring) : copy_str (a ++ b) (strlen a) = a.
Proof.
  unfold copy_str, strlen. rewrite Nat2Z.id, firstn_app, firstn_all, Nat.sub_diag.
  simpl. apply app_nil_r.
Qed.

(** What [wid_parse_ex] returns on a string of the grammar. *)
Lemma wid_parse_ex_text (s : cstring) (w z : Z) (u : wid_time_unit_t) :
  strlen s <= INT_MAX ->
  wid_validate_ex s w z u = true ->
  exists t ts sq sfx,
    stamp_text u t ts /\ digits w sq /\ suffix_text z sfx /\
    s = t ++ str "." ++ sq ++ str "Z" ++ sfx /\
    wid_parse_ex s w z u =
      Some (mk_parsed_wid s ts (digits_val sq) (negb (at_end sfx)) (advance sfx 1)).
Proof.
  intros Hlen Hv.
  destruct (wid_validate_ex_sound s w z u Hlen Hv) as [Hp H].
  destruct H as [t ts sq sfx Ht Hsq Hsfx].
  exists t, ts, sq, sfx. repeat split; try assumption; try apply Hsq.
  destruct (prefix_complete _ t sq sfx w u ts Ht Hsq eq_refl)
    as (Hts & _ & _ & Eseq & Esfx & _).
  remember (t ++ str "." ++ sq ++ str "Z" ++ sfx) as s eqn:Es.
  unfold wid_parse_ex. rewrite Hv, Hts. simpl negb. cbv iota. cbn [bind].
  rewrite Eseq, Esfx, (wid_parse_digits_i64_digits sq _ w Hsq).
  destruct Hsq as [Hlsq Hdsq]. pose proof (digits_val_range sq Hdsq) as Hr.
  destruct (digits_val sq <? 0) eqn:G; [apply Z.ltb_lt in G; lia |].
  destruct Hsfx as [-> | (Hz & pad & -> & Hlp & _)]; [reflexivity |].
  change (advance (str "-" ++ pad) 1) with pad. simpl at_end. simpl negb. cbv iota.
  destruct (WID_MAX_Z <? strlen pad) eqn:G'.
  - apply Z.ltb_lt in G'. unfold params_ok in Hp. lia.
  - rewrite copy_str_all. reflexivity.
Qed.

Lemma strchr_node (nd sfx : cstring) :
  forallb wid_is_node_char nd = true ->
  strchr (nd ++ sfx) "-" = strchr sfx "-".
Proof.
  induction nd as [|c nd IH]; intros H; [reflexivity |].
  simpl in H. apply andb_true_iff in H as [Hc Hnd].
  simpl. destruct (Ascii.eqb_spec c "-") as [-> | Hne]; [discriminate Hc |].
  apply IH. exact Hnd.
Qed.

Lemma node_segment_text (t sq nd sfx : cstring) (w z : Z) (u : wid_time_unit_t)
      (ts : timestamp_t) :
  stamp_text u t ts -> digits w sq -> node_text nd -> suffix_text z sfx ->
  node_segment (t ++ str "." ++ sq ++ str "Z-" ++ nd ++ sfx) w u = nd.
Proof.
  intros Ht Hsq [_ Hnd] Hsfx. unfold node_segment.
  pose proof (stamp_text_length u t ts Ht) as Hl. destruct Hsq as [Hlsq _].
  rewrite (advance_at _ (t ++ str "." ++ sq ++ str "Z-") (nd ++ sfx));
    [| reassoc | rewrite !strlen_app; change (strlen (str ".")) with 1;
                 change (strlen (str "Z-")) with 2; lia].
  destruct Hsfx as [-> | (_ & pad & -> & _)].
  - rewrite app_nil_r. apply (upto_dash_node nd []). exact Hnd.
  - apply upto_dash_node. exact Hnd.
Qed.

(** What [hlc_wid_parse_ex] returns on a string of the grammar whose node
    fits the 64 bytes of the field [node]. *)
Lemma hlc_wid_parse_ex_text (s : cstring) (w z : Z) (u : wid_time_unit_t) :
  strlen s <= INT_MAX ->
  hlc_wid_validate_ex s w z u = true ->
  exists t ts sq nd sfx,
    stamp_text u t ts /\ digits w sq /\ node_text nd /\ suffix_text z sfx /\
    s = t ++ str "." ++ sq ++ str "Z-" ++ nd ++ sfx /\
    node_segment s w u = nd /\
    hlc_wid_parse_ex s w z u =
      if NODE_SIZE <=? strlen nd then None
      else Some (mk_parsed_hlc s ts (digits_val sq) nd
                               (negb (at_end sfx)) (advance sfx 1)).
Proof.
  intros Hlen Hv.
  destruct (hlc_wid_validate_ex_sound s w z u Hlen Hv) as [Hp H].
  destruct H as [t ts sq nd sfx Ht Hsq Hnode Hsfx].
  exists t, ts, sq, nd, sfx. repeat split; try assumption;
    try apply Hsq; try apply Hnode.
  { apply (node_segment_text t sq nd sfx w z u ts); assumption. }
  change (t ++ str "." ++ sq ++ str "Z-" ++ nd ++ sfx)
    with (t ++ str "." ++ sq ++ str "Z" ++ str "-" ++ nd ++ sfx) in *.
  destruct (prefix_complete _ t sq (str "-" ++ nd ++ sfx) w u ts Ht Hsq eq_refl)
    as (Hts & _ & _ & Eseq & Erest & _).
  remember (t ++ str "." ++ sq ++ str "Z" ++ str "-" ++ nd ++ sfx) as s eqn:Es.
  pose proof (wid_timestamp_len_pos u) as HL.
  assert (Hw : 1 <= w) by (unfold params_ok in Hp; lia).
  assert (Enode : advance s (wid_timestamp_len u + 1 + w + 1 + 1) = nd ++ sfx).
  { rewrite <- advance_advance, Erest by lia. reflexivity. }
  unfold hlc_wid_parse_ex. rewrite Hv, Hts. simpl negb. cbv iota. cbn [bind].
  rewrite Eseq, Enode, (wid_parse_digits_i64_digits sq _ w Hsq).
  destruct Hsq as [Hlsq Hdsq]. pose proof (digits_val_range sq Hdsq) as Hr.
  destruct (digits_val sq <? 0) eqn:G; [apply Z.ltb_lt in G; lia |].
  destruct Hnode as [Hne Hnd].
  assert (Hndlen : 0 < strlen nd).
  { destruct nd; [congruence |]. rewrite strlen_cons.
    pose proof (strlen_nonneg nd). lia. }
  rewrite (strchr_node nd sfx Hnd).
  destruct Hsfx as [-> | (Hz & pad & -> & Hlp & _)].
  - simpl strchr. cbv iota. rewrite app_nil_r.
    destruct (strlen nd =? 0) eqn:G0; [apply Z.eqb_eq in G0; lia |].
    simpl orb. rewrite copy_str_all. reflexivity.
  - change (strchr (str "-" ++ pad) "-") with (Some (str "-" ++ pad)). cbv iota.
    replace (strlen (nd ++ str "-" ++ pad) - strlen (str "-" ++ pad))
      with (strlen nd) by (rewrite strlen_app; lia).
    destruct (strlen nd =? 0) eqn:G0; [apply Z.eqb_eq in G0; lia |].
    simpl orb. destruct (NODE_SIZE <=? strlen nd); [reflexivity |].
    change (advance (str "-" ++ pad) 1) with pad.
    destruct (WID_MAX_Z <? strlen pad) eqn:G'.
    + apply Z.ltb_lt in G'. unfold params_ok in Hp. lia.
    + rewrite copy_str_all, copy_str_app. reflexivity.
Qed.
(** ** Round trip (C1) *)

(** C1, counterexample.  The claim promises that [parse_hlc] succeeds on
    whatever [validate_hlc] accepts.  An HLC-WID whose node has 64
    characters is accepted by [hlc_wid_validate_ex] and refused by
    [hlc_wid_parse_ex], whose result field [node] holds 63 characters. *)
Lemma roundtrip_counterexample :
  hlc_wid_validate_ex sample_long_node 4 0 WID_TIME_SEC = true /\
  hlc_wid_parse_ex sample_long_node 4 0 WID_TIME_SEC = None.
Proof. split; vm_compute; reflexivity. Qed.

(** C1, as amended.  For every string [s] (of at most [INT_MAX] characters,
    the range in which the [int] lengths of the validators are exact) and
    all [W], [Z] and time unit: if [wid_validate_ex] accepts [s] then
    [wid_parse_ex] succeeds on [s], rendering the parsed fields (calendar
    fields, sequence zero-padded to [W] digits, padding when present) gives
    back [s] exactly, and a parsed padding has [Z] lowercase hexadecimal
    digits; if [hlc_wid_validate_ex] accepts [s] and the node segment of [s]
    is shorter than 64 characters, then [hlc_wid_parse_ex] succeeds on [s]
    and rendering the parsed fields (with the node) gives back [s]
    exactly. *)
Theorem roundtrip_parse_render (s : cstring) (w z : Z) (u : wid_time_unit_t) :
  strlen s <= INT_MAX ->
  (wid_validate_ex s w z u = true ->
   exists p, wid_parse_ex s w z u = Some p /\ render_wid w u p = s /\
             (has_padding p = true -> pad_text z (padding p))) /\
  (hlc_wid_validate_ex s w z u = true ->
   strlen (node_segment s w u) < NODE_SIZE ->
   exists p, hlc_wid_parse_ex s w z u = Some p /\ render_hlc w u p = s /\
             (hhas_padding p = true -> pad_text z (hpadding p))).
Proof.
  intros Hlen. split.
  - intros Hv.
    destruct (wid_validate_ex_sound s w z u Hlen Hv) as [[Hw _] _].
    destruct (wid_parse_ex_text s w z u Hlen Hv)
      as (t & ts & sq & sfx & Ht & Hsq & Hsfx & Es & Hparse).
    eexists. split; [exact Hparse |]. unfold render_wid.
    cbn [stamp sequence has_padding padding].
    rewrite (fmt_stamp_text u t ts Ht), (printf_0d_digits_val w sq)
      by (try assumption; unfold WID_MAX_W in Hw; lia).
    destruct Hsfx as [-> | (Hz & pad & -> & Hpad)].
    + split; [exact (eq_sym Es) | discriminate].
    + split; [exact (eq_sym Es) | intros _; exact Hpad].
  - intros Hv Hnode.
    destruct (hlc_wid_validate_ex_sound s w z u Hlen Hv) as [[Hw _] _].
    destruct (hlc_wid_parse_ex_text s w z u Hlen Hv)
      as (t & ts & sq & nd & sfx & Ht & Hsq & Hnd & Hsfx & Es & Eseg & Hparse).
    rewrite Eseg in Hnode.
    destruct (NODE_SIZE <=? strlen nd) eqn:G; [apply Z.leb_le in G; lia |].
    eexists. split; [exact Hparse |]. unfold render_hlc.
    cbn [hstamp logical_counter pnode hhas_padding hpadding].
    rewrite (fmt_stamp_text u t ts Ht), (printf_0d_digits_val w sq)
      by (try assumption; unfold WID_MAX_W in Hw; lia).
    destruct Hsfx as [-> | (Hz & pad & -> & Hpad)].
    + split; [exact (eq_sym Es) | discriminate].
    + split; [exact (eq_sym Es) | intros _; exact Hpad].
Qed.

Lemma roundtrip_parse_render_witness :
  (exists p, wid_parse_ex (str "20260212T091530.0042Z-a3f91c") 4 6 WID_TIME_SEC = Some p /\
             render_wid 4 WID_TIME_SEC p = str "20260212T091530.0042Z-a3f91c" /\
             (has_padding p = true -> pad_text 6 (padding p))) /\
  (exists p, hlc_wid_parse_ex (str "20260212T091530123.0042Z-my_node-a3f91c") 4 6
               WID_TIME_MS = Some p /\
             render_hlc 4 WID_TIME_MS p = str "20260212T091530123.0042Z-my_node-a3f91c" /\
             (hhas_padding p = true -> pad_text 6 (hpadding p))).
Proof.
  split.
  - apply (proj1 (roundtrip_parse_render (str "20260212T091530.0042Z-a3f91c") 4 6
                    WID_TIME_SEC ltac:(vm_compute; discriminate))).
    vm_compute. reflexivity.
  - apply (proj2 (roundtrip_parse_render (str "20260212T091530123.0042Z-my_node-a3f91c")
                    4 6 WID_TIME_MS ltac:(vm_compute; discriminate))).
    + vm_compute. reflexivity.
    + vm_compute. reflexivity.
Defined.

(** ** Parsers and validators agree (C3) *)

(** C3, counterexample.  For this string, whose node has 70 characters,
    [hlc_wid_validate_ex] returns true while [hlc_wid_parse_ex] fails: the
    equivalence of the claim does not hold. *)
Lemma parse_iff_validate_counterexample :
  ~ (is_some (hlc_wid_parse_ex sample_long_node_ms 18 2 WID_TIME_MS) = true <->
     hlc_wid_validate_ex sample_long_node_ms 18 2 WID_TIME_MS = true).
Proof.
  intros [_ H].
  assert (Hv : hlc_wid_validate_ex sample_long_node_ms 18 2 WID_TIME_MS = true)
    by (vm_compute; reflexivity).
  specialize (H Hv). vm_compute in H. discriminate H.
Qed.

(** C3, as amended.  For every string [s] of at most [INT_MAX] characters
    and every [(W, Z, unit)]: [wid_parse_ex] succeeds exactly when
    [wid_validate_ex] returns true, and [hlc_wid_parse_ex] succeeds exactly
    when [hlc_wid_validate_ex] returns true and the node segment of [s] is
    shorter than 64 characters. *)
Theorem parse_iff_validate (s : cstring) (w z : Z) (u : wid_time_unit_t) :
  strlen s <= INT_MAX ->
  is_some (wid_parse_ex s w z u) = wid_validate_ex s w z u /\
  is_some (hlc_wid_parse_ex s w z u)
  = hlc_wid_validate_ex s w z u && (strlen (node_segment s w u) <? NODE_SIZE).
Proof.
  intros Hlen. split.
  - destruct (wid_validate_ex s w z u) eqn:Hv.
    + destruct (wid_parse_ex_text s w z u Hlen Hv)
        as (t & ts & sq & sfx & _ & _ & _ & _ & Hparse).
      rewrite Hparse. reflexivity.
    + unfold wid_parse_ex. rewrite Hv. reflexivity.
  - destruct (hlc_wid_validate_ex s w z u) eqn:Hv.
    + destruct (hlc_wid_parse_ex_text s w z u Hlen Hv)
        as (t & ts & sq & nd & sfx & _ & _ & _ & _ & _ & Eseg & Hparse).
      rewrite Hparse, Eseg. simpl andb.
      destruct (NODE_SIZE <=? strlen nd) eqn:G.
      * apply Z.leb_le in G. symmetry. apply Z.ltb_ge. exact G.
      * apply Z.leb_gt in G. symmetry. apply Z.ltb_lt. exact G.
    + unfold hlc_wid_parse_ex. rewrite Hv. reflexivity.
Qed.

Lemma parse_iff_validate_witness :
  is_some (wid_parse_ex (str "20260212T091530.0000Z-node01") 4 0 WID_TIME_SEC)
  = wid_validate_ex (str "20260212T091530.0000Z-node01") 4 0 WID_TIME_SEC /\
  is_some (hlc_wid_parse_ex (str "20260212T091530.0000Z-node01") 4 0 WID_TIME_SEC)
  = hlc_wid_validate_ex (str "20260212T091530.0000Z-node01") 4 0 WID_TIME_SEC
    && (strlen (node_segment (str "20260212T091530.0000Z-node01") 4 WID_TIME_SEC)
        <? NODE_SIZE).
Proof.
  apply (parse_iff_validate (str "20260212T091530.0000Z-node01") 4 0 WID_TIME_SEC).
  vm_compute. discriminate.
Defined.

(** ** The padding segment (C4) *)

(** C4, counterexample.  With [Z = 6] the validator accepts a WID that stops
    at the letter Z: the string does not end with a dash and six
    hexadecimal digits. *)
Lemma padding_counterexample :
  wid_validate_ex (str "20260212T091530.0042Z") 4 6 WID_TIME_SEC = true /\
  ~ (exists pre pad, str "20260212T091530.0042Z" = pre ++ str "-" ++ pad /\
                     strlen pad = 6 /\ forallb wid_is_lower_hex pad = true).
Proof.
  split; [vm_compute; reflexivity |].
  intros (pre & pad & E & _).
  assert (Hin : In "-"%char (str "20260212T091530.0042Z")).
  { rewrite E. apply in_or_app. right. left. reflexivity. }
  vm_compute in Hin. repeat (destruct Hin as [Hin | Hin]; [discriminate Hin |]).
  exact Hin.
Qed.

(** C4, as amended.  For every string [s] of at most [INT_MAX] characters
    and all [W], [Z], unit: if [wid_validate_ex] accepts [s], then what
    follows the letter Z that closes the counter is either empty or, with
    [Z > 0], a dash followed by exactly [Z] lowercase hexadecimal digits;
    and when [Z = 0] any non-empty suffix after that letter makes
    [wid_validate_ex] return false. *)
Theorem padding_shape (s : cstring) (w z : Z) (u : wid_time_unit_t) :
  strlen s <= INT_MAX ->
  let sfx := advance s (wid_timestamp_len u + 1 + w + 1) in
  (wid_validate_ex s w z u = true ->
   char_at s (wid_timestamp_len u + 1 + w) = "Z"%char /\
   (sfx = [] \/
    (0 < z /\ exists pad, sfx = str "-" ++ pad /\ strlen pad = z /\
                          forallb wid_is_lower_hex pad = true))) /\
  (z = 0 -> sfx <> [] -> wid_validate_ex s w z u = false).
Proof.
  intros Hlen sfx.
  assert (H1 : wid_validate_ex s w z u = true ->
               char_at s (wid_timestamp_len u + 1 + w) = "Z"%char /\ suffix_text z sfx).
  { intros Hv. destruct (wid_validate_ex_sound s w z u Hlen Hv) as [_ H].
    destruct H as [t ts sq sfx' Ht Hsq Hsfx].
    destruct (prefix_complete _ t sq sfx' w u ts Ht Hsq eq_refl)
      as (_ & HZ & _ & _ & E & _).
    apply Ascii.eqb_eq in HZ. split; [exact HZ |].
    unfold sfx. rewrite E. exact Hsfx. }
  split; [exact H1 |].
  intros Hz Hne. destruct (wid_validate_ex s w z u) eqn:Hv; [| reflexivity].
  destruct (H1 eq_refl) as [_ [E | (Hpos & _)]]; [contradiction | lia].
Qed.

Lemma padding_shape_witness :
  char_at (str "20260212T091530.0042Z-a3f91c") (15 + 1 + 4) = "Z"%char /\
  (advance (str "20260212T091530.0042Z-a3f91c") (15 + 1 + 4 + 1) = [] \/
   (0 < 6 /\ exists pad,
       advance (str "20260212T091530.0042Z-a3f91c") (15 + 1 + 4 + 1) = str "-" ++ pad /\
       strlen pad = 6 /\ forallb wid_is_lower_hex pad = true)).
Proof.
  apply (proj1 (padding_shape (str "20260212T091530.0042Z-a3f91c") 4 6 WID_TIME_SEC
                  ltac:(vm_compute; discriminate))).
  vm_compute. reflexivity.
Defined.

(** ** Long nodes (C10) *)

Lemma stamp_text_sample :
  stamp_text WID_TIME_SEC (str "20260212T091530")
    (mk_timestamp 2026 2 12 9 15 30 0).
Proof.
  apply (stamp_text_intro WID_TIME_SEC (str "2026") (str "02") (str "12")
           (str "09") (str "15") (str "30") []);
    try (split; reflexivity); reflexivity.
Qed.

(** [hlc_wid_validate_ex] accepts a node of any length. *)
Lemma hlc_validate_any_node (nd : cstring) :
  node_text nd -> strlen nd <= INT_MAX - 22 ->
  hlc_wid_validate_ex (str "20260212T091530.0042Z-" ++ nd) 4 0 WID_TIME_SEC = true.
Proof.
  intros Hnd Hlen. apply hlc_wid_validate_ex_complete.
  - rewrite strlen_app. change (strlen (str "20260212T091530.0042Z-")) with 22. lia.
  - unfold params_ok, WID_MAX_W, WID_MAX_Z. lia.
  - rewrite <- (app_nil_r nd).
    apply (hlc_text_intro 4 0 WID_TIME_SEC (str "20260212T091530")
             (mk_timestamp 2026 2 12 9 15 30 0) (str "0042") nd []).
    + exact stamp_text_sample.
    + split; reflexivity.
    + exact Hnd.
    + left. reflexivity.
Qed.

(** C10.  For every [(W, Z, unit)] and every string whose node segment (the
    characters between the dash after the counter's letter Z and the next
    dash or the end of the string) has 64 characters or more,
    [hlc_wid_parse_ex] fails; [hlc_wid_validate_ex] has no such bound
    (lemma [hlc_validate_any_node]). *)
Theorem hlc_parse_long_node (s : cstring) (w z : Z) (u : wid_time_unit_t) :
  NODE_SIZE <= strlen (node_segment s w u) ->
  hlc_wid_parse_ex s w z u = None.
Proof.
  intros H. unfold hlc_wid_parse_ex, node_segment in *.
  destruct (hlc_wid_validate_ex s w z u); [| reflexivity]. simpl negb. cbv iota.
  destruct (wid_parse_timestamp s u) as [ts|]; [| reflexivity]. cbn [bind].
  destruct (wid_parse_digits_i64 _ w <? 0); [reflexivity |].
  set (p := advance s (wid_timestamp_len u + 1 + w + 1 + 1)) in *.
  pose proof (strchr_node_len p) as Hlen.
  destruct (strchr p "-") as [q|]; rewrite Hlen;
    apply Z.leb_le in H; rewrite H, orb_true_r; reflexivity.
Qed.

Lemma hlc_parse_long_node_witness :
  hlc_wid_validate_ex (str "20260212T091530.0042Z-" ++ repeat "n"%char 64 ++ str "-a3f91c")
    4 6 WID_TIME_SEC = true /\
  hlc_wid_parse_ex (str "20260212T091530.0042Z-" ++ repeat "n"%char 64 ++ str "-a3f91c")
    4 6 WID_TIME_SEC = None.
Proof.
  split.
  - vm_compute. reflexivity.
  - apply hlc_parse_long_node. vm_compute. discriminate.
Defined.
(** ** Strings longer than [INT_MAX] *)

(** The validators measure the string with [(int) strlen].  On a string of
    more than [INT_MAX] characters the length wraps: a WID whose padding is
    followed by 2^32 further characters is accepted for [Z = 6], although
    its padding is not six hexadecimal digits, and the parser then refuses
    it.  The properties of the codec are therefore stated for strings of at
    most [INT_MAX] characters. *)
Lemma wid_validate_ex_wraps (junk : cstring) :
  strlen junk = 4294967296 ->
  wid_validate_ex (str "20260212T091530.0042Z-a3f91c" ++ junk) 4 6 WID_TIME_SEC = true /\
  wid_parse_ex (str "20260212T091530.0042Z-a3f91c" ++ junk) 4 6 WID_TIME_SEC = None.
Proof.
  intros Hj.
  change (str "20260212T091530.0042Z-a3f91c" ++ junk)
    with (str "20260212T091530" ++ str "." ++ str "0042" ++ str "Z"
          ++ str "-" ++ str "a3f91c" ++ junk).
  destruct (prefix_complete _ (str "20260212T091530") (str "0042")
              (str "-" ++ str "a3f91c" ++ junk) 4 WID_TIME_SEC
              (mk_timestamp 2026 2 12 9 15 30 0) stamp_text_sample
              ltac:(split; reflexivity) eq_refl)
    as (Hts & HZ & Hd & Eseq & Esfx & Hl).
  remember (str "20260212T091530" ++ str "." ++ str "0042" ++ str "Z"
            ++ str "-" ++ str "a3f91c" ++ junk) as s eqn:Es.
  change (wid_timestamp_len WID_TIME_SEC) with 15 in *.
  change (15 + 1 + 4 + 1) with 21 in *. change (15 + 1 + 4) with 20 in *.
  change (15 + 1) with 16 in *.
  assert (Hpad : strlen (str "a3f91c" ++ junk) = 4294967302).
  { rewrite strlen_app, Hj. reflexivity. }
  assert (Hlen : strlen s = 4294967324).
  { rewrite Hl, strlen_app, Hpad. reflexivity. }
  assert (Hv : wid_validate_ex s 4 6 WID_TIME_SEC = true).
  { unfold wid_validate_ex.
    change ((4 <=? 0) || (6 <? 0)) with false.
    change ((WID_MAX_W <? 4) || (WID_MAX_Z <? 6)) with false. cbv iota.
    change (wid_timestamp_len WID_TIME_SEC) with 15.
    change (15 + 1 + 4 + 1) with 21. change (15 + 1 + 4) with 20.
    change (15 + 1) with 16.
    rewrite Hlen. change (cast_int 4294967324 <? 21) with false. cbv iota.
    rewrite Hts, HZ, Hd, Esfx. simpl negb. cbv iota.
    change (str "-" ++ str "a3f91c" ++ junk) with ("-"%char :: str "a3f91c" ++ junk).
    unfold wid_valid_suffix. change (negb ("-" =? "-")%char) with false.
    change (6 <=? 0) with false. cbv iota.
    rewrite Hpad. change (cast_int 4294967302) with 6.
    change (negb (6 =? 6)) with false. cbv iota.
    apply (all_between_forallb wid_is_lower_hex (str "a3f91c") junk). reflexivity. }
  split; [exact Hv |].
  unfold wid_parse_ex. rewrite Hv, Hts. simpl negb. cbv iota. cbn [bind].
  change (wid_timestamp_len WID_TIME_SEC) with 15.
  change (15 + 1 + 4 + 1) with 21. change (15 + 1) with 16.
  rewrite Eseq, Esfx.
  change (wid_parse_digits_i64 (str "0042" ++ str "Z" ++ str "-" ++ str "a3f91c" ++ junk) 4)
    with 42.
  change (42 <? 0) with false. cbv iota.
  change (str "-" ++ str "a3f91c" ++ junk) with ("-"%char :: str "a3f91c" ++ junk).
  cbn [at_end negb].
  change (advance ("-"%char :: str "a3f91c" ++ junk) 1) with (str "a3f91c" ++ junk).
  rewrite Hpad. reflexivity.
Qed.

(** ** Generator state *)

Lemma wid_pow10_i64_exact (n : Z) : 0 <= n <= 18 -> wid_pow10_i64 n = 10 ^ n.
Proof.
  intros H. rewrite <- (Z2Nat.id n) by lia.
  assert (Hk : (Z.to_nat n <= 18)%nat) by lia.
  generalize dependent (Z.to_nat n). clear H. intros k Hk.
  do 19 (destruct k as [|k]; [vm_compute; reflexivity |]). lia.
Qed.

Lemma pow10_bounds (n : Z) : 1 <= n <= 18 -> 10 <= 10 ^ n <= 10 ^ 18.
Proof.
  intros H. split.
  - change 10 with (10 ^ 1) at 1. apply Z.pow_le_mono_r; lia.
  - apply Z.pow_le_mono_r; lia.
Qed.

Lemma clamp_w_range (w : Z) : 1 <= clamp_w w <= WID_MAX_W.
Proof.
  unfold clamp_w, WID_MAX_W, WID_DEFAULT_W.
  destruct (0 <? w) eqn:E1; [| lia]. apply Z.ltb_lt in E1.
  destruct (18 <? w) eqn:E2; [lia |]. apply Z.ltb_ge in E2. lia.
Qed.

Lemma clamp_z_range (dflt z : Z) :
  0 <= dflt <= WID_MAX_Z -> 0 <= clamp_z dflt z <= WID_MAX_Z.
Proof.
  unfold clamp_z, WID_MAX_Z. intros Hd.
  destruct (0 <=? z) eqn:E1; [| lia]. apply Z.leb_le in E1.
  destruct (64 <? z) eqn:E2; [lia |]. apply Z.ltb_ge in E2. lia.
Qed.

Lemma wid_gen_init_ex_fields (w z : Z) (u : wid_time_unit_t) :
  wid_gen_init_ex w z u
  = mk_wid_gen (clamp_w w) (clamp_z WID_DEFAULT_Z z) u 0 (-1) (10 ^ clamp_w w - 1).
Proof.
  pose proof (clamp_w_range w) as Hw. unfold WID_MAX_W in Hw.
  rewrite <- (wid_pow10_i64_exact (clamp_w w)) by lia.
  unfold wid_gen_init_ex, clamp_w, clamp_z.
  destruct (0 <? w), (0 <=? z); reflexivity.
Qed.

Lemma hlc_wid_gen_init_ex_fields (nd : cstring) (w z : Z) (u : wid_time_unit_t) :
  hlc_wid_gen_init_ex nd w z u
  = if wid_valid_node nd
    then Some (mk_hlc_gen (clamp_w w) (clamp_z 0 z) u (strncpy nd (NODE_SIZE - 1))
                          0 0 (10 ^ clamp_w w - 1))
    else None.
Proof.
  pose proof (clamp_w_range w) as Hw. unfold WID_MAX_W in Hw.
  rewrite <- (wid_pow10_i64_exact (clamp_w w)) by lia.
  unfold hlc_wid_gen_init_ex, clamp_w, clamp_z.
  destruct (wid_valid_node nd); [| reflexivity].
  destruct (0 <? w), (0 <=? z); reflexivity.
Qed.

Lemma wid_valid_node_spec (nd : cstring) :
  wid_valid_node nd = true <-> node_text nd.
Proof.
  unfold wid_valid_node, node_text. destruct nd as [|c nd]; simpl at_end; cbv iota.
  - split; [discriminate | intros [H _]; congruence].
  - split; [intros H; split; [discriminate | exact H] | intros [_ H]; exact H].
Qed.

Lemma node_text_prefix (nd : cstring) (n : Z) :
  0 < n -> node_text nd -> node_text (strncpy nd n) /\ strlen (strncpy nd n) <= n.
Proof.
  intros Hn [Hne Hnd]. unfold strncpy. split; [split |].
  - destruct nd as [|c nd]; [congruence |].
    destruct (Z.to_nat n) eqn:E; [lia | discriminate].
  - rewrite forallb_forall in *. intros c Hc. apply Hnd.
    rewrite <- (firstn_skipn (Z.to_nat n) nd). apply in_or_app. left. exact Hc.
  - unfold strlen. rewrite length_firstn. lia.
Qed.

Lemma wid_gen_init_ex_ok (w z : Z) (u : wid_time_unit_t) :
  wid_gen_ok (wid_gen_init_ex w z u).
Proof.
  rewrite wid_gen_init_ex_fields. unfold wid_gen_ok. cbn.
  pose proof (clamp_w_range w) as Hw.
  pose proof (clamp_z_range WID_DEFAULT_Z z ltac:(unfold WID_DEFAULT_Z, WID_MAX_Z; lia)).
  pose proof (pow10_bounds (clamp_w w) Hw). lia.
Qed.

Lemma hlc_wid_gen_init_ex_ok (nd : cstring) (w z : Z) (u : wid_time_unit_t)
      (g : hlc_wid_gen_t) :
  hlc_wid_gen_init_ex nd w z u = Some g -> hlc_gen_ok g.
Proof.
  rewrite hlc_wid_gen_init_ex_fields. destruct (wid_valid_node nd) eqn:Hv; [| discriminate].
  intros H. inversion H; subst g. clear H. unfold hlc_gen_ok.
  cbn [hW hZ max_lc lc pt node].
  pose proof (clamp_w_range w) as Hw.
  pose proof (clamp_z_range 0 z ltac:(unfold WID_MAX_Z; lia)).
  pose proof (pow10_bounds (clamp_w w) Hw).
  apply wid_valid_node_spec in Hv.
  destruct (node_text_prefix nd (NODE_SIZE - 1) ltac:(unfold NODE_SIZE; lia) Hv)
    as [Hnode Hlen].
  unfold NODE_SIZE in *. change (64 - 1) with 63 in *.
  repeat split; try lia; try apply Hnode.
Qed.


(** Case analysis of a state transition: every test of the code becomes a
    hypothesis, every checked addition an equation. *)
Ltac split_tests H :=
  repeat match type of H with
         | context [if (?a <? ?b) then _ else _] =>
             let E := fresh "Etest" in
             destruct (a <? b) eqn:E; cbn in H
         | context [add_i64 ?a ?b] =>
             let E := fresh "Eadd" in
             destruct (add_i64 a b) eqn:E;
             [apply add_i64_some in E | cbn in H; try discriminate H]
         | context [if ?c then _ else _] =>
             let E := fresh "Etest" in
             destruct c eqn:E; cbn in H
         end.

Ltac tests_to_props :=
  repeat match goal with
         | E : (_ <? _) = true |- _ => apply Z.ltb_lt in E
         | E : (_ <? _) = false |- _ => apply Z.ltb_ge in E
         | E : (_ =? _) = true |- _ => apply Z.eqb_eq in E
         | E : (_ =? _) = false |- _ => apply Z.eqb_neq in E
         | E : (_ <=? _) = true |- _ => apply Z.leb_le in E
         | E : (_ <=? _) = false |- _ => apply Z.leb_gt in E
         | E : (_ && _) = true |- _ => apply andb_true_iff in E as [? ?]
         | E : (_ && _) = false |- _ => apply andb_false_iff in E
         | E : (_ || _) = false |- _ => apply orb_false_iff in E as [? ?]
         | E : (_ || _) = true |- _ => apply orb_true_iff in E
         end.

Lemma wid_gen_next_state_step (g g' : wid_gen_t) (now : Z) :
  wid_gen_ok g -> wid_gen_next_state g now = Some g' ->
  wid_gen_ok g' /\
  now <= last_tick g' /\ 0 <= last_seq g' <= max_seq g' /\
  last_tick g <= last_tick g' /\ lex_lt (wid_clock g) (wid_clock g').
Proof.
  intros (Hw & Hz & Hmax & Hseq & Htick) H.
  pose proof (pow10_bounds (W g) Hw) as Hpow.
  unfold wid_gen_next_state in H. cbn [bind] in H.
  split_tests H; tests_to_props; inversion H; subst g'; clear H;
    unfold wid_gen_ok, lex_lt, wid_clock; cbn; lia.
Qed.
Lemma wid_reachable_ok (g : wid_gen_t) : wid_reachable g -> wid_gen_ok g.
Proof.
  induction 1 as [w z u | g now g' _ IH H].
  - apply wid_gen_init_ex_ok.
  - apply (wid_gen_next_state_step g g' now IH H).
Qed.

(** [wid_gen_next] does reach its end: the state transition is defined
    whenever the tick is below [INT64_MAX]. *)
Lemma wid_gen_next_state_defined (g : wid_gen_t) (now : Z) :
  wid_reachable g -> now < INT64_MAX -> last_tick g < INT64_MAX ->
  exists g', wid_gen_next_state g now = Some g'.
Proof.
  intros Hr Hnow Htick. apply wid_reachable_ok in Hr.
  destruct Hr as (Hw & Hz & Hmax & Hseq & Ht).
  pose proof (pow10_bounds (W g) Hw) as Hpow.
  change (10 ^ 18) with 1000000000000000000 in Hpow.
  unfold wid_gen_next_state.
  destruct (last_tick g <? now) eqn:E1.
  - apply Z.ltb_lt in E1.
    destruct (now =? last_tick g) eqn:E2; [apply Z.eqb_eq in E2; lia |].
    cbn [bind]. destruct (max_seq g <? 0) eqn:E3; [apply Z.ltb_lt in E3; lia |].
    cbn [bind]. eexists. reflexivity.
  - apply Z.ltb_ge in E1. rewrite Z.eqb_refl.
    rewrite add_i64_defined by (unfold INT64_MIN, INT64_MAX in *; lia).
    cbn [bind]. destruct (max_seq g <? last_seq g + 1) eqn:E3.
    + rewrite add_i64_defined by (unfold INT64_MIN, INT64_MAX in *; lia).
      cbn [bind]. eexists. reflexivity.
    + cbn [bind]. eexists. reflexivity.
Qed.

Lemma wid_gen_next_state_of_next (g g' : wid_gen_t) (now : Z) (rnd : Z -> Z)
      (out_len : Z) (out : cstring) :
  wid_gen_next g now rnd out_len = Some (g', out) ->
  wid_gen_next_state g now = Some g'.
Proof.
  unfold wid_gen_next. destruct (wid_gen_next_state g now) as [g1|]; [| discriminate].
  cbn [bind]. destruct (wid_fmt_tick _ _); [| discriminate]. cbn [bind].
  destruct (0 <? Z_ g1).
  - destruct (wid_random_hex _ _); [| discriminate]. cbn [bind].
    intros H. inversion H. reflexivity.
  - intros H. inversion H. reflexivity.
Qed.

(** ** The WID generator is monotonic (C5) *)

(** C5.  For every generator state reached from [wid_gen_init_ex] by calls
    of [wid_gen_next], and every clock reading [now] of one more call: the
    call completes (as long as the tick stays below [INT64_MAX]), and
    after it the new [last_tick] is at least [now], the new [last_seq] lies
    between 0 and [max_seq], [last_tick] did not decrease, and the pair
    [(last_tick, last_seq)] increased strictly in the lexicographic order,
    whatever [now] is, in particular when the wall clock went backward. *)
Theorem wid_gen_monotonic (g : wid_gen_t) (now : Z) :
  wid_reachable g ->
  (now < INT64_MAX -> last_tick g < INT64_MAX ->
   exists g', wid_gen_next_state g now = Some g') /\
  (forall g', wid_gen_next_state g now = Some g' ->
     now <= last_tick g' /\
     0 <= last_seq g' <= max_seq g' /\
     last_tick g <= last_tick g' /\
     lex_lt (wid_clock g) (wid_clock g')).
Proof.
  intros Hr. split.
  - intros Hnow Htick. apply wid_gen_next_state_defined; assumption.
  - intros g' H. apply wid_reachable_ok in Hr.
    apply (wid_gen_next_state_step g g' now Hr H).
Qed.

(** A generator that emitted at tick 1770887730 and then reads a clock put
    back by an hour. *)
Lemma wid_gen_monotonic_witness :
  (exists g', wid_gen_next_state (mk_wid_gen 4 6 WID_TIME_SEC 1770887730 0 9999)
                1770884130 = Some g') /\
  (1770884130 <= 1770887730 /\
   0 <= 1 <= 9999 /\
   1770887730 <= 1770887730 /\
   lex_lt (1770887730, 0) (1770887730, 1)).
Proof.
  assert (Hr : wid_reachable (mk_wid_gen 4 6 WID_TIME_SEC 1770887730 0 9999)).
  { apply (wid_reach_next (wid_gen_init_ex 4 6 WID_TIME_SEC) 1770887730).
    - apply wid_reach_init.
    - vm_compute. reflexivity. }
  split.
  - apply (proj1 (wid_gen_monotonic _ 1770884130 Hr)); vm_compute; reflexivity.
  - apply (proj2 (wid_gen_monotonic _ 1770884130 Hr)
             (mk_wid_gen 4 6 WID_TIME_SEC 1770887730 1 9999)).
    vm_compute. reflexivity.
Defined.

(** ** Tick borrowing: the state (C6) *)

(** The steps of the state; the theorem of C6 follows the lemmas on the
    emitted text, further down. *)

Lemma wid_step_fresh (w z : Z) (u : wid_time_unit_t) (t s m now : Z) :
  t < now -> 0 <= m ->
  wid_gen_next_state (mk_wid_gen w z u t s m) now = Some (mk_wid_gen w z u now 0 m).
Proof.
  intros H1 H2. unfold wid_gen_next_state. cbn [last_tick last_seq max_seq W Z_ time_unit].
  destruct (t <? now) eqn:E1; [| apply Z.ltb_ge in E1; lia].
  destruct (now =? t) eqn:E2; [apply Z.eqb_eq in E2; lia |].
  cbn [bind]. destruct (m <? 0) eqn:E3; [apply Z.ltb_lt in E3; lia |].
  reflexivity.
Qed.

Lemma wid_step_same (w z : Z) (u : wid_time_unit_t) (t s m now : Z) :
  now <= t -> INT64_MIN <= s + 1 <= INT64_MAX -> s + 1 <= m ->
  wid_gen_next_state (mk_wid_gen w z u t s m) now = Some (mk_wid_gen w z u t (s + 1) m).
Proof.
  intros H1 H2 H3. unfold wid_gen_next_state.
  cbn [last_tick last_seq max_seq W Z_ time_unit].
  destruct (t <? now) eqn:E1; [apply Z.ltb_lt in E1; lia |].
  rewrite Z.eqb_refl, add_i64_defined by lia. cbn [bind].
  destruct (m <? s + 1) eqn:E3; [apply Z.ltb_lt in E3; lia |].
  reflexivity.
Qed.

Lemma wid_step_borrow (w z : Z) (u : wid_time_unit_t) (t s m now : Z) :
  now <= t -> INT64_MIN <= s + 1 <= INT64_MAX -> m < s + 1 ->
  INT64_MIN <= t + 1 <= INT64_MAX ->
  wid_gen_next_state (mk_wid_gen w z u t s m) now = Some (mk_wid_gen w z u (t + 1) 0 m).
Proof.
  intros H1 H2 H3 H4. unfold wid_gen_next_state.
  cbn [last_tick last_seq max_seq W Z_ time_unit].
  destruct (t <? now) eqn:E1; [apply Z.ltb_lt in E1; lia |].
  rewrite Z.eqb_refl, add_i64_defined by lia. cbn [bind].
  destruct (m <? s + 1) eqn:E3; [| apply Z.ltb_ge in E3; lia].
  rewrite add_i64_defined by lia. reflexivity.
Qed.

(** Twelve calls while the clock reads [T]: the states after each call. *)
Lemma wid_burst_states (T : Z) :
  T < INT64_MAX ->
  let t := Z.max T 0 in
  wid_gen_states (wid_gen_init_ex 1 0 WID_TIME_SEC) (repeat T 12)
  = Some (map (fun ts => mk_wid_gen 1 0 WID_TIME_SEC (fst ts) (snd ts) 9)
              [(t, 0); (t, 1); (t, 2); (t, 3); (t, 4); (t, 5); (t, 6); (t, 7);
               (t, 8); (t, 9); (t + 1, 0); (t + 1, 1)]).
Proof.
  intros HT t.
  change (wid_gen_init_ex 1 0 WID_TIME_SEC) with (mk_wid_gen 1 0 WID_TIME_SEC 0 (-1) 9).
  assert (H1 : wid_gen_next_state (mk_wid_gen 1 0 WID_TIME_SEC 0 (-1) 9) T
               = Some (mk_wid_gen 1 0 WID_TIME_SEC t 0 9)).
  { unfold t. destruct (Z_lt_le_dec 0 T) as [Hpos | Hneg].
    - rewrite Z.max_l by lia. apply wid_step_fresh; lia.
    - rewrite Z.max_r by lia.
      apply (wid_step_same 1 0 WID_TIME_SEC 0 (-1) 9 T);
        unfold INT64_MIN, INT64_MAX; lia. }
  assert (Ht : T <= t /\ 0 <= t < INT64_MAX) by (unfold t, INT64_MAX in *; lia).
  clearbody t. unfold INT64_MAX in *.
  cbn [repeat wid_gen_states map fst snd]. rewrite H1. cbn [bind].
  do 9 (rewrite wid_step_same by (unfold INT64_MIN, INT64_MAX; lia);
        cbn [bind Z.add Pos.add Pos.succ]).
  rewrite wid_step_borrow by (unfold INT64_MIN, INT64_MAX; lia). cbn [bind].
  rewrite wid_step_same by (unfold INT64_MIN, INT64_MAX; lia). cbn [bind].
  reflexivity.
Qed.

(** ** The hybrid logical clock (C7, C8) *)

Lemma hlc_rollover_cases (g g' : hlc_wid_gen_t) :
  hlc_wid_rollover_if_needed g = Some g' ->
  hW g' = hW g /\ hZ g' = hZ g /\ htime_unit g' = htime_unit g /\
  node g' = node g /\ max_lc g' = max_lc g /\
  ((lc g <= max_lc g /\ pt g' = pt g /\ lc g' = lc g) \/
   (max_lc g < lc g /\ pt g' = pt g + 1 /\ lc g' = 0 /\ pt g' <= INT64_MAX)).
Proof.
  unfold hlc_wid_rollover_if_needed. intros H.
  split_tests H; tests_to_props; inversion H; subst g'; clear H; cbn;
    repeat split; try reflexivity; lia.
Qed.

Lemma hlc_wid_gen_next_state_step (g g' : hlc_wid_gen_t) (now : Z) :
  hlc_gen_ok g -> hlc_wid_gen_next_state g now = Some g' ->
  hlc_gen_ok g' /\
  now <= pt g' /\ 0 <= lc g' <= max_lc g' /\ pt g <= pt g' /\
  lex_lt (hlc_clock g) (hlc_clock g').
Proof.
  intros (Hw & Hz & Hmax & Hlc & Hpt & Hnode & Hlen) H.
  pose proof (pow10_bounds (hW g) Hw) as Hpow.
  unfold hlc_wid_gen_next_state in H.
  destruct (pt g <? now) eqn:E1; cbn [bind] in H.
  - apply Z.ltb_lt in E1. apply hlc_rollover_cases in H.
    cbn [set_clock hW hZ htime_unit node pt lc max_lc] in H.
    destruct H as (EW & EZ & _ & En & Em & H).
    unfold hlc_gen_ok, lex_lt, hlc_clock. cbn [fst snd]. rewrite EW, EZ, En, Em.
    repeat split; try assumption; try apply Hnode; lia.
  - apply Z.ltb_ge in E1.
    destruct (add_i64 (lc g) 1) as [l|] eqn:Eadd; [| discriminate H].
    apply add_i64_some in Eadd. cbn [bind] in H. apply hlc_rollover_cases in H.
    cbn [set_clock hW hZ htime_unit node pt lc max_lc] in H.
    destruct H as (EW & EZ & _ & En & Em & H).
    unfold hlc_gen_ok, lex_lt, hlc_clock. cbn [fst snd]. rewrite EW, EZ, En, Em.
    repeat split; try assumption; try apply Hnode; lia.
Qed.

Lemma hlc_wid_observe_step (g g' : hlc_wid_gen_t) (remote_pt remote_lc now : Z) :
  hlc_wid_observe g remote_pt remote_lc now = Some (true, g') ->
  0 <= remote_pt /\ 0 <= remote_lc /\
  lex_lt (remote_pt, remote_lc) (hlc_clock g') /\
  now <= pt g' /\ pt g <= pt g' /\
  (0 <= lc g -> lex_lt (hlc_clock g) (hlc_clock g')) /\
  (hlc_gen_ok g -> hlc_gen_ok g').
Proof.
  unfold hlc_wid_observe. intros H.
  destruct ((remote_pt <? 0) || (remote_lc <? 0)) eqn:Eneg; [discriminate H |].
  apply orb_false_iff in Eneg as [En1 En2]. apply Z.ltb_ge in En1, En2.
  set (p1 := if now <? pt g then pt g else now) in H.
  set (p := if p1 <? remote_pt then remote_pt else p1) in H.
  assert (Hp : now <= p /\ pt g <= p /\ remote_pt <= p /\
               (p = now \/ p = pt g \/ p = remote_pt)).
  { unfold p, p1. destruct (now <? pt g) eqn:E1;
      match goal with |- context [if ?c then _ else _] => destruct c eqn:E2 end;
      tests_to_props; lia. }
  clearbody p. clear p1.
  match type of H with
  | bind ?m _ = _ => destruct m as [l|] eqn:El; [| discriminate H]
  end.
  cbn [bind] in H.
  match type of H with
  | bind ?m _ = _ => destruct m as [g1|] eqn:Eroll; [| discriminate H]
  end.
  cbn [bind] in H. inversion H; subst g1; clear H.
  apply hlc_rollover_cases in Eroll.
  cbn [set_clock hW hZ htime_unit node pt lc max_lc] in Eroll.
  destruct Eroll as (EW & EZ & _ & Enode & Emax & Hroll).
  assert (Hl : (p = pt g /\ p = remote_pt /\ l = Z.max (lc g) remote_lc + 1) \/
               (p = pt g /\ p <> remote_pt /\ l = lc g + 1) \/
               (p <> pt g /\ p = remote_pt /\ l = remote_lc + 1) \/
               (p <> pt g /\ p <> remote_pt /\ l = 0)).
  { destruct (p =? pt g) eqn:E1; destruct (p =? remote_pt) eqn:E2;
      cbn [andb] in El; tests_to_props.
    - destruct (remote_lc <? lc g) eqn:E3; apply add_i64_some in El;
        tests_to_props; lia.
    - apply add_i64_some in El. lia.
    - apply add_i64_some in El. lia.
    - inversion El. lia. }
  clear El.
  unfold hlc_gen_ok, lex_lt, hlc_clock. cbn [fst snd].
  rewrite EW, EZ, Enode, Emax.
  split; [lia |]. split; [lia |]. split; [lia |]. split; [lia |].
  split; [lia |]. split; [intros; lia |].
  intros (Hw & Hz & Hmax & Hlc & Hpt & Hnd & Hlen).
  pose proof (pow10_bounds (hW g) Hw).
  repeat split; try assumption; try apply Hnd; lia.
Qed.

Lemma hlc_step_ok (g g' : hlc_wid_gen_t) :
  hlc_gen_ok g -> hlc_step g g' -> hlc_gen_ok g'.
Proof.
  intros Hok [now g1 H | rpt rlc now g1 H].
  - apply (hlc_wid_gen_next_state_step g g1 now Hok H).
  - apply (hlc_wid_observe_step g g1 rpt rlc now H). exact Hok.
Qed.

Lemma hlc_reachable_ok (g : hlc_wid_gen_t) : hlc_reachable g -> hlc_gen_ok g.
Proof.
  induction 1 as [nd w z u g H | g g' _ IH H].
  - apply (hlc_wid_gen_init_ex_ok nd w z u g H).
  - apply (hlc_step_ok g g' IH H).
Qed.

(** [hlc_wid_observe] fails, and leaves the state as it is, exactly on a
    negative remote value. *)
Lemma hlc_wid_observe_negative (g : hlc_wid_gen_t) (remote_pt remote_lc now : Z) :
  remote_pt < 0 \/ remote_lc < 0 ->
  hlc_wid_observe g remote_pt remote_lc now = Some (false, g).
Proof.
  intros H. unfold hlc_wid_observe.
  destruct ((remote_pt <? 0) || (remote_lc <? 0)) eqn:E; [reflexivity |].
  apply orb_false_iff in E as [E1 E2]. apply Z.ltb_ge in E1, E2. lia.
Qed.

(** Both transitions are defined as long as [pt] and the remote values stay
    below [INT64_MAX]. *)
Lemma hlc_wid_gen_next_state_defined (g : hlc_wid_gen_t) (now : Z) :
  hlc_reachable g -> now < INT64_MAX -> pt g < INT64_MAX ->
  exists g', hlc_wid_gen_next_state g now = Some g'.
Proof.
  intros Hr Hnow Hpt. apply hlc_reachable_ok in Hr.
  destruct Hr as (Hw & Hz & Hmax & Hlc & Hp & _).
  pose proof (pow10_bounds (hW g) Hw) as Hpow.
  change (10 ^ 18) with 1000000000000000000 in Hpow.
  unfold hlc_wid_gen_next_state, hlc_wid_rollover_if_needed.
  destruct (pt g <? now) eqn:E1; cbn [bind set_clock lc max_lc pt].
  - destruct (max_lc g <? 0) eqn:E2; [apply Z.ltb_lt in E2; lia |].
    eexists. reflexivity.
  - rewrite add_i64_defined by (unfold INT64_MIN, INT64_MAX in *; lia).
    cbn [bind set_clock lc max_lc pt].
    destruct (max_lc g <? lc g + 1).
    + rewrite add_i64_defined by (unfold INT64_MIN, INT64_MAX in *; lia).
      eexists. reflexivity.
    + eexists. reflexivity.
Qed.

Lemma hlc_wid_observe_defined (g : hlc_wid_gen_t) (remote_pt remote_lc now : Z) :
  hlc_reachable g -> now < INT64_MAX -> pt g < INT64_MAX ->
  0 <= remote_pt < INT64_MAX -> 0 <= remote_lc < INT64_MAX ->
  exists g', hlc_wid_observe g remote_pt remote_lc now = Some (true, g').
Proof.
  intros Hr Hnow Hpt Hrpt Hrlc. apply hlc_reachable_ok in Hr.
  destruct Hr as (Hw & Hz & Hmax & Hlc & Hp & _).
  pose proof (pow10_bounds (hW g) Hw) as Hpow.
  change (10 ^ 18) with 1000000000000000000 in Hpow.
  unfold hlc_wid_observe.
  destruct ((remote_pt <? 0) || (remote_lc <? 0)) eqn:E.
  { apply orb_true_iff in E as [E | E]; apply Z.ltb_lt in E; lia. }
  set (p1 := if now <? pt g then pt g else now).
  set (p2 := if p1 <? remote_pt then remote_pt else p1).
  assert (Hp2 : 0 <= p2 < INT64_MAX).
  { unfold p2, p1. destruct (now <? pt g) eqn:E1;
      match goal with |- context [if ?c then _ else _] => destruct c eqn:E2 end;
      tests_to_props; lia. }
  assert (Hl : exists l,
             (if (p2 =? pt g) && (p2 =? remote_pt)
              then add_i64 (if remote_lc <? lc g then lc g else remote_lc) 1
              else if p2 =? pt g then add_i64 (lc g) 1
                   else if p2 =? remote_pt then add_i64 remote_lc 1 else Some 0)
             = Some l).
  { destruct ((p2 =? pt g) && (p2 =? remote_pt)).
    - destruct (remote_lc <? lc g);
        rewrite add_i64_defined by (unfold INT64_MIN, INT64_MAX in *; lia); eauto.
    - destruct (p2 =? pt g).
      + rewrite add_i64_defined by (unfold INT64_MIN, INT64_MAX in *; lia); eauto.
      + destruct (p2 =? remote_pt); [| eauto].
        rewrite add_i64_defined by (unfold INT64_MIN, INT64_MAX in *; lia); eauto. }
  destruct Hl as [l ->]. cbn [bind].
  unfold hlc_wid_rollover_if_needed. cbn [set_clock lc max_lc pt].
  destruct (max_lc g <? l).
  - rewrite add_i64_defined by (unfold INT64_MIN, INT64_MAX in *; lia).
    cbn [bind]. eexists. reflexivity.
  - cbn [bind]. eexists. reflexivity.
Qed.

(** ** Remote values at the end of the [int64_t] range (C7, C8) *)

Lemma add_i64_overflow (a b : Z) : INT64_MAX < a + b -> add_i64 a b = None.
Proof.
  intros H. unfold add_i64, fits_i64.
  destruct (a + b <=? INT64_MAX) eqn:E; [apply Z.leb_le in E; lia |].
  rewrite andb_false_r. reflexivity.
Qed.

Lemma add_i64_cases (a b : Z) :
  INT64_MIN <= a + b ->
  (a + b <= INT64_MAX /\ add_i64 a b = Some (a + b)) \/
  (INT64_MAX < a + b /\ add_i64 a b = None).
Proof.
  intros H. destruct (Z_le_gt_dec (a + b) INT64_MAX) as [L | G].
  - left. split; [exact L |]. apply add_i64_defined. lia.
  - right. split; [lia |]. apply add_i64_overflow. lia.
Qed.

(** Where [hlc_wid_observe] overflows.  On a state of a generator, with
    the clock and [pt] below [INT64_MAX] and remote values that are not
    negative, the call has no defined behaviour in exactly two cases: the
    remote counter is [INT64_MAX] and the remote time is the latest of the
    three ([remote_lc + 1] overflows), or the remote time is [INT64_MAX] and
    the remote counter is at least [max_lc] (the rollover adds 1 to
    [pt]). *)
Lemma hlc_wid_observe_undefined (g : hlc_wid_gen_t) (remote_pt remote_lc now : Z) :
  hlc_gen_ok g -> now < INT64_MAX -> pt g < INT64_MAX ->
  0 <= remote_pt <= INT64_MAX -> 0 <= remote_lc <= INT64_MAX ->
  (hlc_wid_observe g remote_pt remote_lc now = None <->
   (remote_lc = INT64_MAX /\ pt g <= remote_pt /\ now <= remote_pt) \/
   (remote_pt = INT64_MAX /\ max_lc g <= remote_lc)).
Proof.
  intros (Hw & Hz & Hmax & Hlc & Hp & _) Hnow Hpt Hrpt Hrlc.
  pose proof (pow10_bounds (hW g) Hw) as Hpow.
  change (10 ^ 18) with 1000000000000000000 in Hpow.
  unfold hlc_wid_observe.
  destruct ((remote_pt <? 0) || (remote_lc <? 0)) eqn:E.
  { apply orb_true_iff in E as [E | E]; apply Z.ltb_lt in E; lia. }
  cbv zeta.
  set (p1 := if now <? pt g then pt g else now).
  assert (Hp1 : p1 = Z.max now (pt g)).
  { unfold p1. destruct (now <? pt g) eqn:E1; tests_to_props; lia. }
  set (p2 := if p1 <? remote_pt then remote_pt else p1).
  assert (Hp2 : p2 = Z.max p1 remote_pt).
  { unfold p2. destruct (p1 <? remote_pt) eqn:E1; tests_to_props; lia. }
  clearbody p1 p2.
  unfold hlc_wid_rollover_if_needed. cbn [set_clock lc max_lc pt].
  destruct (p2 =? pt g) eqn:E1; destruct (p2 =? remote_pt) eqn:E2; cbn [andb];
    tests_to_props.
  - destruct (remote_lc <? lc g) eqn:E3; tests_to_props.
    + rewrite add_i64_defined by (unfold INT64_MIN, INT64_MAX in *; lia).
      cbn [bind lc max_lc pt set_clock].
      destruct (max_lc g <? lc g + 1) eqn:E4; tests_to_props.
      * rewrite add_i64_defined by (unfold INT64_MIN, INT64_MAX in *; lia).
        cbn [bind]. split; [discriminate |].
        unfold INT64_MAX in *. lia.
      * cbn [bind]. split; [discriminate |]. unfold INT64_MAX in *. lia.
    + destruct (add_i64_cases remote_lc 1) as [[L ->] | [G ->]];
        [unfold INT64_MIN; lia | |].
      * cbn [bind lc max_lc pt set_clock].
        destruct (max_lc g <? remote_lc + 1) eqn:E4; tests_to_props.
        -- rewrite add_i64_defined by (unfold INT64_MIN, INT64_MAX in *; lia).
           cbn [bind]. split; [discriminate |]. unfold INT64_MAX in *. lia.
        -- cbn [bind]. split; [discriminate |]. unfold INT64_MAX in *. lia.
      * cbn [bind]. split; [intros _ | reflexivity]. left. lia.
  - rewrite add_i64_defined by (unfold INT64_MIN, INT64_MAX in *; lia).
    cbn [bind lc max_lc pt set_clock].
    destruct (max_lc g <? lc g + 1) eqn:E4; tests_to_props.
    + rewrite add_i64_defined by (unfold INT64_MIN, INT64_MAX in *; lia).
      cbn [bind]. split; [discriminate |]. unfold INT64_MAX in *. lia.
    + cbn [bind]. split; [discriminate |]. unfold INT64_MAX in *. lia.
  - destruct (add_i64_cases remote_lc 1) as [[L ->] | [G ->]];
      [unfold INT64_MIN; lia | |].
    + cbn [bind lc max_lc pt set_clock].
      destruct (max_lc g <? remote_lc + 1) eqn:E4; tests_to_props.
      * destruct (add_i64_cases p2 1) as [[L2 ->] | [G2 ->]];
          [unfold INT64_MIN; lia | |]; cbn [bind].
        -- split; [discriminate |]. unfold INT64_MAX in *. lia.
        -- split; [intros _ | reflexivity]. right. lia.
      * cbn [bind]. split; [discriminate |]. unfold INT64_MAX in *. lia.
    + cbn [bind]. split; [intros _ | reflexivity]. left. lia.
  - cbn [bind lc max_lc pt set_clock].
    destruct (max_lc g <? 0) eqn:E4; tests_to_props.
    + lia.
    + cbn [bind]. split; [discriminate |]. unfold INT64_MAX in *. lia.
Qed.

(** [hlc_wid_observe] refuses negative remote values and has no other
    guard: when the remote time is the latest of the three and the remote
    counter is [INT64_MAX], the statement [gen->lc = remote_lc + 1] (or the
    [max (gen->lc, remote_lc) + 1] before it) overflows. *)
Lemma hlc_wid_observe_overflow (g : hlc_wid_gen_t) (remote_pt now : Z) :
  0 <= remote_pt -> pt g <= remote_pt -> now <= remote_pt ->
  hlc_wid_observe g remote_pt INT64_MAX now = None.
Proof.
  intros H0 Hpt Hnow. unfold hlc_wid_observe.
  destruct (remote_pt <? 0) eqn:E0; [apply Z.ltb_lt in E0; lia |].
  change (INT64_MAX <? 0) with false. cbn [orb]. cbv zeta.
  set (p1 := if now <? pt g then pt g else now).
  assert (Hp1 : p1 <= remote_pt) by (unfold p1; destruct (now <? pt g); lia).
  set (p2 := if p1 <? remote_pt then remote_pt else p1).
  assert (Hp2 : p2 = remote_pt).
  { unfold p2. destruct (p1 <? remote_pt) eqn:E; tests_to_props; lia. }
  rewrite Hp2, Z.eqb_refl.
  destruct (remote_pt =? pt g); cbn [andb].
  - destruct (INT64_MAX <? lc g) eqn:E; tests_to_props;
      rewrite add_i64_overflow by lia; reflexivity.
  - rewrite add_i64_overflow by lia. reflexivity.
Qed.

(** C7.  [hlc_wid_observe] and the order of the clocks.
    - The defect: for every state, a remote time [remote_pt >= 0] that is
      the latest of the three times and the remote counter [INT64_MAX], the
      call adds 1 to [INT64_MAX]: it has no defined behaviour, and the
      result is not guaranteed to exceed the remote pair.
    - Away from it: on every state of a generator, with the clock, [pt]
      and both remote values below [INT64_MAX], the call succeeds and
      leaves [(pt, lc)] strictly greater than [(remote_pt, remote_lc)] in
      the lexicographic order, rollover included.
    - Between the two: on every state of a generator, with the clock and
      [pt] below [INT64_MAX] and remote values from 0 to [INT64_MAX], the
      call overflows in exactly two cases: the one above, and a remote time
      [INT64_MAX] with a remote counter of at least [max_lc], where the
      rollover adds 1 to [pt].
    - Whenever the call succeeds without overflow, the remote values were
      not negative and [(pt, lc)] is strictly greater than the remote pair.
    - The example: from [pt = T], [lc = 3], with the wall clock at [T] and
      a counter of at least two digits (the scenario of the specification
      has [W = 4]), observing [(T, 9)] leaves [(pt, lc) = (T, 10)]. *)
Theorem observe_dominates_remote (g g' : hlc_wid_gen_t) (remote_pt remote_lc now T : Z) :
  (0 <= remote_pt -> pt g <= remote_pt -> now <= remote_pt ->
   hlc_wid_observe g remote_pt INT64_MAX now = None) /\
  (hlc_reachable g -> now < INT64_MAX -> pt g < INT64_MAX ->
   0 <= remote_pt < INT64_MAX -> 0 <= remote_lc < INT64_MAX ->
   exists g1, hlc_wid_observe g remote_pt remote_lc now = Some (true, g1) /\
              lex_lt (remote_pt, remote_lc) (hlc_clock g1)) /\
  (hlc_reachable g -> now < INT64_MAX -> pt g < INT64_MAX ->
   0 <= remote_pt <= INT64_MAX -> 0 <= remote_lc <= INT64_MAX ->
   (hlc_wid_observe g remote_pt remote_lc now = None <->
    (remote_lc = INT64_MAX /\ pt g <= remote_pt /\ now <= remote_pt) \/
    (remote_pt = INT64_MAX /\ max_lc g <= remote_lc))) /\
  (hlc_wid_observe g remote_pt remote_lc now = Some (true, g') ->
   0 <= remote_pt /\ 0 <= remote_lc /\
   lex_lt (remote_pt, remote_lc) (hlc_clock g')) /\
  (0 <= T -> pt g = T -> lc g = 3 -> 10 <= max_lc g ->
   hlc_wid_observe g T 9 T = Some (true, set_clock g T 10)).
Proof.
  split; [apply hlc_wid_observe_overflow |]. split; [| split; [| split]].
  - intros Hr Hnow Hpt Hrp Hrl.
    destruct (hlc_wid_observe_defined g remote_pt remote_lc now Hr Hnow Hpt Hrp Hrl)
      as [g1 H1].
    exists g1. split; [exact H1 |].
    destruct (hlc_wid_observe_step g g1 remote_pt remote_lc now H1) as (_ & _ & H3 & _).
    exact H3.
  - intros Hr. apply hlc_wid_observe_undefined. apply hlc_reachable_ok, Hr.
  - intros H. destruct (hlc_wid_observe_step g g' remote_pt remote_lc now H)
      as (H1 & H2 & H3 & _). repeat split; assumption.
  - intros HT Hpt Hlc Hmax. destruct g as [gw gz gu gn gp gl gm].
    cbn [pt lc max_lc] in Hpt, Hlc, Hmax. subst gp gl.
    unfold hlc_wid_observe, hlc_wid_rollover_if_needed, set_clock.
    cbn [pt lc max_lc hW hZ htime_unit node].
    destruct (T <? 0) eqn:E0; [apply Z.ltb_lt in E0; lia |].
    change (9 <? 0) with false. cbn [orb].
    rewrite !Z.ltb_irrefl, !Z.eqb_refl. cbn [andb].
    change (9 <? 3) with false. cbv iota.
    change (add_i64 9 1) with (Some 10). cbn [bind pt lc max_lc].
    destruct (gm <? 10) eqn:E1; [apply Z.ltb_lt in E1; lia |].
    reflexivity.
Qed.

(** A generator with [W = 4] that has emitted four times at tick
    1770887730: the counter [INT64_MAX] from a remote node at the same
    tick, a remote event five ticks ahead, and the example of the
    specification. *)
Lemma observe_dominates_remote_witness :
  hlc_wid_observe (mk_hlc_gen 4 0 WID_TIME_SEC (str "n") 1770887730 3 9999)
    1770887730 INT64_MAX 1770887730 = None /\
  (exists g1,
      hlc_wid_observe (mk_hlc_gen 4 0 WID_TIME_SEC (str "n") 1770887730 3 9999)
        1770887735 9 1770887730 = Some (true, g1) /\
      lex_lt (1770887735, 9) (hlc_clock g1)) /\
  hlc_wid_observe (mk_hlc_gen 4 0 WID_TIME_SEC (str "n") 1770887730 3 9999)
    1770887730 9 1770887730
  = Some (true, mk_hlc_gen 4 0 WID_TIME_SEC (str "n") 1770887730 10 9999).
Proof.
  assert (Hr : hlc_reachable (mk_hlc_gen 4 0 WID_TIME_SEC (str "n") 1770887730 3 9999)).
  { apply (hlc_reach_step (mk_hlc_gen 4 0 WID_TIME_SEC (str "n") 1770887730 2 9999));
      [| apply (hlc_step_next _ 1770887730); vm_compute; reflexivity].
    apply (hlc_reach_step (mk_hlc_gen 4 0 WID_TIME_SEC (str "n") 1770887730 1 9999));
      [| apply (hlc_step_next _ 1770887730); vm_compute; reflexivity].
    apply (hlc_reach_step (mk_hlc_gen 4 0 WID_TIME_SEC (str "n") 1770887730 0 9999));
      [| apply (hlc_step_next _ 1770887730); vm_compute; reflexivity].
    apply (hlc_reach_step (mk_hlc_gen 4 0 WID_TIME_SEC (str "n") 0 0 9999));
      [| apply (hlc_step_next _ 1770887730); vm_compute; reflexivity].
    apply (hlc_reach_init (str "n") 4 0 WID_TIME_SEC). vm_compute. reflexivity. }
  split; [| split].
  - apply (proj1 (observe_dominates_remote
                    (mk_hlc_gen 4 0 WID_TIME_SEC (str "n") 1770887730 3 9999)
                    (mk_hlc_gen 4 0 WID_TIME_SEC (str "n") 1770887730 3 9999)
                    1770887730 0 1770887730 0)).
    + vm_compute. discriminate.
    + vm_compute. discriminate.
    + vm_compute. discriminate.
  - apply (proj1 (proj2 (observe_dominates_remote
                    (mk_hlc_gen 4 0 WID_TIME_SEC (str "n") 1770887730 3 9999)
                    (mk_hlc_gen 4 0 WID_TIME_SEC (str "n") 1770887730 3 9999)
                    1770887735 9 1770887730 0))).
    + exact Hr.
    + vm_compute. reflexivity.
    + vm_compute. reflexivity.
    + vm_compute. split; [discriminate | reflexivity].
    + vm_compute. split; [discriminate | reflexivity].
  - apply (proj2 (proj2 (proj2 (proj2 (observe_dominates_remote
                    (mk_hlc_gen 4 0 WID_TIME_SEC (str "n") 1770887730 3 9999)
                    (mk_hlc_gen 4 0 WID_TIME_SEC (str "n") 1770887730 3 9999)
                    0 0 0 1770887730))))).
    + vm_compute. discriminate.
    + reflexivity.
    + reflexivity.
    + vm_compute. discriminate.
Defined.

(** The scenario of the specification continued: the next call of
    [hlc_wid_gen_next] with the clock still at [T] prints counter 11. *)
Example observe_then_next :
  let g := mk_hlc_gen 4 0 WID_TIME_SEC (str "n") 1770887730 3 9999 in
  (r <- hlc_wid_observe g 1770887730 9 1770887730 ;;
   hlc_wid_gen_next (snd r) 1770887730 (fun _ => 0) WID_MAX_LEN)
  = Some (mk_hlc_gen 4 0 WID_TIME_SEC (str "n") 1770887730 11 9999,
          str "20260212T091530.0011Z-n").
Proof. vm_compute. reflexivity. Qed.

(** With a one-digit counter the same observation rolls over. *)
Example observe_rollover :
  hlc_wid_observe (mk_hlc_gen 1 0 WID_TIME_SEC (str "n") 1770887730 3 9)
    1770887730 9 1770887730
  = Some (true, mk_hlc_gen 1 0 WID_TIME_SEC (str "n") 1770887731 0 9).
Proof. vm_compute. reflexivity. Qed.

(** C8.  The invariants of the HLC generator.
    - The defect: on every state of a generator, [hlc_wid_observe] with a
      remote time that is the latest of the three and the remote counter
      [INT64_MAX] adds 1 to [INT64_MAX]; the call has no defined behaviour
      and nothing holds of [lc] after it.
      With the clock and [pt] below [INT64_MAX] and remote values
      from 0 to [INT64_MAX], the call overflows in exactly two cases: that
      one, and a remote time [INT64_MAX] with a remote counter of at least
      [max_lc], where the rollover adds 1 to [pt].
    - Away from it, for every generator state reached from
      [hlc_wid_gen_init_ex] by calls of [hlc_wid_gen_next] and
      [hlc_wid_observe]: a further call of either completes while the times
      and the remote values stay below [INT64_MAX], and after every call
      that completes without overflow [0 <= lc <= max_lc], [pt] did not
      decrease, and [(pt, lc)] increased strictly in the lexicographic
      order. *)
Theorem hlc_gen_monotonic (g : hlc_wid_gen_t) :
  hlc_reachable g ->
  (forall remote_pt now,
     pt g <= remote_pt -> now <= remote_pt ->
     hlc_wid_observe g remote_pt INT64_MAX now = None) /\
  (forall remote_pt remote_lc now,
     now < INT64_MAX -> pt g < INT64_MAX ->
     0 <= remote_pt <= INT64_MAX -> 0 <= remote_lc <= INT64_MAX ->
     (hlc_wid_observe g remote_pt remote_lc now = None <->
      (remote_lc = INT64_MAX /\ pt g <= remote_pt /\ now <= remote_pt) \/
      (remote_pt = INT64_MAX /\ max_lc g <= remote_lc))) /\
  (forall now, now < INT64_MAX -> pt g < INT64_MAX ->
     exists g', hlc_wid_gen_next_state g now = Some g') /\
  (forall remote_pt remote_lc now,
     now < INT64_MAX -> pt g < INT64_MAX ->
     0 <= remote_pt < INT64_MAX -> 0 <= remote_lc < INT64_MAX ->
     exists g', hlc_wid_observe g remote_pt remote_lc now = Some (true, g')) /\
  (forall g', hlc_step g g' ->
     0 <= lc g' <= max_lc g' /\ pt g <= pt g' /\
     lex_lt (hlc_clock g) (hlc_clock g')).
Proof.
  intros Hr. split; [| split; [| split; [| split]]].
  - intros remote_pt now Hpt Hnow. apply hlc_wid_observe_overflow; try assumption.
    apply hlc_reachable_ok in Hr. destruct Hr as (_ & _ & _ & _ & H0 & _). lia.
  - intros remote_pt remote_lc now. apply hlc_wid_observe_undefined.
    apply hlc_reachable_ok, Hr.
  - intros now Hnow Hpt. apply hlc_wid_gen_next_state_defined; assumption.
  - intros rpt rlc now Hnow Hpt Hrpt Hrlc.
    apply hlc_wid_observe_defined; assumption.
  - intros g' Hstep. apply hlc_reachable_ok in Hr.
    destruct Hstep as [now g1 H | rpt rlc now g1 H].
    + destruct (hlc_wid_gen_next_state_step g g1 now Hr H) as (_ & _ & H1 & H2 & H3).
      repeat split; try assumption; apply H1.
    + destruct (hlc_wid_observe_step g g1 rpt rlc now H)
        as (_ & _ & _ & _ & H2 & H3 & Hok).
      destruct (Hok Hr) as (_ & _ & _ & Hlc & _).
      destruct Hr as (_ & _ & _ & Hlc0 & _).
      repeat split; try assumption; try apply Hlc. apply H3. apply Hlc0.
Qed.

(** A generator that has emitted once at tick 1770887730: a remote event
    five ticks ahead with the counter [INT64_MAX], then, its own clock put
    back, a call of each kind. *)
Lemma hlc_gen_monotonic_witness :
  hlc_wid_observe (mk_hlc_gen 4 0 WID_TIME_SEC (str "node01") 1770887730 0 9999)
    1770887735 INT64_MAX 1770887730 = None /\
  (exists g', hlc_wid_gen_next_state
                (mk_hlc_gen 4 0 WID_TIME_SEC (str "node01") 1770887730 0 9999)
                1770880000 = Some g') /\
  (exists g', hlc_wid_observe
                (mk_hlc_gen 4 0 WID_TIME_SEC (str "node01") 1770887730 0 9999)
                1770887735 9 1770880000 = Some (true, g')) /\
  (0 <= 10 <= 9999 /\ 1770887730 <= 1770887735 /\
   lex_lt (1770887730, 0) (1770887735, 10)).
Proof.
  assert (Hr : hlc_reachable
                 (mk_hlc_gen 4 0 WID_TIME_SEC (str "node01") 1770887730 0 9999)).
  { apply (hlc_reach_step (mk_hlc_gen 4 0 WID_TIME_SEC (str "node01") 0 0 9999)).
    - apply (hlc_reach_init (str "node01") 4 0 WID_TIME_SEC). vm_compute. reflexivity.
    - apply (hlc_step_next _ 1770887730). vm_compute. reflexivity. }
  split; [| split; [| split]].
  - apply (proj1 (hlc_gen_monotonic _ Hr)); vm_compute; discriminate.
  - apply (proj1 (proj2 (proj2 (hlc_gen_monotonic _ Hr)))); vm_compute; reflexivity.
  - apply (proj1 (proj2 (proj2 (proj2 (hlc_gen_monotonic _ Hr)))));
      vm_compute; try reflexivity; split; (reflexivity || discriminate).
  - apply (proj2 (proj2 (proj2 (proj2 (hlc_gen_monotonic _ Hr))))
             (mk_hlc_gen 4 0 WID_TIME_SEC (str "node01") 1770887735 10 9999)).
    apply (hlc_step_observe _ 1770887735 9 1770880000). vm_compute. reflexivity.
Defined.


(** ** Initialisation (C9) *)

(** The counterexample; the amended statement follows the lemmas on the
    calls of a fresh generator, further down. *)



(** ** The C library's calendar *)

Lemma gregorian_leap_shift (y e : Z) :
  gregorian_leap (y + 400 * e) = gregorian_leap y.
Proof.
  unfold gregorian_leap.
  replace (y + 400 * e) with (y + (100 * e) * 4) at 1 by lia.
  replace (y + 400 * e) with (y + (4 * e) * 100) at 1 by lia.
  replace (y + 400 * e) with (y + e * 400) by lia.
  rewrite !Z.mod_add by lia. reflexivity.
Qed.

Lemma days_in_years_shift (n : nat) (y e : Z) :
  days_in_years n (y + 400 * e) = days_in_years n y.
Proof.
  revert y. induction n as [|n IH]; intros y; [reflexivity |].
  cbn [days_in_years]. unfold year_days. rewrite gregorian_leap_shift.
  replace (y + 400 * e + 1) with (y + 1 + 400 * e) by lia. rewrite IH. reflexivity.
Qed.

Lemma days_in_400_years (e : Z) : days_in_years 400 (1970 + 400 * e) = 146097.
Proof. rewrite days_in_years_shift. vm_compute. reflexivity. Qed.

Lemma year_days_pos (y : Z) : 365 <= year_days y <= 366.
Proof. unfold year_days. destruct (gregorian_leap y); lia. Qed.

Lemma split_year_spec (fuel : nat) :
  forall y d, 0 <= d < days_in_years fuel y ->
    0 <= snd (split_year fuel y d) < year_days (fst (split_year fuel y d)).
Proof.
  induction fuel as [|fuel IH]; intros y d Hd.
  - cbn [days_in_years] in Hd. lia.
  - cbn [days_in_years] in Hd. cbn [split_year].
    destruct (d <? year_days y) eqn:E.
    + apply Z.ltb_lt in E. cbn [fst snd]. lia.
    + apply Z.ltb_ge in E. apply IH. lia.
Qed.

Lemma split_month_spec (lens : list Z) :
  forall m d, 0 <= m -> 0 <= d < sum_days lens ->
    let r := split_month lens m d in
    m <= fst r < m + Z.of_nat (length lens) /\
    0 <= snd r < nth (Z.to_nat (fst r - m)) lens 0.
Proof.
  induction lens as [|len lens IH]; intros m d Hm Hd.
  - cbn [sum_days fold_right] in Hd. lia.
  - cbn [sum_days fold_right] in Hd. cbn [split_month].
    destruct (d <? len) eqn:E.
    + apply Z.ltb_lt in E. cbn [fst snd]. rewrite Z.sub_diag.
      cbn [Z.to_nat nth length]. lia.
    + apply Z.ltb_ge in E.
      destruct (IH (m + 1) (d - len) ltac:(lia)) as [H1 H2].
      { unfold sum_days. lia. }
      cbv zeta. split.
      * cbn [length]. lia.
      * replace (Z.to_nat (fst (split_month lens (m + 1) (d - len)) - m))
          with (S (Z.to_nat (fst (split_month lens (m + 1) (d - len)) - (m + 1))))
          by lia.
        cbn [nth]. exact H2.
Qed.

Lemma sum_month_days (y : Z) : sum_days (month_days y) = year_days y.
Proof. unfold month_days, year_days. destruct (gregorian_leap y); reflexivity. Qed.

Lemma wid_is_leap_year_gregorian (y : Z) :
  0 <= y -> wid_is_leap_year y = gregorian_leap y.
Proof.
  intros Hy. unfold wid_is_leap_year, gregorian_leap.
  rewrite !Z.rem_mod_nonneg by lia.
  assert (H4 : y mod 400 = 0 -> y mod 100 = 0).
  { intros H. apply Z.mod_divide in H; [| lia]. destruct H as [k ->].
    replace (k * 400) with ((k * 4) * 100) by lia. apply Z.mod_mul. lia. }
  assert (H1 : y mod 100 = 0 -> y mod 4 = 0).
  { intros H. apply Z.mod_divide in H; [| lia]. destruct H as [k ->].
    replace (k * 100) with ((k * 25) * 4) by lia. apply Z.mod_mul. lia. }
  destruct (y mod 400 =? 0) eqn:E400; destruct (y mod 100 =? 0) eqn:E100;
    destruct (y mod 4 =? 0) eqn:E4; tests_to_props; try reflexivity;
    try (specialize (H4 ltac:(assumption))); try (specialize (H1 ltac:(assumption)));
    congruence.
Qed.

(** The broken-down time of [gmtime_r] is a date of the Gregorian calendar
    and a time of day. *)
Lemma gmtime_r_valid (t : Z) (b : tm) :
  gmtime_r t = Some b ->
  0 <= tm_sec b <= 59 /\ 0 <= tm_min b <= 59 /\ 0 <= tm_hour b <= 23 /\
  0 <= tm_mon b <= 11 /\
  1 <= tm_mday b <= nth (Z.to_nat (tm_mon b)) (month_days (tm_year b + 1900)) 0.
Proof.
  unfold gmtime_r.
  set (days := t / 86400). set (secs := t mod 86400).
  set (era := days / 146097). set (doe := days mod 146097).
  assert (Hsecs : 0 <= secs < 86400) by (apply Z.mod_pos_bound; lia).
  assert (Hdoe : 0 <= doe < 146097) by (apply Z.mod_pos_bound; lia).
  pose proof (split_year_spec 400 (1970 + 400 * era) doe) as Hy.
  rewrite days_in_400_years in Hy. specialize (Hy Hdoe).
  destruct (split_year 400 (1970 + 400 * era) doe) as [y doy]. cbn [fst snd] in Hy.
  pose proof (split_month_spec (month_days y) 0 doy ltac:(lia)) as Hm.
  rewrite sum_month_days in Hm. specialize (Hm Hy). cbv zeta in Hm.
  destruct (split_month (month_days y) 0 doy) as [m d]. cbn [fst snd] in Hm.
  change (Z.of_nat (length (month_days y))) with 12 in Hm.
  rewrite Z.sub_0_r in Hm.
  destruct (fits_int (y - 1900)); [| discriminate].
  intros H. inversion H; subst b; clear H.
  cbn [tm_sec tm_min tm_hour tm_mday tm_mon tm_year].
  replace (y - 1900 + 1900) with y by lia.
  pose proof (Z.mod_pos_bound secs 60 ltac:(lia)).
  pose proof (Z.mod_pos_bound (secs / 60) 60 ltac:(lia)).
  assert (0 <= secs / 3600 <= 23).
  { split; [apply Z.div_pos; lia |].
    apply Z.lt_succ_r. apply Z.div_lt_upper_bound; lia. }
  lia.
Qed.

Lemma month_days_table (y m : Z) :
  0 <= y -> 0 <= m <= 11 ->
  nth (Z.to_nat m) (month_days y) 0
  = (if (m + 1 =? 2) && wid_is_leap_year y then 29
     else nth (Z.to_nat (m + 1 - 1)) days_in_month 0).
Proof.
  intros Hy Hm. rewrite wid_is_leap_year_gregorian by exact Hy.
  replace (m + 1 - 1) with m by lia.
  assert (Hk : forall k : nat, (k <= 11)%nat ->
               nth k (month_days y) 0
               = (if (Z.of_nat k + 1 =? 2) && gregorian_leap y then 29
                  else nth k days_in_month 0)).
  { intros k Hk. unfold month_days.
    do 12 (destruct k as [|k];
           [destruct (gregorian_leap y); reflexivity |]).
    lia. }
  rewrite (Hk (Z.to_nat m)) by lia. rewrite Z2Nat.id by lia. reflexivity.
Qed.

Lemma gmtime_r_wid_valid (t : Z) (b : tm) :
  gmtime_r t = Some b -> 0 <= tm_year b + 1900 ->
  wid_valid_ymdhms (tm_year b + 1900) (tm_mon b + 1) (tm_mday b)
                   (tm_hour b) (tm_min b) (tm_sec b) = true.
Proof.
  intros H Hy. apply gmtime_r_valid in H.
  destruct H as (Hs & Hmi & Hh & Hmo & Hd).
  rewrite month_days_table in Hd by assumption.
  unfold wid_valid_ymdhms.
  destruct (tm_mon b + 1 <? 1) eqn:E1; [apply Z.ltb_lt in E1; lia |].
  destruct (12 <? tm_mon b + 1) eqn:E2; [apply Z.ltb_lt in E2; lia |].
  destruct (tm_hour b <? 0) eqn:E3; [apply Z.ltb_lt in E3; lia |].
  destruct (23 <? tm_hour b) eqn:E4; [apply Z.ltb_lt in E4; lia |].
  destruct (tm_min b <? 0) eqn:E5; [apply Z.ltb_lt in E5; lia |].
  destruct (59 <? tm_min b) eqn:E6; [apply Z.ltb_lt in E6; lia |].
  destruct (tm_sec b <? 0) eqn:E7; [apply Z.ltb_lt in E7; lia |].
  destruct (59 <? tm_sec b) eqn:E8; [apply Z.ltb_lt in E8; lia |].
  cbn [orb]. cbv zeta. apply andb_true_iff. split; apply Z.leb_le; lia.
Qed.
(** ** What the generators print (C2) *)

Lemma snprintf_fits (size : Z) (s : cstring) :
  strlen s < size -> snprintf size s = s.
Proof.
  intros H. unfold snprintf. apply firstn_all2. unfold strlen in H. lia.
Qed.

Lemma fmt_stamp_is_text (u : wid_time_unit_t) (ts : timestamp_t) :
  0 <= year ts <= 9999 ->
  wid_valid_ymdhms (year ts) (month ts) (day ts) (hour ts) (minute ts) (second ts) = true ->
  (if is_ms u then 0 <= millisecond ts <= 999 else millisecond ts = 0) ->
  stamp_text u (fmt_stamp u ts) ts.
Proof.
  destruct ts as [y mo d h mi se ms]. cbn [year month day hour minute second millisecond].
  intros Hy Hv Hms. pose proof (valid_ymdhms_ranges _ _ _ _ _ _ Hv) as (Hmo & Hd & Hh & Hmi & Hse).
  destruct (printf_0d_digits 4 y) as [DY VY]; [lia | change (10 ^ 4) with 10000; lia |].
  destruct (printf_0d_digits 2 mo) as [DMo VMo]; [lia | change (10 ^ 2) with 100; lia |].
  destruct (printf_0d_digits 2 d) as [DD VD]; [lia | change (10 ^ 2) with 100; lia |].
  destruct (printf_0d_digits 2 h) as [DH VH]; [lia | change (10 ^ 2) with 100; lia |].
  destruct (printf_0d_digits 2 mi) as [DMi VMi]; [lia | change (10 ^ 2) with 100; lia |].
  destruct (printf_0d_digits 2 se) as [DSe VSe]; [lia | change (10 ^ 2) with 100; lia |].
  set (Ms := if is_ms u then printf_0d 3 ms else []).
  assert (HMs : digits (if is_ms u then 3 else 0) Ms /\ digits_val Ms = ms).
  { unfold Ms. destruct (is_ms u).
    - apply printf_0d_digits; [lia | change (10 ^ 3) with 1000; lia].
    - subst ms. split; [split |]; reflexivity. }
  destruct HMs as [DMs VMs].
  rewrite <- VY, <- VMo, <- VD, <- VH, <- VMi, <- VSe in Hv.
  pose proof (stamp_text_intro u _ _ _ _ _ _ Ms DY DMo DD DH DMi DSe DMs Hv) as H.
  rewrite VY, VMo, VD, VH, VMi, VSe, VMs in H. exact H.
Qed.

Lemma ms_of_tick (tick : Z) :
  let ms := cast_int (Z.rem tick 1000) in
  0 <= (if ms <? 0 then ms + 1000 else ms) <= 999.
Proof.
  pose proof (Z.rem_bound_abs tick 1000 ltac:(lia)) as H.
  cbv zeta. rewrite cast_int_small by (unfold INT_MIN, INT_MAX; lia).
  destruct (Z.rem tick 1000 <? 0) eqn:E; tests_to_props; lia.
Qed.

(** [wid_fmt_tick] prints the text of a valid time stamp whenever the year
    has four digits. *)
Lemma wid_fmt_tick_text (u : wid_time_unit_t) (tick : Z) :
  four_digit_year u tick ->
  exists t ts, wid_fmt_tick u tick = Some t /\ stamp_text u t ts.
Proof.
  intros (b & Hg & Hy). unfold tick_seconds in Hg. unfold wid_fmt_tick.
  rewrite Hg. pose proof (gmtime_r_wid_valid _ b Hg ltac:(lia)) as Hv.
  pose proof (ms_of_tick tick) as Hms. cbv zeta in Hms.
  set (ms := if is_ms u then
               (if cast_int (Z.rem tick 1000) <? 0
                then cast_int (Z.rem tick 1000) + 1000
                else cast_int (Z.rem tick 1000))
             else 0).
  assert (Hsec : stamp_text WID_TIME_SEC (fmt_stamp WID_TIME_SEC (tm_stamp b 0))
                            (tm_stamp b 0)).
  { apply fmt_stamp_is_text;
      cbn [tm_stamp year month day hour minute second millisecond is_ms];
      try assumption; try lia. }
  assert (Hu : stamp_text u (fmt_stamp u (tm_stamp b ms)) (tm_stamp b ms)).
  { apply fmt_stamp_is_text; cbn [tm_stamp year month day hour minute second millisecond];
      try assumption; try lia.
    unfold ms. destruct (is_ms u); [exact Hms | reflexivity]. }
  pose proof (stamp_text_length _ _ _ Hsec) as Lsec.
  pose proof (stamp_text_length _ _ _ Hu) as Lu.
  unfold strftime_stamp. change (wid_timestamp_len WID_TIME_SEC) with 15 in Lsec.
  rewrite Lsec. change (15 <? 20) with true. cbv iota. cbn [bind].
  exists (fmt_stamp u (tm_stamp b ms)), (tm_stamp b ms). split; [| exact Hu].
  unfold wid_timestamp_len in Lu. unfold ms in *. clear ms.
  destruct u; cbn [is_ms] in *.
  - rewrite snprintf_fits by lia. reflexivity.
  - assert (E : fmt_stamp WID_TIME_SEC (tm_stamp b 0) ++
                printf_0d 3 (if cast_int (Z.rem tick 1000) <? 0
                             then cast_int (Z.rem tick 1000) + 1000
                             else cast_int (Z.rem tick 1000))
                = fmt_stamp WID_TIME_MS
                    (tm_stamp b (if cast_int (Z.rem tick 1000) <? 0
                                 then cast_int (Z.rem tick 1000) + 1000
                                 else cast_int (Z.rem tick 1000)))).
    { unfold fmt_stamp. cbn [tm_stamp year month day hour minute second millisecond is_ms].
      rewrite app_nil_r. rewrite <- !app_assoc. cbn [app]. rewrite <- !app_assoc.
      reflexivity. }
    rewrite E, snprintf_fits by lia. reflexivity.
Qed.

Lemma land_15_range (x : Z) : 0 <= Z.land x 15 <= 15.
Proof.
  assert (E : Z.land x 15 = x mod 16).
  { change 15 with (Z.ones 4). rewrite Z.land_ones by lia. reflexivity. }
  rewrite E. pose proof (Z.mod_pos_bound x 16 ltac:(lia)). lia.
Qed.

Lemma hex_table_lower (x : Z) : wid_is_lower_hex (char_at hex (Z.land x 15)) = true.
Proof.
  pose proof (land_15_range x) as H.
  rewrite <- (Z2Nat.id (Z.land x 15)) by lia.
  assert (Hk : (Z.to_nat (Z.land x 15) <= 15)%nat) by lia.
  revert Hk. generalize (Z.to_nat (Z.land x 15)). intros k Hk.
  do 16 (destruct k as [|k]; [reflexivity |]). lia.
Qed.

(** [wid_random_hex] returns [len] lowercase hexadecimal digits when [len]
    bytes fit its array. *)
Lemma wid_random_hex_text (rnd : Z -> Z) (len : Z) (pad : cstring) :
  0 <= len -> wid_random_hex rnd len = Some pad ->
  len <= RAW_SIZE /\ pad_text len pad.
Proof.
  intros Hlen H. unfold wid_random_hex in H.
  destruct (RAW_SIZE <? len) eqn:E; [discriminate |]. apply Z.ltb_ge in E.
  inversion H; subst pad; clear H. split; [exact E |]. split.
  - unfold strlen. rewrite length_map, length_seq. lia.
  - apply forallb_forall. intros c Hc. apply in_map_iff in Hc as (i & <- & _).
    apply hex_table_lower.
Qed.

Lemma wid_random_hex_defined (rnd : Z -> Z) (len : Z) :
  len <= RAW_SIZE -> exists pad, wid_random_hex rnd len = Some pad.
Proof.
  intros H. unfold wid_random_hex.
  destruct (RAW_SIZE <? len) eqn:E; [apply Z.ltb_lt in E; lia |]. eauto.
Qed.

Lemma counter_text (w v : Z) :
  1 <= w <= WID_MAX_W -> 0 <= v <= 10 ^ w - 1 ->
  digits w (snprintf 64 (printf_0d w v)).
Proof.
  intros Hw Hv. unfold WID_MAX_W in Hw.
  destruct (printf_0d_digits w v) as [[Hl Hd] _]; [lia | lia |].
  rewrite snprintf_fits by lia. split; assumption.
Qed.

(** An identifier printed from well-formed parts into a buffer of
    [WID_MAX_LEN] bytes or more is accepted by the validator. *)
Lemma printed_wid_valid (t sq sfx : cstring) (ts : timestamp_t) (w z out_len : Z)
      (u : wid_time_unit_t) :
  params_ok w z -> WID_MAX_LEN <= out_len ->
  stamp_text u t ts -> digits w sq -> suffix_text z sfx ->
  wid_validate_ex (snprintf out_len (t ++ str "." ++ sq ++ str "Z" ++ sfx)) w z u = true.
Proof.
  intros Hp Hout Ht Hsq Hsfx.
  pose proof (stamp_text_length u t ts Ht) as Lt.
  pose proof (wid_timestamp_len_pos u) as HL.
  assert (Lsfx : strlen sfx <= 1 + z).
  { destruct Hsfx as [-> | (_ & pad & -> & Hl & _)].
    - rewrite strlen_nil. unfold params_ok in Hp. lia.
    - rewrite strlen_app. change (strlen (str "-")) with 1. lia. }
  assert (Llen : strlen (t ++ str "." ++ sq ++ str "Z" ++ sfx) <= 103).
  { rewrite !strlen_app. change (strlen (str ".")) with 1.
    change (strlen (str "Z")) with 1. destruct Hsq as [Hl _].
    unfold params_ok, WID_MAX_W, WID_MAX_Z in Hp. lia. }
  unfold WID_MAX_LEN in Hout. rewrite snprintf_fits by lia.
  apply wid_validate_ex_complete.
  - unfold INT_MAX. lia.
  - exact Hp.
  - econstructor; eassumption.
Qed.

Lemma printed_hlc_valid (t sq nd sfx : cstring) (ts : timestamp_t) (w z out_len : Z)
      (u : wid_time_unit_t) :
  params_ok w z -> WID_MAX_LEN <= out_len ->
  stamp_text u t ts -> digits w sq -> node_text nd -> strlen nd < NODE_SIZE ->
  suffix_text z sfx ->
  hlc_wid_validate_ex (snprintf out_len (t ++ str "." ++ sq ++ str "Z-" ++ nd ++ sfx))
    w z u = true.
Proof.
  intros Hp Hout Ht Hsq Hnd Lnd Hsfx.
  pose proof (stamp_text_length u t ts Ht) as Lt.
  pose proof (wid_timestamp_len_pos u) as HL.
  assert (Lsfx : strlen sfx <= 1 + z).
  { destruct Hsfx as [-> | (_ & pad & -> & Hl & _)].
    - rewrite strlen_nil. unfold params_ok in Hp. lia.
    - rewrite strlen_app. change (strlen (str "-")) with 1. lia. }
  assert (Llen : strlen (t ++ str "." ++ sq ++ str "Z-" ++ nd ++ sfx) <= 167).
  { rewrite !strlen_app. change (strlen (str ".")) with 1.
    change (strlen (str "Z-")) with 2. destruct Hsq as [Hl _].
    unfold params_ok, WID_MAX_W, WID_MAX_Z, NODE_SIZE in *. lia. }
  unfold WID_MAX_LEN in Hout. rewrite snprintf_fits by lia.
  apply hlc_wid_validate_ex_complete.
  - unfold INT_MAX. lia.
  - exact Hp.
  - econstructor; eassumption.
Qed.

(** Neither transition touches the parameters of the generator. *)
Lemma wid_gen_next_state_params (g g' : wid_gen_t) (now : Z) :
  wid_gen_next_state g now = Some g' ->
  W g' = W g /\ Z_ g' = Z_ g /\ time_unit g' = time_unit g.
Proof.
  intros E. unfold wid_gen_next_state in E.
  repeat match type of E with
         | bind ?m _ = _ => destruct m; cbn [bind] in E; [| discriminate E]
         end.
  inversion E. repeat split.
Qed.

Lemma hlc_wid_gen_next_state_params (g g' : hlc_wid_gen_t) (now : Z) :
  hlc_wid_gen_next_state g now = Some g' ->
  hW g' = hW g /\ hZ g' = hZ g /\ htime_unit g' = htime_unit g.
Proof.
  intros E. unfold hlc_wid_gen_next_state in E.
  match type of E with
  | bind ?m _ = _ => destruct m as [g1|] eqn:E1; cbn [bind] in E; [| discriminate E]
  end.
  apply hlc_rollover_cases in E. destruct E as (-> & -> & -> & _).
  destruct (pt g <? now); [inversion E1; repeat split |].
  destruct (add_i64 (lc g) 1); [| discriminate E1]. inversion E1. repeat split.
Qed.

(** The parts of what [wid_gen_next] stores in [out]. *)
Lemma wid_gen_next_parts (g g' : wid_gen_t) (now : Z) (rnd : Z -> Z) (out_len : Z)
      (out : cstring) :
  wid_gen_next g now rnd out_len = Some (g', out) ->
  wid_gen_next_state g now = Some g' /\
  exists ts sfx,
    wid_fmt_tick (time_unit g') (last_tick g') = Some ts /\
    out = snprintf out_len
            (ts ++ str "." ++ snprintf 64 (printf_0d (W g') (last_seq g'))
                ++ str "Z" ++ sfx) /\
    (if 0 <? Z_ g'
     then exists pad, wid_random_hex rnd (Z_ g') = Some pad /\ sfx = str "-" ++ pad
     else sfx = []).
Proof.
  unfold wid_gen_next.
  destruct (wid_gen_next_state g now) as [g1|]; [| discriminate]. cbn [bind].
  destruct (wid_fmt_tick (time_unit g1) (last_tick g1)) as [ts|] eqn:Efmt;
    [| discriminate].
  cbn [bind]. destruct (0 <? Z_ g1) eqn:E0.
  - destruct (wid_random_hex rnd (Z_ g1)) as [pad|] eqn:Epad; [| discriminate].
    cbn [bind]. intros H. injection H as <- <-.
    split; [reflexivity |]. exists ts, (str "-" ++ pad).
    rewrite Efmt, E0. repeat split. exists pad. split; [exact Epad | reflexivity].
  - intros H. injection H as <- <-.
    split; [reflexivity |]. exists ts, [].
    rewrite Efmt, E0. repeat split.
Qed.

Lemma hlc_wid_gen_next_parts (g g' : hlc_wid_gen_t) (now : Z) (rnd : Z -> Z)
      (out_len : Z) (out : cstring) :
  hlc_wid_gen_next g now rnd out_len = Some (g', out) ->
  hlc_wid_gen_next_state g now = Some g' /\
  exists ts sfx,
    wid_fmt_tick (htime_unit g') (pt g') = Some ts /\
    out = snprintf out_len
            (ts ++ str "." ++ snprintf 64 (printf_0d (hW g') (lc g'))
                ++ str "Z-" ++ node g' ++ sfx) /\
    (if 0 <? hZ g'
     then exists pad, wid_random_hex rnd (hZ g') = Some pad /\ sfx = str "-" ++ pad
     else sfx = []).
Proof.
  unfold hlc_wid_gen_next.
  destruct (hlc_wid_gen_next_state g now) as [g1|]; [| discriminate]. cbn [bind].
  destruct (wid_fmt_tick (htime_unit g1) (pt g1)) as [ts|] eqn:Efmt;
    [| discriminate].
  cbn [bind]. destruct (0 <? hZ g1) eqn:E0.
  - destruct (wid_random_hex rnd (hZ g1)) as [pad|] eqn:Epad; [| discriminate].
    cbn [bind]. intros H. injection H as <- <-.
    split; [reflexivity |]. exists ts, (str "-" ++ pad).
    rewrite Efmt, E0. repeat split. exists pad. split; [exact Epad | reflexivity].
  - intros H. injection H as <- <-.
    split; [reflexivity |]. exists ts, [].
    rewrite Efmt, E0. repeat split. rewrite app_nil_r. reflexivity.
Qed.

(** Every identifier [wid_gen_next] completes is a valid WID for the
    generator's [(W, Z, unit)], as long as the year has four digits and
    the caller's buffer has [WID_MAX_LEN] bytes.  (The call completes only
    for [Z <= 33], see [wid_gen_next_overrun].) *)
Lemma wid_gen_next_valid (g g' : wid_gen_t) (now : Z) (rnd : Z -> Z) (out_len : Z)
      (out : cstring) :
  wid_reachable g -> WID_MAX_LEN <= out_len ->
  wid_gen_next g now rnd out_len = Some (g', out) ->
  four_digit_year (time_unit g) (last_tick g') ->
  wid_validate_ex out (W g) (Z_ g) (time_unit g) = true.
Proof.
  intros Hr Hout H Hyear. apply wid_reachable_ok in Hr.
  destruct (wid_gen_next_parts g g' now rnd out_len out H)
    as (Estep & t0 & sfx & Efmt & -> & Hsfx).
  destruct (wid_gen_next_state_step g g' now Hr Estep)
    as ((Hw & Hz & Hmax & _) & _ & Hseq & _).
  destruct (wid_gen_next_state_params g g' now Estep) as (EW & EZ & EU).
  rewrite EW, EZ, EU in *.
  destruct (wid_fmt_tick_text _ _ Hyear) as (t & ts & Efmt' & Ht).
  rewrite Efmt' in Efmt. injection Efmt as <-.
  apply (printed_wid_valid t _ sfx ts); try assumption.
  - split; assumption.
  - apply counter_text; [exact Hw | lia].
  - destruct (0 <? Z_ g) eqn:E0; [| left; exact Hsfx].
    destruct Hsfx as (pad & Epad & ->). apply Z.ltb_lt in E0.
    destruct (wid_random_hex_text rnd (Z_ g) pad ltac:(lia) Epad) as [_ Hpad].
    right. split; [exact E0 |]. exists pad. split; [reflexivity | exact Hpad].
Qed.

(** The same for [hlc_wid_gen_next]. *)
Lemma hlc_wid_gen_next_valid (g g' : hlc_wid_gen_t) (now : Z) (rnd : Z -> Z)
      (out_len : Z) (out : cstring) :
  hlc_reachable g -> WID_MAX_LEN <= out_len ->
  hlc_wid_gen_next g now rnd out_len = Some (g', out) ->
  four_digit_year (htime_unit g) (pt g') ->
  hlc_wid_validate_ex out (hW g) (hZ g) (htime_unit g) = true.
Proof.
  intros Hr Hout H Hyear.
  destruct (hlc_wid_gen_next_parts g g' now rnd out_len out H)
    as (Estep & t0 & sfx & Efmt & -> & Hsfx).
  assert (Hr' : hlc_reachable g').
  { apply (hlc_reach_step g g' Hr). apply (hlc_step_next g now g' Estep). }
  apply hlc_reachable_ok in Hr'.
  destruct Hr' as (Hw & Hz & Hmax & Hlc & _ & Hnode & Lnode).
  destruct (hlc_wid_gen_next_state_params g g' now Estep) as (EW & EZ & EU).
  rewrite EW, EZ, EU in *.
  destruct (wid_fmt_tick_text _ _ Hyear) as (t & ts & Efmt' & Ht).
  rewrite Efmt' in Efmt. injection Efmt as <-.
  apply (printed_hlc_valid t _ (node g') sfx ts); try assumption.
  - split; assumption.
  - apply counter_text; [exact Hw | lia].
  - destruct (0 <? hZ g) eqn:E0; [| left; exact Hsfx].
    destruct Hsfx as (pad & Epad & ->). apply Z.ltb_lt in E0.
    destruct (wid_random_hex_text rnd (hZ g) pad ltac:(lia) Epad) as [_ Hpad].
    right. split; [exact E0 |]. exists pad. split; [reflexivity | exact Hpad].
Qed.

(** A call of [wid_gen_next] completes, and prints, whenever the padding
    fits [raw], the tick is below [INT64_MAX] and the year has four
    digits. *)
Lemma wid_gen_next_defined (g : wid_gen_t) (now : Z) (rnd : Z -> Z) (out_len : Z) :
  wid_reachable g -> Z_ g <= RAW_SIZE ->
  now < INT64_MAX -> last_tick g < INT64_MAX ->
  exists g', wid_gen_next_state g now = Some g' /\
             (four_digit_year (time_unit g) (last_tick g') ->
              exists out, wid_gen_next g now rnd out_len = Some (g', out)).
Proof.
  intros Hr Hz Hnow Htick.
  destruct (wid_gen_next_state_defined g now Hr Hnow Htick) as [g' Estep].
  exists g'. split; [exact Estep |]. intros Hyear.
  destruct (wid_gen_next_state_params g g' now Estep) as (_ & EZ & EU).
  unfold wid_gen_next. rewrite Estep. cbn [bind]. rewrite EZ, EU.
  destruct (wid_fmt_tick_text _ _ Hyear) as (t & ts & -> & _). cbn [bind].
  destruct (0 <? Z_ g); [| eauto].
  destruct (wid_random_hex_defined rnd (Z_ g) Hz) as [pad ->]. cbn [bind]. eauto.
Qed.

(** The same for [hlc_wid_gen_next]. *)
Lemma hlc_wid_gen_next_defined (g : hlc_wid_gen_t) (now : Z) (rnd : Z -> Z)
      (out_len : Z) :
  hlc_reachable g -> hZ g <= RAW_SIZE ->
  now < INT64_MAX -> pt g < INT64_MAX ->
  exists g', hlc_wid_gen_next_state g now = Some g' /\
             (four_digit_year (htime_unit g) (pt g') ->
              exists out, hlc_wid_gen_next g now rnd out_len = Some (g', out)).
Proof.
  intros Hr Hz Hnow Hpt.
  destruct (hlc_wid_gen_next_state_defined g now Hr Hnow Hpt) as [g' Estep].
  exists g'. split; [exact Estep |]. intros Hyear.
  destruct (hlc_wid_gen_next_state_params g g' now Estep) as (_ & EZ & EU).
  unfold hlc_wid_gen_next. rewrite Estep. cbn [bind]. rewrite EZ, EU.
  destruct (wid_fmt_tick_text _ _ Hyear) as (t & ts & -> & _). cbn [bind].
  destruct (0 <? hZ g); [| eauto].
  destruct (wid_random_hex_defined rnd (hZ g) Hz) as [pad ->]. cbn [bind]. eauto.
Qed.

(** ** The random padding overruns its buffer (C2) *)

Lemma wid_random_hex_overrun (rnd : Z -> Z) (len : Z) :
  RAW_SIZE < len -> wid_random_hex rnd len = None.
Proof.
  intros H. unfold wid_random_hex.
  destruct (RAW_SIZE <? len) eqn:E; [reflexivity | apply Z.ltb_ge in E; lia].
Qed.

Lemma wid_gen_next_overrun (g : wid_gen_t) (now : Z) (rnd : Z -> Z) (out_len : Z) :
  RAW_SIZE < Z_ g -> wid_gen_next g now rnd out_len = None.
Proof.
  intros H. unfold wid_gen_next.
  destruct (wid_gen_next_state g now) as [g'|] eqn:E; [| reflexivity]. cbn [bind].
  destruct (wid_gen_next_state_params g g' now E) as (_ & HZ & _).
  destruct (wid_fmt_tick _ _); [| reflexivity]. cbn [bind]. rewrite HZ.
  destruct (0 <? Z_ g) eqn:E0; [| apply Z.ltb_ge in E0; unfold RAW_SIZE in H; simpl in H; lia].
  rewrite wid_random_hex_overrun by exact H. reflexivity.
Qed.

Lemma hlc_wid_gen_next_overrun (g : hlc_wid_gen_t) (now : Z) (rnd : Z -> Z)
      (out_len : Z) :
  RAW_SIZE < hZ g -> hlc_wid_gen_next g now rnd out_len = None.
Proof.
  intros H. unfold hlc_wid_gen_next.
  destruct (hlc_wid_gen_next_state g now) as [g'|] eqn:E; [| reflexivity]. cbn [bind].
  destruct (hlc_wid_gen_next_state_params g g' now E) as (_ & HZ & _).
  destruct (wid_fmt_tick _ _); [| reflexivity]. cbn [bind]. rewrite HZ.
  destruct (0 <? hZ g) eqn:E0; [| apply Z.ltb_ge in E0; unfold RAW_SIZE in H; simpl in H; lia].
  rewrite wid_random_hex_overrun by exact H. reflexivity.
Qed.

(** C2, the failing input.  A generator initialised with [Z = 34], a value
    both initialisers accept, never completes a call of [wid_gen_next] or
    [hlc_wid_gen_next]: [wid_random_hex] stores 34 bytes into its 33-byte
    array [raw], which has no defined behaviour.  The same holds for every
    [Z] from 34 to 64. *)
Theorem padding_overruns_raw (now : Z) (rnd : Z -> Z) (out_len : Z) :
  Z_ (wid_gen_init_ex 4 34 WID_TIME_SEC) = 34 /\
  wid_gen_next (wid_gen_init_ex 4 34 WID_TIME_SEC) now rnd out_len = None /\
  hlc_wid_gen_init_ex (str "node01") 4 34 WID_TIME_SEC
  = Some (mk_hlc_gen 4 34 WID_TIME_SEC (str "node01") 0 0 9999) /\
  hlc_wid_gen_next (mk_hlc_gen 4 34 WID_TIME_SEC (str "node01") 0 0 9999)
    now rnd out_len = None.
Proof.
  split; [reflexivity |]. split; [| split].
  - apply wid_gen_next_overrun. vm_compute. reflexivity.
  - vm_compute. reflexivity.
  - apply hlc_wid_gen_next_overrun. vm_compute. reflexivity.
Qed.
(** ** The test vectors of [c/tests/wid_tests.c] *)

Example test_validate_wid :
  wid_validate (str "20260212T091530.0000Z") 4 0 = true /\
  wid_validate (str "20260212T091530.0042Z-a3f91c") 4 6 = true /\
  wid_validate_ex (str "20260212T091530123.0042Z-a3f91c") 4 6 WID_TIME_MS = true /\
  wid_validate (str "waldiez") 4 6 = false /\
  wid_validate (str "20260212T091530.0000") 4 0 = false /\
  wid_validate (str "20260212T091530.0000z") 4 0 = false /\
  wid_validate (str "2026-02-12T09:15:30.0000Z") 4 0 = false /\
  wid_validate (str "20261312T091530.0000Z") 4 0 = false /\
  wid_validate (str "20260230T091530.0000Z") 4 0 = false /\
  wid_validate (str "20260212T251530.0000Z") 4 0 = false /\
  wid_validate (str "20260212T091530.0000Z-ABCDEF") 4 6 = false /\
  wid_validate (str "20260212T091530.0000Z-node01") 4 0 = false /\
  wid_validate_ex (str "20260212T09153012.0000Z") 4 0 WID_TIME_MS = false /\
  wid_validate_ex (str "20260212T0915301234.0000Z") 4 0 WID_TIME_MS = false /\
  wid_validate (str "20240229T091530.0000Z") 4 0 = true /\
  wid_validate (str "20230229T091530.0000Z") 4 0 = false.
Proof. vm_compute. repeat split. Qed.

Example test_validate_hlc :
  hlc_wid_validate (str "20260212T091530.0000Z-node01") 4 0 = true /\
  hlc_wid_validate (str "20260212T091530.0042Z-node01-a3f91c") 4 6 = true /\
  hlc_wid_validate (str "20260212T091530.0042Z-my_node") 4 0 = true /\
  hlc_wid_validate_ex (str "20260212T091530123.0042Z-node01-a3f91c") 4 6 WID_TIME_MS = true /\
  hlc_wid_validate (str "20260212T091530.0000Z") 4 0 = false /\
  hlc_wid_validate (str "20260212T091530.0000Z-node-01") 4 0 = false /\
  hlc_wid_validate (str "20260212T091530.0000Z-node01-ABCDEF") 4 6 = false /\
  hlc_wid_validate (str "20260212T091530.0000Z-node$") 4 0 = false.
Proof. vm_compute. repeat split. Qed.

Example test_parse :
  option_map sequence (wid_parse (str "20260212T091530.0042Z-a3f91c") 4 6) = Some 42 /\
  option_map padding (wid_parse (str "20260212T091530.0042Z-a3f91c") 4 6)
  = Some (str "a3f91c") /\
  option_map (fun p => millisecond (stamp p))
    (wid_parse_ex (str "20260212T091530123.0042Z") 4 0 WID_TIME_MS) = Some 123 /\
  wid_parse (str "waldiez") 4 0 = None /\
  option_map pnode (hlc_wid_parse (str "20260212T091530.0042Z-node01-a3f91c") 4 6)
  = Some (str "node01") /\
  option_map logical_counter
    (hlc_wid_parse (str "20260212T091530.0042Z-node01-a3f91c") 4 6) = Some 42 /\
  hlc_wid_parse (str "20260212T091530.0000Z-node-01") 4 0 = None.
Proof. vm_compute. repeat split. Qed.

Example test_low_level_helpers :
  wid_valid_node (str "node01") = true /\
  wid_valid_node (str "my_node") = true /\
  wid_valid_node [] = false /\
  wid_valid_node (str "bad node") = false /\
  wid_valid_node (str "bad-node") = false /\
  wid_valid_node (str "node$") = false /\
  wid_valid_suffix [] 6 = true /\
  wid_valid_suffix (str "-a3f91c") 6 = true /\
  wid_valid_suffix (str "-ABCDEF") 6 = false /\
  wid_valid_suffix (str "-abc") 6 = false /\
  wid_valid_suffix (str "a3f91c") 6 = false /\
  wid_valid_suffix (str "-a3f91c") 0 = false.
Proof. vm_compute. repeat split. Qed.

(** Twelve calls within second 1770887730 of a generator with [W = 1],
    [Z = 0]: the first and the twelfth identifier. *)
Example burst_first_and_twelfth :
  let g0 := wid_gen_init_ex 1 0 WID_TIME_SEC in
  option_map snd (wid_gen_next g0 1770887730 (fun _ => 0) WID_MAX_LEN)
  = Some (str "20260212T091530.0Z") /\
  (gs <- wid_gen_states g0 (repeat 1770887730 11) ;;
   option_map snd (wid_gen_next (nth 10 gs g0) 1770887730 (fun _ => 0) WID_MAX_LEN))
  = Some (str "20260212T091531.1Z").
Proof. vm_compute. split; reflexivity. Qed.

(** The calendar of [gmtime_r] on known instants. *)
Example gmtime_r_samples :
  wid_fmt_tick WID_TIME_SEC 0 = Some (str "19700101T000000") /\
  wid_fmt_tick WID_TIME_SEC 951782400 = Some (str "20000229T000000") /\
  wid_fmt_tick WID_TIME_SEC 4107542399 = Some (str "21000228T235959") /\
  wid_fmt_tick WID_TIME_MS 1770887730123 = Some (str "20260212T091530123") /\
  wid_fmt_tick WID_TIME_SEC 253402300799 = Some (str "99991231T235959").
Proof. vm_compute. repeat split. Qed.

(** * Further properties *)

(** ** The validators and the grammar *)

(** X1. [wid_validate_ex] decides the WID grammar: a string no longer than
    [INT_MAX] is accepted exactly when the parameters are in range and the
    string is a time stamp of a valid date, a dot, [W] decimal digits, the
    letter Z and then nothing or a dash with exactly [Z] lowercase
    hexadecimal digits. *)
Theorem wid_validate_ex_decides (s : cstring) (w z : Z) (u : wid_time_unit_t) :
  strlen s <= INT_MAX ->
  (wid_validate_ex s w z u = true <-> params_ok w z /\ wid_text w z u s).
Proof.
  intros Hlen. split.
  - apply wid_validate_ex_sound; assumption.
  - intros [Hp Ht]. apply wid_validate_ex_complete; assumption.
Qed.

Lemma wid_validate_ex_decides_witness :
  params_ok 4 6 /\ wid_text 4 6 WID_TIME_SEC (str "20260212T091530.0042Z-a3f91c").
Proof.
  apply (wid_validate_ex_decides (str "20260212T091530.0042Z-a3f91c") 4 6 WID_TIME_SEC).
  - vm_compute. discriminate.
  - vm_compute. reflexivity.
Defined.

(** X2. [hlc_wid_validate_ex] decides the HLC-WID grammar: time stamp, dot,
    [W] digits, [Z-], a non-empty node over [[A-Za-z0-9_]], then nothing or
    a dash with exactly [Z] lowercase hexadecimal digits. *)
Theorem hlc_wid_validate_ex_decides (s : cstring) (w z : Z) (u : wid_time_unit_t) :
  strlen s <= INT_MAX ->
  (hlc_wid_validate_ex s w z u = true <-> params_ok w z /\ hlc_text w z u s).
Proof.
  intros Hlen. split.
  - apply hlc_wid_validate_ex_sound; assumption.
  - intros [Hp Ht]. apply hlc_wid_validate_ex_complete; assumption.
Qed.

Lemma hlc_wid_validate_ex_decides_witness :
  params_ok 4 6 /\
  hlc_text 4 6 WID_TIME_MS (str "20260212T091530123.0042Z-my_node-a3f91c").
Proof.
  apply (hlc_wid_validate_ex_decides (str "20260212T091530123.0042Z-my_node-a3f91c")
           4 6 WID_TIME_MS).
  - vm_compute. discriminate.
  - vm_compute. reflexivity.
Defined.

Lemma wid_validate_ex_prefix (s : cstring) (w z : Z) (u : wid_time_unit_t) :
  wid_validate_ex s w z u = true -> prefix_checks s w u.
Proof.
  unfold wid_validate_ex. intros H.
  destruct ((w <=? 0) || (z <? 0)) eqn:G1; [discriminate |].
  destruct ((WID_MAX_W <? w) || (WID_MAX_Z <? z)) eqn:G2; [discriminate |].
  cbv zeta in H.
  destruct (_ <? _) in H; [discriminate |].
  apply if_negb_some_bool in H as [H1 H].
  apply if_negb_some_bool in H as [H2 H].
  apply if_negb_some_bool in H as [H3 _].
  apply orb_false_iff in G1 as [G1 _]. apply Z.leb_gt in G1.
  apply Ascii.eqb_eq in H2.
  unfold prefix_checks. repeat split; try assumption. lia.
Qed.

Lemma hlc_wid_validate_ex_prefix (s : cstring) (w z : Z) (u : wid_time_unit_t) :
  hlc_wid_validate_ex s w z u = true -> prefix_checks s w u.
Proof.
  unfold hlc_wid_validate_ex. intros H.
  destruct ((w <=? 0) || (z <? 0)) eqn:G1; [discriminate |].
  destruct ((WID_MAX_W <? w) || (WID_MAX_Z <? z)) eqn:G2; [discriminate |].
  cbv zeta in H.
  destruct (_ <? _) in H; [discriminate |].
  apply if_negb_some_bool in H as [H1 H].
  apply if_negb_some_bool in H as [H2 H].
  apply if_negb_some_bool in H as [_ H].
  apply if_negb_some_bool in H as [H3 _].
  apply orb_false_iff in G1 as [G1 _]. apply Z.leb_gt in G1.
  apply Ascii.eqb_eq in H2.
  unfold prefix_checks. repeat split; try assumption. lia.
Qed.

Lemma wid_parse_timestamp_mark (s : cstring) (u : wid_time_unit_t) :
  is_some (wid_parse_timestamp s u) = true ->
  char_at s (wid_timestamp_len u) = "."%char /\
  (is_ms u = true -> wid_is_digit (char_at s 15) = true).
Proof.
  intros H. apply is_some_true in H as [ts H].
  unfold wid_parse_timestamp in H. cbv zeta in H.
  apply if_negb_some in H as [_ H].
  apply if_negb_some in H as [_ H].
  apply if_negb_some in H as [_ H].
  apply if_negb_some in H as [_ H].
  destruct (is_ms u) eqn:E.
  - destruct (all_between 15 18 _) eqn:A; [| discriminate H]. simpl negb in H. cbv iota in H.
    destruct (_ || _) in H; [discriminate H |]. cbn [bind] in H.
    apply if_negb_some in H as [H _]. apply Ascii.eqb_eq in H. split; [exact H |].
    intros _. rewrite all_between_spec in A. apply A. lia.
  - cbn [bind] in H. apply if_negb_some in H as [H _]. apply Ascii.eqb_eq in H.
    split; [exact H | discriminate].
Qed.

Lemma prefix_checks_unique (s : cstring) (w w' : Z) (u u' : wid_time_unit_t) :
  prefix_checks s w u -> prefix_checks s w' u' -> u = u' /\ w = w'.
Proof.
  intros (Hw & Ht & HZ & Hd) (Hw' & Ht' & HZ' & Hd').
  destruct (wid_parse_timestamp_mark s u Ht) as [Hdot Hms].
  destruct (wid_parse_timestamp_mark s u' Ht') as [Hdot' Hms'].
  assert (Hu : u = u').
  { destruct u, u'; try reflexivity; exfalso.
    - specialize (Hms' eq_refl). change (wid_timestamp_len WID_TIME_SEC) with 15 in Hdot.
      rewrite Hdot in Hms'. discriminate Hms'.
    - specialize (Hms eq_refl). change (wid_timestamp_len WID_TIME_SEC) with 15 in Hdot'.
      rewrite Hdot' in Hms. discriminate Hms. }
  subst u'. split; [reflexivity |].
  rewrite all_between_spec in Hd, Hd'.
  destruct (Z.lt_trichotomy w w') as [L | [E | L]]; [exfalso | exact E | exfalso].
  - specialize (Hd' (wid_timestamp_len u + 1 + w) ltac:(lia)). cbv beta in Hd'.
    rewrite HZ in Hd'. discriminate Hd'.
  - specialize (Hd (wid_timestamp_len u + 1 + w') ltac:(lia)). cbv beta in Hd.
    rewrite HZ' in Hd. discriminate Hd.
Qed.

(** X5. A string fixes the parameters it can be read with: whichever of the
    two validators accept it, with whatever [Z], they agree on the time unit
    and on the width [W] of the counter. *)
Theorem accepted_parameters_unique (s : cstring) (w z w' z' : Z) (u u' : wid_time_unit_t) :
  wid_validate_ex s w z u = true \/ hlc_wid_validate_ex s w z u = true ->
  wid_validate_ex s w' z' u' = true \/ hlc_wid_validate_ex s w' z' u' = true ->
  u = u' /\ w = w'.
Proof.
  intros H H'. apply (prefix_checks_unique s).
  - destruct H as [H | H];
      [apply (wid_validate_ex_prefix s w z) | apply (hlc_wid_validate_ex_prefix s w z)];
      exact H.
  - destruct H' as [H' | H'];
      [apply (wid_validate_ex_prefix s w' z') | apply (hlc_wid_validate_ex_prefix s w' z')];
      exact H'.
Qed.

Lemma accepted_parameters_unique_witness :
  WID_TIME_SEC = WID_TIME_SEC /\ 4 = 4.
Proof.
  apply (accepted_parameters_unique (str "20260212T091530.0042Z-a3f91c") 4 6 4 0).
  - left. vm_compute. reflexivity.
  - right. vm_compute. reflexivity.
Defined.

(** ** What the parsers return *)

Lemma strlen_advance (s : cstring) (k : Z) :
  0 <= k -> strlen (advance s k) = Z.max 0 (strlen s - k).
Proof.
  intros Hk. unfold strlen, advance. rewrite length_skipn. lia.
Qed.

Lemma stamp_text_fields (u : wid_time_unit_t) (t : cstring) (ts : timestamp_t) :
  stamp_text u t ts ->
  0 <= year ts <= 9999 /\
  wid_valid_ymdhms (year ts) (month ts) (day ts) (hour ts) (minute ts) (second ts) = true /\
  (if is_ms u then 0 <= millisecond ts <= 999 else millisecond ts = 0).
Proof.
  intros H. destruct H as [Y Mo D H Mi Se Ms HY HMo HD HH HMi HSe HMs Hv].
  cbn [year month day hour minute second millisecond].
  destruct HY as [LY DY]. pose proof (digits_val_range Y DY) as RY.
  rewrite LY in RY. change (10 ^ 4) with 10000 in RY.
  destruct HMs as [LMs DMs]. pose proof (digits_val_range Ms DMs) as RMs.
  rewrite LMs in RMs. split; [lia |]. split; [exact Hv |].
  destruct (is_ms u).
  - change (10 ^ 3) with 1000 in RMs. lia.
  - change (10 ^ 0) with 1 in RMs. lia.
Qed.

(** A string the WID parser accepts is short: the parser bounds the padding
    by [WID_MAX_Z], so that the lengths the validator computed as [int] were
    exact. *)
Lemma wid_parse_ex_short (s : cstring) (w z : Z) (u : wid_time_unit_t)
      (p : parsed_wid_t) :
  wid_parse_ex s w z u = Some p -> strlen s <= INT_MAX.
Proof.
  intros H. destruct (Z_le_gt_dec (strlen s) INT_MAX) as [Hle | Hgt]; [exact Hle |].
  exfalso. unfold wid_parse_ex in H.
  destruct (wid_validate_ex s w z u) eqn:Hv; [| discriminate H].
  simpl negb in H. cbv iota in H.
  assert (Hp : params_ok w z).
  { unfold wid_validate_ex in Hv.
    destruct ((w <=? 0) || (z <? 0)) eqn:G1; [discriminate |].
    destruct ((WID_MAX_W <? w) || (WID_MAX_Z <? z)) eqn:G2; [discriminate |].
    apply guards_params; assumption. }
  destruct (wid_parse_timestamp s u); [| discriminate H]. cbn [bind] in H.
  destruct (wid_parse_digits_i64 _ w <? 0); [discriminate H |].
  pose proof (wid_timestamp_len_pos u) as HL.
  unfold params_ok, WID_MAX_W, WID_MAX_Z in Hp. unfold INT_MAX in Hgt.
  set (sfx := advance s (wid_timestamp_len u + 1 + w + 1)) in *.
  assert (Lsfx : strlen sfx = strlen s - (wid_timestamp_len u + 1 + w + 1)).
  { unfold sfx. rewrite strlen_advance by lia. lia. }
  destruct sfx as [|c pad] eqn:E.
  - rewrite strlen_nil in Lsfx. lia.
  - cbn [at_end negb] in H. change (advance (c :: pad) 1) with pad in H.
    rewrite strlen_cons in Lsfx.
    destruct (WID_MAX_Z <? strlen pad) eqn:G; [discriminate H |].
    apply Z.ltb_ge in G. unfold WID_MAX_Z in G. lia.
Qed.

Lemma hlc_wid_parse_ex_short (s : cstring) (w z : Z) (u : wid_time_unit_t)
      (p : parsed_hlc_wid_t) :
  hlc_wid_parse_ex s w z u = Some p -> strlen s <= INT_MAX.
Proof.
  intros H. destruct (Z_le_gt_dec (strlen s) INT_MAX) as [Hle | Hgt]; [exact Hle |].
  exfalso. unfold hlc_wid_parse_ex in H.
  destruct (hlc_wid_validate_ex s w z u) eqn:Hv; [| discriminate H].
  simpl negb in H. cbv iota in H.
  assert (Hp : params_ok w z).
  { unfold hlc_wid_validate_ex in Hv.
    destruct ((w <=? 0) || (z <? 0)) eqn:G1; [discriminate |].
    destruct ((WID_MAX_W <? w) || (WID_MAX_Z <? z)) eqn:G2; [discriminate |].
    apply guards_params; assumption. }
  destruct (wid_parse_timestamp s u); [| discriminate H]. cbn [bind] in H.
  destruct (wid_parse_digits_i64 _ w <? 0); [discriminate H |].
  pose proof (wid_timestamp_len_pos u) as HL.
  unfold params_ok, WID_MAX_W, WID_MAX_Z in Hp. unfold INT_MAX in Hgt.
  set (q := advance s (wid_timestamp_len u + 1 + w + 1 + 1)) in *.
  assert (Lq : strlen q = strlen s - (wid_timestamp_len u + 1 + w + 1 + 1)).
  { unfold q. rewrite strlen_advance by lia. lia. }
  pose proof (strchr_upto_dash q) as Hq. pose proof (strchr_node_len q) as Hn.
  destruct (strchr q "-") as [r|].
  - destruct Hq as [Eq [r' Er]]. rewrite Hn in H.
    destruct ((strlen (upto_dash q) =? 0) || (NODE_SIZE <=? strlen (upto_dash q))) eqn:G;
      [discriminate H |].
    apply orb_false_iff in G as [_ G]. apply Z.leb_gt in G. unfold NODE_SIZE in G.
    subst r. change (advance (str "-" ++ r') 1) with r' in H.
    destruct (WID_MAX_Z <? strlen r') eqn:G'; [discriminate H |].
    apply Z.ltb_ge in G'. unfold WID_MAX_Z in G'.
    rewrite Eq, !strlen_app in Lq. change (strlen (str "-")) with 1 in Lq. lia.
  - rewrite Hn, Hq in H.
    destruct ((strlen q =? 0) || (NODE_SIZE <=? strlen q)) eqn:G; [discriminate H |].
    apply orb_false_iff in G as [_ G]. apply Z.leb_gt in G. unfold NODE_SIZE in G. lia.
Qed.

(** X3. What a successful [wid_parse_ex] returns.  The parsed value keeps
    the string, its calendar fields form a valid date and time of day, the
    millisecond field is within 0..999 (and 0 in second mode), the sequence
    lies in [0, 10^W), a padding has exactly [Z] lowercase hexadecimal
    digits, the field [padding] is empty when there is none, and the string
    has exactly the length of its fields (hence fits [WID_MAX_LEN]). *)
Theorem wid_parse_ex_fields (s : cstring) (w z : Z) (u : wid_time_unit_t)
        (p : parsed_wid_t) :
  wid_parse_ex s w z u = Some p ->
  raw p = s /\ params_ok w z /\
  wid_valid_ymdhms (year (stamp p)) (month (stamp p)) (day (stamp p))
                   (hour (stamp p)) (minute (stamp p)) (second (stamp p)) = true /\
  (if is_ms u then 0 <= millisecond (stamp p) <= 999 else millisecond (stamp p) = 0) /\
  0 <= sequence p < 10 ^ w /\
  (if has_padding p then 0 < z /\ pad_text z (padding p) else padding p = []) /\
  strlen s = wid_timestamp_len u + 1 + w + 1 + (if has_padding p then 1 + z else 0) /\
  strlen s < WID_MAX_LEN.
Proof.
  intros H. pose proof (wid_parse_ex_short s w z u p H) as Hlen.
  assert (Hv : wid_validate_ex s w z u = true).
  { unfold wid_parse_ex in H. destruct (wid_validate_ex s w z u); [reflexivity | discriminate]. }
  destruct (wid_validate_ex_sound s w z u Hlen Hv) as [Hp _].
  destruct (wid_parse_ex_text s w z u Hlen Hv)
    as (t & ts & sq & sfx & Ht & Hsq & Hsfx & Es & Hparse).
  rewrite Hparse in H. inversion H; subst p; clear H.
  cbn [raw stamp sequence has_padding padding].
  destruct (stamp_text_fields u t ts Ht) as (_ & Hval & Hms).
  pose proof (stamp_text_length u t ts Ht) as Lt.
  pose proof (wid_timestamp_len_pos u) as HL.
  destruct Hsq as [Lsq Dsq]. pose proof (digits_val_range sq Dsq) as Rsq.
  rewrite Lsq in Rsq.
  assert (Ls : strlen s = wid_timestamp_len u + 1 + w + 1 + strlen sfx).
  { rewrite Es. autorewrite with lengths. change (strlen (str ".")) with 1.
    change (strlen (str "Z")) with 1. lia. }
  unfold params_ok, WID_MAX_W, WID_MAX_Z in Hp. unfold WID_MAX_LEN.
  destruct Hsfx as [-> | (Hz & pad & -> & Hpad)].
  - cbn [at_end negb]. rewrite strlen_nil in Ls.
    repeat split; try assumption; try reflexivity;
      try (unfold WID_MAX_W, WID_MAX_Z; lia).
  - change (str "-" ++ pad) with ("-"%char :: pad) in *. cbn [at_end negb].
    change (advance ("-"%char :: pad) 1) with pad.
    rewrite strlen_cons in Ls. destruct Hpad as [Lpad Dpad].
    repeat split; try assumption; try reflexivity;
      try (unfold WID_MAX_W, WID_MAX_Z; lia).
Qed.

Lemma wid_parse_ex_fields_witness :
  exists p, wid_parse_ex (str "20240229T235959123.007Z-0f") 3 2 WID_TIME_MS = Some p /\
            raw p = str "20240229T235959123.007Z-0f" /\
            0 <= sequence p < 10 ^ 3 /\
            strlen (str "20240229T235959123.007Z-0f") < WID_MAX_LEN.
Proof.
  eexists. split; [vm_compute; reflexivity |].
  match goal with
  | |- raw ?p = _ /\ _ =>
      pose proof (wid_parse_ex_fields (str "20240229T235959123.007Z-0f") 3 2 WID_TIME_MS p
                    ltac:(vm_compute; reflexivity)) as H
  end.
  destruct H as (H1 & _ & _ & _ & H2 & _ & _ & H3).
  split; [exact H1 |]. split; [exact H2 | exact H3].
Defined.

(** X4. What a successful [hlc_wid_parse_ex] returns: as for the WID parser,
    and the node is a non-empty word over [[A-Za-z0-9_]] of at most 63
    characters. *)
Theorem hlc_wid_parse_ex_fields (s : cstring) (w z : Z) (u : wid_time_unit_t)
        (p : parsed_hlc_wid_t) :
  hlc_wid_parse_ex s w z u = Some p ->
  hraw p = s /\ params_ok w z /\
  wid_valid_ymdhms (year (hstamp p)) (month (hstamp p)) (day (hstamp p))
                   (hour (hstamp p)) (minute (hstamp p)) (second (hstamp p)) = true /\
  (if is_ms u then 0 <= millisecond (hstamp p) <= 999 else millisecond (hstamp p) = 0) /\
  0 <= logical_counter p < 10 ^ w /\
  node_text (pnode p) /\ strlen (pnode p) < NODE_SIZE /\
  (if hhas_padding p then 0 < z /\ pad_text z (hpadding p) else hpadding p = []) /\
  strlen s = wid_timestamp_len u + 1 + w + 1 + 1 + strlen (pnode p)
             + (if hhas_padding p then 1 + z else 0) /\
  strlen s < WID_MAX_LEN.
Proof.
  intros H. pose proof (hlc_wid_parse_ex_short s w z u p H) as Hlen.
  assert (Hv : hlc_wid_validate_ex s w z u = true).
  { unfold hlc_wid_parse_ex in H.
    destruct (hlc_wid_validate_ex s w z u); [reflexivity | discriminate]. }
  destruct (hlc_wid_validate_ex_sound s w z u Hlen Hv) as [Hp _].
  destruct (hlc_wid_parse_ex_text s w z u Hlen Hv)
    as (t & ts & sq & nd & sfx & Ht & Hsq & Hnd & Hsfx & Es & _ & Hparse).
  rewrite Hparse in H.
  destruct (NODE_SIZE <=? strlen nd) eqn:G; [discriminate H |]. apply Z.leb_gt in G.
  inversion H; subst p; clear H.
  cbn [hraw hstamp logical_counter pnode hhas_padding hpadding].
  destruct (stamp_text_fields u t ts Ht) as (_ & Hval & Hms).
  pose proof (stamp_text_length u t ts Ht) as Lt.
  pose proof (wid_timestamp_len_pos u) as HL.
  destruct Hsq as [Lsq Dsq]. pose proof (digits_val_range sq Dsq) as Rsq.
  rewrite Lsq in Rsq.
  assert (Ls : strlen s = wid_timestamp_len u + 1 + w + 1 + 1 + strlen nd + strlen sfx).
  { rewrite Es. autorewrite with lengths. change (strlen (str ".")) with 1.
    change (strlen (str "Z-")) with 2. lia. }
  unfold params_ok, WID_MAX_W, WID_MAX_Z in Hp. unfold WID_MAX_LEN.
  unfold NODE_SIZE in *.
  destruct Hsfx as [-> | (Hz & pad & -> & Hpad)].
  - cbn [at_end negb]. rewrite strlen_nil in Ls.
    repeat split; try assumption; try reflexivity; try apply Hnd;
      try (unfold WID_MAX_W, WID_MAX_Z; lia).
  - change (str "-" ++ pad) with ("-"%char :: pad) in *. cbn [at_end negb].
    change (advance ("-"%char :: pad) 1) with pad.
    rewrite strlen_cons in Ls. destruct Hpad as [Lpad Dpad].
    repeat split; try assumption; try reflexivity; try apply Hnd;
      try (unfold WID_MAX_W, WID_MAX_Z; lia).
Qed.

Lemma hlc_wid_parse_ex_fields_witness :
  exists p, hlc_wid_parse_ex (str "20260212T091530.0042Z-my_node-a3f91c") 4 6
              WID_TIME_SEC = Some p /\
            node_text (pnode p) /\ strlen (pnode p) < NODE_SIZE /\
            0 <= logical_counter p < 10 ^ 4.
Proof.
  eexists. split; [vm_compute; reflexivity |].
  match goal with
  | |- node_text (pnode ?p) /\ _ =>
      pose proof (hlc_wid_parse_ex_fields (str "20260212T091530.0042Z-my_node-a3f91c")
                    4 6 WID_TIME_SEC p ltac:(vm_compute; reflexivity)) as H
  end.
  destruct H as (_ & _ & _ & _ & H1 & H2 & H3 & _).
  split; [exact H2 |]. split; [exact H3 | exact H1].
Defined.

Lemma lower_hex_is_node_char (c : ascii) :
  wid_is_lower_hex c = true -> wid_is_node_char c = true.
Proof.
  destruct c as [[] [] [] [] [] [] [] []]; intros H; try discriminate H; reflexivity.
Qed.

(** X6. The two validators overlap: a WID that carries a padding is also
    accepted by [hlc_wid_validate_ex], for every permitted [Z], with its
    padding read as the node; a WID without padding is never accepted as
    an HLC-WID. *)
Theorem wid_also_hlc (s : cstring) (w z z' : Z) (u : wid_time_unit_t) :
  strlen s <= INT_MAX -> 0 <= z' <= WID_MAX_Z ->
  wid_validate_ex s w z u = true ->
  hlc_wid_validate_ex s w z' u
  = negb (at_end (advance s (wid_timestamp_len u + 1 + w + 1))).
Proof.
  intros Hlen Hz' Hv.
  destruct (wid_validate_ex_sound s w z u Hlen Hv) as [Hp Ht].
  destruct Ht as [t ts sq sfx Hts Hsq Hsfx].
  destruct (prefix_complete _ t sq sfx w u ts Hts Hsq eq_refl)
    as (_ & _ & _ & _ & Hadv & Hl).
  rewrite Hadv.
  pose proof (wid_timestamp_len_pos u) as HL.
  assert (Hp' : params_ok w z') by (unfold params_ok in *; lia).
  destruct Hsfx as [-> | (Hz & pad & -> & Lpad & Dpad)].
  - cbn [at_end negb]. rewrite strlen_nil in Hl.
    unfold hlc_wid_validate_ex.
    destruct (params_guards w z' Hp') as [-> ->]. cbv zeta.
    rewrite cast_int_small by (unfold INT_MIN; pose proof (strlen_nonneg
      (t ++ str "." ++ sq ++ str "Z" ++ [])); lia).
    destruct (_ <? _) eqn:E; [reflexivity |]. apply Z.ltb_ge in E. lia.
  - change (str "-" ++ pad) with ("-"%char :: pad) at 2. cbn [at_end negb].
    apply hlc_wid_validate_ex_complete; [exact Hlen | exact Hp' |].
    replace (t ++ str "." ++ sq ++ str "Z" ++ str "-" ++ pad)
      with (t ++ str "." ++ sq ++ str "Z-" ++ pad ++ []).
    + apply (hlc_text_intro w z' u t ts sq pad []); try assumption.
      * split.
        -- intros ->. rewrite strlen_nil in Lpad. lia.
        -- apply forallb_forall. intros c Hc. apply lower_hex_is_node_char.
           rewrite forallb_forall in Dpad. apply Dpad. exact Hc.
      * left. reflexivity.
    + rewrite app_nil_r. reflexivity.
Qed.

Lemma wid_also_hlc_witness :
  hlc_wid_validate_ex (str "20260212T091530.0042Z-a3f91c") 4 0 WID_TIME_SEC = true.
Proof.
  apply (wid_also_hlc (str "20260212T091530.0042Z-a3f91c") 4 6 0 WID_TIME_SEC).
  - vm_compute. discriminate.
  - vm_compute. split; discriminate.
  - vm_compute. reflexivity.
Defined.

(** ** Numbers *)

Lemma pow10_loop_saturates (cnt : nat) (v : Z) :
  INT64_MAX / 10 < v -> pow10_loop (S cnt) v = INT64_MAX.
Proof.
  intros H. cbn [pow10_loop]. apply Z.ltb_lt in H. rewrite H. reflexivity.
Qed.

Lemma pow10_loop_step (cnt : nat) (v : Z) :
  v <= INT64_MAX / 10 -> pow10_loop (S cnt) v = pow10_loop cnt (v * 10).
Proof.
  intros H. cbn [pow10_loop]. apply Z.ltb_ge in H. rewrite H. reflexivity.
Qed.

(** X7. [wid_pow10_i64] is 1 for [n <= 0], the exact power [10^n] up to
    [n = 18], and saturates at [INT64_MAX] from [n = 19] on. *)
Theorem wid_pow10_i64_values (n : Z) :
  wid_pow10_i64 n
  = if n <=? 0 then 1 else if n <=? 18 then 10 ^ n else INT64_MAX.
Proof.
  destruct (n <=? 0) eqn:E0.
  - apply Z.leb_le in E0. unfold wid_pow10_i64.
    replace (Z.to_nat n) with 0%nat by lia. reflexivity.
  - apply Z.leb_gt in E0. destruct (n <=? 18) eqn:E1.
    + apply Z.leb_le in E1. apply wid_pow10_i64_exact. lia.
    + apply Z.leb_gt in E1. unfold wid_pow10_i64.
      replace (Z.to_nat n) with (18 + S (Z.to_nat (n - 19)))%nat by lia.
      generalize (Z.to_nat (n - 19)). intros k.
      cbn [Nat.add].
      do 18 (rewrite pow10_loop_step by (vm_compute; discriminate)).
      apply pow10_loop_saturates. vm_compute. reflexivity.
Qed.

Lemma parse_digits_loop_fails (s : cstring) (cnt : nat) :
  forall i v j,
    0 <= i -> i <= j < i + Z.of_nat cnt -> wid_is_digit (char_at s j) = false ->
    parse_digits_loop s i cnt v = -1.
Proof.
  induction cnt as [|cnt IH]; intros i v j Hi Hj Hc; [lia |].
  cbn [parse_digits_loop].
  destruct (wid_is_digit (char_at s i)) eqn:E; [| reflexivity].
  cbn [negb]. apply (IH (i + 1) _ j); [lia | | exact Hc].
  assert (i <> j) by (intros ->; congruence). lia.
Qed.

(** X8. [wid_parse_digits_i64] on a field of at most 18 characters: the
    result is -1 exactly when one of the first [n] characters is not a
    decimal digit (the terminator is none, so the string is never read past
    its end), and otherwise the decimal value of these characters, which
    lies in [0, 10^n). *)
Theorem wid_parse_digits_i64_value (s : cstring) (n : Z) :
  0 <= n <= 18 ->
  (wid_parse_digits_i64 s n = -1 <->
   exists i, 0 <= i < n /\ wid_is_digit (char_at s i) = false) /\
  (all_between 0 n (fun i => wid_is_digit (char_at s i)) = true ->
   wid_parse_digits_i64 s n = digits_val (copy_str s n) /\
   strlen (copy_str s n) = n /\
   0 <= wid_parse_digits_i64 s n < 10 ^ n).
Proof.
  intros Hn.
  assert (Hall : all_between 0 n (fun i => wid_is_digit (char_at s i)) = true ->
                 wid_parse_digits_i64 s n = digits_val (copy_str s n) /\
                 strlen (copy_str s n) = n /\
                 0 <= wid_parse_digits_i64 s n < 10 ^ n).
  { intros A.
    destruct (all_between_prefix wid_is_digit s n eq_refl ltac:(lia) A)
      as (l & rest & -> & Ll & Dl).
    rewrite <- Ll at 2 3. rewrite copy_str_app.
    rewrite (wid_parse_digits_i64_digits l rest n) by (split; assumption).
    pose proof (digits_val_range l Dl) as R. rewrite Ll in R.
    repeat split; try assumption; lia. }
  split; [| exact Hall]. split.
  - intros H.
    destruct (all_between 0 n (fun i => wid_is_digit (char_at s i))) eqn:A.
    + destruct (Hall eq_refl) as (_ & _ & R). lia.
    + destruct (Z_le_gt_dec n 0) as [Hz | Hz].
      { unfold all_between in A. replace (Z.to_nat (n - 0)) with 0%nat in A by lia.
        discriminate A. }
      assert (Hex : ~ forall i, 0 <= i < n -> wid_is_digit (char_at s i) = true).
      { intros F. apply all_between_spec in F. congruence. }
      clear A H Hall. revert Hex.
      rewrite <- (Z2Nat.id n) by lia. generalize (Z.to_nat n). intros k.
      induction k as [|k IH]; intros Hex.
      * exfalso. apply Hex. intros i Hi. lia.
      * destruct (wid_is_digit (char_at s (Z.of_nat k))) eqn:E.
        -- destruct IH as (i & Hi & Hc).
           { intros F. apply Hex. intros i Hi.
             destruct (Z.eq_dec i (Z.of_nat k)) as [-> | Hne]; [exact E |].
             apply F. lia. }
           exists i. split; [lia | exact Hc].
        -- exists (Z.of_nat k). split; [lia | exact E].
  - intros (i & Hi & Hc). unfold wid_parse_digits_i64.
    apply (parse_digits_loop_fails s _ 0 0 i); [lia | lia | exact Hc].
Qed.

Lemma wid_parse_digits_i64_value_witness :
  (wid_parse_digits_i64 (str "12x4") 4 = -1 <->
   exists i, 0 <= i < 4 /\ wid_is_digit (char_at (str "12x4") i) = false) /\
  (all_between 0 4 (fun i => wid_is_digit (char_at (str "12x4") i)) = true ->
   wid_parse_digits_i64 (str "12x4") 4 = digits_val (copy_str (str "12x4") 4) /\
   strlen (copy_str (str "12x4") 4) = 4 /\
   0 <= wid_parse_digits_i64 (str "12x4") 4 < 10 ^ 4).
Proof.
  apply (wid_parse_digits_i64_value (str "12x4") 4). lia.
Defined.

(** X9. [wid_random_hex] with [len] from 0 to the size of its array writes
    exactly [len] characters, the [i]-th being the lowercase hexadecimal
    digit of the low four bits of the [i]-th random byte. *)
Theorem wid_random_hex_digits (rnd : Z -> Z) (len : Z) :
  0 <= len <= RAW_SIZE ->
  exists pad,
    wid_random_hex rnd len = Some pad /\ pad_text len pad /\
    forall i, 0 <= i < len -> char_at pad i = char_at hex (rnd i mod 16).
Proof.
  intros H. destruct (wid_random_hex_defined rnd len ltac:(lia)) as [pad Hpad].
  exists pad. split; [exact Hpad |].
  destruct (wid_random_hex_text rnd len pad ltac:(lia) Hpad) as [_ Ht].
  split; [exact Ht |].
  intros i Hi. unfold wid_random_hex in Hpad.
  destruct (RAW_SIZE <? len); [discriminate |]. inversion Hpad; subst pad; clear Hpad.
  unfold char_at at 1. destruct (i <? 0) eqn:E; [apply Z.ltb_lt in E; lia |].
  rewrite (nth_indep _ NUL (char_at hex (Z.land (rnd (Z.of_nat 0)) 15)))
    by (rewrite length_map, length_seq; lia).
  rewrite (map_nth (fun i => char_at hex (Z.land (rnd (Z.of_nat i)) 15))).
  rewrite seq_nth by lia. cbn [Nat.add]. rewrite Z2Nat.id by lia.
  f_equal. change 15 with (Z.ones 4). rewrite Z.land_ones by lia. reflexivity.
Qed.

Lemma wid_random_hex_digits_witness :
  exists pad,
    wid_random_hex (fun i => 16 * i + 10) 6 = Some pad /\ pad_text 6 pad /\
    forall i, 0 <= i < 6 -> char_at pad i = char_at hex ((16 * i + 10) mod 16).
Proof.
  apply (wid_random_hex_digits (fun i => 16 * i + 10) 6). vm_compute.
  split; discriminate.
Defined.

(** ** The calendar grows with the clock *)

Lemma split_year_lower (fuel : nat) :
  forall y d, y <= fst (split_year fuel y d).
Proof.
  induction fuel as [|fuel IH]; intros y d; cbn [split_year]; [cbn; lia |].
  destruct (d <? year_days y); [cbn; lia |].
  specialize (IH (y + 1) (d - year_days y)). lia.
Qed.

Lemma split_year_upper (fuel : nat) :
  forall y d, 0 <= d < days_in_years fuel y ->
    fst (split_year fuel y d) < y + Z.of_nat fuel.
Proof.
  induction fuel as [|fuel IH]; intros y d H; cbn [days_in_years] in H; [lia |].
  cbn [split_year]. destruct (d <? year_days y) eqn:E; [cbn; lia |].
  apply Z.ltb_ge in E.
  specialize (IH (y + 1) (d - year_days y) ltac:(lia)). lia.
Qed.

Lemma split_year_mono (fuel : nat) :
  forall y d1 d2, 0 <= d1 <= d2 ->
    let r1 := split_year fuel y d1 in
    let r2 := split_year fuel y d2 in
    fst r1 < fst r2 \/ (fst r1 = fst r2 /\ snd r2 - snd r1 = d2 - d1).
Proof.
  induction fuel as [|fuel IH]; intros y d1 d2 H; cbn [split_year]; cbv zeta.
  - right. cbn. lia.
  - destruct (d1 <? year_days y) eqn:E1; destruct (d2 <? year_days y) eqn:E2;
      tests_to_props.
    + right. cbn. lia.
    + left. pose proof (split_year_lower fuel (y + 1) (d2 - year_days y)). cbn [fst]. lia.
    + lia.
    + pose proof (IH (y + 1) (d1 - year_days y) (d2 - year_days y) ltac:(lia)) as M.
      cbv zeta in M. lia.
Qed.

Lemma split_month_lower (lens : list Z) :
  forall m d, m <= fst (split_month lens m d).
Proof.
  induction lens as [|len lens IH]; intros m d; cbn [split_month]; [cbn; lia |].
  destruct (d <? len); [cbn; lia |].
  specialize (IH (m + 1) (d - len)). lia.
Qed.

Lemma split_month_mono (lens : list Z) :
  forall m d1 d2, 0 <= d1 <= d2 ->
    let r1 := split_month lens m d1 in
    let r2 := split_month lens m d2 in
    fst r1 < fst r2 \/ (fst r1 = fst r2 /\ snd r2 - snd r1 = d2 - d1).
Proof.
  induction lens as [|len lens IH]; intros m d1 d2 H; cbn [split_month]; cbv zeta.
  - right. cbn. lia.
  - destruct (d1 <? len) eqn:E1; destruct (d2 <? len) eqn:E2; tests_to_props.
    + right. cbn. lia.
    + left. pose proof (split_month_lower lens (m + 1) (d2 - len)). cbn [fst]. lia.
    + lia.
    + pose proof (IH (m + 1) (d1 - len) (d2 - len) ltac:(lia)) as M.
      cbv zeta in M. lia.
Qed.

(** The fields [gmtime_r] computes, spelled out. *)
Lemma gmtime_r_fields (t : Z) (b : tm) :
  gmtime_r t = Some b ->
  exists y doy m d,
    split_year 400 (1970 + 400 * (t / 86400 / 146097)) (t / 86400 mod 146097) = (y, doy) /\
    split_month (month_days y) 0 doy = (m, d) /\
    0 <= doy < year_days y /\ 0 <= m <= 11 /\ 0 <= d <= 30 /\
    1970 + 400 * (t / 86400 / 146097) <= y < 1970 + 400 * (t / 86400 / 146097) + 400 /\
    b = mk_tm (t mod 86400 mod 60) (t mod 86400 / 60 mod 60) (t mod 86400 / 3600)
              (d + 1) m (y - 1900).
Proof.
  unfold gmtime_r. cbv zeta. intros H.
  set (base := 1970 + 400 * (t / 86400 / 146097)) in *.
  set (doe := t / 86400 mod 146097) in *.
  assert (Hdoe : 0 <= doe < days_in_years 400 base).
  { unfold base. rewrite days_in_400_years. apply Z.mod_pos_bound. lia. }
  pose proof (split_year_spec 400 base doe Hdoe) as Hdoy.
  pose proof (split_year_lower 400 base doe) as Hlo.
  pose proof (split_year_upper 400 base doe Hdoe) as Hup.
  destruct (split_year 400 base doe) as [y doy] eqn:Ey. cbn [fst snd] in *.
  pose proof (split_month_spec (month_days y) 0 doy ltac:(lia)) as Hm.
  rewrite sum_month_days in Hm. specialize (Hm Hdoy). cbv zeta in Hm.
  destruct (split_month (month_days y) 0 doy) as [m d] eqn:Em. cbn [fst snd] in *.
  destruct (fits_int (y - 1900)); [| discriminate H].
  inversion H; subst b; clear H.
  exists y, doy, m, d. change (Z.of_nat 400) with 400 in Hup.
  change (Z.of_nat (length (month_days y))) with 12 in Hm.
  destruct Hm as [Hm1 Hm2]. rewrite Z.sub_0_r in Hm2.
  assert (Hd : nth (Z.to_nat m) (month_days y) 0 <= 31).
  { assert (Hk : (Z.to_nat m <= 11)%nat) by lia. revert Hk.
    generalize (Z.to_nat m). intros k Hk. unfold month_days.
    do 12 (destruct k as [|k]; [cbn [nth]; try destruct (gregorian_leap y); lia |]). lia. }
  repeat split; try reflexivity; try assumption; try lia.
Qed.

Lemma day_secs_mono (s1 s2 : Z) :
  0 <= s1 < s2 -> s2 < 86400 ->
  ((s1 / 3600 * 100 + s1 / 60 mod 60) * 100 + s1 mod 60)
  < ((s2 / 3600 * 100 + s2 / 60 mod 60) * 100 + s2 mod 60).
Proof.
  intros H1 H2.
  change 3600 with (60 * 60).
  rewrite <- (Z.div_div s1 60 60), <- (Z.div_div s2 60 60) by lia.
  pose proof (Z.div_mod s1 60 ltac:(lia)). pose proof (Z.div_mod s2 60 ltac:(lia)).
  pose proof (Z.div_mod (s1 / 60) 60 ltac:(lia)).
  pose proof (Z.div_mod (s2 / 60) 60 ltac:(lia)).
  pose proof (Z.mod_pos_bound s1 60 ltac:(lia)).
  pose proof (Z.mod_pos_bound s2 60 ltac:(lia)).
  pose proof (Z.mod_pos_bound (s1 / 60) 60 ltac:(lia)).
  pose proof (Z.mod_pos_bound (s2 / 60) 60 ltac:(lia)).
  lia.
Qed.

(** A later second has a later calendar date and time: the broken-down
    time of [gmtime_r] grows with its argument. *)
Lemma gmtime_r_mono (t1 t2 : Z) (b1 b2 : tm) (m1 m2 : Z) :
  gmtime_r t1 = Some b1 -> gmtime_r t2 = Some b2 ->
  0 <= m1 <= 999 -> 0 <= m2 <= 999 ->
  t1 < t2 \/ (t1 = t2 /\ m1 < m2) ->
  stamp_lt (tm_stamp b1 m1) (tm_stamp b2 m2).
Proof.
  intros H1 H2 Hm1 Hm2 Hlt.
  destruct Hlt as [Hlt | [-> Hlt]].
  2:{ rewrite H1 in H2. inversion H2; subst b2. right. split; [reflexivity |].
      unfold time_num. cbn [tm_stamp hour minute second millisecond]. lia. }
  destruct (gmtime_r_fields t1 b1 H1) as (y1 & doy1 & mo1 & d1 & Ey1 & Em1 & Hdoy1 & Hmo1 & Hd1 & Hy1 & ->).
  destruct (gmtime_r_fields t2 b2 H2) as (y2 & doy2 & mo2 & d2 & Ey2 & Em2 & Hdoy2 & Hmo2 & Hd2 & Hy2 & ->).
  unfold stamp_lt, date_num, time_num.
  cbn [tm_stamp year month day hour minute second millisecond
       tm_year tm_mon tm_mday tm_hour tm_min tm_sec].
  replace (y1 - 1900 + 1900) with y1 by lia. replace (y2 - 1900 + 1900) with y2 by lia.
  pose proof (Z.div_mod t1 86400 ltac:(lia)) as Q1.
  pose proof (Z.div_mod t2 86400 ltac:(lia)) as Q2.
  pose proof (Z.mod_pos_bound t1 86400 ltac:(lia)) as R1.
  pose proof (Z.mod_pos_bound t2 86400 ltac:(lia)) as R2.
  set (D1 := t1 / 86400) in *. set (D2 := t2 / 86400) in *.
  set (s1 := t1 mod 86400) in *. set (s2 := t2 mod 86400) in *.
  assert (HD : D1 < D2 \/ (D1 = D2 /\ s1 < s2)) by lia.
  destruct HD as [HD | [HD Hs]].
  - left.
    pose proof (Z.div_mod D1 146097 ltac:(lia)) as E1.
    pose proof (Z.div_mod D2 146097 ltac:(lia)) as E2.
    pose proof (Z.mod_pos_bound D1 146097 ltac:(lia)) as F1.
    pose proof (Z.mod_pos_bound D2 146097 ltac:(lia)) as F2.
    set (e1 := D1 / 146097) in *. set (e2 := D2 / 146097) in *.
    set (o1 := D1 mod 146097) in *. set (o2 := D2 mod 146097) in *.
    assert (He : e1 < e2 \/ (e1 = e2 /\ o1 < o2)) by lia.
    destruct He as [He | [He Ho]]; [lia |].
    rewrite <- He in Ey2.
    pose proof (split_year_mono 400 (1970 + 400 * e1) o1 o2 ltac:(lia)) as My.
    cbv zeta in My. rewrite Ey1, Ey2 in My. cbn [fst snd] in My.
    destruct My as [My | [My Mdoy]]; [lia |]. subst y2.
    pose proof (split_month_mono (month_days y1) 0 doy1 doy2 ltac:(lia)) as Mm.
    cbv zeta in Mm. rewrite Em1, Em2 in Mm. cbn [fst snd] in Mm.
    destruct Mm as [Mm | [Mm Md]]; lia.
  - assert (Ey : (y1, doy1) = (y2, doy2)) by (rewrite <- Ey1, <- Ey2, HD; reflexivity).
    inversion Ey; subst y2 doy2.
    assert (Em : (mo1, d1) = (mo2, d2)) by (rewrite <- Em1, <- Em2; reflexivity).
    inversion Em; subst mo2 d2.
    right. split; [reflexivity |].
    pose proof (day_secs_mono s1 s2 ltac:(lia) ltac:(lia)). lia.
Qed.

(** ** String order of fixed-width fields *)

Lemma strcmp_app_same (x r r' : cstring) :
  strcmp (x ++ r) (x ++ r') = strcmp r r'.
Proof.
  induction x as [|c x IH]; [reflexivity |].
  cbn [app strcmp]. rewrite Ascii.eqb_refl. exact IH.
Qed.

Lemma strcmp_refl (x : cstring) : strcmp x x = 0.
Proof.
  rewrite <- (app_nil_r x). rewrite strcmp_app_same. reflexivity.
Qed.

Lemma digits_val_app (x y : cstring) :
  digits_val (x ++ y) = digits_val x * 10 ^ strlen y + digits_val y.
Proof.
  unfold digits_val. rewrite fold_left_app. apply fold_digits_acc.
Qed.

Lemma digits_val_cons (c : ascii) (x : cstring) :
  digits_val (c :: x) = (code c - code "0") * 10 ^ strlen x + digits_val x.
Proof.
  change (c :: x) with ([c] ++ x). rewrite digits_val_app.
  unfold digits_val at 1. cbn [fold_left]. unfold digit_step. lia.
Qed.

(** Two fields of the same number of digits compare as their values. *)
Lemma digits_strcmp (x : cstring) :
  forall y r r',
    strlen x = strlen y ->
    forallb wid_is_digit x = true -> forallb wid_is_digit y = true ->
    digits_val x < digits_val y ->
    strcmp (x ++ r) (y ++ r') < 0.
Proof.
  induction x as [|c x IH]; intros y r r' Hl Hx Hy Hv.
  - destruct y; [unfold digits_val in Hv; cbn in Hv; lia |].
    rewrite strlen_nil, strlen_cons in Hl. pose proof (strlen_nonneg y). lia.
  - destruct y as [|d y].
    { rewrite strlen_nil, strlen_cons in Hl. pose proof (strlen_nonneg x). lia. }
    rewrite !strlen_cons in Hl. assert (Hl' : strlen x = strlen y) by lia.
    cbn [forallb] in Hx, Hy.
    apply andb_true_iff in Hx as [Hc Hx]. apply andb_true_iff in Hy as [Hd Hy].
    rewrite !digits_val_cons in Hv. rewrite Hl' in Hv.
    pose proof (digits_val_range x Hx) as Rx. pose proof (digits_val_range y Hy) as Ry.
    rewrite Hl' in Rx.
    pose proof (digit_value_range c Hc) as Rc. pose proof (digit_value_range d Hd) as Rd.
    cbn [app strcmp].
    destruct (Ascii.eqb_spec c d) as [-> | Hne].
    + apply IH; try assumption. lia.
    + assert (code c <> code d) by (intros E; apply Hne, code_inj, E).
      set (P := 10 ^ strlen y) in *.
      destruct (Z_lt_ge_dec (code c) (code d)) as [L | G]; [lia |].
      exfalso. assert (1 <= code c - code d) by lia.
      assert (P * 1 <= P * (code c - code d)) by (apply Z.mul_le_mono_nonneg_l; lia).
      lia.
Qed.

Lemma digits_val_inj (x y : cstring) :
  strlen x = strlen y ->
  forallb wid_is_digit x = true -> forallb wid_is_digit y = true ->
  digits_val x = digits_val y -> x = y.
Proof.
  intros Hl Hx Hy Hv.
  rewrite <- (fixed_digits_val x Hx), <- (fixed_digits_val y Hy), Hv.
  f_equal. unfold strlen in Hl. lia.
Qed.

(** The date and the time of day of a time stamp, as digit strings. *)
Lemma stamp_text_split (u : wid_time_unit_t) (t : cstring) (ts : timestamp_t) :
  stamp_text u t ts ->
  exists A B,
    t = A ++ str "T" ++ B /\
    digits 8 A /\ digits (if is_ms u then 9 else 6) B /\
    digits_val A = date_num ts /\
    digits_val B * (if is_ms u then 1 else 1000) = time_num ts.
Proof.
  intros H. destruct H as [Y Mo D H Mi Se Ms HY HMo HD HH HMi HSe HMs Hv].
  exists (Y ++ Mo ++ D), (H ++ Mi ++ Se ++ Ms).
  unfold date_num, time_num. cbn [year month day hour minute second millisecond].
  split; [reassoc |].
  split; [apply (digits_app 4 4); [| apply (digits_app 2 2)]; assumption |].
  split.
  { destruct (is_ms u).
    - apply (digits_app 2 7); [| apply (digits_app 2 5); [| apply (digits_app 2 3)]];
        assumption.
    - apply digits_0 in HMs. subst Ms. rewrite app_nil_r.
      apply (digits_app 2 4); [| apply (digits_app 2 2)]; assumption. }
  destruct HY as [LY _], HMo as [LMo _], HD as [LD _], HH as [LH _], HMi as [LMi _],
           HSe as [LSe _].
  split.
  - rewrite !digits_val_app. rewrite !strlen_app, LMo, LD.
    change (10 ^ (2 + 2)) with 10000. change (10 ^ 2) with 100. lia.
  - destruct (is_ms u).
    + destruct HMs as [LMs _].
      rewrite !digits_val_app. rewrite !strlen_app, LMi, LSe, LMs.
      change (10 ^ (2 + (2 + 3))) with 10000000. change (10 ^ (2 + 3)) with 100000.
      change (10 ^ 3) with 1000. lia.
    + apply digits_0 in HMs. subst Ms. rewrite app_nil_r.
      rewrite !digits_val_app. rewrite !strlen_app, LMi, LSe.
      change (10 ^ (2 + 2)) with 10000. change (10 ^ 2) with 100.
      rewrite digits_val_nil. lia.
Qed.

(** The text of an earlier time stamp sorts before the text of a later
    one, whatever follows either of them. *)
Lemma stamp_text_strcmp (u : wid_time_unit_t) (t1 t2 r1 r2 : cstring)
      (ts1 ts2 : timestamp_t) :
  stamp_text u t1 ts1 -> stamp_text u t2 ts2 -> stamp_lt ts1 ts2 ->
  strcmp (t1 ++ r1) (t2 ++ r2) < 0.
Proof.
  intros H1 H2 Hlt.
  destruct (stamp_text_split u t1 ts1 H1) as (A1 & B1 & -> & [LA1 DA1] & [LB1 DB1] & VA1 & VB1).
  destruct (stamp_text_split u t2 ts2 H2) as (A2 & B2 & -> & [LA2 DA2] & [LB2 DB2] & VA2 & VB2).
  rewrite <- !app_assoc.
  destruct Hlt as [Hd | [Hd Ht]].
  - apply digits_strcmp; try assumption; lia.
  - assert (A1 = A2) by (apply digits_val_inj; try assumption; lia). subst A2.
    rewrite strcmp_app_same. change (str "T") with ["T"%char]. cbn [app strcmp].
    rewrite Ascii.eqb_refl.
    apply digits_strcmp; try assumption; [lia |].
    destruct (is_ms u); lia.
Qed.

Lemma stamp_text_fun (u : wid_time_unit_t) (t : cstring) (ts ts' : timestamp_t) :
  stamp_text u t ts -> stamp_text u t ts' -> ts = ts'.
Proof.
  intros H H'.
  pose proof (wid_parse_timestamp_complete u t [] ts H) as P.
  pose proof (wid_parse_timestamp_complete u t [] ts' H') as P'.
  congruence.
Qed.

(** ** Anatomy of an emitted identifier *)

Lemma app_inv_strlen (a a' b b' : cstring) :
  strlen a = strlen a' -> a ++ b = a' ++ b' -> a = a' /\ b = b'.
Proof.
  revert a'. induction a as [|c a IH]; intros [|c' a'] Hl H.
  - split; [reflexivity | exact H].
  - rewrite strlen_nil, strlen_cons in Hl. pose proof (strlen_nonneg a'). lia.
  - rewrite strlen_nil, strlen_cons in Hl. pose proof (strlen_nonneg a). lia.
  - rewrite !strlen_cons in Hl. cbn [app] in H. injection H as -> H.
    destruct (IH a' ltac:(lia) H) as [-> ->]. split; reflexivity.
Qed.

(** What [wid_parse_ex] returns on a string given by its parts. *)
Lemma wid_parse_ex_of_text (t sq sfx : cstring) (ts : timestamp_t) (w z : Z)
      (u : wid_time_unit_t) :
  params_ok w z -> stamp_text u t ts -> digits w sq -> suffix_text z sfx ->
  wid_parse_ex (t ++ str "." ++ sq ++ str "Z" ++ sfx) w z u
  = Some (mk_parsed_wid (t ++ str "." ++ sq ++ str "Z" ++ sfx) ts (digits_val sq)
                        (negb (at_end sfx)) (advance sfx 1)).
Proof.
  intros Hp Ht Hsq Hsfx.
  pose proof (printed_wid_valid t sq sfx ts w z WID_MAX_LEN u Hp ltac:(lia) Ht Hsq Hsfx)
    as Hv.
  pose proof (stamp_text_length u t ts Ht) as Lt.
  pose proof (wid_timestamp_len_pos u) as HL.
  assert (Llen : strlen (t ++ str "." ++ sq ++ str "Z" ++ sfx) <= 103).
  { rewrite !strlen_app. change (strlen (str ".")) with 1.
    change (strlen (str "Z")) with 1. destruct Hsq as [Hl _].
    unfold params_ok, WID_MAX_W, WID_MAX_Z in Hp.
    destruct Hsfx as [-> | (_ & pad & -> & Hlp & _)].
    - rewrite strlen_nil. lia.
    - rewrite strlen_app. change (strlen (str "-")) with 1. lia. }
  rewrite snprintf_fits in Hv by (unfold WID_MAX_LEN; lia).
  assert (Hmax : strlen (t ++ str "." ++ sq ++ str "Z" ++ sfx) <= INT_MAX)
    by (unfold INT_MAX; lia).
  destruct (wid_parse_ex_text _ w z u Hmax Hv)
    as (t' & ts' & sq' & sfx' & Ht' & Hsq' & _ & E & ->).
  pose proof (stamp_text_length u t' ts' Ht') as Lt'.
  destruct (app_inv_strlen t t' _ _ ltac:(lia) E) as [<- E1].
  cbn [str list_ascii_of_string app] in E1. injection E1 as E1.
  destruct (app_inv_strlen sq sq' _ _ ltac:(destruct Hsq, Hsq'; lia) E1) as [<- E2].
  injection E2 as <-.
  rewrite (stamp_text_fun u t ts ts' Ht Ht'). reflexivity.
Qed.

(** What [hlc_wid_parse_ex] returns on a string given by its parts. *)
Lemma hlc_wid_parse_ex_of_text (t sq nd sfx : cstring) (ts : timestamp_t) (w z : Z)
      (u : wid_time_unit_t) :
  params_ok w z -> stamp_text u t ts -> digits w sq ->
  node_text nd -> strlen nd < NODE_SIZE -> suffix_text z sfx ->
  hlc_wid_parse_ex (t ++ str "." ++ sq ++ str "Z-" ++ nd ++ sfx) w z u
  = Some (mk_parsed_hlc (t ++ str "." ++ sq ++ str "Z-" ++ nd ++ sfx) ts (digits_val sq)
                        nd (negb (at_end sfx)) (advance sfx 1)).
Proof.
  intros Hp Ht Hsq Hnd Lnd Hsfx.
  pose proof (printed_hlc_valid t sq nd sfx ts w z WID_MAX_LEN u Hp ltac:(lia) Ht Hsq
                Hnd Lnd Hsfx) as Hv.
  pose proof (stamp_text_length u t ts Ht) as Lt.
  pose proof (wid_timestamp_len_pos u) as HL.
  assert (Llen : strlen (t ++ str "." ++ sq ++ str "Z-" ++ nd ++ sfx) <= 167).
  { rewrite !strlen_app. change (strlen (str ".")) with 1.
    change (strlen (str "Z-")) with 2. destruct Hsq as [Hl _].
    unfold params_ok, WID_MAX_W, WID_MAX_Z, NODE_SIZE in *.
    destruct Hsfx as [-> | (_ & pad & -> & Hlp & _)].
    - rewrite strlen_nil. lia.
    - rewrite strlen_app. change (strlen (str "-")) with 1. lia. }
  rewrite snprintf_fits in Hv by (unfold WID_MAX_LEN; lia).
  pose proof (node_segment_text t sq nd sfx w z u ts Ht Hsq Hnd Hsfx) as Eseg.
  assert (Hmax : strlen (t ++ str "." ++ sq ++ str "Z-" ++ nd ++ sfx) <= INT_MAX)
    by (unfold INT_MAX; lia).
  destruct (hlc_wid_parse_ex_text _ w z u Hmax Hv)
    as (t' & ts' & sq' & nd' & sfx' & Ht' & Hsq' & _ & _ & E & Eseg' & ->).
  rewrite Eseg in Eseg'. subst nd'.
  apply Z.leb_gt in Lnd. rewrite Lnd.
  pose proof (stamp_text_length u t' ts' Ht') as Lt'.
  destruct (app_inv_strlen t t' _ _ ltac:(lia) E) as [<- E1].
  cbn [str list_ascii_of_string app] in E1. injection E1 as E1.
  destruct (app_inv_strlen sq sq' _ _ ltac:(destruct Hsq, Hsq'; lia) E1) as [<- E2].
  injection E2 as E2. apply app_inv_head in E2. subst sfx'.
  rewrite (stamp_text_fun u t ts ts' Ht Ht'). reflexivity.
Qed.

(** [wid_fmt_tick] prints the fields [gmtime_r] computes. *)
Lemma wid_fmt_tick_stamp (u : wid_time_unit_t) (tick : Z) :
  four_digit_year u tick ->
  exists b,
    gmtime_r (tick_seconds u tick) = Some b /\
    1000 <= tm_year b + 1900 <= 9999 /\
    wid_fmt_tick u tick = Some (fmt_stamp u (tm_stamp b (tick_ms u tick))) /\
    stamp_text u (fmt_stamp u (tm_stamp b (tick_ms u tick)))
               (tm_stamp b (tick_ms u tick)).
Proof.
  intros (b & Hg & Hy). exists b. split; [exact Hg |]. split; [exact Hy |].
  unfold tick_seconds in Hg. unfold wid_fmt_tick.
  rewrite Hg. pose proof (gmtime_r_wid_valid _ b Hg ltac:(lia)) as Hv.
  pose proof (ms_of_tick tick) as Hms. cbv zeta in Hms.
  assert (Hsec : stamp_text WID_TIME_SEC (fmt_stamp WID_TIME_SEC (tm_stamp b 0))
                            (tm_stamp b 0)).
  { apply fmt_stamp_is_text;
      cbn [tm_stamp year month day hour minute second millisecond is_ms];
      try assumption; try lia. }
  assert (Hu : stamp_text u (fmt_stamp u (tm_stamp b (tick_ms u tick)))
                          (tm_stamp b (tick_ms u tick))).
  { apply fmt_stamp_is_text; cbn [tm_stamp year month day hour minute second millisecond];
      try assumption; try lia.
    unfold tick_ms. destruct (is_ms u); [exact Hms | reflexivity]. }
  split; [| exact Hu].
  pose proof (stamp_text_length _ _ _ Hsec) as Lsec.
  pose proof (stamp_text_length _ _ _ Hu) as Lu.
  unfold strftime_stamp. change (wid_timestamp_len WID_TIME_SEC) with 15 in Lsec.
  rewrite Lsec. change (15 <? 20) with true. cbv iota. cbn [bind].
  unfold wid_timestamp_len in Lu. unfold tick_ms in *.
  destruct u; cbn [is_ms] in *.
  - rewrite snprintf_fits by lia. reflexivity.
  - cbv zeta in *.
    set (ms := if cast_int (Z.rem tick 1000) <? 0
               then cast_int (Z.rem tick 1000) + 1000
               else cast_int (Z.rem tick 1000)) in *.
    assert (E : fmt_stamp WID_TIME_SEC (tm_stamp b 0) ++ printf_0d 3 ms
                = fmt_stamp WID_TIME_MS (tm_stamp b ms)).
    { unfold fmt_stamp. cbn [tm_stamp year month day hour minute second millisecond is_ms].
      rewrite app_nil_r. rewrite <- !app_assoc. cbn [app]. rewrite <- !app_assoc.
      reflexivity. }
    rewrite E, snprintf_fits by lia. reflexivity.
Qed.

(** A later tick has a later calendar time. *)
Lemma tick_stamp_lt (u : wid_time_unit_t) (tick1 tick2 : Z) (b1 b2 : tm) :
  0 <= tick1 < tick2 ->
  gmtime_r (tick_seconds u tick1) = Some b1 ->
  gmtime_r (tick_seconds u tick2) = Some b2 ->
  stamp_lt (tm_stamp b1 (tick_ms u tick1)) (tm_stamp b2 (tick_ms u tick2)).
Proof.
  intros Ht H1 H2. unfold tick_seconds, tick_ms in *. destruct u; cbn [is_ms] in *.
  - apply (gmtime_r_mono tick1 tick2); try assumption; lia.
  - cbv zeta.
    rewrite Z.quot_div_nonneg in H1, H2 by lia.
    rewrite !Z.rem_mod_nonneg by lia.
    pose proof (Z.mod_pos_bound tick1 1000 ltac:(lia)) as R1.
    pose proof (Z.mod_pos_bound tick2 1000 ltac:(lia)) as R2.
    rewrite !cast_int_small by (unfold INT_MIN, INT_MAX; lia).
    destruct (tick1 mod 1000 <? 0) eqn:E1; [apply Z.ltb_lt in E1; lia |].
    destruct (tick2 mod 1000 <? 0) eqn:E2; [apply Z.ltb_lt in E2; lia |].
    apply (gmtime_r_mono (tick1 / 1000) (tick2 / 1000)); try assumption; try lia.
    pose proof (Z.div_mod tick1 1000 ltac:(lia)).
    pose proof (Z.div_mod tick2 1000 ltac:(lia)). lia.
Qed.

(** Text printed from a later clock value sorts later: the time stamp
    decides, and for equal ticks the zero-padded counter. *)
Lemma clock_text_strcmp (u : wid_time_unit_t) (w tick1 seq1 tick2 seq2 : Z)
      (t1 t2 r1 r2 : cstring) :
  1 <= w <= WID_MAX_W -> 0 <= tick1 ->
  0 <= seq1 <= 10 ^ w - 1 -> 0 <= seq2 <= 10 ^ w - 1 ->
  four_digit_year u tick1 -> four_digit_year u tick2 ->
  wid_fmt_tick u tick1 = Some t1 -> wid_fmt_tick u tick2 = Some t2 ->
  lex_lt (tick1, seq1) (tick2, seq2) ->
  strcmp (t1 ++ str "." ++ snprintf 64 (printf_0d w seq1) ++ r1)
         (t2 ++ str "." ++ snprintf 64 (printf_0d w seq2) ++ r2) < 0.
Proof.
  intros Hw H0 Hs1 Hs2 Y1 Y2 F1 F2 Hlt.
  destruct (wid_fmt_tick_stamp u tick1 Y1) as (b1 & G1 & _ & F1' & T1).
  destruct (wid_fmt_tick_stamp u tick2 Y2) as (b2 & G2 & _ & F2' & T2).
  rewrite F1 in F1'. injection F1' as ->. rewrite F2 in F2'. injection F2' as ->.
  unfold lex_lt in Hlt. cbn [fst snd] in Hlt.
  destruct Hlt as [Hlt | [<- Hlt]].
  - apply (stamp_text_strcmp u _ _ _ _ _ _ T1 T2).
    apply tick_stamp_lt; try assumption. lia.
  - rewrite G1 in G2. injection G2 as <-.
    rewrite strcmp_app_same. cbn [str list_ascii_of_string app strcmp].
    rewrite Ascii.eqb_refl.
    unfold WID_MAX_W in Hw.
    destruct (printf_0d_digits w seq1) as [[L1 D1] V1]; [lia | lia |].
    destruct (printf_0d_digits w seq2) as [[L2 D2] V2]; [lia | lia |].
    rewrite !snprintf_fits by lia.
    apply digits_strcmp; try assumption; lia.
Qed.

Lemma wid_gen_next_anatomy (g g' : wid_gen_t) (now : Z) (rnd : Z -> Z) (out_len : Z)
      (out : cstring) :
  wid_gen_ok g -> WID_MAX_LEN <= out_len ->
  wid_gen_next g now rnd out_len = Some (g', out) ->
  four_digit_year (time_unit g) (last_tick g') ->
  exists b t sfx,
    gmtime_r (tick_seconds (time_unit g) (last_tick g')) = Some b /\
    wid_fmt_tick (time_unit g) (last_tick g') = Some t /\
    stamp_text (time_unit g) t (tm_stamp b (tick_ms (time_unit g) (last_tick g'))) /\
    digits (W g) (snprintf 64 (printf_0d (W g) (last_seq g'))) /\
    digits_val (snprintf 64 (printf_0d (W g) (last_seq g'))) = last_seq g' /\
    suffix_text (Z_ g) sfx /\
    (if 0 <? Z_ g
     then exists pad, wid_random_hex rnd (Z_ g) = Some pad /\ sfx = str "-" ++ pad
     else sfx = []) /\
    out = t ++ str "." ++ snprintf 64 (printf_0d (W g) (last_seq g')) ++ str "Z" ++ sfx.
Proof.
  intros Hr Hout H Hyear.
  destruct (wid_gen_next_parts g g' now rnd out_len out H)
    as (Estep & t0 & sfx & Efmt & -> & Hsfx).
  destruct (wid_gen_next_state_step g g' now Hr Estep)
    as ((Hw & Hz & Hmax & _) & _ & Hseq & _).
  destruct (wid_gen_next_state_params g g' now Estep) as (EW & EZ & EU).
  rewrite EW, EZ, EU in *.
  destruct (wid_fmt_tick_stamp _ _ Hyear) as (b & Hg & _ & Efmt' & Ht).
  rewrite Efmt' in Efmt. injection Efmt as <-.
  pose proof (counter_text (W g) (last_seq g') Hw ltac:(lia)) as Hsq.
  assert (Hval : digits_val (snprintf 64 (printf_0d (W g) (last_seq g'))) = last_seq g').
  { unfold WID_MAX_W in Hw.
    destruct (printf_0d_digits (W g) (last_seq g')) as [[L _] V]; [lia | lia |].
    rewrite snprintf_fits by lia. exact V. }
  assert (Hsfx' : suffix_text (Z_ g) sfx).
  { destruct (0 <? Z_ g) eqn:E0; [| left; exact Hsfx].
    destruct Hsfx as (pad & Epad & ->). apply Z.ltb_lt in E0.
    destruct (wid_random_hex_text rnd (Z_ g) pad ltac:(lia) Epad) as [_ Hpad].
    right. split; [exact E0 |]. exists pad. split; [reflexivity | exact Hpad]. }
  exists b, (fmt_stamp (time_unit g) (tm_stamp b (tick_ms (time_unit g) (last_tick g')))), sfx.
  repeat split; try assumption; try apply Hsq.
  pose proof (stamp_text_length _ _ _ Ht) as Lt.
  pose proof (wid_timestamp_len_pos (time_unit g)) as HL.
  apply snprintf_fits.
  rewrite !strlen_app. change (strlen (str ".")) with 1. change (strlen (str "Z")) with 1.
  destruct Hsq as [Lsq _]. unfold WID_MAX_W, WID_MAX_Z, WID_MAX_LEN in *.
  destruct Hsfx' as [-> | (_ & pad & -> & Hlp & _)].
  - rewrite strlen_nil. lia.
  - rewrite strlen_app. change (strlen (str "-")) with 1. lia.
Qed.

Lemma hlc_wid_gen_next_anatomy (g g' : hlc_wid_gen_t) (now : Z) (rnd : Z -> Z)
      (out_len : Z) (out : cstring) :
  hlc_gen_ok g -> WID_MAX_LEN <= out_len ->
  hlc_wid_gen_next g now rnd out_len = Some (g', out) ->
  four_digit_year (htime_unit g) (pt g') ->
  exists b t sfx,
    gmtime_r (tick_seconds (htime_unit g) (pt g')) = Some b /\
    wid_fmt_tick (htime_unit g) (pt g') = Some t /\
    stamp_text (htime_unit g) t (tm_stamp b (tick_ms (htime_unit g) (pt g'))) /\
    digits (hW g) (snprintf 64 (printf_0d (hW g) (lc g'))) /\
    digits_val (snprintf 64 (printf_0d (hW g) (lc g'))) = lc g' /\
    node g' = node g /\
    suffix_text (hZ g) sfx /\
    (if 0 <? hZ g
     then exists pad, wid_random_hex rnd (hZ g) = Some pad /\ sfx = str "-" ++ pad
     else sfx = []) /\
    out = t ++ str "." ++ snprintf 64 (printf_0d (hW g) (lc g')) ++ str "Z-"
            ++ node g ++ sfx.
Proof.
  intros Hr Hout H Hyear.
  destruct (hlc_wid_gen_next_parts g g' now rnd out_len out H)
    as (Estep & t0 & sfx & Efmt & -> & Hsfx).
  destruct (hlc_wid_gen_next_state_step g g' now Hr Estep)
    as ((Hw & Hz & Hmax & Hlc & _ & Hnode & Lnode) & _).
  destruct (hlc_wid_gen_next_state_params g g' now Estep) as (EW & EZ & EU).
  assert (EN : node g' = node g).
  { unfold hlc_wid_gen_next_state in Estep.
    destruct (pt g <? now).
    - cbn [bind] in Estep. apply hlc_rollover_cases in Estep.
      destruct Estep as (_ & _ & _ & -> & _). reflexivity.
    - destruct (add_i64 (lc g) 1); [| discriminate]. cbn [bind] in Estep.
      apply hlc_rollover_cases in Estep.
      destruct Estep as (_ & _ & _ & -> & _). reflexivity. }
  rewrite EW, EZ, EU, EN in *.
  destruct (wid_fmt_tick_stamp _ _ Hyear) as (b & Hg & _ & Efmt' & Ht).
  rewrite Efmt' in Efmt. injection Efmt as <-.
  pose proof (counter_text (hW g) (lc g') Hw ltac:(lia)) as Hsq.
  assert (Hval : digits_val (snprintf 64 (printf_0d (hW g) (lc g'))) = lc g').
  { unfold WID_MAX_W in Hw.
    destruct (printf_0d_digits (hW g) (lc g')) as [[L _] V]; [lia | lia |].
    rewrite snprintf_fits by lia. exact V. }
  assert (Hsfx' : suffix_text (hZ g) sfx).
  { destruct (0 <? hZ g) eqn:E0; [| left; exact Hsfx].
    destruct Hsfx as (pad & Epad & ->). apply Z.ltb_lt in E0.
    destruct (wid_random_hex_text rnd (hZ g) pad ltac:(lia) Epad) as [_ Hpad].
    right. split; [exact E0 |]. exists pad. split; [reflexivity | exact Hpad]. }
  exists b, (fmt_stamp (htime_unit g) (tm_stamp b (tick_ms (htime_unit g) (pt g')))), sfx.
  repeat split; try assumption; try apply Hsq.
  pose proof (stamp_text_length _ _ _ Ht) as Lt.
  pose proof (wid_timestamp_len_pos (htime_unit g)) as HL.
  apply snprintf_fits.
  rewrite !strlen_app. change (strlen (str ".")) with 1. change (strlen (str "Z-")) with 2.
  destruct Hsq as [Lsq _]. unfold WID_MAX_W, WID_MAX_Z, WID_MAX_LEN, NODE_SIZE in *.
  destruct Hsfx' as [-> | (_ & pad & -> & Hlp & _)].
  - rewrite strlen_nil. lia.
  - rewrite strlen_app. change (strlen (str "-")) with 1. lia.
Qed.

(** ** Ticks of the years 1000 to 9999 *)

Lemma gmtime_r_defined (t : Z) :
  -30610224000 <= t <= 253402300799 -> exists b, gmtime_r t = Some b.
Proof.
  intros H. unfold gmtime_r. cbv zeta.
  set (era := t / 86400 / 146097).
  assert (He : -3 <= era <= 20).
  { unfold era. rewrite Z.div_div by lia. change (86400 * 146097) with 12622780800.
    split.
    - apply Z.div_le_lower_bound; lia.
    - apply Z.lt_succ_r. apply Z.div_lt_upper_bound; lia. }
  set (doe := t / 86400 mod 146097).
  assert (Hdoe : 0 <= doe < days_in_years 400 (1970 + 400 * era)).
  { rewrite days_in_400_years. apply Z.mod_pos_bound. lia. }
  pose proof (split_year_lower 400 (1970 + 400 * era) doe) as Hlo.
  pose proof (split_year_upper 400 (1970 + 400 * era) doe Hdoe) as Hup.
  change (Z.of_nat 400) with 400 in Hup.
  destruct (split_year 400 (1970 + 400 * era) doe) as [y doy]. cbn [fst] in *.
  destruct (split_month (month_days y) 0 doy) as [m d].
  assert (F : fits_int (y - 1900) = true).
  { unfold fits_int, INT_MIN, INT_MAX. apply andb_true_iff. split; apply Z.leb_le; lia. }
  rewrite F. eauto.
Qed.

Lemma stamp_lt_year (b1 b2 : tm) (t1 t2 m1 m2 : Z) :
  gmtime_r t1 = Some b1 -> gmtime_r t2 = Some b2 ->
  stamp_lt (tm_stamp b1 m1) (tm_stamp b2 m2) -> tm_year b1 <= tm_year b2.
Proof.
  intros H1 H2 Hlt.
  destruct (gmtime_r_valid t1 b1 H1) as (_ & _ & _ & Hmo1 & _).
  destruct (gmtime_r_valid t2 b2 H2) as (_ & _ & _ & Hmo2 & _).
  destruct (gmtime_r_fields t1 b1 H1) as (y1 & ? & mo1 & d1 & _ & _ & _ & _ & Hd1 & _ & E1).
  destruct (gmtime_r_fields t2 b2 H2) as (y2 & ? & mo2 & d2 & _ & _ & _ & _ & Hd2 & _ & E2).
  subst b1 b2. unfold stamp_lt, date_num in Hlt.
  cbn [tm_stamp year month day tm_year tm_mon tm_mday] in *. lia.
Qed.

(** The seconds of the years 1000 to 9999 are those from -30610224000 to
    253402300799. *)
Lemma four_digit_year_range (u : wid_time_unit_t) (tick : Z) :
  -30610224000 <= tick_seconds u tick <= 253402300799 -> four_digit_year u tick.
Proof.
  intros H. unfold four_digit_year.
  destruct (gmtime_r_defined _ H) as [b Hb]. exists b. split; [exact Hb |].
  set (t := tick_seconds u tick) in *.
  assert (Lo : gmtime_r (-30610224000) = Some (mk_tm 0 0 0 1 0 (-900)))
    by (vm_compute; reflexivity).
  assert (Hi : gmtime_r 253402300799 = Some (mk_tm 59 59 23 31 11 8099))
    by (vm_compute; reflexivity).
  split.
  - destruct (Z.eq_dec t (-30610224000)) as [E | NE].
    + rewrite E, Lo in Hb. injection Hb as <-. cbn. lia.
    + pose proof (gmtime_r_mono _ t _ b 0 0 Lo Hb ltac:(lia) ltac:(lia) ltac:(lia)) as M.
      pose proof (stamp_lt_year _ _ _ _ _ _ Lo Hb M) as Y. cbn [tm_year] in Y. lia.
  - destruct (Z.eq_dec t 253402300799) as [E | NE].
    + rewrite E, Hi in Hb. injection Hb as <-. cbn. lia.
    + pose proof (gmtime_r_mono t _ b _ 0 0 Hb Hi ltac:(lia) ltac:(lia) ltac:(lia)) as M.
      pose proof (stamp_lt_year _ _ _ _ _ _ Hb Hi M) as Y. cbn [tm_year] in Y. lia.
Qed.

(** ** Printing and reading back *)

(** X10. The time stamp [wid_fmt_tick] prints for a second of the years
    1000 to 9999 has exactly [wid_timestamp_len] characters, and
    [wid_parse_timestamp] reads it back, when a dot follows, as the UTC
    calendar fields of [gmtime_r] and the milliseconds of the tick. *)
Theorem wid_fmt_tick_parses (u : wid_time_unit_t) (tick : Z) (rest : cstring) :
  -30610224000 <= tick_seconds u tick <= 253402300799 ->
  exists t b,
    wid_fmt_tick u tick = Some t /\ strlen t = wid_timestamp_len u /\
    gmtime_r (tick_seconds u tick) = Some b /\
    wid_parse_timestamp (t ++ str "." ++ rest) u = Some (tm_stamp b (tick_ms u tick)).
Proof.
  intros H. apply four_digit_year_range in H.
  destruct (wid_fmt_tick_stamp u tick H) as (b & Hg & _ & Hf & Ht).
  exists (fmt_stamp u (tm_stamp b (tick_ms u tick))), b.
  split; [exact Hf |]. split; [apply (stamp_text_length _ _ _ Ht) |].
  split; [exact Hg |]. apply wid_parse_timestamp_complete. exact Ht.
Qed.

Lemma wid_fmt_tick_parses_witness :
  exists t b,
    wid_fmt_tick WID_TIME_MS 1770887730123 = Some t /\
    strlen t = wid_timestamp_len WID_TIME_MS /\
    gmtime_r (tick_seconds WID_TIME_MS 1770887730123) = Some b /\
    wid_parse_timestamp (t ++ str "." ++ str "0042Z") WID_TIME_MS
    = Some (tm_stamp b (tick_ms WID_TIME_MS 1770887730123)).
Proof.
  apply (wid_fmt_tick_parses WID_TIME_MS 1770887730123 (str "0042Z")).
  vm_compute. split; discriminate.
Defined.

(** X11. An identifier emitted by [wid_gen_next] reads back as the state
    that produced it.  For a generator with a padding of at most 33
    characters, a buffer of [WID_MAX_LEN] bytes and a tick up to the year
    9999, the call completes, the text is accepted by [wid_validate_ex]
    with the generator's parameters, and [wid_parse_ex] returns the UTC
    calendar fields of the tick, the generator's [last_seq] as sequence
    and the random digits as padding. *)
Theorem wid_gen_next_reads_back (g g' : wid_gen_t) (now : Z) (rnd : Z -> Z)
        (out_len : Z) :
  wid_reachable g -> WID_MAX_LEN <= out_len -> Z_ g <= RAW_SIZE ->
  wid_gen_next_state g now = Some g' ->
  tick_seconds (time_unit g) (last_tick g') <= 253402300799 ->
  exists out p b,
    wid_gen_next g now rnd out_len = Some (g', out) /\
    wid_validate_ex out (W g) (Z_ g) (time_unit g) = true /\
    wid_parse_ex out (W g) (Z_ g) (time_unit g) = Some p /\
    raw p = out /\
    gmtime_r (tick_seconds (time_unit g) (last_tick g')) = Some b /\
    stamp p = tm_stamp b (tick_ms (time_unit g) (last_tick g')) /\
    sequence p = last_seq g' /\
    has_padding p = (0 <? Z_ g) /\
    (if 0 <? Z_ g then wid_random_hex rnd (Z_ g) = Some (padding p)
     else padding p = []).
Proof.
  intros Hr Hout Hz Estep Htick.
  pose proof (wid_reachable_ok g Hr) as Hok.
  destruct (wid_gen_next_state_step g g' now Hok Estep) as ((_ & _ & _ & _ & Ht0) & _).
  destruct (wid_gen_next_state_params g g' now Estep) as (EW & EZ & EU).
  assert (Hyear : four_digit_year (time_unit g) (last_tick g')).
  { apply four_digit_year_range. split; [| exact Htick].
    unfold tick_seconds. destruct (is_ms (time_unit g)); [| lia].
    pose proof (Z.quot_pos (last_tick g') 1000 ltac:(lia) ltac:(lia)). lia. }
  assert (Hdef : exists out, wid_gen_next g now rnd out_len = Some (g', out)).
  { unfold wid_gen_next. rewrite Estep. cbn [bind]. rewrite EZ, EU.
    destruct (wid_fmt_tick_text _ _ Hyear) as (t & ts & -> & _). cbn [bind].
    destruct (0 <? Z_ g); [| eauto].
    destruct (wid_random_hex_defined rnd (Z_ g) Hz) as [pad ->]. cbn [bind]. eauto. }
  destruct Hdef as [out Hnext]. exists out.
  destruct (wid_gen_next_anatomy g g' now rnd out_len out Hok Hout Hnext Hyear)
    as (b & t & sfx & Hg & Hf & Ht & Hsq & Hval & Hsfx & Hpad & ->).
  assert (Hp : params_ok (W g) (Z_ g)) by (destruct Hok as (? & ? & _); split; assumption).
  pose proof (wid_parse_ex_of_text t _ sfx _ (W g) (Z_ g) (time_unit g) Hp Ht Hsq Hsfx)
    as Hparse.
  eexists. exists b. split; [exact Hnext |].
  split.
  { unfold wid_parse_ex in Hparse.
    destruct (wid_validate_ex _ (W g) (Z_ g) (time_unit g)); [reflexivity | discriminate]. }
  split; [exact Hparse |].
  cbn [raw stamp sequence has_padding padding].
  split; [reflexivity |]. split; [exact Hg |]. split; [reflexivity |].
  split; [exact Hval |].
  destruct (0 <? Z_ g).
  - destruct Hpad as (pad & Epad & ->). split; [reflexivity |]. exact Epad.
  - subst sfx. split; reflexivity.
Qed.

Lemma wid_gen_next_reads_back_witness :
  exists out p b,
    wid_gen_next (wid_gen_init_ex 4 6 WID_TIME_SEC) 1770887730 (fun i => 7 * i + 3)
      WID_MAX_LEN
    = Some (mk_wid_gen 4 6 WID_TIME_SEC 1770887730 0 9999, out) /\
    wid_validate_ex out 4 6 WID_TIME_SEC = true /\
    wid_parse_ex out 4 6 WID_TIME_SEC = Some p /\
    raw p = out /\
    gmtime_r 1770887730 = Some b /\
    stamp p = tm_stamp b 0 /\
    sequence p = 0 /\
    has_padding p = true /\
    wid_random_hex (fun i => 7 * i + 3) 6 = Some (padding p).
Proof.
  apply (wid_gen_next_reads_back (wid_gen_init_ex 4 6 WID_TIME_SEC)
           (mk_wid_gen 4 6 WID_TIME_SEC 1770887730 0 9999) 1770887730
           (fun i => 7 * i + 3) WID_MAX_LEN).
  - apply wid_reach_init.
  - vm_compute. discriminate.
  - vm_compute. discriminate.
  - vm_compute. reflexivity.
  - vm_compute. discriminate.
Defined.

(** X12. An identifier emitted by [hlc_wid_gen_next] reads back as the
    state that produced it: under the same conditions the call completes,
    the text is accepted by [hlc_wid_validate_ex], and [hlc_wid_parse_ex]
    succeeds (the node of a generator never exceeds 63 characters) and
    returns the calendar fields of [pt], the counter [lc], the node of the
    generator and the random digits as padding. *)
Theorem hlc_wid_gen_next_reads_back (g g' : hlc_wid_gen_t) (now : Z) (rnd : Z -> Z)
        (out_len : Z) :
  hlc_reachable g -> WID_MAX_LEN <= out_len -> hZ g <= RAW_SIZE ->
  hlc_wid_gen_next_state g now = Some g' ->
  tick_seconds (htime_unit g) (pt g') <= 253402300799 ->
  exists out p b,
    hlc_wid_gen_next g now rnd out_len = Some (g', out) /\
    hlc_wid_validate_ex out (hW g) (hZ g) (htime_unit g) = true /\
    hlc_wid_parse_ex out (hW g) (hZ g) (htime_unit g) = Some p /\
    hraw p = out /\
    gmtime_r (tick_seconds (htime_unit g) (pt g')) = Some b /\
    hstamp p = tm_stamp b (tick_ms (htime_unit g) (pt g')) /\
    logical_counter p = lc g' /\
    pnode p = node g /\
    hhas_padding p = (0 <? hZ g) /\
    (if 0 <? hZ g then wid_random_hex rnd (hZ g) = Some (hpadding p)
     else hpadding p = []).
Proof.
  intros Hr Hout Hz Estep Htick.
  pose proof (hlc_reachable_ok g Hr) as Hok.
  destruct (hlc_wid_gen_next_state_step g g' now Hok Estep)
    as ((_ & _ & _ & _ & Ht0 & _) & _).
  destruct (hlc_wid_gen_next_state_params g g' now Estep) as (EW & EZ & EU).
  assert (Hyear : four_digit_year (htime_unit g) (pt g')).
  { apply four_digit_year_range. split; [| exact Htick].
    unfold tick_seconds. destruct (is_ms (htime_unit g)); [| lia].
    pose proof (Z.quot_pos (pt g') 1000 ltac:(lia) ltac:(lia)). lia. }
  assert (Hdef : exists out, hlc_wid_gen_next g now rnd out_len = Some (g', out)).
  { unfold hlc_wid_gen_next. rewrite Estep. cbn [bind]. rewrite EZ, EU.
    destruct (wid_fmt_tick_text _ _ Hyear) as (t & ts & -> & _). cbn [bind].
    destruct (0 <? hZ g); [| eauto].
    destruct (wid_random_hex_defined rnd (hZ g) Hz) as [pad ->]. cbn [bind]. eauto. }
  destruct Hdef as [out Hnext]. exists out.
  destruct (hlc_wid_gen_next_anatomy g g' now rnd out_len out Hok Hout Hnext Hyear)
    as (b & t & sfx & Hg & Hf & Ht & Hsq & Hval & _ & Hsfx & Hpad & ->).
  destruct Hok as (Hw & HZ & _ & _ & _ & Hnode & Lnode).
  assert (Hp : params_ok (hW g) (hZ g)) by (split; assumption).
  pose proof (hlc_wid_parse_ex_of_text t _ (node g) sfx _ (hW g) (hZ g) (htime_unit g)
                Hp Ht Hsq Hnode Lnode Hsfx) as Hparse.
  eexists. exists b. split; [exact Hnext |].
  split.
  { unfold hlc_wid_parse_ex in Hparse.
    destruct (hlc_wid_validate_ex _ (hW g) (hZ g) (htime_unit g));
      [reflexivity | discriminate]. }
  split; [exact Hparse |].
  cbn [hraw hstamp logical_counter pnode hhas_padding hpadding].
  split; [reflexivity |]. split; [exact Hg |]. split; [reflexivity |].
  split; [exact Hval |]. split; [reflexivity |].
  destruct (0 <? hZ g).
  - destruct Hpad as (pad & Epad & ->). split; [reflexivity |]. exact Epad.
  - subst sfx. split; reflexivity.
Qed.

Lemma hlc_wid_gen_next_reads_back_witness :
  exists out p b,
    hlc_wid_gen_next (mk_hlc_gen 4 0 WID_TIME_MS (str "node01") 0 0 9999) 1770887730123
      (fun _ => 0) WID_MAX_LEN
    = Some (mk_hlc_gen 4 0 WID_TIME_MS (str "node01") 1770887730123 0 9999, out) /\
    hlc_wid_validate_ex out 4 0 WID_TIME_MS = true /\
    hlc_wid_parse_ex out 4 0 WID_TIME_MS = Some p /\
    hraw p = out /\
    gmtime_r 1770887730 = Some b /\
    hstamp p = tm_stamp b 123 /\
    logical_counter p = 0 /\
    pnode p = str "node01" /\
    hhas_padding p = false /\
    hpadding p = [].
Proof.
  apply (hlc_wid_gen_next_reads_back (mk_hlc_gen 4 0 WID_TIME_MS (str "node01") 0 0 9999)
           (mk_hlc_gen 4 0 WID_TIME_MS (str "node01") 1770887730123 0 9999) 1770887730123
           (fun _ => 0) WID_MAX_LEN).
  - apply (hlc_reach_init (str "node01") 4 0 WID_TIME_MS). vm_compute. reflexivity.
  - vm_compute. discriminate.
  - vm_compute. discriminate.
  - vm_compute. reflexivity.
  - vm_compute. discriminate.
Defined.

(** ** Identifiers sort in the order they were generated *)

Lemma lex_lt_trans (a b c : Z * Z) : lex_lt a b -> lex_lt b c -> lex_lt a c.
Proof. unfold lex_lt. lia. Qed.

Lemma wid_later_clock (g1 g2 : wid_gen_t) :
  wid_gen_ok g1 -> wid_later g1 g2 ->
  wid_gen_ok g2 /\ W g2 = W g1 /\ Z_ g2 = Z_ g1 /\ time_unit g2 = time_unit g1 /\
  (wid_clock g2 = wid_clock g1 \/ lex_lt (wid_clock g1) (wid_clock g2)).
Proof.
  intros Hok H. induction H as [|g2 now g3 _ IH Hstep].
  - split; [exact Hok |]. repeat split. left. reflexivity.
  - destruct IH as (Hok2 & EW & EZ & EU & Hc).
    destruct (wid_gen_next_state_step g2 g3 now Hok2 Hstep) as (Hok3 & _ & _ & _ & Hlt).
    destruct (wid_gen_next_state_params g2 g3 now Hstep) as (EW' & EZ' & EU').
    split; [exact Hok3 |]. split; [congruence |]. split; [congruence |].
    split; [congruence |].
    right. destruct Hc as [<- | Hc]; [exact Hlt | exact (lex_lt_trans _ _ _ Hc Hlt)].
Qed.

Lemma hlc_wid_observe_params (g g' : hlc_wid_gen_t) (remote_pt remote_lc now : Z) :
  hlc_wid_observe g remote_pt remote_lc now = Some (true, g') ->
  hW g' = hW g /\ hZ g' = hZ g /\ htime_unit g' = htime_unit g /\ node g' = node g.
Proof.
  unfold hlc_wid_observe. destruct (_ || _); [discriminate |]. cbv zeta.
  destruct (if _ && _ then _ else _) as [l|]; [| discriminate]. cbn [bind].
  destruct (hlc_wid_rollover_if_needed _) as [g1|] eqn:E; [| discriminate]. cbn [bind].
  intros H. injection H as <-. apply hlc_rollover_cases in E.
  destruct E as (-> & -> & -> & -> & _). cbn. repeat split.
Qed.

Lemma hlc_wid_gen_next_state_node (g g' : hlc_wid_gen_t) (now : Z) :
  hlc_wid_gen_next_state g now = Some g' -> node g' = node g.
Proof.
  unfold hlc_wid_gen_next_state. intros Estep.
  destruct (pt g <? now).
  - cbn [bind] in Estep. apply hlc_rollover_cases in Estep.
    destruct Estep as (_ & _ & _ & -> & _). reflexivity.
  - destruct (add_i64 (lc g) 1); [| discriminate]. cbn [bind] in Estep.
    apply hlc_rollover_cases in Estep.
    destruct Estep as (_ & _ & _ & -> & _). reflexivity.
Qed.

Lemma hlc_step_clock (g g' : hlc_wid_gen_t) :
  hlc_gen_ok g -> hlc_step g g' ->
  hlc_gen_ok g' /\ hW g' = hW g /\ hZ g' = hZ g /\ htime_unit g' = htime_unit g /\
  node g' = node g /\ lex_lt (hlc_clock g) (hlc_clock g').
Proof.
  intros Hok [now g1 H | rp rl now g1 H].
  - destruct (hlc_wid_gen_next_state_step g g1 now Hok H) as (Hok' & _ & _ & _ & Hlt).
    destruct (hlc_wid_gen_next_state_params g g1 now H) as (EW & EZ & EU).
    pose proof (hlc_wid_gen_next_state_node g g1 now H).
    split; [exact Hok' |]. repeat split; assumption.
  - destruct (hlc_wid_observe_step g g1 rp rl now H) as (_ & _ & _ & _ & _ & Hlt & Hok').
    destruct (hlc_wid_observe_params g g1 rp rl now H) as (EW & EZ & EU & EN).
    specialize (Hok' Hok).
    split; [exact Hok' |]. repeat split; try assumption.
    apply Hlt. destruct Hok as (_ & _ & _ & ? & _). lia.
Qed.

Lemma hlc_later_clock (g1 g2 : hlc_wid_gen_t) :
  hlc_gen_ok g1 -> hlc_later g1 g2 ->
  hlc_gen_ok g2 /\ hW g2 = hW g1 /\ hZ g2 = hZ g1 /\ htime_unit g2 = htime_unit g1 /\
  node g2 = node g1 /\
  (hlc_clock g2 = hlc_clock g1 \/ lex_lt (hlc_clock g1) (hlc_clock g2)).
Proof.
  intros Hok H. induction H as [|g2 g3 _ IH Hstep].
  - split; [exact Hok |]. repeat split. left. reflexivity.
  - destruct IH as (Hok2 & EW & EZ & EU & EN & Hc).
    destruct (hlc_step_clock g2 g3 Hok2 Hstep) as (Hok3 & EW' & EZ' & EU' & EN' & Hlt).
    split; [exact Hok3 |]. split; [congruence |]. split; [congruence |].
    split; [congruence |]. split; [congruence |].
    right. destruct Hc as [<- | Hc]; [exact Hlt | exact (lex_lt_trans _ _ _ Hc Hlt)].
Qed.

Lemma tick_seconds_range (u : wid_time_unit_t) (t1 t2 : Z) :
  0 <= t1 <= t2 -> tick_seconds u t2 <= 253402300799 ->
  -30610224000 <= tick_seconds u t1 <= 253402300799.
Proof.
  intros H H2. unfold tick_seconds in *. destruct (is_ms u); [| lia].
  rewrite Z.quot_div_nonneg in * by lia.
  pose proof (Z.div_le_mono t1 t2 1000 ltac:(lia) ltac:(lia)).
  pose proof (Z.div_pos t1 1000 ltac:(lia) ltac:(lia)). lia.
Qed.

Lemma wid_emit_order (g g1 g2 g3 : wid_gen_t) (now1 now2 : Z)
      (rnd1 rnd2 : Z -> Z) (len1 len2 : Z) (a b : cstring) :
  wid_reachable g -> WID_MAX_LEN <= len1 -> WID_MAX_LEN <= len2 ->
  wid_gen_next g now1 rnd1 len1 = Some (g1, a) ->
  wid_later g1 g2 ->
  wid_gen_next g2 now2 rnd2 len2 = Some (g3, b) ->
  tick_seconds (time_unit g) (last_tick g3) <= 253402300799 ->
  strcmp a b < 0.
Proof.
  intros Hr Hl1 Hl2 Ha Hlater Hb Htick.
  pose proof (wid_reachable_ok g Hr) as Hok.
  pose proof (wid_gen_next_state_of_next g g1 now1 rnd1 len1 a Ha) as S1.
  pose proof (wid_gen_next_state_of_next g2 g3 now2 rnd2 len2 b Hb) as S3.
  destruct (wid_gen_next_state_step g g1 now1 Hok S1) as (Hok1 & _ & Hseq1 & _).
  destruct (wid_gen_next_state_params g g1 now1 S1) as (EW1 & EZ1 & EU1).
  destruct (wid_later_clock g1 g2 Hok1 Hlater) as (Hok2 & EW2 & EZ2 & EU2 & Hc2).
  destruct (wid_gen_next_state_step g2 g3 now2 Hok2 S3) as (Hok3 & _ & Hseq3 & _ & Hlt3).
  destruct (wid_gen_next_state_params g2 g3 now2 S3) as (EW3 & EZ3 & EU3).
  assert (Hlt : lex_lt (wid_clock g1) (wid_clock g3)).
  { destruct Hc2 as [<- | Hc2]; [exact Hlt3 | exact (lex_lt_trans _ _ _ Hc2 Hlt3)]. }
  assert (Ht1 : 0 <= last_tick g1) by apply Hok1.
  assert (Ht13 : last_tick g1 <= last_tick g3).
  { unfold lex_lt, wid_clock in Hlt. cbn [fst snd] in Hlt. lia. }
  assert (Y3 : four_digit_year (time_unit g) (last_tick g3)).
  { apply four_digit_year_range. apply (tick_seconds_range _ (last_tick g3) (last_tick g3));
      [lia | exact Htick]. }
  assert (Y1 : four_digit_year (time_unit g) (last_tick g1)).
  { apply four_digit_year_range. apply (tick_seconds_range _ _ (last_tick g3));
      [lia | exact Htick]. }
  assert (EU : time_unit g2 = time_unit g) by congruence.
  assert (EW : W g2 = W g) by congruence.
  rewrite <- EU in Y3.
  destruct (wid_gen_next_anatomy g g1 now1 rnd1 len1 a Hok Hl1 Ha Y1)
    as (_ & t1 & sfx1 & _ & F1 & _ & _ & _ & _ & _ & ->).
  destruct (wid_gen_next_anatomy g2 g3 now2 rnd2 len2 b Hok2 Hl2 Hb Y3)
    as (_ & t3 & sfx3 & _ & F3 & _ & _ & _ & _ & _ & ->).
  rewrite EU in F3, Y3. rewrite EW.
  destruct Hok as (Hw & _ & Hmax & _).
  assert (M1 : max_seq g1 = 10 ^ W g - 1).
  { destruct Hok1 as (_ & _ & -> & _). rewrite EW1. reflexivity. }
  assert (M3 : max_seq g3 = 10 ^ W g - 1).
  { destruct Hok3 as (_ & _ & -> & _). rewrite EW3, EW. reflexivity. }
  apply (clock_text_strcmp (time_unit g) (W g) (last_tick g1) (last_seq g1)
           (last_tick g3) (last_seq g3)); try assumption; try exact Hlt; lia.
Qed.

(** X13. WIDs sort in the order they were generated: of two identifiers a
    generator emits, with any number of calls between them, the earlier one
    compares below the later one under [strcmp], so that no identifier is
    emitted twice, as long as the ticks stay within the year 9999. *)
Theorem wid_gen_next_sorted (g g1 g2 g3 : wid_gen_t) (now1 now2 : Z)
        (rnd1 rnd2 : Z -> Z) (len1 len2 : Z) (a b : cstring) :
  wid_reachable g -> WID_MAX_LEN <= len1 -> WID_MAX_LEN <= len2 ->
  wid_gen_next g now1 rnd1 len1 = Some (g1, a) ->
  wid_later g1 g2 ->
  wid_gen_next g2 now2 rnd2 len2 = Some (g3, b) ->
  tick_seconds (time_unit g) (last_tick g3) <= 253402300799 ->
  strcmp a b < 0 /\ a <> b.
Proof.
  intros Hr Hl1 Hl2 Ha Hlater Hb Htick.
  pose proof (wid_emit_order g g1 g2 g3 now1 now2 rnd1 rnd2 len1 len2 a b
                Hr Hl1 Hl2 Ha Hlater Hb Htick) as H.
  split; [exact H |]. intros ->. rewrite strcmp_refl in H. lia.
Qed.

Lemma wid_gen_next_sorted_witness :
  strcmp (str "20260212T091530.9Z") (str "20260212T091531.0Z") < 0 /\
  str "20260212T091530.9Z" <> str "20260212T091531.0Z".
Proof.
  apply (wid_gen_next_sorted
           (mk_wid_gen 1 0 WID_TIME_SEC 1770887730 8 9)
           (mk_wid_gen 1 0 WID_TIME_SEC 1770887730 9 9)
           (mk_wid_gen 1 0 WID_TIME_SEC 1770887730 9 9)
           (mk_wid_gen 1 0 WID_TIME_SEC 1770887731 0 9)
           1770887730 1770887000 (fun _ => 0) (fun _ => 0) WID_MAX_LEN WID_MAX_LEN).
  - apply (wid_reach_next (mk_wid_gen 1 0 WID_TIME_SEC 1770887730 7 9) 1770887730);
      [| vm_compute; reflexivity].
    apply (wid_reach_next (mk_wid_gen 1 0 WID_TIME_SEC 1770887730 6 9) 1770887730);
      [| vm_compute; reflexivity].
    apply (wid_reach_next (mk_wid_gen 1 0 WID_TIME_SEC 1770887730 5 9) 1770887730);
      [| vm_compute; reflexivity].
    apply (wid_reach_next (mk_wid_gen 1 0 WID_TIME_SEC 1770887730 4 9) 1770887730);
      [| vm_compute; reflexivity].
    apply (wid_reach_next (mk_wid_gen 1 0 WID_TIME_SEC 1770887730 3 9) 1770887730);
      [| vm_compute; reflexivity].
    apply (wid_reach_next (mk_wid_gen 1 0 WID_TIME_SEC 1770887730 2 9) 1770887730);
      [| vm_compute; reflexivity].
    apply (wid_reach_next (mk_wid_gen 1 0 WID_TIME_SEC 1770887730 1 9) 1770887730);
      [| vm_compute; reflexivity].
    apply (wid_reach_next (mk_wid_gen 1 0 WID_TIME_SEC 1770887730 0 9) 1770887730);
      [| vm_compute; reflexivity].
    apply (wid_reach_next (wid_gen_init_ex 1 0 WID_TIME_SEC) 1770887730);
      [| vm_compute; reflexivity].
    apply wid_reach_init.
  - vm_compute. discriminate.
  - vm_compute. discriminate.
  - vm_compute. reflexivity.
  - apply wid_later_refl.
  - vm_compute. reflexivity.
  - vm_compute. discriminate.
Defined.

Lemma hlc_emit_order (g g1 g2 g3 : hlc_wid_gen_t) (now1 now2 : Z)
      (rnd1 rnd2 : Z -> Z) (len1 len2 : Z) (a b : cstring) :
  hlc_reachable g -> WID_MAX_LEN <= len1 -> WID_MAX_LEN <= len2 ->
  hlc_wid_gen_next g now1 rnd1 len1 = Some (g1, a) ->
  hlc_later g1 g2 ->
  hlc_wid_gen_next g2 now2 rnd2 len2 = Some (g3, b) ->
  tick_seconds (htime_unit g) (pt g3) <= 253402300799 ->
  strcmp a b < 0.
Proof.
  intros Hr Hl1 Hl2 Ha Hlater Hb Htick.
  pose proof (hlc_reachable_ok g Hr) as Hok.
  destruct (hlc_wid_gen_next_parts g g1 now1 rnd1 len1 a Ha) as (S1 & _).
  destruct (hlc_wid_gen_next_parts g2 g3 now2 rnd2 len2 b Hb) as (S3 & _).
  destruct (hlc_wid_gen_next_state_step g g1 now1 Hok S1) as (Hok1 & _ & Hseq1 & _).
  destruct (hlc_wid_gen_next_state_params g g1 now1 S1) as (EW1 & EZ1 & EU1).
  destruct (hlc_later_clock g1 g2 Hok1 Hlater) as (Hok2 & EW2 & EZ2 & EU2 & _ & Hc2).
  destruct (hlc_wid_gen_next_state_step g2 g3 now2 Hok2 S3)
    as (Hok3 & _ & Hseq3 & _ & Hlt3).
  destruct (hlc_wid_gen_next_state_params g2 g3 now2 S3) as (EW3 & EZ3 & EU3).
  assert (Hlt : lex_lt (hlc_clock g1) (hlc_clock g3)).
  { destruct Hc2 as [<- | Hc2]; [exact Hlt3 | exact (lex_lt_trans _ _ _ Hc2 Hlt3)]. }
  assert (Ht1 : 0 <= pt g1) by apply Hok1.
  assert (Ht13 : pt g1 <= pt g3).
  { unfold lex_lt, hlc_clock in Hlt. cbn [fst snd] in Hlt. lia. }
  assert (Y3 : four_digit_year (htime_unit g) (pt g3)).
  { apply four_digit_year_range. apply (tick_seconds_range _ (pt g3) (pt g3));
      [lia | exact Htick]. }
  assert (Y1 : four_digit_year (htime_unit g) (pt g1)).
  { apply four_digit_year_range. apply (tick_seconds_range _ _ (pt g3));
      [lia | exact Htick]. }
  assert (EU : htime_unit g2 = htime_unit g) by congruence.
  assert (EW : hW g2 = hW g) by congruence.
  rewrite <- EU in Y3.
  destruct (hlc_wid_gen_next_anatomy g g1 now1 rnd1 len1 a Hok Hl1 Ha Y1)
    as (_ & t1 & sfx1 & _ & F1 & _ & _ & _ & _ & _ & _ & ->).
  destruct (hlc_wid_gen_next_anatomy g2 g3 now2 rnd2 len2 b Hok2 Hl2 Hb Y3)
    as (_ & t3 & sfx3 & _ & F3 & _ & _ & _ & _ & _ & _ & ->).
  rewrite EU in F3, Y3. rewrite EW.
  destruct Hok as (Hw & _ & Hmax & _).
  assert (M1 : max_lc g1 = 10 ^ hW g - 1).
  { destruct Hok1 as (_ & _ & -> & _). rewrite EW1. reflexivity. }
  assert (M3 : max_lc g3 = 10 ^ hW g - 1).
  { destruct Hok3 as (_ & _ & -> & _). rewrite EW3, EW. reflexivity. }
  apply (clock_text_strcmp (htime_unit g) (hW g) (pt g1) (lc g1) (pt g3) (lc g3));
    try assumption; try exact Hlt; lia.
Qed.

(** X14. HLC-WIDs sort in the order they were generated: of two
    identifiers a generator writes into buffers of at least [WID_MAX_LEN]
    bytes, with any calls of [hlc_wid_gen_next] and [hlc_wid_observe]
    between them, the earlier one compares below the later one under
    [strcmp], so that no identifier is emitted twice.  This holds as long
    as [pt] stays within the year 9999 (the second identifier has
    [tick_seconds pt <= 253402300799]; beyond, the year has five digits)
    and no call in between overflowed: [hlc_later] holds the calls that
    complete, and a call of [hlc_wid_observe] with a remote counter or a
    remote time of [INT64_MAX] may not (see C7). *)
Theorem hlc_wid_gen_next_sorted (g g1 g2 g3 : hlc_wid_gen_t) (now1 now2 : Z)
        (rnd1 rnd2 : Z -> Z) (len1 len2 : Z) (a b : cstring) :
  hlc_reachable g -> WID_MAX_LEN <= len1 -> WID_MAX_LEN <= len2 ->
  hlc_wid_gen_next g now1 rnd1 len1 = Some (g1, a) ->
  hlc_later g1 g2 ->
  hlc_wid_gen_next g2 now2 rnd2 len2 = Some (g3, b) ->
  tick_seconds (htime_unit g) (pt g3) <= 253402300799 ->
  strcmp a b < 0 /\ a <> b.
Proof.
  intros Hr Hl1 Hl2 Ha Hlater Hb Htick.
  pose proof (hlc_emit_order g g1 g2 g3 now1 now2 rnd1 rnd2 len1 len2 a b
                Hr Hl1 Hl2 Ha Hlater Hb Htick) as H.
  split; [exact H |]. intros ->. rewrite strcmp_refl in H. lia.
Qed.

Lemma hlc_wid_gen_next_sorted_witness :
  strcmp (str "20260212T091530.0000Z-n") (str "20260212T091535.0011Z-n") < 0 /\
  str "20260212T091530.0000Z-n" <> str "20260212T091535.0011Z-n".
Proof.
  apply (hlc_wid_gen_next_sorted
           (mk_hlc_gen 4 0 WID_TIME_SEC (str "n") 0 0 9999)
           (mk_hlc_gen 4 0 WID_TIME_SEC (str "n") 1770887730 0 9999)
           (mk_hlc_gen 4 0 WID_TIME_SEC (str "n") 1770887735 10 9999)
           (mk_hlc_gen 4 0 WID_TIME_SEC (str "n") 1770887735 11 9999)
           1770887730 1770887730 (fun _ => 0) (fun _ => 0) WID_MAX_LEN WID_MAX_LEN).
  - apply (hlc_reach_init (str "n") 4 0 WID_TIME_SEC). vm_compute. reflexivity.
  - vm_compute. discriminate.
  - vm_compute. discriminate.
  - vm_compute. reflexivity.
  - apply (hlc_later_step _ (mk_hlc_gen 4 0 WID_TIME_SEC (str "n") 1770887730 0 9999)).
    + apply hlc_later_refl.
    + apply (hlc_step_observe _ 1770887735 9 1770887730). vm_compute. reflexivity.
  - vm_compute. reflexivity.
  - vm_compute. discriminate.
Defined.

(** ** Bulk generation *)

Lemma wid_later_trans (a b c : wid_gen_t) :
  wid_later a b -> wid_later b c -> wid_later a c.
Proof.
  intros Hab Hbc. induction Hbc as [|g1 now g2 _ IH Hstep]; [exact Hab |].
  exact (wid_later_next a g1 now g2 IH Hstep).
Qed.


Lemma tick_in_range (u : wid_time_unit_t) (t1 t2 : Z) :
  0 <= t1 <= t2 -> tick_seconds u t2 <= 253402300799 -> four_digit_year u t1.
Proof.
  intros H H2. apply four_digit_year_range. exact (tick_seconds_range u t1 t2 H H2).
Qed.






Lemma hlc_later_trans (a b c : hlc_wid_gen_t) :
  hlc_later a b -> hlc_later b c -> hlc_later a c.
Proof.
  intros Hab Hbc. induction Hbc as [|g1 g2 _ IH Hstep]; [exact Hab |].
  exact (hlc_later_step a g1 g2 IH Hstep).
Qed.

Lemma hlc_later_one (g g1 : hlc_wid_gen_t) (now : Z) :
  hlc_wid_gen_next_state g now = Some g1 -> hlc_later g g1.
Proof.
  intros H. apply (hlc_later_step g g g1 (hlc_later_refl g)).
  exact (hlc_step_next g now g1 H).
Qed.






(** ** Poll-based streams *)

Lemma wid_stream_poll_cases (s s' : wid_async_wid_stream_t) (now_ns now_tick : Z)
      (rnd : Z -> Z) (out_len : Z) (r : option cstring) :
  wid_async_wid_stream_poll s now_ns now_tick rnd out_len = Some (s', r) ->
  (r = None /\ s' = s) \/
  (exists out g',
      r = Some out /\ initialized s = true /\ remaining s <> 0 /\
      (0 < next_due_ns s -> next_due_ns s <= now_ns) /\
      wid_gen_next (gen s) now_tick rnd out_len = Some (g', out) /\
      s' = mk_wid_stream g' (if 0 <? remaining s then remaining s - 1 else remaining s)
                         (interval_ms s) (now_ns + interval_ms s * 1000000) true).
Proof.
  unfold wid_async_wid_stream_poll. intros H.
  destruct (initialized s) eqn:Ei; cbn [negb] in H;
    [| injection H as <- <-; left; split; reflexivity].
  destruct (remaining s =? 0) eqn:Er; [injection H as <- <-; left; split; reflexivity |].
  destruct ((0 <? next_due_ns s) && (now_ns <? next_due_ns s)) eqn:Ed;
    [injection H as <- <-; left; split; reflexivity |].
  destruct (wid_gen_next (gen s) now_tick rnd out_len) as [[g' out]|]; [| discriminate].
  cbn [bind fst snd] in H.
  destruct (add_i64 now_ns (interval_ms s * 1000000)) as [due|] eqn:Ea; [| discriminate].
  cbn [bind] in H. injection H as <- <-. apply add_i64_some in Ea as [-> _].
  right. exists out, g'. apply Z.eqb_neq in Er.
  repeat split; try assumption.
  intros Hpos. apply andb_false_iff in Ed as [Ed | Ed]; tests_to_props; lia.
Qed.

Lemma wid_stream_polls_count (rs : list poll_reading) :
  forall (s s' : wid_async_wid_stream_t) (out_len : Z) (outs : list cstring),
    wid_stream_polls s rs out_len = Some (s', outs) ->
    initialized s = true -> -1 <= remaining s ->
    initialized s' = true /\ interval_ms s' = interval_ms s /\
    wid_later (gen s) (gen s') /\
    (if remaining s <? 0 then remaining s' = remaining s
     else remaining s' = remaining s - Z.of_nat (length outs) /\ 0 <= remaining s').
Proof.
  induction rs as [|[[now_ns now_tick] rnd] rs IH]; intros s s' out_len outs H Hi Hr.
  - cbn in H. injection H as <- <-. split; [exact Hi |]. split; [reflexivity |].
    split; [apply wid_later_refl |].
    destruct (remaining s <? 0) eqn:E; tests_to_props; [reflexivity |]. cbn [length]. lia.
  - cbn [wid_stream_polls] in H.
    destruct (wid_async_wid_stream_poll s now_ns now_tick rnd out_len) as [[s1 r]|] eqn:Ep;
      [| discriminate]. cbn [bind fst snd] in H.
    destruct (wid_stream_polls s1 rs out_len) as [[s2 outs']|] eqn:Er; [| discriminate].
    cbn [bind fst snd] in H. injection H as <- <-.
    destruct (wid_stream_poll_cases s s1 _ _ _ _ r Ep)
      as [[-> ->] | (out & g' & -> & _ & Hne & _ & Hnext & ->)].
    + exact (IH s s2 out_len outs' Er Hi Hr).
    + destruct (IH _ s2 out_len outs' Er eq_refl) as (Hi2 & Hint & Hl & Hrem).
      { cbn [remaining]. destruct (0 <? remaining s) eqn:E; tests_to_props; lia. }
      cbn [gen remaining interval_ms] in *.
      split; [exact Hi2 |]. split; [exact Hint |].
      split.
      { apply (wid_later_trans _ g'); [| exact Hl].
        apply (wid_later_next _ (gen s) now_tick g' (wid_later_refl _)).
        exact (wid_gen_next_state_of_next _ _ _ _ _ _ Hnext). }
      cbn [length].
      destruct (remaining s <? 0) eqn:E; tests_to_props.
      * destruct (0 <? remaining s) eqn:E'; tests_to_props; [lia |].
        rewrite (proj2 (Z.ltb_lt _ _) E) in Hrem. exact Hrem.
      * destruct (0 <? remaining s) eqn:E'; tests_to_props; [| lia].
        destruct (remaining s - 1 <? 0) eqn:E''; tests_to_props; lia.
Qed.

(** X17. A WID stream keeps its budget.  After a successful
    [wid_async_wid_stream_init] and any sequence of polls: with [count = 0]
    the stream is never done; with [count > 0] the polls have emitted at
    most [count] identifiers, [remaining] is [count] minus their number, the
    stream is done exactly when all [count] were emitted, and a done stream
    answers every further poll with false and stays as it is. *)
Theorem wid_stream_budget (s0 s s' : wid_async_wid_stream_t) (w z count interval : Z)
        (u : wid_time_unit_t) (rs : list poll_reading) (out_len : Z)
        (outs : list cstring) :
  wid_async_wid_stream_init s0 w z u count interval = (true, s) ->
  wid_stream_polls s rs out_len = Some (s', outs) ->
  0 <= count /\ 0 <= interval /\ interval_ms s' = interval /\
  wid_later (wid_gen_init_ex w z u) (gen s') /\
  (if count =? 0
   then remaining s' = -1 /\ wid_async_wid_stream_done s' = false
   else Z.of_nat (length outs) <= count /\
        remaining s' = count - Z.of_nat (length outs) /\
        wid_async_wid_stream_done s' = (Z.of_nat (length outs) =? count)) /\
  (wid_async_wid_stream_done s' = true ->
   forall now_ns now_tick rnd len,
     wid_async_wid_stream_poll s' now_ns now_tick rnd len = Some (s', None)).
Proof.
  unfold wid_async_wid_stream_init. intros Hinit Hpolls.
  destruct ((count <? 0) || (interval <? 0)) eqn:G; [discriminate |].
  apply orb_false_iff in G as [G1 G2]. apply Z.ltb_ge in G1, G2.
  injection Hinit as <-.
  destruct (wid_stream_polls_count rs _ s' out_len outs Hpolls eq_refl)
    as (Hi & Hint & Hl & Hrem).
  { cbn [remaining]. destruct (count =? 0); lia. }
  cbn [gen remaining interval_ms] in *.
  split; [exact G1 |]. split; [exact G2 |]. split; [exact Hint |]. split; [exact Hl |].
  split.
  - unfold wid_async_wid_stream_done. rewrite Hi. cbn [negb orb].
    destruct (count =? 0) eqn:E; tests_to_props.
    + change (-1 <? 0) with true in Hrem. cbv iota in Hrem. rewrite Hrem.
      split; reflexivity.
    + destruct (count <? 0) eqn:E'; tests_to_props; [lia |].
      destruct Hrem as [Hrem H0]. split; [lia |]. split; [exact Hrem |].
      rewrite Hrem.
      destruct (Z.of_nat (length outs) =? count) eqn:E''; tests_to_props;
        [apply Z.eqb_eq | apply Z.eqb_neq]; lia.
  - unfold wid_async_wid_stream_done, wid_async_wid_stream_poll. rewrite Hi. cbn [negb orb].
    intros -> now_ns now_tick rnd len. reflexivity.
Qed.

Lemma wid_stream_budget_witness :
  exists s s' outs,
    wid_async_wid_stream_init
      (mk_wid_stream (mk_wid_gen 0 0 WID_TIME_SEC 0 0 0) 7 7 7 false)
      4 0 WID_TIME_SEC 2 0 = (true, s) /\
    wid_stream_polls s [(10, 1770887730, fun _ => 0); (20, 1770887730, fun _ => 0);
                        (30, 1770887731, fun _ => 0)] WID_MAX_LEN = Some (s', outs) /\
    outs = [str "20260212T091530.0000Z"; str "20260212T091530.0001Z"] /\
    remaining s' = 2 - Z.of_nat (length outs) /\
    wid_async_wid_stream_done s' = true.
Proof.
  eexists (mk_wid_stream (wid_gen_init_ex 4 0 WID_TIME_SEC) 2 0 0 true).
  eexists (mk_wid_stream (mk_wid_gen 4 0 WID_TIME_SEC 1770887730 1 9999) 0 0 20 true).
  exists [str "20260212T091530.0000Z"; str "20260212T091530.0001Z"].
  assert (Hinit : wid_async_wid_stream_init
                    (mk_wid_stream (mk_wid_gen 0 0 WID_TIME_SEC 0 0 0) 7 7 7 false)
                    4 0 WID_TIME_SEC 2 0
                  = (true, mk_wid_stream (wid_gen_init_ex 4 0 WID_TIME_SEC) 2 0 0 true))
    by (vm_compute; reflexivity).
  assert (Hpolls : wid_stream_polls (mk_wid_stream (wid_gen_init_ex 4 0 WID_TIME_SEC) 2 0 0 true)
                     [(10, 1770887730, fun _ => 0); (20, 1770887730, fun _ => 0);
                      (30, 1770887731, fun _ => 0)] WID_MAX_LEN
                   = Some (mk_wid_stream (mk_wid_gen 4 0 WID_TIME_SEC 1770887730 1 9999)
                                         0 0 20 true,
                           [str "20260212T091530.0000Z"; str "20260212T091530.0001Z"]))
    by (vm_compute; reflexivity).
  destruct (wid_stream_budget _ _ _ _ _ _ _ _ _ _ _ Hinit Hpolls)
    as (_ & _ & _ & _ & (_ & Hrem & Hdone) & _).
  split; [exact Hinit |]. split; [exact Hpolls |]. split; [reflexivity |].
  split; [exact Hrem | exact Hdone].
Defined.

(** X18. A WID stream paces its output.  After a poll that emits at the
    monotonic time [t1], a poll at any time before [t1 + interval_ms *
    1000000] returns false and changes nothing, and a poll that emits comes
    no earlier than that, provided that this due time is positive (the
    stream takes a due time of 0 or less for no limit). *)
Theorem wid_stream_pacing (s s1 : wid_async_wid_stream_t) (t1 tick1 : Z)
        (rnd1 : Z -> Z) (len1 : Z) (out1 : cstring) :
  wid_async_wid_stream_poll s t1 tick1 rnd1 len1 = Some (s1, Some out1) ->
  0 < t1 + interval_ms s * 1000000 ->
  forall (t2 tick2 : Z) (rnd2 : Z -> Z) (len2 : Z),
    (t2 < t1 + interval_ms s * 1000000 ->
     wid_async_wid_stream_poll s1 t2 tick2 rnd2 len2 = Some (s1, None)) /\
    (forall s2 out2,
        wid_async_wid_stream_poll s1 t2 tick2 rnd2 len2 = Some (s2, Some out2) ->
        t1 + interval_ms s * 1000000 <= t2).
Proof.
  intros H1 Hpos t2 tick2 rnd2 len2.
  destruct (wid_stream_poll_cases s s1 _ _ _ _ _ H1)
    as [[E _] | (out & g' & _ & _ & _ & _ & _ & ->)]; [discriminate E |].
  split.
  - intros Hlt. unfold wid_async_wid_stream_poll. cbn [initialized remaining next_due_ns negb].
    destruct (_ =? 0); [reflexivity |].
    apply Z.ltb_lt in Hpos, Hlt. rewrite Hpos, Hlt. reflexivity.
  - intros s2 out2 H2.
    destruct (wid_stream_poll_cases _ s2 _ _ _ _ _ H2)
      as [[E _] | (out' & g2 & _ & _ & _ & Hdue & _ & _)]; [discriminate E |].
    cbn [next_due_ns] in Hdue. exact (Hdue Hpos).
Qed.

Lemma wid_stream_pacing_witness :
  wid_async_wid_stream_poll
    (mk_wid_stream (mk_wid_gen 4 0 WID_TIME_SEC 1770887730 0 9999) (-1) 250 250001000 true)
    250000999 1770887731 (fun _ => 0) WID_MAX_LEN
  = Some (mk_wid_stream (mk_wid_gen 4 0 WID_TIME_SEC 1770887730 0 9999) (-1) 250
                        250001000 true, None).
Proof.
  apply (wid_stream_pacing
           (mk_wid_stream (wid_gen_init_ex 4 0 WID_TIME_SEC) (-1) 250 0 true)
           (mk_wid_stream (mk_wid_gen 4 0 WID_TIME_SEC 1770887730 0 9999) (-1) 250
                          250001000 true)
           1000 1770887730 (fun _ => 0) WID_MAX_LEN (str "20260212T091530.0000Z")).
  - vm_compute. reflexivity.
  - vm_compute. reflexivity.
  - vm_compute. reflexivity.
Defined.

Lemma hlc_stream_poll_cases (s s' : wid_async_hlc_stream_t) (now_ns now_tick : Z)
      (rnd : Z -> Z) (out_len : Z) (r : option cstring) :
  wid_async_hlc_stream_poll s now_ns now_tick rnd out_len = Some (s', r) ->
  (r = None /\ s' = s) \/
  (exists out g',
      r = Some out /\ hinitialized s = true /\ hremaining s <> 0 /\
      (0 < hnext_due_ns s -> hnext_due_ns s <= now_ns) /\
      hlc_wid_gen_next (hgen s) now_tick rnd out_len = Some (g', out) /\
      s' = mk_hlc_stream g' (if 0 <? hremaining s then hremaining s - 1 else hremaining s)
                         (hinterval_ms s) (now_ns + hinterval_ms s * 1000000) true).
Proof.
  unfold wid_async_hlc_stream_poll. intros H.
  destruct (hinitialized s) eqn:Ei; cbn [negb] in H;
    [| injection H as <- <-; left; split; reflexivity].
  destruct (hremaining s =? 0) eqn:Er; [injection H as <- <-; left; split; reflexivity |].
  destruct ((0 <? hnext_due_ns s) && (now_ns <? hnext_due_ns s)) eqn:Ed;
    [injection H as <- <-; left; split; reflexivity |].
  destruct (hlc_wid_gen_next (hgen s) now_tick rnd out_len) as [[g' out]|]; [| discriminate].
  cbn [bind fst snd] in H.
  destruct (add_i64 now_ns (hinterval_ms s * 1000000)) as [due|] eqn:Ea; [| discriminate].
  cbn [bind] in H. injection H as <- <-. apply add_i64_some in Ea as [-> _].
  right. exists out, g'. apply Z.eqb_neq in Er.
  repeat split; try assumption.
  intros Hpos. apply andb_false_iff in Ed as [Ed | Ed]; tests_to_props; lia.
Qed.

Lemma hlc_stream_polls_count (rs : list poll_reading) :
  forall (s s' : wid_async_hlc_stream_t) (out_len : Z) (outs : list cstring),
    hlc_stream_polls s rs out_len = Some (s', outs) ->
    hinitialized s = true -> -1 <= hremaining s ->
    hinitialized s' = true /\ hinterval_ms s' = hinterval_ms s /\
    hlc_later (hgen s) (hgen s') /\
    (if hremaining s <? 0 then hremaining s' = hremaining s
     else hremaining s' = hremaining s - Z.of_nat (length outs) /\ 0 <= hremaining s').
Proof.
  induction rs as [|[[now_ns now_tick] rnd] rs IH]; intros s s' out_len outs H Hi Hr.
  - cbn in H. injection H as <- <-. split; [exact Hi |]. split; [reflexivity |].
    split; [apply hlc_later_refl |].
    destruct (hremaining s <? 0) eqn:E; tests_to_props; [reflexivity |]. cbn [length]. lia.
  - cbn [hlc_stream_polls] in H.
    destruct (wid_async_hlc_stream_poll s now_ns now_tick rnd out_len) as [[s1 r]|] eqn:Ep;
      [| discriminate]. cbn [bind fst snd] in H.
    destruct (hlc_stream_polls s1 rs out_len) as [[s2 outs']|] eqn:Er; [| discriminate].
    cbn [bind fst snd] in H. injection H as <- <-.
    destruct (hlc_stream_poll_cases s s1 _ _ _ _ r Ep)
      as [[-> ->] | (out & g' & -> & _ & Hne & _ & Hnext & ->)].
    + exact (IH s s2 out_len outs' Er Hi Hr).
    + destruct (IH _ s2 out_len outs' Er eq_refl) as (Hi2 & Hint & Hl & Hrem).
      { cbn [hremaining]. destruct (0 <? hremaining s) eqn:E; tests_to_props; lia. }
      cbn [hgen hremaining hinterval_ms] in *.
      split; [exact Hi2 |]. split; [exact Hint |].
      split.
      { apply (hlc_later_trans _ g'); [| exact Hl].
        apply (hlc_later_one _ _ now_tick).
        exact (proj1 (hlc_wid_gen_next_parts _ _ _ _ _ _ Hnext)). }
      cbn [length].
      destruct (hremaining s <? 0) eqn:E; tests_to_props.
      * destruct (0 <? hremaining s) eqn:E'; tests_to_props; [lia |].
        rewrite (proj2 (Z.ltb_lt _ _) E) in Hrem. exact Hrem.
      * destruct (0 <? hremaining s) eqn:E'; tests_to_props; [| lia].
        destruct (hremaining s - 1 <? 0) eqn:E''; tests_to_props; lia.
Qed.

(** X19. An HLC stream keeps its budget.  After a successful
    [wid_async_hlc_stream_init] and any sequence of polls: with [count = 0]
    the stream is never done; with [count > 0] the polls have emitted at
    most [count] identifiers, [remaining] is [count] minus their number, the
    stream is done exactly when all [count] were emitted, and a done stream
    answers every further poll with false and stays as it is. *)
Theorem hlc_stream_budget (s0 s s' : wid_async_hlc_stream_t) (nd : cstring)
        (w z count interval : Z) (u : wid_time_unit_t) (rs : list poll_reading)
        (out_len : Z) (outs : list cstring) :
  wid_async_hlc_stream_init s0 nd w z u count interval = (true, s) ->
  hlc_stream_polls s rs out_len = Some (s', outs) ->
  0 <= count /\ 0 <= interval /\ hinterval_ms s' = interval /\
  (exists g0, hlc_wid_gen_init_ex nd w z u = Some g0 /\ hlc_later g0 (hgen s')) /\
  (if count =? 0
   then hremaining s' = -1 /\ wid_async_hlc_stream_done s' = false
   else Z.of_nat (length outs) <= count /\
        hremaining s' = count - Z.of_nat (length outs) /\
        wid_async_hlc_stream_done s' = (Z.of_nat (length outs) =? count)) /\
  (wid_async_hlc_stream_done s' = true ->
   forall now_ns now_tick rnd len,
     wid_async_hlc_stream_poll s' now_ns now_tick rnd len = Some (s', None)).
Proof.
  unfold wid_async_hlc_stream_init. intros Hinit Hpolls.
  destruct ((count <? 0) || (interval <? 0)) eqn:G; [discriminate |].
  apply orb_false_iff in G as [G1 G2]. apply Z.ltb_ge in G1, G2.
  destruct (hlc_wid_gen_init_ex nd w z u) as [g0|] eqn:Eg; [| discriminate].
  injection Hinit as <-.
  destruct (hlc_stream_polls_count rs _ s' out_len outs Hpolls eq_refl)
    as (Hi & Hint & Hl & Hrem).
  { cbn [hremaining]. destruct (count =? 0); lia. }
  cbn [hgen hremaining hinterval_ms] in *.
  split; [exact G1 |]. split; [exact G2 |]. split; [exact Hint |].
  split; [exists g0; split; [reflexivity | exact Hl] |].
  split.
  - unfold wid_async_hlc_stream_done. rewrite Hi. cbn [negb orb].
    destruct (count =? 0) eqn:E; tests_to_props.
    + change (-1 <? 0) with true in Hrem. cbv iota in Hrem. rewrite Hrem.
      split; reflexivity.
    + destruct (count <? 0) eqn:E'; tests_to_props; [lia |].
      destruct Hrem as [Hrem H0]. split; [lia |]. split; [exact Hrem |].
      rewrite Hrem.
      destruct (Z.of_nat (length outs) =? count) eqn:E''; tests_to_props;
        [apply Z.eqb_eq | apply Z.eqb_neq]; lia.
  - unfold wid_async_hlc_stream_done, wid_async_hlc_stream_poll. rewrite Hi. cbn [negb orb].
    intros -> now_ns now_tick rnd len. reflexivity.
Qed.


Lemma hlc_stream_budget_witness :
  exists s s' outs,
    wid_async_hlc_stream_init hlc_stream_zero (str "node01") 4 0 WID_TIME_SEC 2 0
    = (true, s) /\
    hlc_stream_polls s [(10, 1770887730, fun _ => 0); (20, 1770887730, fun _ => 0);
                        (30, 1770887731, fun _ => 0)] WID_MAX_LEN = Some (s', outs) /\
    outs = [str "20260212T091530.0000Z-node01"; str "20260212T091530.0001Z-node01"] /\
    hremaining s' = 2 - Z.of_nat (length outs) /\
    wid_async_hlc_stream_done s' = true.
Proof.
  exists (mk_hlc_stream (mk_hlc_gen 4 0 WID_TIME_SEC (str "node01") 0 0 9999) 2 0 0 true).
  exists (mk_hlc_stream (mk_hlc_gen 4 0 WID_TIME_SEC (str "node01") 1770887730 1 9999)
                        0 0 20 true).
  exists [str "20260212T091530.0000Z-node01"; str "20260212T091530.0001Z-node01"].
  assert (Hinit : wid_async_hlc_stream_init hlc_stream_zero (str "node01") 4 0
                    WID_TIME_SEC 2 0
                  = (true, mk_hlc_stream (mk_hlc_gen 4 0 WID_TIME_SEC (str "node01") 0 0 9999)
                                         2 0 0 true))
    by (vm_compute; reflexivity).
  assert (Hpolls : hlc_stream_polls
                     (mk_hlc_stream (mk_hlc_gen 4 0 WID_TIME_SEC (str "node01") 0 0 9999)
                                    2 0 0 true)
                     [(10, 1770887730, fun _ => 0); (20, 1770887730, fun _ => 0);
                      (30, 1770887731, fun _ => 0)] WID_MAX_LEN
                   = Some (mk_hlc_stream
                             (mk_hlc_gen 4 0 WID_TIME_SEC (str "node01") 1770887730 1 9999)
                             0 0 20 true,
                           [str "20260212T091530.0000Z-node01";
                            str "20260212T091530.0001Z-node01"]))
    by (vm_compute; reflexivity).
  destruct (hlc_stream_budget _ _ _ _ _ _ _ _ _ _ _ _ Hinit Hpolls)
    as (_ & _ & _ & _ & (_ & Hrem & Hdone) & _).
  split; [exact Hinit |]. split; [exact Hpolls |]. split; [reflexivity |].
  split; [exact Hrem | exact Hdone].
Defined.

(** X20. How [wid_async_hlc_stream_init] fails.  It succeeds exactly when
    the count and the interval are not negative and the node is a
    non-empty word over [[A-Za-z0-9_]].  A negative count or interval
    leaves the caller's object untouched; an invalid node leaves it zeroed:
    such a stream reports done and answers every poll with false. *)
Theorem hlc_stream_init_cases (s : wid_async_hlc_stream_t) (nd : cstring) (w z : Z)
        (u : wid_time_unit_t) (count interval : Z) :
  (fst (wid_async_hlc_stream_init s nd w z u count interval) = true <->
   0 <= count /\ 0 <= interval /\ node_text nd) /\
  (count < 0 \/ interval < 0 ->
   snd (wid_async_hlc_stream_init s nd w z u count interval) = s) /\
  (0 <= count /\ 0 <= interval /\ ~ node_text nd ->
   let s' := snd (wid_async_hlc_stream_init s nd w z u count interval) in
   s' = hlc_stream_zero /\
   wid_async_hlc_stream_done s' = true /\
   forall now_ns now_tick rnd len,
     wid_async_hlc_stream_poll s' now_ns now_tick rnd len = Some (s', None)).
Proof.
  unfold wid_async_hlc_stream_init.
  pose proof (wid_valid_node_spec nd) as Hn.
  destruct ((count <? 0) || (interval <? 0)) eqn:G.
  - apply orb_true_iff in G. cbn [fst snd].
    split; [split; [discriminate | intros (? & ? & _); destruct G; tests_to_props; lia] |].
    split; [reflexivity |].
    intros (? & ? & _). destruct G; tests_to_props; lia.
  - apply orb_false_iff in G as [G1 G2]. apply Z.ltb_ge in G1, G2.
    unfold hlc_wid_gen_init_ex. destruct (wid_valid_node nd) eqn:V; cbn [negb fst snd].
    + split; [split; [intros _; repeat split; try assumption; apply Hn; reflexivity
                     | reflexivity] |].
      split; [intros [? | ?]; lia |].
      intros (_ & _ & C). exfalso. apply C, Hn. reflexivity.
    + split; [split; [discriminate | intros (_ & _ & C); apply Hn in C; discriminate C] |].
      split; [intros [? | ?]; lia |].
      intros _. cbv zeta. repeat split.
Qed.

(** ** The command line *)

Lemma code_nonneg (c : ascii) : 0 <= code c.
Proof. unfold code. lia. Qed.

Lemma code_NUL (c : ascii) : code c = 0 -> c = NUL.
Proof. intros H. apply code_inj. rewrite H. reflexivity. Qed.

Lemma strcmp_eq (a : cstring) :
  forall b, no_nul a -> no_nul b -> (strcmp a b = 0 <-> a = b).
Proof.
  unfold no_nul. induction a as [|x a IH]; intros [|y b] Ha Hb; cbn [strcmp].
  - split; reflexivity.
  - split; [| discriminate]. intros H. exfalso. apply Hb. left.
    apply code_NUL. change (code NUL) with 0 in H. lia.
  - split; [| discriminate]. intros H. exfalso. apply Ha. left.
    apply code_NUL. change (code NUL) with 0 in H. lia.
  - destruct (Ascii.eqb_spec x y) as [-> | Hne].
    + rewrite IH.
      * split; [intros ->; reflexivity | intros H; injection H as ->; reflexivity].
      * intros C. apply Ha. right. exact C.
      * intros C. apply Hb. right. exact C.
    + split.
      * intros H. exfalso. apply Hne, code_inj. lia.
      * intros H. injection H as -> _. contradiction.
Qed.

(** X21. The names of the time units: [wid_time_unit_from_str] accepts
    exactly the two strings [wid_time_unit_to_str] produces, [sec] and
    [ms], and reads each back as the unit it stands for. *)
Theorem time_unit_names (s : cstring) (u : wid_time_unit_t) :
  no_nul s ->
  (wid_time_unit_from_str s = Some u <-> s = wid_time_unit_to_str u).
Proof.
  intros Hs. unfold wid_time_unit_from_str, wid_time_unit_to_str.
  assert (Hsec : no_nul (str "sec")).
  { unfold no_nul. cbn. intros [H | [H | [H | []]]]; discriminate H. }
  assert (Hms : no_nul (str "ms")).
  { unfold no_nul. cbn. intros [H | [H | []]]; discriminate H. }
  pose proof (strcmp_eq s (str "sec") Hs Hsec) as E1.
  pose proof (strcmp_eq s (str "ms") Hs Hms) as E2.
  destruct (strcmp s (str "sec") =? 0) eqn:T1; tests_to_props.
  - apply E1 in T1. subst s. destruct u; cbn [is_ms]; split; intros H;
      try reflexivity; discriminate H.
  - destruct (strcmp s (str "ms") =? 0) eqn:T2; tests_to_props.
    + apply E2 in T2. subst s. destruct u; cbn [is_ms]; split; intros H;
        try reflexivity; discriminate H.
    + split; [discriminate |]. intros ->. destruct u; cbn [is_ms] in *.
      * exfalso. apply T1, E1. reflexivity.
      * exfalso. apply T2, E2. reflexivity.
Qed.

Lemma time_unit_names_witness :
  wid_time_unit_from_str (str "ms") = Some WID_TIME_MS <->
  str "ms" = wid_time_unit_to_str WID_TIME_MS.
Proof.
  apply (time_unit_names (str "ms") WID_TIME_MS).
  unfold no_nul. cbn. intros [H | [H | []]]; discriminate H.
Defined.

Lemma clamp_in_range (w z dflt : Z) :
  params_ok w z -> clamp_w w = w /\ clamp_z dflt z = z.
Proof.
  unfold params_ok, clamp_w, clamp_z, WID_MAX_W, WID_MAX_Z. intros [Hw Hz].
  destruct (0 <? w) eqn:E1; tests_to_props; [| lia].
  destruct (18 <? w) eqn:E2; tests_to_props; [lia |].
  destruct (0 <=? z) eqn:E3; tests_to_props; [| lia].
  destruct (64 <? z) eqn:E4; tests_to_props; [lia |]. split; reflexivity.
Qed.

Lemma tick_seconds_max0 (u : wid_time_unit_t) (now : Z) :
  tick_seconds u now <= 253402300799 ->
  tick_seconds u (Z.max now 0) <= 253402300799 /\ now < INT64_MAX.
Proof.
  intros H. split.
  - destruct (Z.max_spec now 0) as [[_ ->] | [_ ->]]; [| exact H].
    destruct u; cbn; lia.
  - unfold tick_seconds in H. unfold INT64_MAX. destruct (is_ms u); [| lia].
    pose proof (Z.quot_rem' now 1000) as Q.
    pose proof (Z.rem_bound_abs now 1000 ltac:(lia)) as R. lia.
Qed.

(** The first call of [wid_gen_next] after the initialisation. *)
Lemma wid_first_step (w z : Z) (u : wid_time_unit_t) (now : Z) :
  params_ok w z ->
  wid_gen_next_state (wid_gen_init_ex w z u) now
  = Some (mk_wid_gen w z u (Z.max now 0) 0 (10 ^ w - 1)).
Proof.
  intros Hp. rewrite wid_gen_init_ex_fields.
  destruct (clamp_in_range w z WID_DEFAULT_Z Hp) as [-> ->].
  destruct Hp as [Hw _]. pose proof (pow10_bounds w Hw) as P.
  destruct (Z_lt_ge_dec 0 now) as [L | G].
  - rewrite wid_step_fresh by lia. rewrite Z.max_l by lia. reflexivity.
  - rewrite wid_step_same by (unfold INT64_MIN, INT64_MAX; lia).
    rewrite Z.max_r by lia. reflexivity.
Qed.

(** The first call of [hlc_wid_gen_next] after the initialisation. *)
Lemma hlc_first_step (nd : cstring) (w z : Z) (u : wid_time_unit_t) (now : Z)
      (g : hlc_wid_gen_t) :
  params_ok w z -> hlc_wid_gen_init_ex nd w z u = Some g ->
  hW g = w /\ hZ g = z /\ htime_unit g = u /\
  exists g', hlc_wid_gen_next_state g now = Some g' /\ pt g' = Z.max now 0.
Proof.
  intros Hp Hinit. rewrite hlc_wid_gen_init_ex_fields in Hinit.
  destruct (wid_valid_node nd); [| discriminate]. injection Hinit as <-.
  destruct (clamp_in_range w z 0 Hp) as [-> ->]. cbn [hW hZ htime_unit].
  repeat split.
  destruct Hp as [Hw _]. pose proof (pow10_bounds w Hw) as P.
  unfold hlc_wid_gen_next_state. cbn [pt lc].
  destruct (0 <? now) eqn:E; tests_to_props.
  - cbn [bind]. unfold hlc_wid_rollover_if_needed, set_clock. cbn [max_lc lc pt].
    destruct (10 ^ w - 1 <? 0) eqn:E'; tests_to_props; [lia |].
    eexists. split; [reflexivity |]. cbn [pt]. lia.
  - rewrite add_i64_defined by (unfold INT64_MIN, INT64_MAX; lia). cbn [bind].
    unfold hlc_wid_rollover_if_needed, set_clock. cbn [max_lc lc pt].
    destruct (10 ^ w - 1 <? 0 + 1) eqn:E'; tests_to_props; [lia |].
    eexists. split; [reflexivity |]. cbn [pt]. lia.
Qed.

(** X22. [cmd_healthcheck] and the options [parse_opts] lets through.  For
    options that pass the checks of [parse_opts] and a clock up to the year
    9999, the command generates one identifier and exits with status 0 when
    [Z] is at most 33.  For [Z] from 34 to 64, which [parse_opts] accepts as
    well, the generator it calls writes beyond the array [raw] of
    [wid_random_hex], so that the command has no defined result. *)
Theorem cmd_healthcheck_status (o : cli_opts_t) (now : Z) (rnd : Z -> Z) :
  parse_opts_checks o = true ->
  tick_seconds (o_time_unit o) now <= 253402300799 ->
  cmd_healthcheck o now rnd = if o_Z o <=? RAW_SIZE then Some 0 else None.
Proof.
  unfold parse_opts_checks, cmd_healthcheck. intros Hc Hnow.
  destruct (tick_seconds_max0 _ _ Hnow) as [Hmax Hsmall].
  destruct (negb (strcmp (o_kind o) (str "wid") =? 0)
            && negb (strcmp (o_kind o) (str "hlc") =? 0)) eqn:K; [discriminate |].
  destruct ((o_W o <=? 0) || (o_Z o <? 0)) eqn:G1; [discriminate |].
  destruct ((WID_MAX_W <? o_W o) || (WID_MAX_Z <? o_Z o)) eqn:G2; [discriminate |].
  pose proof (guards_params _ _ G1 G2) as Hp.
  destruct (o_count o <? 0); [discriminate |].
  destruct (strcmp (o_kind o) (str "wid") =? 0) eqn:Kw.
  - clear Hc K.
    pose proof (wid_first_step (o_W o) (o_Z o) (o_time_unit o) now Hp) as Estep.
    set (g := wid_gen_init_ex (o_W o) (o_Z o) (o_time_unit o)) in *.
    assert (Hr : wid_reachable g) by apply wid_reach_init.
    assert (EW : W g = o_W o /\ Z_ g = o_Z o /\ time_unit g = o_time_unit o).
    { unfold g. rewrite wid_gen_init_ex_fields.
      destruct (clamp_in_range (o_W o) (o_Z o) WID_DEFAULT_Z Hp) as [-> ->].
      repeat split. }
    destruct EW as (EW & EZ & EU).
    destruct (o_Z o <=? RAW_SIZE) eqn:Ez; tests_to_props.
    + destruct (wid_gen_next_defined g now rnd WID_MAX_LEN Hr ltac:(lia) Hsmall)
        as (g' & Estep' & Hout).
      { unfold g. rewrite wid_gen_init_ex_fields. cbn. unfold INT64_MAX. lia. }
      rewrite Estep in Estep'. injection Estep' as <-.
      assert (Hy : four_digit_year (o_time_unit o) (Z.max now 0)).
      { apply (tick_in_range _ _ (Z.max now 0)); [lia | exact Hmax]. }
      rewrite EU in Hout. cbn [last_tick] in Hout.
      destruct (Hout Hy) as [out Hnext]. rewrite Hnext. cbn [bind snd].
      pose proof (wid_gen_next_valid g _ now rnd WID_MAX_LEN out Hr ltac:(lia) Hnext) as V.
      rewrite EW, EZ, EU in V. cbn [last_tick] in V. rewrite (V Hy). reflexivity.
    + rewrite wid_gen_next_overrun by lia. reflexivity.
  - cbn [negb andb] in K, Hc.
    destruct (strcmp (o_kind o) (str "hlc") =? 0); [| discriminate K].
    cbn [negb andb] in Hc.
    destruct (wid_valid_node (o_node o)) eqn:V; [| discriminate Hc]. clear Hc K.
    destruct (hlc_wid_gen_init_ex (o_node o) (o_W o) (o_Z o) (o_time_unit o)) as [g|] eqn:Eg.
    2:{ unfold hlc_wid_gen_init_ex in Eg. rewrite V in Eg. discriminate Eg. }
    destruct (hlc_first_step _ _ _ _ now g Hp Eg) as (EW & EZ & EU & g' & Estep & Ept).
    assert (Hr : hlc_reachable g) by exact (hlc_reach_init _ _ _ _ g Eg).
    destruct (o_Z o <=? RAW_SIZE) eqn:Ez; tests_to_props.
    + destruct (hlc_wid_gen_next_defined g now rnd WID_MAX_LEN Hr ltac:(lia) Hsmall)
        as (g'' & Estep' & Hout).
      { pose proof (hlc_reachable_ok g Hr) as Hok.
        rewrite hlc_wid_gen_init_ex_fields, V in Eg. injection Eg as <-. cbn.
        unfold INT64_MAX. lia. }
      rewrite Estep in Estep'. injection Estep' as <-.
      assert (Hy : four_digit_year (htime_unit g) (pt g')).
      { rewrite EU, Ept. apply (tick_in_range _ _ (Z.max now 0)); [lia | exact Hmax]. }
      destruct (Hout Hy) as [out Hnext]. rewrite Hnext. cbn [bind snd].
      pose proof (hlc_wid_gen_next_valid g _ now rnd WID_MAX_LEN out Hr ltac:(lia) Hnext Hy)
        as Vo.
      rewrite EW, EZ, EU in Vo. rewrite Vo. reflexivity.
    + rewrite hlc_wid_gen_next_overrun by lia. reflexivity.
Qed.

Lemma cmd_healthcheck_status_witness :
  cmd_healthcheck (mk_cli_opts (str "hlc") (str "node01") 4 6 WID_TIME_MS 0 true)
    1770887730123 (fun i => i)
  = if 6 <=? RAW_SIZE then Some 0 else None.
Proof.
  apply (cmd_healthcheck_status
           (mk_cli_opts (str "hlc") (str "node01") 4 6 WID_TIME_MS 0 true)
           1770887730123 (fun i => i)).
  - vm_compute. reflexivity.
  - vm_compute. discriminate.
Defined.

(** X23. [run_selftest] passes: whatever the wall clock reads at the three
    calls of the generators, up to the year 9999 and also when it steps
    back between the calls, the self-test exits with status 0; in
    particular the second WID compares above the first under [strcmp]. *)
Theorem run_selftest_passes (now1 now2 now3 : Z) (rnd : Z -> Z) :
  now1 <= 253402300799 -> now2 <= 253402300799 -> now3 <= 253402300799 ->
  run_selftest now1 now2 now3 rnd = Some 0.
Proof.
  intros H1 H2 H3. unfold run_selftest, wid_gen_init, hlc_wid_gen_init,
                     wid_validate, hlc_wid_validate.
  assert (Hp : params_ok 4 0) by (unfold params_ok, WID_MAX_W, WID_MAX_Z; lia).
  set (g0 := wid_gen_init_ex 4 0 WID_TIME_SEC).
  assert (Hr0 : wid_reachable g0) by apply wid_reach_init.
  pose proof (wid_first_step 4 0 WID_TIME_SEC now1 Hp) as S1. fold g0 in S1.
  set (g1 := mk_wid_gen 4 0 WID_TIME_SEC (Z.max now1 0) 0 (10 ^ 4 - 1)) in *.
  assert (Y1 : four_digit_year WID_TIME_SEC (Z.max now1 0)).
  { apply four_digit_year_range. cbn. lia. }
  destruct (wid_gen_next_defined g0 now1 rnd WID_MAX_LEN Hr0)
    as (g1' & S1' & Hout1);
    [vm_compute; discriminate | unfold INT64_MAX; lia | vm_compute; reflexivity |].
  rewrite S1 in S1'. injection S1' as <-.
  destruct (Hout1 Y1) as [a Ha]. rewrite Ha. cbn [bind fst snd].
  assert (Hr1 : wid_reachable g1) by exact (wid_reach_next g0 now1 g1 Hr0 S1).
  set (g2 := if Z.max now1 0 <? now2
             then mk_wid_gen 4 0 WID_TIME_SEC now2 0 (10 ^ 4 - 1)
             else mk_wid_gen 4 0 WID_TIME_SEC (Z.max now1 0) (0 + 1) (10 ^ 4 - 1)).
  assert (S2 : wid_gen_next_state g1 now2 = Some g2).
  { unfold g1, g2. destruct (Z.max now1 0 <? now2) eqn:E; tests_to_props.
    - apply wid_step_fresh; [lia | vm_compute; discriminate].
    - apply wid_step_same; [lia | vm_compute; split; discriminate
                           | vm_compute; discriminate]. }
  assert (T2 : 0 <= last_tick g2 <= 253402300799).
  { unfold g2. destruct (Z.max now1 0 <? now2) eqn:E; tests_to_props; cbn [last_tick]; lia. }
  assert (Y2 : four_digit_year WID_TIME_SEC (last_tick g2)).
  { apply four_digit_year_range. cbn. lia. }
  destruct (wid_gen_next_defined g1 now2 rnd WID_MAX_LEN Hr1)
    as (g2' & S2' & Hout2);
    [vm_compute; discriminate | unfold INT64_MAX; lia
     | unfold g1; cbn [last_tick]; unfold INT64_MAX; lia |].
  rewrite S2 in S2'. injection S2' as <-.
  destruct (Hout2 Y2) as [b Hb]. rewrite Hb. cbn [bind fst snd].
  pose proof (wid_emit_order g0 g1 g1 g2 now1 now2 rnd rnd WID_MAX_LEN WID_MAX_LEN a b
                Hr0 ltac:(lia) ltac:(lia) Ha (wid_later_refl g1) Hb) as Hord.
  specialize (Hord ltac:(cbn; lia)).
  apply Z.ltb_lt in Hord. rewrite Hord. cbn [negb].
  pose proof (wid_gen_next_valid g0 g1 now1 rnd WID_MAX_LEN a Hr0 ltac:(lia) Ha Y1) as Va.
  change (W g0) with 4 in Va. change (Z_ g0) with 0 in Va.
  change (time_unit g0) with WID_TIME_SEC in Va. rewrite Va. cbn [negb].
  assert (Eh : hlc_wid_gen_init_ex (str "node01") 4 0 WID_TIME_SEC
               = Some (mk_hlc_gen 4 0 WID_TIME_SEC (str "node01") 0 0 9999))
    by (vm_compute; reflexivity).
  rewrite Eh.
  set (hg := mk_hlc_gen 4 0 WID_TIME_SEC (str "node01") 0 0 9999) in *.
  assert (Hrh : hlc_reachable hg) by exact (hlc_reach_init _ _ _ _ hg Eh).
  destruct (hlc_first_step _ _ _ _ now3 hg Hp Eh) as (_ & _ & _ & hg' & S3 & Ept).
  destruct (hlc_wid_gen_next_defined hg now3 rnd WID_MAX_LEN Hrh)
    as (hg'' & S3' & Hout3);
    [vm_compute; discriminate | unfold INT64_MAX; lia | vm_compute; reflexivity |].
  rewrite S3 in S3'. injection S3' as <-.
  assert (Y3 : four_digit_year (htime_unit hg) (pt hg')).
  { rewrite Ept. apply four_digit_year_range. cbn. lia. }
  destruct (Hout3 Y3) as [h Hh]. rewrite Hh. cbn [bind fst snd].
  pose proof (hlc_wid_gen_next_valid hg hg' now3 rnd WID_MAX_LEN h Hrh ltac:(lia) Hh Y3)
    as Vh.
  change (hW hg) with 4 in Vh. change (hZ hg) with 0 in Vh.
  change (htime_unit hg) with WID_TIME_SEC in Vh. rewrite Vh. cbn [negb].
  reflexivity.
Qed.

Lemma run_selftest_passes_witness :
  run_selftest 1770887730 1770887729 1770887731 (fun _ => 0) = Some 0.
Proof.
  apply (run_selftest_passes 1770887730 1770887729 1770887731 (fun _ => 0)); lia.
Defined.

(** ** Bursts at a standing clock *)

Lemma burst_step (w z : Z) (u : wid_time_unit_t) (t T i : Z) :
  1 <= w <= WID_MAX_W -> T <= t -> 0 <= t -> 0 <= i -> t + i + 1 < INT64_MAX ->
  wid_gen_next_state (burst_state w z u t i) T = Some (burst_state w z u t (i + 1)).
Proof.
  intros Hw HT Ht Hi Hmax. unfold burst_state.
  pose proof (pow10_bounds w Hw) as P. set (p := 10 ^ w) in *.
  pose proof (Z.div_mod i p ltac:(lia)) as D.
  pose proof (Z.mod_pos_bound i p ltac:(lia)) as R.
  assert (Q : 0 <= i / p <= i).
  { split; [apply Z.div_pos; lia |]. apply Z.div_le_upper_bound; [lia | nia]. }
  destruct (Z_lt_ge_dec (i mod p + 1) p) as [L | G].
  - rewrite wid_step_same by (unfold INT64_MIN, INT64_MAX in *; lia).
    f_equal. f_equal.
    + f_equal. apply (Z.div_unique (i + 1) p (i / p) (i mod p + 1)); lia.
    + apply (Z.mod_unique (i + 1) p (i / p) (i mod p + 1)); lia.
  - rewrite wid_step_borrow by (unfold INT64_MIN, INT64_MAX in *; lia).
    f_equal. f_equal.
    + rewrite <- Z.add_assoc. f_equal.
      apply (Z.div_unique (i + 1) p (i / p + 1) 0); lia.
    + apply (Z.mod_unique (i + 1) p (i / p + 1) 0); lia.
Qed.

Lemma burst_states_from (w z : Z) (u : wid_time_unit_t) (t T : Z) (k : nat) :
  forall i,
    1 <= w <= WID_MAX_W -> T <= t -> 0 <= t -> 0 <= i ->
    t + i + Z.of_nat k < INT64_MAX ->
    wid_gen_states (burst_state w z u t i) (repeat T k)
    = Some (map (fun j => burst_state w z u t (i + 1 + Z.of_nat j)) (seq 0 k)).
Proof.
  induction k as [|k IH]; intros i Hw HT Ht Hi Hmax; [reflexivity |].
  cbn [repeat wid_gen_states]. rewrite burst_step by lia. cbn [bind].
  rewrite IH by lia. cbn [bind seq map]. rewrite Z.add_0_r.
  f_equal. f_equal. rewrite <- seq_shift, map_map.
  apply map_ext. intros j. f_equal. lia.
Qed.

(** X24. A burst at a standing clock.  When [wid_gen_next] is called [k]
    times on a fresh generator while the clock reads [T], call number [i]
    (from 0) leaves the tick [max T 0 + i / 10^W] and the sequence
    [i mod 10^W]: every [10^W] identifiers the generator borrows one tick
    from the future. *)
Theorem wid_burst_clock (w z : Z) (u : wid_time_unit_t) (T : Z) (k : nat) :
  params_ok w z -> Z.max T 0 + Z.of_nat k < INT64_MAX ->
  exists gs,
    wid_gen_states (wid_gen_init_ex w z u) (repeat T k) = Some gs /\
    length gs = k /\
    forall i, (i < k)%nat ->
      nth i gs (wid_gen_init_ex w z u)
      = mk_wid_gen w z u (Z.max T 0 + Z.of_nat i / 10 ^ w) (Z.of_nat i mod 10 ^ w)
                   (10 ^ w - 1).
Proof.
  intros Hp Hmax. destruct k as [|k].
  - exists []. split; [reflexivity |]. split; [reflexivity |]. intros i Hi. lia.
  - pose proof Hp as [Hw _].
    pose proof (pow10_bounds w Hw) as P.
    assert (E0 : wid_gen_next_state (wid_gen_init_ex w z u) T
                 = Some (burst_state w z u (Z.max T 0) 0)).
    { rewrite (wid_first_step w z u T Hp). unfold burst_state.
      rewrite Z.div_0_l, Z.mod_0_l by lia. rewrite Z.add_0_r. reflexivity. }
    exists (map (fun j => burst_state w z u (Z.max T 0) (Z.of_nat j)) (seq 0 (S k))).
    split.
    + cbn [repeat wid_gen_states]. rewrite E0. cbn [bind].
      rewrite (burst_states_from w z u (Z.max T 0) T k 0) by lia. cbn [bind seq map].
      f_equal. f_equal. rewrite <- seq_shift, map_map.
      apply map_ext. intros j. f_equal. lia.
    + split; [rewrite length_map, length_seq; reflexivity |].
      intros i Hi.
      rewrite (nth_indep _ _ (burst_state w z u (Z.max T 0) (Z.of_nat 0)))
        by (rewrite length_map, length_seq; exact Hi).
      rewrite (map_nth (fun j => burst_state w z u (Z.max T 0) (Z.of_nat j))).
      rewrite seq_nth by exact Hi. reflexivity.
Qed.

Lemma wid_burst_clock_witness :
  exists gs,
    wid_gen_states (wid_gen_init_ex 2 0 WID_TIME_SEC) (repeat 1770887730 250) = Some gs /\
    length gs = 250%nat /\
    forall i, (i < 250)%nat ->
      nth i gs (wid_gen_init_ex 2 0 WID_TIME_SEC)
      = mk_wid_gen 2 0 WID_TIME_SEC (Z.max 1770887730 0 + Z.of_nat i / 10 ^ 2)
                   (Z.of_nat i mod 10 ^ 2) (10 ^ 2 - 1).
Proof.
  apply (wid_burst_clock 2 0 WID_TIME_SEC 1770887730 250).
  - vm_compute. repeat split; discriminate.
  - vm_compute. reflexivity.
Defined.

(** ** Causality across nodes *)

(** X25. What was observed sorts first.  After [hlc_wid_observe] has taken
    in a remote clock [(remote_pt, remote_lc)] with [remote_lc <= max_lc],
    without overflow, every identifier the generator then writes into a
    buffer of at least [WID_MAX_LEN] bytes compares, under [strcmp], above
    any text that starts with the remote time stamp and the remote counter
    printed in [W] digits, that is above the identifier the remote node
    printed from that clock (same unit and width).  This holds as long as
    the [pt] of that identifier is within the year 9999
    ([tick_seconds pt <= 253402300799]; beyond, the year has five digits)
    and no call in between overflowed: [hlc_later] holds the calls that
    complete, and a call of [hlc_wid_observe] with a remote counter or a
    remote time of [INT64_MAX] may not (see C7). *)
Theorem observed_sorts_first (g g1 g2 g3 : hlc_wid_gen_t)
        (remote_pt remote_lc now now' : Z) (rnd : Z -> Z) (len : Z)
        (b tr rest : cstring) :
  hlc_reachable g -> WID_MAX_LEN <= len ->
  hlc_wid_observe g remote_pt remote_lc now = Some (true, g1) ->
  hlc_later g1 g2 ->
  hlc_wid_gen_next g2 now' rnd len = Some (g3, b) ->
  tick_seconds (htime_unit g) (pt g3) <= 253402300799 ->
  remote_lc <= max_lc g ->
  wid_fmt_tick (htime_unit g) remote_pt = Some tr ->
  strcmp (tr ++ str "." ++ snprintf 64 (printf_0d (hW g) remote_lc) ++ rest) b < 0.
Proof.
  intros Hr Hlen Hobs Hlater Hb Htick Hrl Htr.
  pose proof (hlc_reachable_ok g Hr) as Hok.
  destruct (hlc_wid_observe_step g g1 _ _ _ Hobs) as (Hrp & Hrl0 & Hlt1 & _ & _ & _ & Hok1).
  specialize (Hok1 Hok).
  destruct (hlc_wid_observe_params g g1 _ _ _ Hobs) as (EW1 & EZ1 & EU1 & _).
  destruct (hlc_later_clock g1 g2 Hok1 Hlater) as (Hok2 & EW2 & EZ2 & EU2 & _ & Hc2).
  destruct (hlc_wid_gen_next_parts g2 g3 _ _ _ b Hb) as (S3 & _).
  destruct (hlc_wid_gen_next_state_step g2 g3 _ Hok2 S3) as (Hok3 & _ & Hseq3 & _ & Hlt3).
  destruct (hlc_wid_gen_next_state_params g2 g3 _ S3) as (EW3 & EZ3 & EU3).
  assert (Hlt : lex_lt (remote_pt, remote_lc) (hlc_clock g3)).
  { apply (lex_lt_trans _ (hlc_clock g1)); [exact Hlt1 |].
    destruct Hc2 as [<- | Hc2]; [exact Hlt3 | exact (lex_lt_trans _ _ _ Hc2 Hlt3)]. }
  assert (Ht : 0 <= remote_pt <= pt g3).
  { unfold lex_lt, hlc_clock in Hlt. cbn [fst snd] in Hlt. lia. }
  assert (EU : htime_unit g2 = htime_unit g) by congruence.
  assert (EW : hW g2 = hW g) by congruence.
  assert (Y3 : four_digit_year (htime_unit g2) (pt g3)).
  { rewrite EU. apply (tick_in_range _ _ (pt g3)); [lia | exact Htick]. }
  assert (Yr : four_digit_year (htime_unit g) remote_pt)
    by exact (tick_in_range _ _ _ Ht Htick).
  destruct (hlc_wid_gen_next_anatomy g2 g3 _ _ len b Hok2 Hlen Hb Y3)
    as (_ & t3 & sfx3 & _ & F3 & _ & _ & _ & _ & _ & _ & ->).
  rewrite EU in F3, Y3. rewrite EW.
  destruct Hok as (Hw & _ & Hmax & _).
  assert (M3 : max_lc g3 = 10 ^ hW g - 1).
  { destruct Hok3 as (_ & _ & -> & _). rewrite EW3, EW. reflexivity. }
  apply (clock_text_strcmp (htime_unit g) (hW g) remote_pt remote_lc (pt g3) (lc g3));
    try assumption; try exact Hlt; lia.
Qed.

Lemma observed_sorts_first_witness :
  strcmp (str "20260212T091535" ++ str "." ++ snprintf 64 (printf_0d 4 9) ++ str "Z-m")
         (str "20260212T091535.0011Z-n") < 0.
Proof.
  apply (observed_sorts_first
           (mk_hlc_gen 4 0 WID_TIME_SEC (str "n") 0 0 9999)
           (mk_hlc_gen 4 0 WID_TIME_SEC (str "n") 1770887735 10 9999)
           (mk_hlc_gen 4 0 WID_TIME_SEC (str "n") 1770887735 10 9999)
           (mk_hlc_gen 4 0 WID_TIME_SEC (str "n") 1770887735 11 9999)
           1770887735 9 1770887730 1770887730 (fun _ => 0) WID_MAX_LEN).
  - apply (hlc_reach_init (str "n") 4 0 WID_TIME_SEC). vm_compute. reflexivity.
  - vm_compute. discriminate.
  - vm_compute. reflexivity.
  - apply hlc_later_refl.
  - vm_compute. reflexivity.
  - vm_compute. discriminate.
  - vm_compute. discriminate.
  - vm_compute. reflexivity.
Defined.

(** ** Time stamps *)

(** X26. [wid_parse_timestamp] succeeds exactly on the strings that begin
    with the text of a time stamp in the given unit, followed by a dot, and
    it returns the calendar fields that text denotes: four digits of year,
    two each of month, day, hour, minute and second, three of milliseconds
    in millisecond mode, forming a date that exists and a time of day. *)
Theorem wid_parse_timestamp_decides (s : cstring) (u : wid_time_unit_t)
        (ts : timestamp_t) :
  wid_parse_timestamp s u = Some ts <->
  exists t rest, s = t ++ str "." ++ rest /\ stamp_text u t ts.
Proof.
  split.
  - intros H. destruct (wid_parse_timestamp_sound s u ts H) as (t & Ht & _ & E).
    exists t, (advance s (wid_timestamp_len u + 1)). split; assumption.
  - intros (t & rest & -> & Ht). apply wid_parse_timestamp_complete. exact Ht.
Qed.

(** ** Lengths beyond [INT_MAX] *)

Lemma cast_int_wrap (x : Z) : cast_int (x + 4294967296) = cast_int x.
Proof.
  unfold cast_int. replace (x + 4294967296 + 2147483648)
    with (x + 2147483648 + 1 * 4294967296) by lia.
  rewrite Z.mod_add by lia. reflexivity.
Qed.

(** X27. The validator measures with [(int) strlen].  When 2^32 further
    characters, whatever they are, follow a WID that has a padding,
    [wid_validate_ex] still accepts the string, the length having wrapped,
    while [wid_parse_ex] refuses it. *)
Theorem wid_validate_ex_length_wraps (s junk : cstring) (w z : Z) (u : wid_time_unit_t) :
  strlen s <= INT_MAX ->
  wid_validate_ex s w z u = true ->
  at_end (advance s (wid_timestamp_len u + 1 + w + 1)) = false ->
  strlen junk = 4294967296 ->
  wid_validate_ex (s ++ junk) w z u = true /\ wid_parse_ex (s ++ junk) w z u = None.
Proof.
  intros Hlen Hv Hsfx Hj.
  destruct (wid_validate_ex_sound s w z u Hlen Hv) as [Hp Ht].
  destruct Ht as [t ts sq sfx Hts Hsq Hs].
  destruct (prefix_complete _ t sq sfx w u ts Hts Hsq eq_refl) as (_ & _ & _ & _ & Ea & Hl0).
  rewrite Ea in Hsfx.
  destruct Hs as [-> | (Hz & pad & -> & Lpad & Dpad)]; [discriminate Hsfx |].
  clear Hsfx Ea.
  replace ((t ++ str "." ++ sq ++ str "Z" ++ str "-" ++ pad) ++ junk)
    with (t ++ str "." ++ sq ++ str "Z" ++ str "-" ++ pad ++ junk)
    by (rewrite <- !app_assoc; reflexivity).
  destruct (prefix_complete _ t sq (str "-" ++ pad ++ junk) w u ts Hts Hsq eq_refl)
    as (Hpt & HZ & Hd & Eseq & Esfx & Hl).
  remember (t ++ str "." ++ sq ++ str "Z" ++ str "-" ++ pad ++ junk) as s' eqn:Es'.
  pose proof (wid_timestamp_len_pos u) as HL.
  assert (Hpad : strlen (pad ++ junk) = z + 4294967296) by (rewrite strlen_app; lia).
  assert (Hlen' : strlen s' = wid_timestamp_len u + 1 + w + 1 + 1 + z + 4294967296).
  { rewrite Hl. change (str "-" ++ pad ++ junk) with ("-"%char :: pad ++ junk).
    rewrite strlen_cons, Hpad. lia. }
  destruct (params_guards w z Hp) as [G1 G2].
  unfold params_ok, WID_MAX_W, WID_MAX_Z in Hp.
  assert (Hv' : wid_validate_ex s' w z u = true).
  { unfold wid_validate_ex. rewrite G1, G2. cbv zeta.
    rewrite Hlen', cast_int_wrap.
    rewrite cast_int_small by (unfold INT_MIN, INT_MAX; lia).
    assert (E : (wid_timestamp_len u + 1 + w + 1 + 1 + z <? wid_timestamp_len u + 1 + w + 1)
                = false) by (apply Z.ltb_ge; lia).
    rewrite E, Hpt, HZ, Hd, Esfx. cbn [is_some negb].
    change (str "-" ++ pad ++ junk) with ("-"%char :: pad ++ junk).
    unfold wid_valid_suffix. change (negb ("-" =? "-")%char) with false. cbv iota.
    destruct (z <=? 0) eqn:E0; [apply Z.leb_le in E0; lia |]. cbv zeta.
    rewrite Hpad, cast_int_wrap.
    rewrite cast_int_small by (unfold INT_MIN, INT_MAX; lia).
    rewrite Z.eqb_refl. cbn [negb]. rewrite <- Lpad.
    apply (all_between_forallb wid_is_lower_hex pad junk). exact Dpad. }
  split; [exact Hv' |].
  unfold wid_parse_ex. rewrite Hv', Hpt. cbn [negb bind].
  rewrite Eseq, Esfx, (wid_parse_digits_i64_digits sq _ w Hsq).
  destruct Hsq as [Lsq Dsq]. pose proof (digits_val_range sq Dsq) as Hr.
  destruct (digits_val sq <? 0) eqn:G; [apply Z.ltb_lt in G; lia |].
  change (str "-" ++ pad ++ junk) with ("-"%char :: pad ++ junk). cbn [at_end negb].
  change (advance ("-"%char :: pad ++ junk) 1) with (pad ++ junk).
  rewrite Hpad. destruct (WID_MAX_Z <? z + 4294967296) eqn:G'; [reflexivity |].
  apply Z.ltb_ge in G'. unfold WID_MAX_Z in G'. lia.
Qed.

Lemma wid_validate_ex_length_wraps_witness :
  wid_validate_ex (str "20260212T091530.0042Z-a3f91c"
                   ++ repeat "!"%char (Z.to_nat 4294967296)) 4 6 WID_TIME_SEC = true /\
  wid_parse_ex (str "20260212T091530.0042Z-a3f91c"
                ++ repeat "!"%char (Z.to_nat 4294967296)) 4 6 WID_TIME_SEC = None.
Proof.
  apply (wid_validate_ex_length_wraps (str "20260212T091530.0042Z-a3f91c")
           (repeat "!"%char (Z.to_nat 4294967296)) 4 6 WID_TIME_SEC).
  - vm_compute. discriminate.
  - vm_compute. reflexivity.
  - vm_compute. reflexivity.
  - unfold strlen. rewrite repeat_length. lia.
Defined.

(** * Borrowing and initialisation, on the emitted text *)

(** ** The emitted text of a burst (C6) *)

(** [wid_gen_next] without padding: the text is the time stamp of the new
    tick, a dot, the counter and [Z]. *)
Lemma wid_gen_next_no_padding (g g' : wid_gen_t) (now : Z) (rnd : Z -> Z) (len : Z)
      (ts : cstring) :
  wid_gen_next_state g now = Some g' -> Z_ g' = 0 ->
  wid_fmt_tick (time_unit g') (last_tick g') = Some ts ->
  wid_gen_next g now rnd len
  = Some (g', snprintf len (ts ++ str "." ++ snprintf 64 (printf_0d (W g') (last_seq g'))
                               ++ str "Z")).
Proof.
  intros H HZ Hf. unfold wid_gen_next. rewrite H. cbn [bind]. rewrite Hf. cbn [bind].
  rewrite HZ. reflexivity.
Qed.

Lemma snprintf_length (size : Z) (s : cstring) :
  1 <= size -> strlen (snprintf size s) <= size - 1.
Proof.
  intros H. unfold snprintf, strlen. pose proof (firstn_le_length (Z.to_nat (size - 1)) s).
  lia.
Qed.

(** [wid_fmt_tick] stores at most 23 characters in [out[24]]. *)
Lemma wid_fmt_tick_length (u : wid_time_unit_t) (tick : Z) (ts : cstring) :
  wid_fmt_tick u tick = Some ts -> strlen ts <= 23.
Proof.
  unfold wid_fmt_tick. cbv zeta. destruct (gmtime_r _) as [b |].
  - destruct (strftime_stamp 20 b) as [s |]; cbn [bind]; [| discriminate].
    destruct (is_ms u); intros H; inversion H; apply (snprintf_length 24); lia.
  - intros H. inversion H. rewrite strlen_nil. lia.
Qed.

(** In seconds, what [wid_fmt_tick] stores is the text of the calendar
    fields of [gmtime_r]. *)
Lemma wid_fmt_tick_sec (tick : Z) (b : tm) (ts : cstring) :
  gmtime_r tick = Some b -> wid_fmt_tick WID_TIME_SEC tick = Some ts ->
  ts = fmt_stamp WID_TIME_SEC (tm_stamp b 0).
Proof.
  intros Hg. unfold wid_fmt_tick. cbv zeta. cbn [is_ms]. rewrite Hg.
  unfold strftime_stamp.
  destruct (strlen (fmt_stamp WID_TIME_SEC (tm_stamp b 0)) <? 20) eqn:E;
    cbn [bind]; [| discriminate].
  apply Z.ltb_lt in E. intros H. inversion H. apply snprintf_fits. lia.
Qed.

Lemma wid_text_fits (t sq : cstring) (w : Z) :
  strlen t <= 23 -> digits w sq -> w <= WID_MAX_W ->
  snprintf WID_MAX_LEN (t ++ str "." ++ sq ++ str "Z") = t ++ str "." ++ sq ++ str "Z".
Proof.
  intros Hs Hd Hw. apply snprintf_fits. destruct Hd as [Hd _].
  autorewrite with lengths. rewrite Hd.
  change (strlen (str ".")) with 1. change (strlen (str "Z")) with 1.
  unfold WID_MAX_LEN, WID_MAX_W in *. lia.
Qed.

(** The calls of a burst, as text: from the state after [i] borrowless
    counts at tick [t], with the clock never past [t], call number [n] emits
    the time stamp of tick [t + (i + 1 + n) / 10 ^ w] and the counter
    [(i + 1 + n) mod 10 ^ w], as long as [wid_fmt_tick] prints the ticks the
    burst goes through. *)
Lemma burst_emits (w : Z) (u : wid_time_unit_t) (t : Z) (env : nat -> reading) (k : nat) :
  forall (i : Z) (j : nat),
    1 <= w <= WID_MAX_W -> 0 <= t -> (forall n, fst (env n) <= t) -> 0 <= i ->
    t + i + Z.of_nat k < INT64_MAX ->
    (forall m, 0 <= m <= (i + Z.of_nat k) / 10 ^ w ->
               exists ts, wid_fmt_tick u (t + m) = Some ts) ->
    exists outs,
      wid_gen_next_loop (burst_state w 0 u t i) k env j
      = Some (burst_state w 0 u t (i + Z.of_nat k), outs) /\
      length outs = k /\
      forall n, (n < k)%nat ->
        exists ts,
          wid_fmt_tick u (t + (i + 1 + Z.of_nat n) / 10 ^ w) = Some ts /\
          nth n outs []
          = ts ++ str "."
               ++ snprintf 64 (printf_0d w ((i + 1 + Z.of_nat n) mod 10 ^ w))
               ++ str "Z".
Proof.
  induction k as [| k IH]; intros i j Hw Ht Henv Hi Hmax Hfmt.
  - exists []. cbn [wid_gen_next_loop]. rewrite Z.add_0_r.
    split; [reflexivity |]. split; [reflexivity |]. intros n Hn. lia.
  - pose proof (pow10_bounds w Hw) as Hpow.
    assert (Hstep : wid_gen_next_state (burst_state w 0 u t i) (fst (env j))
                    = Some (burst_state w 0 u t (i + 1))).
    { apply burst_step; try assumption; try apply Henv. lia. }
    assert (Hq0 : 0 <= (i + 1) / 10 ^ w) by (apply Z.div_pos; lia).
    assert (Hq1 : (i + 1) / 10 ^ w <= (i + Z.of_nat (S k)) / 10 ^ w)
      by (apply Z.div_le_mono; lia).
    destruct (Hfmt ((i + 1) / 10 ^ w)) as (ts0 & Hf); [lia |].
    pose proof (wid_fmt_tick_length _ _ _ Hf) as Hlen0.
    assert (Hm : 0 <= (i + 1) mod 10 ^ w <= 10 ^ w - 1).
    { pose proof (Z.mod_pos_bound (i + 1) (10 ^ w)). lia. }
    pose proof (counter_text w _ Hw Hm) as Hd.
    destruct (IH (i + 1) (S j) Hw Ht Henv) as (outs & Hl & Hlen & Hn);
      [lia | lia | |].
    { intros m Hm'. apply Hfmt.
      replace (i + Z.of_nat (S k)) with (i + 1 + Z.of_nat k) by lia. exact Hm'. }
    exists ((ts0 ++ str "." ++ snprintf 64 (printf_0d w ((i + 1) mod 10 ^ w)) ++ str "Z")
            :: outs).
    split; [| split].
    + cbn [wid_gen_next_loop].
      rewrite (wid_gen_next_no_padding _ _ _ (snd (env j)) WID_MAX_LEN _
                 Hstep eq_refl Hf).
      cbn [bind fst snd]. rewrite Hl. cbn [bind fst snd].
      cbn [burst_state W last_seq].
      rewrite (wid_text_fits _ _ w Hlen0 Hd) by lia.
      replace (i + 1 + Z.of_nat k) with (i + Z.of_nat (S k)) by lia. reflexivity.
    + cbn [length]. rewrite Hlen. reflexivity.
    + intros n Hlt. destruct n as [| n].
      * exists ts0. replace (i + 1 + Z.of_nat 0) with (i + 1) by lia.
        split; [exact Hf | reflexivity].
      * destruct (Hn n) as (ts & Hts & Hnth); [lia |].
        exists ts. replace (i + 1 + Z.of_nat (S n)) with (i + 1 + 1 + Z.of_nat n) by lia.
        split; [exact Hts | exact Hnth].
Qed.

(** A burst from a fresh generator without padding: the first call moves
    to the tick of the clock, the others follow [burst_emits]. *)
Lemma wid_burst_text (w : Z) (u : wid_time_unit_t) (T : Z) (env : nat -> reading)
      (k : nat) :
  1 <= w <= WID_MAX_W -> (forall n, fst (env n) = T) ->
  Z.max T 0 + Z.of_nat k < INT64_MAX ->
  (forall m, 0 <= m <= Z.of_nat k / 10 ^ w ->
             exists ts, wid_fmt_tick u (Z.max T 0 + m) = Some ts) ->
  exists g' outs,
    wid_gen_next_loop (wid_gen_init_ex w 0 u) (S k) env 0 = Some (g', outs) /\
    length outs = S k /\
    forall n, (n <= k)%nat ->
      exists ts,
        wid_fmt_tick u (Z.max T 0 + Z.of_nat n / 10 ^ w) = Some ts /\
        nth n outs []
        = ts ++ str "." ++ snprintf 64 (printf_0d w (Z.of_nat n mod 10 ^ w)) ++ str "Z".
Proof.
  intros Hw Henv Hmax Hfmt.
  pose proof (pow10_bounds w Hw) as Hpow.
  assert (Hp : params_ok w 0) by (split; [exact Hw | unfold WID_MAX_Z; lia]).
  assert (Hfirst : wid_gen_next_state (wid_gen_init_ex w 0 u) (fst (env 0%nat))
                   = Some (burst_state w 0 u (Z.max T 0) 0)).
  { rewrite Henv, (wid_first_step w 0 u T Hp). unfold burst_state.
    rewrite Z.div_0_l, Z.mod_0_l, Z.add_0_r by lia. reflexivity. }
  assert (Hq : 0 <= Z.of_nat k / 10 ^ w) by (apply Z.div_pos; lia).
  destruct (Hfmt 0) as (ts0 & Hf); [lia |]. rewrite Z.add_0_r in Hf.
  pose proof (wid_fmt_tick_length _ _ _ Hf) as Hlen0.
  assert (Hm : 0 <= 0 <= 10 ^ w - 1) by lia.
  pose proof (counter_text w _ Hw Hm) as Hd.
  destruct (burst_emits w u (Z.max T 0) env k 0 1%nat Hw) as (outs & Hl & Hlen & Hn);
    [lia | intros n; rewrite Henv; lia | lia | lia | exact Hfmt |].
  exists (burst_state w 0 u (Z.max T 0) (0 + Z.of_nat k)).
  exists ((ts0 ++ str "." ++ snprintf 64 (printf_0d w 0) ++ str "Z") :: outs).
  split; [| split].
  - cbn [wid_gen_next_loop].
    assert (Hf' : wid_fmt_tick (time_unit (burst_state w 0 u (Z.max T 0) 0))
                               (last_tick (burst_state w 0 u (Z.max T 0) 0))
                  = Some ts0).
    { cbn [burst_state time_unit last_tick].
      rewrite Z.div_0_l, Z.add_0_r by lia. exact Hf. }
    rewrite (wid_gen_next_no_padding _ _ _ (snd (env 0%nat)) WID_MAX_LEN _
               Hfirst eq_refl Hf').
    cbn [bind fst snd]. rewrite Hl. cbn [bind fst snd].
    cbn [burst_state W last_seq]. rewrite Z.mod_0_l by lia.
    rewrite (wid_text_fits _ _ w Hlen0 Hd) by lia. reflexivity.
  - cbn [length]. rewrite Hlen. reflexivity.
  - intros n Hle. destruct n as [| n].
    + exists ts0.
      change (Z.of_nat 0) with 0. rewrite Z.div_0_l, Z.mod_0_l, Z.add_0_r by lia.
      split; [exact Hf | reflexivity].
    + destruct (Hn n) as (ts & Hts & Hnth); [lia |].
      exists ts. replace (Z.of_nat (S n)) with (0 + 1 + Z.of_nat n) by lia.
      split; [exact Hts | exact Hnth].
Qed.

(** Within the year 9999 [wid_fmt_tick] prints every tick. *)
Lemma wid_fmt_tick_prints (u : wid_time_unit_t) (t q : Z) :
  0 <= t -> tick_seconds u (t + q) <= 253402300799 ->
  forall m, 0 <= m <= q -> exists ts, wid_fmt_tick u (t + m) = Some ts.
Proof.
  intros Ht Hsec m Hm.
  assert (Hfd : four_digit_year u (t + m)).
  { apply (tick_in_range u _ (t + q)); [lia | exact Hsec]. }
  destruct (wid_fmt_tick_stamp u _ Hfd) as (b & _ & _ & Hf & _).
  eexists. exact Hf.
Qed.

(** *** Beyond the year 9999

    [strftime] prints a year of more than four digits with all its digits;
    the text fits [base[20]] up to eight of them. *)

Lemma printf_0d_length (n v : Z) (k : nat) :
  (1 <= k <= 20)%nat -> 0 <= v < 10 ^ Z.of_nat k -> n <= Z.of_nat k ->
  strlen (printf_0d n v) <= Z.of_nat k.
Proof.
  intros Hk Hv Hn. unfold printf_0d, dec, zeros.
  destruct (v <? 0) eqn:E; [apply Z.ltb_lt in E; lia |].
  assert (H20 : 10 ^ Z.of_nat k <= 10 ^ Z.of_nat 20)
    by (apply Z.pow_le_mono_r; lia).
  destruct (dec_loop_fixed 20 v k) as [Hlen _]; [lia | lia | lia |].
  rewrite strlen_app. unfold strlen at 1. rewrite repeat_length.
  unfold strlen in *. lia.
Qed.

Lemma gmtime_r_defined_wide (t : Z) :
  0 <= t < 3000000000000000 ->
  exists b, gmtime_r t = Some b /\ 1970 <= tm_year b + 1900 < 100000000.
Proof.
  intros H. unfold gmtime_r. cbv zeta.
  set (era := t / 86400 / 146097).
  assert (He : 0 <= era <= 237665).
  { unfold era. rewrite Z.div_div by lia. change (86400 * 146097) with 12622780800.
    split.
    - apply Z.div_pos; lia.
    - apply Z.lt_succ_r. apply Z.div_lt_upper_bound; lia. }
  set (doe := t / 86400 mod 146097).
  assert (Hdoe : 0 <= doe < days_in_years 400 (1970 + 400 * era)).
  { rewrite days_in_400_years. apply Z.mod_pos_bound. lia. }
  pose proof (split_year_lower 400 (1970 + 400 * era) doe) as Hlo.
  pose proof (split_year_upper 400 (1970 + 400 * era) doe Hdoe) as Hup.
  change (Z.of_nat 400) with 400 in Hup.
  destruct (split_year 400 (1970 + 400 * era) doe) as [y doy]. cbn [fst] in *.
  destruct (split_month (month_days y) 0 doy) as [m d].
  assert (F : fits_int (y - 1900) = true).
  { unfold fits_int, INT_MIN, INT_MAX. apply andb_true_iff. split; apply Z.leb_le; lia. }
  rewrite F. eexists. split; [reflexivity |]. cbn [tm_year]. lia.
Qed.

(** Up to the year 95 068 369 [wid_fmt_tick] prints, in seconds, the
    calendar fields of [gmtime_r]. *)
Lemma wid_fmt_tick_sec_wide (t : Z) :
  0 <= t < 3000000000000000 ->
  exists b, gmtime_r t = Some b /\
            wid_fmt_tick WID_TIME_SEC t = Some (fmt_stamp WID_TIME_SEC (tm_stamp b 0)).
Proof.
  intros Ht. destruct (gmtime_r_defined_wide t Ht) as (b & Hg & Hy).
  exists b. split; [exact Hg |].
  destruct (gmtime_r_fields t b Hg) as (y & doy & m & d & _ & _ & _ & Hm & Hd & _ & Eb).
  assert (L : strlen (fmt_stamp WID_TIME_SEC (tm_stamp b 0)) < 20).
  { pose proof (Z.mod_pos_bound t 86400 ltac:(lia)) as Hs.
    pose proof (Z.mod_pos_bound (t mod 86400) 60 ltac:(lia)) as Hse.
    pose proof (Z.mod_pos_bound (t mod 86400 / 60) 60 ltac:(lia)) as Hmi.
    assert (Hh : 0 <= t mod 86400 / 3600 <= 23).
    { split; [apply Z.div_pos; lia |].
      apply Z.lt_succ_r. apply Z.div_lt_upper_bound; lia. }
    unfold fmt_stamp. cbn [is_ms]. rewrite app_nil_r.
    subst b. cbn [tm_stamp year month day hour minute second
                  tm_year tm_mon tm_mday tm_hour tm_min tm_sec] in *.
    pose proof (printf_0d_length 4 (y - 1900 + 1900) 8 ltac:(lia)
                  ltac:(change (10 ^ Z.of_nat 8) with 100000000; lia) ltac:(lia)) as LY.
    destruct (printf_0d_digits 2 (m + 1) ltac:(lia) ltac:(change (10 ^ 2) with 100; lia))
      as [[L1 _] _].
    destruct (printf_0d_digits 2 (d + 1) ltac:(lia) ltac:(change (10 ^ 2) with 100; lia))
      as [[L2 _] _].
    destruct (printf_0d_digits 2 (t mod 86400 / 3600) ltac:(lia)
                ltac:(change (10 ^ 2) with 100; lia)) as [[L3 _] _].
    destruct (printf_0d_digits 2 (t mod 86400 / 60 mod 60) ltac:(lia)
                ltac:(change (10 ^ 2) with 100; lia)) as [[L4 _] _].
    destruct (printf_0d_digits 2 (t mod 86400 mod 60) ltac:(lia)
                ltac:(change (10 ^ 2) with 100; lia)) as [[L5 _] _].
    autorewrite with lengths. change (Z.of_nat 8) with 8 in LY. lia. }
  unfold wid_fmt_tick. cbv zeta. cbn [is_ms]. rewrite Hg.
  unfold strftime_stamp. apply Z.ltb_lt in L. rewrite L. cbn [bind].
  apply Z.ltb_lt in L. rewrite snprintf_fits by lia. reflexivity.
Qed.

(** A call within the tick of the generator: the counter goes up by one, or,
    past [10 ^ W - 1], the tick does and the counter restarts. *)
Lemma wid_same_tick_step (g : wid_gen_t) (now : Z) :
  wid_gen_ok g -> now <= last_tick g -> last_tick g < INT64_MAX ->
  wid_gen_next_state g now
  = Some (if last_seq g + 1 <=? 10 ^ W g - 1
          then mk_wid_gen (W g) (Z_ g) (time_unit g) (last_tick g) (last_seq g + 1)
                          (max_seq g)
          else mk_wid_gen (W g) (Z_ g) (time_unit g) (last_tick g + 1) 0 (max_seq g)).
Proof.
  intros (Hw & _ & Hmax & Hseq & Ht) Hnow Hlt.
  pose proof (pow10_bounds (W g) Hw) as Hpow.
  change (10 ^ 18) with 1000000000000000000 in Hpow.
  destruct g as [gw gz gu gt gs gm].
  cbn [W Z_ time_unit last_tick last_seq max_seq] in *.
  destruct (gs + 1 <=? 10 ^ gw - 1) eqn:E; tests_to_props.
  - apply wid_step_same; unfold INT64_MIN, INT64_MAX in *; lia.
  - apply wid_step_borrow; unfold INT64_MIN, INT64_MAX in *; lia.
Qed.

Lemma wid_borrow_emits (g : wid_gen_t) (now : Z) (rnd : Z -> Z) :
  wid_reachable g -> now <= last_tick g -> last_tick g < INT64_MAX ->
  10 ^ W g - 1 < last_seq g + 1 ->
  wid_gen_next_state g now
  = Some (mk_wid_gen (W g) (Z_ g) (time_unit g) (last_tick g + 1) 0 (max_seq g)) /\
  (forall len g' out,
      wid_gen_next g now rnd len = Some (g', out) ->
      g' = mk_wid_gen (W g) (Z_ g) (time_unit g) (last_tick g + 1) 0 (max_seq g) /\
      exists ts sfx,
        wid_fmt_tick (time_unit g) (last_tick g + 1) = Some ts /\
        out = snprintf len (ts ++ str "." ++ snprintf 64 (printf_0d (W g) 0)
                               ++ str "Z" ++ sfx)) /\
  (Z_ g <= RAW_SIZE ->
   tick_seconds (time_unit g) (last_tick g + 1) <= 253402300799 ->
   forall len, exists out,
       wid_gen_next g now rnd len
       = Some (mk_wid_gen (W g) (Z_ g) (time_unit g) (last_tick g + 1) 0 (max_seq g),
               out)).
Proof.
  intros Hr Hnow Hlt Hover.
  pose proof (wid_reachable_ok g Hr) as Hok.
  pose proof (wid_same_tick_step g now Hok Hnow Hlt) as Hstep.
  destruct (last_seq g + 1 <=? 10 ^ W g - 1) eqn:E; tests_to_props; [lia |].
  split; [exact Hstep |]. split.
  - intros len g' out Hnext.
    destruct (wid_gen_next_parts g g' now rnd len out Hnext)
      as (Hs & ts & sfx & Hf & Hout & _).
    rewrite Hstep in Hs. inversion Hs; subst g'.
    cbn [W time_unit last_tick last_seq] in Hf, Hout.
    split; [reflexivity |]. exists ts, sfx. split; assumption.
  - intros Hz Hsec len.
    assert (Hnow' : now < INT64_MAX) by lia.
    destruct (wid_gen_next_defined g now rnd len Hr Hz Hnow' Hlt) as (g' & Hs & Hout).
    rewrite Hstep in Hs. inversion Hs; subst g'.
    apply Hout. cbn [last_tick].
    destruct Hok as (_ & _ & _ & _ & Ht).
    apply (tick_in_range _ _ (last_tick g + 1)); [lia | exact Hsec].
Qed.

(** Twelve calls at one clock value [T], one digit of counter, no padding:
    the texts of the first and of the twelfth call, for every [T] whose
    tick and the next [wid_fmt_tick] prints. *)
Lemma wid_twelve_calls (T : Z) (env : nat -> reading) (ts1 ts12 : cstring) :
  (forall n, fst (env n) = T) -> T + 11 < INT64_MAX ->
  wid_fmt_tick WID_TIME_SEC (Z.max T 0) = Some ts1 ->
  wid_fmt_tick WID_TIME_SEC (Z.max T 0 + 1) = Some ts12 ->
  exists g12 outs,
    wid_gen_next_loop (wid_gen_init_ex 1 0 WID_TIME_SEC) 12 env 0 = Some (g12, outs) /\
    length outs = 12%nat /\
    nth 0 outs [] = ts1 ++ str ".0Z" /\
    nth 11 outs [] = ts12 ++ str ".1Z" /\
    forall b1 b12,
      gmtime_r (Z.max T 0) = Some b1 -> gmtime_r (Z.max T 0 + 1) = Some b12 ->
      ts1 = fmt_stamp WID_TIME_SEC (tm_stamp b1 0) /\
      ts12 = fmt_stamp WID_TIME_SEC (tm_stamp b12 0) /\
      stamp_lt (tm_stamp b1 0) (tm_stamp b12 0).
Proof.
  intros Henv HT Hf1 Hf12.
  assert (Hw : 1 <= 1 <= WID_MAX_W) by (unfold WID_MAX_W; lia).
  destruct (wid_burst_text 1 WID_TIME_SEC T env 11 Hw Henv) as (g12 & outs & Hl & Hlen & Hn).
  { unfold INT64_MAX in *. lia. }
  { change (Z.of_nat 11 / 10 ^ 1) with 1. intros m Hm.
    assert (Hm' : m = 0 \/ m = 1) by lia.
    destruct Hm' as [-> | ->]; [rewrite Z.add_0_r |]; eexists; eassumption. }
  destruct (Hn 0%nat) as (t1 & Hg1 & Ho1); [lia |].
  destruct (Hn 11%nat) as (t12 & Hg12 & Ho12); [lia |].
  change (Z.of_nat 0 / 10 ^ 1) with 0 in Hg1. rewrite Z.add_0_r in Hg1.
  change (Z.of_nat 11 / 10 ^ 1) with 1 in Hg12.
  change (snprintf 64 (printf_0d 1 (Z.of_nat 0 mod 10 ^ 1))) with (str "0") in Ho1.
  change (snprintf 64 (printf_0d 1 (Z.of_nat 11 mod 10 ^ 1))) with (str "1") in Ho12.
  rewrite Hf1 in Hg1. inversion Hg1; subst t1.
  rewrite Hf12 in Hg12. inversion Hg12; subst t12.
  exists g12, outs.
  split; [exact Hl |]. split; [exact Hlen |].
  split; [exact Ho1 |]. split; [exact Ho12 |].
  intros b1 b12 Hb1 Hb12.
  split; [exact (wid_fmt_tick_sec _ _ _ Hb1 Hf1) |].
  split; [exact (wid_fmt_tick_sec _ _ _ Hb12 Hf12) |].
  apply (gmtime_r_mono (Z.max T 0) (Z.max T 0 + 1)); try assumption; lia.
Qed.

(** For every clock value of the first 95 million years [wid_fmt_tick]
    prints both ticks: the twelfth time stamp spells a date and time after
    those of the first. *)
Lemma wid_twelve_calls_dates (T : Z) (env : nat -> reading) :
  (forall n, fst (env n) = T) -> T + 1 < 3000000000000000 ->
  exists g12 outs b1 b12,
    wid_gen_next_loop (wid_gen_init_ex 1 0 WID_TIME_SEC) 12 env 0 = Some (g12, outs) /\
    length outs = 12%nat /\
    gmtime_r (Z.max T 0) = Some b1 /\
    gmtime_r (Z.max T 0 + 1) = Some b12 /\
    nth 0 outs [] = fmt_stamp WID_TIME_SEC (tm_stamp b1 0) ++ str ".0Z" /\
    nth 11 outs [] = fmt_stamp WID_TIME_SEC (tm_stamp b12 0) ++ str ".1Z" /\
    stamp_lt (tm_stamp b1 0) (tm_stamp b12 0).
Proof.
  intros Henv HT.
  destruct (wid_fmt_tick_sec_wide (Z.max T 0)) as (b1 & Hb1 & Hf1); [lia |].
  destruct (wid_fmt_tick_sec_wide (Z.max T 0 + 1)) as (b12 & Hb12 & Hf12); [lia |].
  assert (Hmax : T + 11 < INT64_MAX) by (unfold INT64_MAX; lia).
  destruct (wid_twelve_calls T env _ _ Henv Hmax Hf1 Hf12)
    as (g12 & outs & Hl & Hlen & Ho1 & Ho12 & Hd).
  destruct (Hd b1 b12 Hb1 Hb12) as (_ & _ & Hlt).
  exists g12, outs, b1, b12. repeat (split; [assumption |]). exact Hlt.
Qed.

(** The same within the year 9999, where the time stamps have the 15
    characters of the format: they are ordered as text and as the dates
    [wid_parse_ex] reads back. *)
Lemma wid_twelve_calls_text (T : Z) (env : nat -> reading) :
  (forall n, fst (env n) = T) -> T <= 253402300798 ->
  exists g12 outs ts1 ts12 p1 p12,
    wid_gen_next_loop (wid_gen_init_ex 1 0 WID_TIME_SEC) 12 env 0 = Some (g12, outs) /\
    length outs = 12%nat /\
    wid_fmt_tick WID_TIME_SEC (Z.max T 0) = Some ts1 /\
    wid_fmt_tick WID_TIME_SEC (Z.max T 0 + 1) = Some ts12 /\
    nth 0 outs [] = ts1 ++ str ".0Z" /\
    nth 11 outs [] = ts12 ++ str ".1Z" /\
    strlen ts1 = 15 /\ strlen ts12 = 15 /\
    strcmp ts1 ts12 < 0 /\
    strcmp (nth 0 outs []) (nth 11 outs []) < 0 /\
    wid_parse_ex (nth 0 outs []) 1 0 WID_TIME_SEC = Some p1 /\
    wid_parse_ex (nth 11 outs []) 1 0 WID_TIME_SEC = Some p12 /\
    stamp_lt (stamp p1) (stamp p12).
Proof.
  intros Henv HT.
  assert (Hw : 1 <= 1 <= WID_MAX_W) by (unfold WID_MAX_W; lia).
  assert (Hp : params_ok 1 0) by (split; [exact Hw | unfold WID_MAX_Z; lia]).
  assert (Hfd1 : four_digit_year WID_TIME_SEC (Z.max T 0)).
  { apply four_digit_year_range. cbn [tick_seconds is_ms]. lia. }
  assert (Hfd12 : four_digit_year WID_TIME_SEC (Z.max T 0 + 1)).
  { apply four_digit_year_range. cbn [tick_seconds is_ms]. lia. }
  destruct (wid_fmt_tick_stamp _ _ Hfd1) as (b1 & Hg1 & _ & Hf1 & Hst1).
  destruct (wid_fmt_tick_stamp _ _ Hfd12) as (b12 & Hg12 & _ & Hf12 & Hst12).
  assert (Hmax : T + 11 < INT64_MAX) by (unfold INT64_MAX; lia).
  destruct (wid_twelve_calls T env _ _ Henv Hmax Hf1 Hf12)
    as (g12 & outs & Hl & Hlen & Ho1 & Ho12 & _).
  assert (Hlt : stamp_lt (tm_stamp b1 (tick_ms WID_TIME_SEC (Z.max T 0)))
                         (tm_stamp b12 (tick_ms WID_TIME_SEC (Z.max T 0 + 1)))).
  { apply (tick_stamp_lt WID_TIME_SEC (Z.max T 0) (Z.max T 0 + 1)); [lia | assumption ..]. }
  assert (Hd0 : digits 1 (str "0")) by (split; reflexivity).
  assert (Hd1 : digits 1 (str "1")) by (split; reflexivity).
  assert (Hs0 : suffix_text 0 []) by (left; reflexivity).
  pose proof (wid_parse_ex_of_text _ (str "0") [] _ 1 0 WID_TIME_SEC Hp Hst1 Hd0 Hs0)
    as Hp1.
  pose proof (wid_parse_ex_of_text _ (str "1") [] _ 1 0 WID_TIME_SEC Hp Hst12 Hd1 Hs0)
    as Hp12.
  exists g12, outs.
  eexists. eexists. eexists. eexists.
  split; [exact Hl |]. split; [exact Hlen |].
  split; [exact Hf1 |]. split; [exact Hf12 |].
  split; [exact Ho1 |]. split; [exact Ho12 |].
  split; [exact (stamp_text_length _ _ _ Hst1) |].
  split; [exact (stamp_text_length _ _ _ Hst12) |].
  split; [| split; [| split; [| split]]].
  - rewrite <- (app_nil_r (fmt_stamp _ (tm_stamp b1 _))),
            <- (app_nil_r (fmt_stamp _ (tm_stamp b12 _))).
    apply (stamp_text_strcmp WID_TIME_SEC _ _ _ _ _ _ Hst1 Hst12 Hlt).
  - rewrite Ho1, Ho12.
    apply (stamp_text_strcmp WID_TIME_SEC _ _ _ _ _ _ Hst1 Hst12 Hlt).
  - rewrite Ho1. exact Hp1.
  - rewrite Ho12. exact Hp12.
  - cbn [stamp]. exact Hlt.
Qed.

(** C6.  Borrowing a tick.
    - Every state of a generator has [max_seq = 10 ^ W - 1].  A call of
      [wid_gen_next] whose clock is not past [last_tick] either counts one
      up, or, when [last_seq + 1] would exceed [10 ^ W - 1], moves to
      [last_tick + 1] with the counter at 0: the state says so, the state
      returned with the text says so, the text carries the time stamp of
      [last_tick + 1] and a counter of zeros, and the call succeeds while
      that tick is within the year 9999 and the padding within the bytes
      [wid_random_hex] has.
    - For every [W] and both units, without padding: [k + 1] calls while
      the clock stays at [T], within the year 9999, emit, at call number
      [n] (from 0), the time stamp of tick [max T 0 + n / 10 ^ W] and the
      counter [n mod 10 ^ W].
    - For [W = 1], [Z = 0], seconds, called 12 times while the clock stays
      at [T], for every [T] of the first 95 million years
      ([T + 1 < 3 * 10^15] seconds): the 12 calls complete, the first text
      is the time stamp of [max T 0] followed by [.0Z], the twelfth the
      time stamp of [max T 0 + 1] followed by [.1Z], and the date and time
      the twelfth spells are after those of the first.
    - With [T + 1] within the year 9999 the two time stamps have the 15
      characters of the format, and the twelfth is after the first as
      text ([strcmp]) and as the date [wid_parse_ex] reads back.
    - For every [T] below [INT64_MAX], the tick of the twelfth state is
      greater than the tick of the first. *)
Theorem wid_gen_borrows_tick (g : wid_gen_t) (now T : Z) (rnd : Z -> Z)
        (env : nat -> reading) :
  (wid_reachable g -> now <= last_tick g -> last_tick g < INT64_MAX ->
   max_seq g = 10 ^ W g - 1 /\
   (last_seq g + 1 <= 10 ^ W g - 1 ->
    wid_gen_next_state g now
    = Some (mk_wid_gen (W g) (Z_ g) (time_unit g) (last_tick g) (last_seq g + 1)
                       (max_seq g))) /\
   (10 ^ W g - 1 < last_seq g + 1 ->
    wid_gen_next_state g now
    = Some (mk_wid_gen (W g) (Z_ g) (time_unit g) (last_tick g + 1) 0 (max_seq g)) /\
    (forall len g' out,
        wid_gen_next g now rnd len = Some (g', out) ->
        g' = mk_wid_gen (W g) (Z_ g) (time_unit g) (last_tick g + 1) 0 (max_seq g) /\
        exists ts sfx,
          wid_fmt_tick (time_unit g) (last_tick g + 1) = Some ts /\
          out = snprintf len (ts ++ str "." ++ snprintf 64 (printf_0d (W g) 0)
                                 ++ str "Z" ++ sfx)) /\
    (Z_ g <= RAW_SIZE ->
     tick_seconds (time_unit g) (last_tick g + 1) <= 253402300799 ->
     forall len, exists out,
         wid_gen_next g now rnd len
         = Some (mk_wid_gen (W g) (Z_ g) (time_unit g) (last_tick g + 1) 0 (max_seq g),
                 out)))) /\
  (forall (w : Z) (u : wid_time_unit_t) (k : nat),
      1 <= w <= WID_MAX_W -> (forall n, fst (env n) = T) ->
      Z.max T 0 + Z.of_nat k < INT64_MAX ->
      tick_seconds u (Z.max T 0 + Z.of_nat k / 10 ^ w) <= 253402300799 ->
      exists g' outs,
        wid_gen_next_loop (wid_gen_init_ex w 0 u) (S k) env 0 = Some (g', outs) /\
        length outs = S k /\
        forall n, (n <= k)%nat ->
          exists ts,
            wid_fmt_tick u (Z.max T 0 + Z.of_nat n / 10 ^ w) = Some ts /\
            nth n outs []
            = ts ++ str "." ++ snprintf 64 (printf_0d w (Z.of_nat n mod 10 ^ w))
                 ++ str "Z") /\
  ((forall n, fst (env n) = T) -> T + 1 < 3000000000000000 ->
   exists g12 outs b1 b12,
     wid_gen_next_loop (wid_gen_init_ex 1 0 WID_TIME_SEC) 12 env 0 = Some (g12, outs) /\
     length outs = 12%nat /\
     gmtime_r (Z.max T 0) = Some b1 /\
     gmtime_r (Z.max T 0 + 1) = Some b12 /\
     nth 0 outs [] = fmt_stamp WID_TIME_SEC (tm_stamp b1 0) ++ str ".0Z" /\
     nth 11 outs [] = fmt_stamp WID_TIME_SEC (tm_stamp b12 0) ++ str ".1Z" /\
     stamp_lt (tm_stamp b1 0) (tm_stamp b12 0)) /\
  ((forall n, fst (env n) = T) -> T <= 253402300798 ->
   exists g12 outs ts1 ts12 p1 p12,
     wid_gen_next_loop (wid_gen_init_ex 1 0 WID_TIME_SEC) 12 env 0 = Some (g12, outs) /\
     length outs = 12%nat /\
     wid_fmt_tick WID_TIME_SEC (Z.max T 0) = Some ts1 /\
     wid_fmt_tick WID_TIME_SEC (Z.max T 0 + 1) = Some ts12 /\
     nth 0 outs [] = ts1 ++ str ".0Z" /\
     nth 11 outs [] = ts12 ++ str ".1Z" /\
     strlen ts1 = 15 /\ strlen ts12 = 15 /\
     strcmp ts1 ts12 < 0 /\
     strcmp (nth 0 outs []) (nth 11 outs []) < 0 /\
     wid_parse_ex (nth 0 outs []) 1 0 WID_TIME_SEC = Some p1 /\
     wid_parse_ex (nth 11 outs []) 1 0 WID_TIME_SEC = Some p12 /\
     stamp_lt (stamp p1) (stamp p12)) /\
  (T < INT64_MAX ->
   exists gs,
     wid_gen_states (wid_gen_init_ex 1 0 WID_TIME_SEC) (repeat T 12) = Some gs /\
     length gs = 12%nat /\
     last_tick (nth 0 gs g) < last_tick (nth 11 gs g)).
Proof.
  split; [| split; [| split; [| split]]].
  - intros Hr Hnow Hlt. pose proof (wid_reachable_ok g Hr) as Hok.
    split; [apply Hok |]. split.
    + intros Hle. rewrite (wid_same_tick_step g now Hok Hnow Hlt).
      destruct (last_seq g + 1 <=? 10 ^ W g - 1) eqn:E; tests_to_props;
        [reflexivity | lia].
    + intros Hover. apply wid_borrow_emits; assumption.
  - intros w u k Hw Henv Hmax Hsec.
    apply (wid_burst_text w u T env k Hw Henv Hmax).
    apply wid_fmt_tick_prints; [lia | exact Hsec].
  - apply wid_twelve_calls_dates.
  - apply wid_twelve_calls_text.
  - intros HT. eexists. split; [apply (wid_burst_states T HT) |].
    split; [reflexivity |]. cbn [map nth fst snd last_tick]. lia.
Qed.

(** From the state with counter 9 at tick 1770887730 (ten calls after
    initialisation), twelve calls at that tick, and twelve calls in the last
    second of the year 9999, where the twelfth time stamp has a year of five
    digits. *)
Lemma wid_gen_borrows_tick_witness :
  wid_gen_next_state (mk_wid_gen 1 0 WID_TIME_SEC 1770887730 9 9) 1770887730
  = Some (mk_wid_gen 1 0 WID_TIME_SEC 1770887731 0 9) /\
  (exists out,
      wid_gen_next (mk_wid_gen 1 0 WID_TIME_SEC 1770887730 9 9) 1770887730
                   (fun _ => 0) WID_MAX_LEN
      = Some (mk_wid_gen 1 0 WID_TIME_SEC 1770887731 0 9, out)) /\
  (exists g12 outs ts1 ts12 p1 p12,
      wid_gen_next_loop (wid_gen_init_ex 1 0 WID_TIME_SEC) 12
                        (fun _ => (1770887730, fun _ => 0)) 0 = Some (g12, outs) /\
      length outs = 12%nat /\
      wid_fmt_tick WID_TIME_SEC (Z.max 1770887730 0) = Some ts1 /\
      wid_fmt_tick WID_TIME_SEC (Z.max 1770887730 0 + 1) = Some ts12 /\
      nth 0 outs [] = ts1 ++ str ".0Z" /\
      nth 11 outs [] = ts12 ++ str ".1Z" /\
      strlen ts1 = 15 /\ strlen ts12 = 15 /\
      strcmp ts1 ts12 < 0 /\
      strcmp (nth 0 outs []) (nth 11 outs []) < 0 /\
      wid_parse_ex (nth 0 outs []) 1 0 WID_TIME_SEC = Some p1 /\
      wid_parse_ex (nth 11 outs []) 1 0 WID_TIME_SEC = Some p12 /\
      stamp_lt (stamp p1) (stamp p12)) /\
  (exists g12 outs,
      wid_gen_next_loop (wid_gen_init_ex 1 0 WID_TIME_SEC) 12
                        (fun _ => (253402300799, fun _ => 0)) 0 = Some (g12, outs) /\
      length outs = 12%nat /\
      nth 0 outs [] = str "99991231T235959.0Z" /\
      nth 11 outs [] = str "100000101T000000.1Z" /\
      stamp_lt (mk_timestamp 9999 12 31 23 59 59 0) (mk_timestamp 10000 1 1 0 0 0 0)).
Proof.
  assert (Hr : wid_reachable (mk_wid_gen 1 0 WID_TIME_SEC 1770887730 9 9)).
  { apply (wid_reach_next (mk_wid_gen 1 0 WID_TIME_SEC 1770887730 8 9) 1770887730);
      [| vm_compute; reflexivity].
    apply (wid_reach_next (mk_wid_gen 1 0 WID_TIME_SEC 1770887730 7 9) 1770887730);
      [| vm_compute; reflexivity].
    apply (wid_reach_next (mk_wid_gen 1 0 WID_TIME_SEC 1770887730 6 9) 1770887730);
      [| vm_compute; reflexivity].
    apply (wid_reach_next (mk_wid_gen 1 0 WID_TIME_SEC 1770887730 5 9) 1770887730);
      [| vm_compute; reflexivity].
    apply (wid_reach_next (mk_wid_gen 1 0 WID_TIME_SEC 1770887730 4 9) 1770887730);
      [| vm_compute; reflexivity].
    apply (wid_reach_next (mk_wid_gen 1 0 WID_TIME_SEC 1770887730 3 9) 1770887730);
      [| vm_compute; reflexivity].
    apply (wid_reach_next (mk_wid_gen 1 0 WID_TIME_SEC 1770887730 2 9) 1770887730);
      [| vm_compute; reflexivity].
    apply (wid_reach_next (mk_wid_gen 1 0 WID_TIME_SEC 1770887730 1 9) 1770887730);
      [| vm_compute; reflexivity].
    apply (wid_reach_next (mk_wid_gen 1 0 WID_TIME_SEC 1770887730 0 9) 1770887730);
      [| vm_compute; reflexivity].
    apply (wid_reach_next (wid_gen_init_ex 1 0 WID_TIME_SEC) 1770887730);
      [| vm_compute; reflexivity].
    apply wid_reach_init. }
  pose proof (wid_gen_borrows_tick (mk_wid_gen 1 0 WID_TIME_SEC 1770887730 9 9)
                1770887730 1770887730 (fun _ => 0)
                (fun _ => (1770887730, fun _ => 0))) as (HA & _ & _ & HC & _).
  destruct (HA Hr) as (_ & _ & HB);
    [vm_compute; discriminate | vm_compute; reflexivity |].
  destruct HB as (H1 & _ & H3); [vm_compute; reflexivity |].
  pose proof (wid_gen_borrows_tick (mk_wid_gen 1 0 WID_TIME_SEC 1770887730 9 9)
                1770887730 253402300799 (fun _ => 0)
                (fun _ => (253402300799, fun _ => 0))) as (_ & _ & HG & _).
  split; [exact H1 |]. split; [| split].
  - apply (H3 ltac:(vm_compute; discriminate) ltac:(vm_compute; discriminate) WID_MAX_LEN).
  - apply HC; [intros n; reflexivity | vm_compute; discriminate].
  - destruct HG as (g12 & outs & b1 & b12 & Hl & Hlen & Hb1 & Hb12 & Ho1 & Ho12 & Hlt);
      [intros n; reflexivity | vm_compute; reflexivity |].
    vm_compute in Hb1. inversion Hb1 as [E1]. rewrite <- E1 in Ho1, Hlt.
    vm_compute in Hb12. inversion Hb12 as [E12]. rewrite <- E12 in Ho12, Hlt.
    exists g12, outs.
    split; [exact Hl |]. split; [exact Hlen |].
    split; [exact Ho1 |]. split; [exact Ho12 | exact Hlt].
Defined.

(** ** The generators the initialisers leave (C9) *)










